(* ===== verification/_CoqProject ===== *)
-Q . S2P
Prelude.v
RustStr.v
Types.v
Registry.v
MarketsV2.v
U256.v
MarketsV3.v
PoolBook.v
Config.v
Risk.v
Decision.v
Execution.v
Router.v
Submit.v
Storage.v
Schema.v
App.v
Observability.v
RawLog.v
RawTx.v
Stream.v
Flashblocks.v
Startup.v
Transports.v
Discovery.v
IngestApp.v
Main.v
Witnesses.v
AppWitnesses.v
IngestWitnesses.v
DiscoveryWitnesses.v
RouterWitnesses.v
MainWitnesses.v
Testing.v
TestsMarkets.v
TestsDecision.v
TestsExecution.v
TestsDiscovery.v
TestsIngest.v
