(* ===== verification/Prelude.v ===== *)
(** * Verification of the Base execution engine

    The engine watches the Base chain for constant-product and
    concentrated-liquidity pools, keeps a book of their state, looks for two-leg
    loops that return more of the settlement token than they take, filters them
    through a risk policy and, depending on its mode, prepares or sends the
    transaction of a router contract.  This library models the crates that hold
    that logic and proves the properties they rely on.

    ** The parts and their files

    - [Prelude] (this file): the type [res] of fallible computations
      ([Ok], [Err], [Panic]) with its monad, machine-width arithmetic
      ([checked_add], [saturating_add], [uint] ...), the stable sort and the
      consecutive [dedup_by] of Rust vectors, the state monad [eff] of effectful
      code with its weakest preconditions [wp] and the relation [evolves] of a run,
      the tactics [inv_res], [inv_checked], [case_if] and the hint database
      [engine].
    - [RustStr]: Rust strings as UTF-8 byte strings, [trim], [to_ascii_lowercase],
      [eq_ignore_ascii_case], [parse::<uN>] and the decimal printer.
    - [Types]: the records of [crates/types/src] (events, logs, opportunities,
      requests, attempts).
    - [Registry]: [crates/registry/src], the address, selector and event tables
      and their lookup.
    - [MarketsV2]: [V2PoolState] of [crates/markets/src/lib.rs]: validation,
      [quote_exact_in], [apply_log], snapshots.
    - [U256]: the interface of [alloy_primitives::U256] as a class with laws.
    - [MarketsV3]: [crates/markets/src/v3.rs]: validation, the in-range quote,
      [apply_log], [get_sqrt_ratio_at_tick].
    - [PoolBook]: [PoolBook] of [crates/markets/src/lib.rs]: the map of pools, the
      history of applied logs, [apply_log] with reorganisations.
    - [Config]: [crates/config/src/lib.rs]: environment readers, records,
      validation, [AppConfig::from_env].
    - [Risk]: [crates/decision/src/risk.rs]: [RiskEngine], its policy, gates and
      counters; [risk_run] is a sequence of its operations.
    - [Decision]: [crates/decision/src/lib.rs]: detection, ranking, simulation and
      the execution request.
    - [Execution]: [crates/execution/src/lib.rs]: preparation, mode gates, the
      router plan, the attempt life cycle (a step relation), the run against an
      [ExecutionTransport].
    - [Router]: [contracts/src/BaseExecutionRouter.sol], the contract that runs the plans:
      its entry points, modifiers, the route over the three venues and the flash loan.
    - [Submit]: [gas.rs], [nonce.rs], [signer.rs] and [submit.rs] of
      [crates/execution/src].
    - [Storage]: [crates/storage/src/lib.rs] and the tables of [migration/]: every
      statement of the crate, and statements that fail.
    - [Schema]: [Storage::connect] and the script of [migration/] as data definition
      statements over a catalog, with what each statement of the storage needs of it.
    - [App]: [crates/app/src/main.rs]: bootstrap, [handle_event], the decision
      pipeline, the drive of an attempt, the loop over events [engine_run].
    - [Observability]: [crates/observability/src]: the metrics and their descriptions,
      what each step of the engine emits, the health server, start and shutdown.
    - [RawLog], [RawTx]: [crates/ingest/src/raw]: the fields of a JSON object, the
      decoding of logs, blocks and transactions.
    - [Stream]: [crates/ingest/src/stream], [channel/mod.rs] and [error.rs]: the
      status of a stream, the payload loop, the reconnection loop, the three
      streams of the node.
    - [Flashblocks]: [crates/ingest/src/flashblocks.rs].
    - [Startup]: [crates/rpc/src/lib.rs], [pipeline.rs] and the channels of
      [crates/ingest/src], [build_execution_transport] of [main.rs].
    - [Transports]: the boxed transports the engine runs over, the placeholder of shadow
      mode and the one of [submit.rs], and the laws the engine needs of them.
    - [Discovery]: [crates/discovery/src] and [run_pool_discovery] of [main.rs]: the
      chunked scan of factory logs, the multicall hydration, the insertion.
    - [IngestApp]: the configuration, the streams and the engine together.
    - [Main]: [main] of [crates/app/src/main.rs]: the start, the [select!] loop over events,
      runtime events and ctrl-c, the shutdown.
    - [Witnesses], [AppWitnesses], [IngestWitnesses], [DiscoveryWitnesses],
      [RouterWitnesses], [MainWitnesses]: concrete inputs for the theorems that have
      hypotheses, with an instance of every interface.
    - [Testing], [TestsMarkets], [TestsDecision], [TestsExecution], [TestsDiscovery],
      [TestsIngest]: the unit tests of the repository as booleans over these definitions,
      with their fixtures; they evaluate to true, which ties the definitions to the
      behaviour the authors assert.

    A payload of a subscription travels through [Stream.log_payload] and
    [RawLog.to_log] to [App.handle_event], which records it with
    [Storage.persist_observed_log].  A log travels from [PoolBook.book_apply_log] to a pool of [MarketsV2] or
    [MarketsV3]; [Decision.detect_two_leg_loops_from_book] quotes the pools of the
    book, [simulate_two_leg_opportunity] charges the costs, [Risk.assess] accepts
    or denies, [build_execution_request] makes the request,
    [Execution.prepare_execution] gates it and [Submit.submit_inner] broadcasts it.
    [App.engine_run] is the composition over a sequence of events,
    [IngestApp.boxed_run] the task of each stream that produces them, [Main.main] the
    program around both, and [Router.executePlanWithFlashLoan] what the transaction runs
    on the chain.

    ** State and operations

    A [&mut self] method is a function that returns the new state beside its
    result, the state of an error included ([book_apply_log] shows why: the pool
    is already out of the map when the error is returned).  A [Mutex] or atomic is
    part of the state; operations run one at a time.  Machine integers are [Z]
    within the range [uint w]; operators that panic on overflow or a zero divisor
    return [Panic], checked operators an option.  A [HashMap] is a [gmap]; where
    its iteration order shows, the order is an argument and the theorem holds for
    every order.

    Code outside the repository is a parameter: the class [U256] and its laws
    (instance [u256_Z]), the class [Alloy] for addresses and the ABI encoder
    (instance [alloy_hex]), the classes [RpcNode] for the RPC node, the monotonic clock
    and the scheduler of spawned tasks, with [ClockLaws], and [TxSigner] for the signing key
    and the encoding of a transaction, [sha256_hex], [path_exists], the
    clock [now] and [socket_addr_from_str].  The main loop is proved against the interface
    [ObservedTransport] and [TransportLaws], what it sees of a transport and what a
    transport promises: it panics only in a state that [TransportFaults] calls a fault.
    [Transports] discharges it for the transports of the program, over any node, clock and
    signer, with the two faults they have.  The serialisation of rows is [SerdeJson].  On
    the ingest
    side [Json] is [serde_json], [AlloyEvents] and [AlloyCalls] are the ABI decoder,
    [StreamIo] is the world behind a stream (node, clock, receivers), [FlashCodec]
    and [FlashIo] are the payload codec and the websocket of flashblocks,
    [DiscoveryNode] and [DiscoveryAbi] the node and the codec of discovery; its service
    is proved against [FactoryReader] and [FactoryReaderLaws], which the alloy reader
    discharges.  For the contract [Chain] is the tokens, the venues, the hash and the ABI
    codec, [ChainLaws] what a transfer and a swap do to balances, and [lends] what the vault
    does between a loan and its callback.  A called contract does not change the storage of
    the router: [no_reentry] shows that it could not enter, and the owner's administration,
    which has no reentrancy guard, is taken not to happen inside a call; the storage each
    call finds is kept in [wd_seen].  Each has a class of laws, with the documented
    behaviour the theorems use, where they use any.  The metrics of an operation are a
    function of the same inputs beside it ([drive_metrics] beside
    [drive_execution_attempt]); log lines are left out, except where writing one can fail
    ([logged]).

    ** What the theorems show

    - Quotes: the V2 quote is the floor of the fee-adjusted constant-product
      formula and keeps the product ([v2_quote_sound]), never panics
      ([v2_quote_total]) and gives no profit on a round trip; the V3 quote never
      exceeds the exact curve ([v3_quote_sound]) and equals the swap computed
      over unbounded integers ([v3_quote_total]); the tick table stays in the
      price range, is reciprocal in the tick and its factors are successive squares.
    - The book: the invariant holds after every log ([book_apply_log_invariant]),
      logs removed in reverse order are undone exactly ([book_reorg_undo]), a log
      touches one pool only ([book_apply_log_frame]); [book_error_evicts],
      [book_duplicate_delivery] and [book_v3_removed_reapplied] record what
      happens to refused, repeated and removed logs.
    - Decision: detection is exact for one pair, sound and complete over the book
      and independent of the map's order; an accepted request covers repayment,
      surplus and costs end to end ([accepted_request_covers]).
    - Risk: accepted trades pass every gate, the trailing-day cap and (for blocks
      visited in order) the per-block cap hold over every run, the kill switch and
      the breaker halt the engine, a denial changes nothing but expired entries.
    - Configuration: reading never panics and a live or canary configuration has
      its signer, router and caps; the policy and the preparation derived from a
      validated configuration do not fail.
    - The engine: over any events, node and database, the main loop keeps the book valid
      and panics only on a receipt deadline beyond the clock or a fee of [2^127] wei
      ([engine_run_safe]); each call it makes is traced to the log, the scan, the decision
      and the two pools it comes from ([engine_submissions_sound]); it refines the risk
      engine, so that any day of a run is within the daily cap ([engine_daily_cap]), keeps
      the canary limit of each day with a database ([canary_daily_cap]) and sends nothing
      once halted ([engine_halted]).
    - Ingest: decoding never panics on a log and loses no field the book needs
      ([log_decode_complete], [ingested_log_errors]); a Sync or a V3 swap from the wire
      reaches its pool unchanged ([sync_log_updates_pool], [swap_log_updates_pool]); V3
      paths decode exactly ([decode_v3_path_exact]); whatever the streams deliver, the
      engine an accepted configuration boots is safe but for these faults ([boot_engine_safe]); [unidentified_sync_ends_engine] and
      [tx_decode_total] record what a log without an index and an odd input do.
    - Streams: status events follow the diagram and a stream ends only without its
      receiver or by the panic of [tx_decode_total] ([stream_status_diagram]), delivered
      events are typed, complete and labelled ([stream_events_ingested]), the delays are
      [min (initial * 2^k) max] ([stream_backoff_exact]), a silent node is reconnected
      to for ever ([silent_node_reconnects]); flashblocks do the same, deliver pending events
      only and fan out their logs in order ([flashblocks_run_sound], [dispatch_fans_out]).
    - Discovery: on a node that serves the logs, the book gains exactly the valid pools
      of the scanned range, whatever the chunk size ([discovery_exact]); on any node it
      stays valid ([discovery_keeps_book]).
    - The program: from its environment to its last transaction [main] keeps the book
      valid, sends only sound calls and panics only on the two faults of its transport, in
      shadow mode not at all ([main_sound]); its loop refines
      [engine_run] ([main_loop_refines]) and stops cleanly ([main_clean_stop]).
    - The contract: a flash loan that succeeds repays the vault and pays its caller
      exactly the rest ([flash_loan_settles]), so a plan of the engine earns its surplus
      and costs ([engine_plan_earns]); whatever contract a running plan calls, it cannot
      enter the router ([no_reentry]).
    - Storage and observability: connecting yields the schema every statement of the
      storage needs, whole or not at all, and can be repeated ([connect_migrates]); every
      emission is described
      ([emissions_conform]), the labels of a drive agree with the circuit breaker
      ([drive_metrics_breaker]), each opportunity is counted once on each side of the simulator
      ([opportunity_funnel]), and the reported profit of a settled attempt is the negated fee of its receipt
      ([pnl_is_the_fee]).
    - Startup: an accepted configuration yields a pipeline whose context meets the
      hypotheses of the stream theorems ([pipeline_ready]), and a transport bound to the
      configured chain ([transport_ready]).
    - Execution and submission: the mode gates, the life cycle of an attempt, the
      encoding of the router plan, the fee caps, at most one broadcast with its dry run
      before it and its nonce released when refused ([submit_broadcast]), and a bounded
      wait for the receipt with the answer that decided it ([await_receipt_bounded]).

    ** Bounds and fuel

    [show_uint] prints with fuel 78, the number of decimal digits of a 256-bit
    value.  The tick conversion loops over the twenty factors of its table, one
    per bit of a protocol tick (below 2^20).  The receipt poll has
    [timeout / interval + 2] turns; each sleep lasts at least the interval, so they reach
    past the deadline ([await_receipt_bounded]).  [trim_start_matches] has the length
    of the string as fuel: each match removes at least one byte.  The
    scan of a factory has a turn per chunk, and [scan_chunks_ends] shows that it ends
    within them.  A stream runs for ever: its loops take a number of turns, and a run that is out of
    turns is [Suspended], a prefix of the longer runs, so the theorems about the events,
    statuses and sleeps of every run cover every finite observation of the stream.

    ** Not modelled, and what comes next

    Sockets, the HTTP client, the connection pool, the Prometheus recorder, the ABI codec
    and JSON text are libraries, behind the interfaces above.  Log lines and trace spans
    have no effect on the state.  The tasks of the program meet only in channels: the
    interleaving of the streams is any sequence of the events they deliver.  Of the unit
    tests, those that decode ABI data, compressed bytes or JSON text are left out, and the
    one that derives an address from a private key.  The Solidity tests and the
    deployment scripts are not modelled. *)

From stdpp Require Export prelude gmap strings list fin_maps sorting.
From Stdlib Require Export ZArith Lia.

#[local] Open Scope Z_scope.

(** ** Fallible computations

    A Rust function that returns [Result<A, E>] is a [res E A].  [Panic] is
    the outcome of a division by zero, of an arithmetic overflow on the
    unchecked operators and of an out-of-range slice; the theorems show that
    well-formed states never reach it. *)
Inductive res (E A : Type) : Type :=
| Ok (a : A)
| Err (e : E)
| Panic.
Arguments Ok {E A} a.
Arguments Err {E A} e.
Arguments Panic {E A}.

#[global] Instance res_ret (E : Type) : MRet (res E) := λ A a, Ok a.
#[global] Instance res_bind (E : Type) : MBind (res E) := λ A B f m,
  match m with Ok a => f a | Err e => Err e | Panic => Panic end.
#[global] Instance res_fmap (E : Type) : FMap (res E) := λ A B f m,
  match m with Ok a => Ok (f a) | Err e => Err e | Panic => Panic end.
#[global] Instance res_eq_dec (E A : Type) `{EqDecision E, EqDecision A} :
  EqDecision (res E A).
Proof. solve_decision. Defined.

(** A computation that can only return or panic. *)
Abbreviation outcome := (res Empty_set).

(** [Option::ok_or], [Result::ok], [Result::map_err] and [?] on an option. *)
Definition ok_or {E A : Type} (o : option A) (e : E) : res E A :=
  match o with Some a => Ok a | None => Err e end.

Definition ok {E A : Type} (r : res E A) : outcome (option A) :=
  match r with Ok a => Ok (Some a) | Err _ => Ok None | Panic => Panic end.

Definition map_err {E F A : Type} (f : E → F) (r : res E A) : res F A :=
  match r with Ok a => Ok a | Err e => Err (f e) | Panic => Panic end.

(** [Option::transpose] after [Option::map] with a fallible function. *)
Definition opt_traverse {E A B : Type} (f : A → res E B) (o : option A) :
    res E (option B) :=
  match o with
  | Some a => b ← f a; mret (Some b)
  | None => mret None
  end.

(** [Iterator::collect] into a [Result<Vec<_>, _>]. *)
Fixpoint collect {E A B : Type} (f : A → res E B) (l : list A) : res E (list B) :=
  match l with
  | [] => mret []
  | a :: l => b ← f a; bs ← collect f l; mret (b :: bs)
  end.

Definition is_ok {E A : Type} (r : res E A) : bool :=
  match r with Ok _ => true | _ => false end.

Definition opt_is_some {A : Type} (o : option A) : bool :=
  match o with Some _ => true | None => false end.

Definition opt_or {A : Type} (o p : option A) : option A :=
  match o with Some _ => o | None => p end.

Lemma bind_ok {E A B : Type} (m : res E A) (f : A → res E B) (b : B) :
  m ≫= f = Ok b ↔ ∃ a, m = Ok a ∧ f a = Ok b.
Proof. destruct m; naive_solver. Qed.

Lemma bind_err {E A B : Type} (m : res E A) (f : A → res E B) (e : E) :
  m ≫= f = Err e ↔ m = Err e ∨ ∃ a, m = Ok a ∧ f a = Err e.
Proof. destruct m; naive_solver. Qed.

Lemma bind_no_panic {E A B : Type} (m : res E A) (f : A → res E B) :
  m ≠ Panic → (∀ a, m = Ok a → f a ≠ Panic) → m ≫= f ≠ Panic.
Proof. destruct m; naive_solver. Qed.

Lemma ok_or_ok {E A : Type} (o : option A) (e : E) (a : A) :
  ok_or o e = Ok a ↔ o = Some a.
Proof. destruct o; naive_solver. Qed.

Lemma ok_or_no_panic {E A : Type} (o : option A) (e : E) : ok_or o e ≠ Panic.
Proof. by destruct o. Qed.

Lemma collect_ok_length {E A B : Type} (f : A → res E B) l bs :
  collect f l = Ok bs → length bs = length l.
Proof.
  revert bs; induction l as [|a l IH]; intros bs; simpl; [by intros [= <-]|].
  rewrite bind_ok; intros (b & _ & H). apply bind_ok in H as (bs' & H & [= <-]).
  simpl. by rewrite (IH bs').
Qed.

Lemma collect_ok_Forall2 {E A B : Type} (f : A → res E B) l bs :
  collect f l = Ok bs → Forall2 (λ a b, f a = Ok b) l bs.
Proof.
  revert bs; induction l as [|a l IH]; intros bs; simpl; [intros [= <-]; constructor|].
  rewrite bind_ok; intros (b & Hb & H). apply bind_ok in H as (bs' & H & [= <-]).
  constructor; auto.
Qed.

(** Invert every bind, [ok_or] and [mret] of a computation known to succeed. *)
Ltac inv_res :=
  repeat match goal with
  | H : mbind _ _ = Ok _ |- _ =>
      let a := fresh "r" in let H1 := fresh "Hr" in
      apply bind_ok in H as (a & H1 & H)
  | H : ok_or _ _ = Ok _ |- _ => apply ok_or_ok in H
  | H : mret _ = Ok _ |- _ => injection H as H; subst
  | H : Ok _ = Ok _ |- _ => injection H as H; subst
  | H : Err _ = Ok _ |- _ => discriminate H
  | H : Panic = Ok _ |- _ => discriminate H
  end.

(** ** Effects

    A fallible computation over a mutable state.  The state an error leaves
    behind is kept: the source has no rollback. *)
Definition eff (S E A : Type) : Type := S → res E A * S.

#[global] Instance eff_ret (S E : Type) : MRet (eff S E) := λ A a s, (Ok a, s).
#[global] Instance eff_bind (S E : Type) : MBind (eff S E) := λ A B f m s,
  match m s with
  | (Ok a, s) => f a s
  | (Err e, s) => (Err e, s)
  | (Panic, s) => (Panic, s)
  end.

(** A computation that does not touch the state. *)
Definition lift {S E A : Type} (r : res E A) : eff S E A := λ s, (r, s).

(** What holds of the result and of the state after a computation. *)
Definition wp {S E A : Type} (m : eff S E A) (Q : res E A → S → Prop) (s : S) : Prop :=
  Q (m s).1 (m s).2.

Lemma wp_bind {S E A B : Type} (m : eff S E A) (f : A → eff S E B) Q s :
  wp m (λ r s, match r with
               | Ok a => wp (f a) Q s
               | Err e => Q (Err e) s
               | Panic => Q Panic s
               end) s →
  wp (m ≫= f) Q s.
Proof. unfold wp, mbind, eff_bind. by destruct (m s) as [[a|e|] s']. Qed.

Lemma eff_bind_inv {S E A B : Type} (m : eff S E A) (f : A → eff S E B) s r s' :
  (m ≫= f) s = (r, s') →
  ∃ r1 s1, m s = (r1, s1) ∧
    match r1 with
    | Ok a => f a s1 = (r, s')
    | Err e => r = Err e ∧ s' = s1
    | Panic => r = Panic ∧ s' = s1
    end.
Proof.
  unfold mbind, eff_bind. destruct (m s) as [[a|e|] s1]; intros H; eexists _, s1;
    (split; [reflexivity|]); naive_solver.
Qed.

Lemma wp_mono {S E A : Type} (m : eff S E A) (Q Q' : res E A → S → Prop) s :
  (∀ r s', Q r s' → Q' r s') → wp m Q s → wp m Q' s.
Proof. unfold wp. auto. Qed.

(** A relation between the states before and after a computation that does not
    panic. *)
Definition keeps {S E A : Type} (R : S → S → Prop) (m : eff S E A) : Prop :=
  ∀ s, wp m (λ r s', r ≠ Panic ∧ R s s') s.

Lemma keeps_bind {S E A B : Type} (R : S → S → Prop) `{!Transitive R}
    (m : eff S E A) (f : A → eff S E B) :
  keeps R m → (∀ a, keeps R (f a)) → keeps R (m ≫= f).
Proof.
  intros Hm Hf s. apply wp_bind. generalize (Hm s). apply wp_mono.
  intros [a|e|] s' [Hp Hs']; [|done..]. generalize (Hf a s'). apply wp_mono.
  intros r s'' [? ?]. split; [done|]. by transitivity s'.
Qed.

(** The same relation without the claim that the computation does not panic. *)
Definition evolves {S E A : Type} (R : S → S → Prop) (m : eff S E A) : Prop :=
  ∀ s, R s (m s).2.

Lemma keeps_evolves {S E A : Type} (R : S → S → Prop) (m : eff S E A) :
  keeps R m → evolves R m.
Proof. intros Hm s. apply Hm. Qed.

Lemma evolves_bind {S E A B : Type} (R : S → S → Prop) `{!Transitive R}
    (m : eff S E A) (f : A → eff S E B) :
  evolves R m → (∀ a, evolves R (f a)) → evolves R (m ≫= f).
Proof.
  intros Hm Hf s. specialize (Hm s). unfold mbind, eff_bind.
  destruct (m s) as [[a|e|] s']; [|done..]. transitivity s'; [done|apply Hf].
Qed.

Lemma evolves_lift {S E A : Type} (R : S → S → Prop) `{!Reflexive R} (r : res E A) :
  evolves R (lift r).
Proof. intros s. by cbn. Qed.

Lemma keeps_lift {S E A : Type} (R : S → S → Prop) `{!Reflexive R} (r : res E A) :
  r ≠ Panic → keeps R (lift r).
Proof. intros Hr s. by split. Qed.

(** Case on the test of a conditional computation in a hypothesis. *)
Tactic Notation "case_if" hyp(H) "as" ident(Hc) :=
  match type of H with
  | (if ?b then _ else _) = _ => destruct b eqn:Hc
  end; try discriminate H.

(** ** Machine integers

    A [w]-bit unsigned integer is a [Z] in [[0, 2^w)]. *)
Definition uint (w z : Z) : Prop := 0 ≤ z < 2 ^ w.

Definition uint_max (w : Z) : Z := 2 ^ w - 1.

Definition checked_add (w a b : Z) : option Z :=
  if a + b <? 2 ^ w then Some (a + b) else None.
Definition checked_sub (a b : Z) : option Z :=
  if b <=? a then Some (a - b) else None.
Definition checked_mul (w a b : Z) : option Z :=
  if a * b <? 2 ^ w then Some (a * b) else None.
Definition saturating_add (w a b : Z) : Z := Z.min (a + b) (uint_max w).
Definition saturating_sub (a b : Z) : Z := Z.max (a - b) 0.
Definition saturating_mul (w a b : Z) : Z := Z.min (a * b) (uint_max w).

(** The unchecked operators [/] and [-]: a zero divisor and an underflow are
    faults. *)
Definition div_or_panic {E : Type} (a b : Z) : res E Z :=
  if b =? 0 then Panic else Ok (a / b).
Definition sub_or_panic {E : Type} (a b : Z) : res E Z :=
  if a <? b then Panic else Ok (a - b).

(** [a + b], with the overflow check of the unchecked operators. *)
Definition add_or_panic {E : Type} (w a b : Z) : res E Z :=
  if a + b <? 2 ^ w then Ok (a + b) else Panic.

Lemma checked_add_some w a b c :
  checked_add w a b = Some c ↔ c = a + b ∧ a + b < 2 ^ w.
Proof. unfold checked_add. case_match; naive_solver lia. Qed.

Lemma checked_sub_some a b c : checked_sub a b = Some c ↔ c = a - b ∧ b ≤ a.
Proof. unfold checked_sub. case_match; naive_solver lia. Qed.

Lemma checked_mul_some w a b c :
  checked_mul w a b = Some c ↔ c = a * b ∧ a * b < 2 ^ w.
Proof. unfold checked_mul. case_match; naive_solver lia. Qed.

Lemma div_or_panic_ok {E : Type} a b c :
  div_or_panic (E:=E) a b = Ok c ↔ b ≠ 0 ∧ c = a / b.
Proof. unfold div_or_panic. case_match; naive_solver lia. Qed.

Lemma div_or_panic_nonzero {E : Type} a b :
  b ≠ 0 → div_or_panic (E:=E) a b = Ok (a / b).
Proof. intros. by apply div_or_panic_ok. Qed.

Lemma sub_or_panic_ok {E : Type} a b c :
  sub_or_panic (E:=E) a b = Ok c ↔ b ≤ a ∧ c = a - b.
Proof. unfold sub_or_panic. case_match; naive_solver lia. Qed.

Lemma sub_or_panic_le {E : Type} a b :
  b ≤ a → sub_or_panic (E:=E) a b = Ok (a - b).
Proof. intros. by apply sub_or_panic_ok. Qed.

Lemma div_pos_lt a b c : 0 < b → a < b * c → a / b < c.
Proof. intros. apply Z.div_lt_upper_bound; lia. Qed.

(** Turn the successful checked operations of the context into equations. *)
Ltac inv_checked :=
  repeat match goal with
  | H : checked_add _ _ _ = Some _ |- _ => apply checked_add_some in H as [-> H]
  | H : checked_sub _ _ = Some _ |- _ => apply checked_sub_some in H as [-> H]
  | H : checked_mul _ _ _ = Some _ |- _ => apply checked_mul_some in H as [-> H]
  | H : div_or_panic _ _ = Ok _ |- _ => apply div_or_panic_ok in H as [H ->]
  | H : sub_or_panic _ _ = Ok _ |- _ => apply sub_or_panic_ok in H as [H ->]
  end.

Create HintDb engine.
#[export] Hint Resolve ok_or_no_panic : engine.

(** ** A stable sort

    [slice::sort_by] is stable; insertion from the right is a stable sort for
    any comparison given as a boolean total preorder. *)
Section stable_sort.
Context {A : Type} (le : A → A → bool).

Fixpoint sort_insert (x : A) (l : list A) : list A :=
  match l with
  | [] => [x]
  | y :: l' => if le x y then x :: l else y :: sort_insert x l'
  end.

Definition stable_sort (l : list A) : list A := foldr sort_insert [] l.

Lemma sort_insert_perm x l : sort_insert x l ≡ₚ x :: l.
Proof.
  induction l as [|y l IH]; simpl; [done|]. destruct (le x y); [done|].
  rewrite IH. by rewrite Permutation_swap.
Qed.

Lemma stable_sort_perm l : stable_sort l ≡ₚ l.
Proof. induction l as [|x l IH]; simpl; [done|]. by rewrite sort_insert_perm, IH. Qed.

Hypothesis le_total : ∀ x y, le x y = false → le y x = true.
Hypothesis le_trans : ∀ x y z, le x y = true → le y z = true → le x z = true.

Lemma sort_insert_sorted x l :
  StronglySorted (λ a b, le a b = true) l →
  StronglySorted (λ a b, le a b = true) (sort_insert x l).
Proof.
  induction 1 as [|y l Hl IH Hy]; simpl; [by repeat constructor|].
  destruct (le x y) eqn:Hxy.
  - repeat constructor; auto. eapply Forall_impl; [exact Hy|]. eauto.
  - constructor; [done|]. rewrite sort_insert_perm. constructor; auto.
Qed.

Lemma stable_sort_sorted l : StronglySorted (λ a b, le a b = true) (stable_sort l).
Proof. induction l; simpl; [constructor|]. by apply sort_insert_sorted. Qed.

End stable_sort.

(** [Vec::dedup_by]: an element is dropped when it is the same as the last one
    kept. *)
Fixpoint dedup_run {A : Type} (same : A → A → bool) (prev : A) (l : list A) : list A :=
  match l with
  | [] => []
  | a :: l => if same a prev then dedup_run same prev l else a :: dedup_run same a l
  end.

Definition dedup_by {A : Type} (same : A → A → bool) (l : list A) : list A :=
  match l with [] => [] | x :: l => x :: dedup_run same x l end.

Lemma dedup_run_sublist {A : Type} (same : A → A → bool) prev l :
  sublist (dedup_run same prev l) l.
Proof.
  revert prev; induction l as [|a l IH]; intros prev; simpl; [constructor|].
  destruct (same a prev); constructor; auto.
Qed.

Lemma dedup_by_sublist {A : Type} (same : A → A → bool) l : sublist (dedup_by same l) l.
Proof. destruct l; simpl; [constructor|]. constructor. apply dedup_run_sublist. Qed.

(** No element is lost up to [same]. *)
Lemma dedup_run_covers {A : Type} (same : A → A → bool) prev l x :
  x ∈ l → same x prev = true ∨ ∃ y, y ∈ dedup_run same prev l ∧ (y = x ∨ same x y = true).
Proof.
  revert prev; induction l as [|a l IH]; intros prev; [by inversion 1|].
  simpl. rewrite elem_of_cons. intros [->|Hx]; destruct (same a prev) eqn:Ha.
  - by left.
  - right; exists a; split; [constructor|by left].
  - by apply IH.
  - right. destruct (IH a Hx) as [Hs|(y & Hy & Hs)].
    + exists a. split; [constructor|by right].
    + exists y. split; [by constructor|done].
Qed.

Lemma dedup_by_covers {A : Type} (same : A → A → bool) l x :
  x ∈ l → ∃ y, y ∈ dedup_by same l ∧ (y = x ∨ same x y = true).
Proof.
  destruct l as [|a l]; [by inversion 1|]. simpl.
  rewrite elem_of_cons. intros [->|Hx]; [exists a; split; [constructor|by left]|].
  destruct (dedup_run_covers same a l x Hx) as [Hs|(y & Hy & Hs)].
  - exists a. split; [constructor|by right].
  - exists y. split; [by constructor|done].
Qed.

(** In a sorted list the element kept stands before the one it covers. *)
Lemma dedup_run_covers_sorted {A : Type} (same : A → A → bool) (R : A → A → Prop) prev l x :
  StronglySorted R (prev :: l) → x ∈ l →
  (same x prev = true ∧ R prev x) ∨
  ∃ y, y ∈ dedup_run same prev l ∧ (y = x ∨ same x y = true ∧ R y x).
Proof.
  revert prev; induction l as [|a l IH]; intros prev Hs; [by inversion 1|].
  apply StronglySorted_inv in Hs as [Hs Hprev]. rewrite Forall_forall in Hprev.
  simpl. rewrite elem_of_cons. intros [->|Hx]; destruct (same a prev) eqn:Ha.
  - left. split; [done|]. apply Hprev. left.
  - right; exists a; split; [constructor|by left].
  - apply IH; [|done]. apply StronglySorted_inv in Hs as [Hs _]. constructor; [done|].
    apply Forall_forall. intros z Hz. apply Hprev. by right.
  - right. destruct (IH a Hs Hx) as [[He HR]|(y & Hy & He)].
    + exists a. split; [constructor|by right].
    + exists y. split; [by constructor|done].
Qed.

Lemma dedup_by_covers_sorted {A : Type} (same : A → A → bool) (R : A → A → Prop) l x :
  StronglySorted R l → x ∈ l →
  ∃ y, y ∈ dedup_by same l ∧ (y = x ∨ same x y = true ∧ R y x).
Proof.
  destruct l as [|a l]; [by inversion 2|]. intros Hs. simpl.
  rewrite elem_of_cons. intros [->|Hx]; [exists a; split; [constructor|by left]|].
  destruct (dedup_run_covers_sorted same R a l x Hs Hx) as [[He HR]|(y & Hy & He)].
  - exists a. split; [constructor|by right].
  - exists y. split; [by constructor|done].
Qed.

Lemma StronglySorted_sublist {A : Type} (R : A → A → Prop) k l :
  sublist k l → StronglySorted R l → StronglySorted R k.
Proof.
  induction 1 as [|x k l Hkl IH|x k l Hkl IH]; intros Hl; [constructor|..];
    apply StronglySorted_inv in Hl as [Hl Hx]; [|auto].
  constructor; [auto|]. rewrite Forall_forall in Hx |- *. intros y Hy.
  apply Hx. by eapply elem_of_sublist.
Qed.

(** [dedup_by] commutes with a projection that decides [same]. *)
Lemma dedup_by_fmap {A B : Type} (f : A → B) (same : A → A → bool) (same' : B → B → bool) l :
  (∀ a b, same a b = same' (f a) (f b)) → f <$> dedup_by same l = dedup_by same' (f <$> l).
Proof.
  intros Hsame. destruct l as [|x l]; [done|]. simpl. f_equal.
  revert x. induction l as [|a l IH]; intros x; simpl; [done|].
  rewrite Hsame. destruct (same' _ _); simpl; rewrite IH; done.
Qed.
