(* ===== verification/RustStr.v ===== *)
(** Rust strings as UTF-8 byte strings: the operations of [str] the engine
    uses, the integer parser of the standard library and the decimal printer,
    with the round trip between the last two. *)

From S2P Require Import Prelude.
#[local] Open Scope Z_scope.

Definition byte_of (c : Ascii.ascii) : Z := Z.of_N (Ascii.N_of_ascii c).
Definition char_of (z : Z) : Ascii.ascii := Ascii.ascii_of_N (Z.to_N z).

(** ** ASCII case *)

Definition ascii_lower (c : Ascii.ascii) : Ascii.ascii :=
  let z := byte_of c in
  if (65 <=? z) && (z <=? 90) then char_of (z + 32) else c.

Fixpoint to_ascii_lowercase (s : string) : string :=
  match s with
  | EmptyString => EmptyString
  | String c s => String (ascii_lower c) (to_ascii_lowercase s)
  end.

Fixpoint eq_ignore_ascii_case (a b : string) : bool :=
  match a, b with
  | EmptyString, EmptyString => true
  | String c a, String d b =>
      bool_decide (ascii_lower c = ascii_lower d) && eq_ignore_ascii_case a b
  | _, _ => false
  end.

Definition is_ascii_hexdigit (c : Ascii.ascii) : bool :=
  let z := byte_of c in
  ((48 <=? z) && (z <=? 57)) || ((97 <=? z) && (z <=? 102)) || ((65 <=? z) && (z <=? 70)).

Fixpoint str_all (p : Ascii.ascii → bool) (s : string) : bool :=
  match s with EmptyString => true | String c s => p c && str_all p s end.

Definition str_is_empty (s : string) : bool :=
  match s with EmptyString => true | _ => false end.

Definition str_len (s : string) : Z := Z.of_nat (String.length s).

(** ** Prefixes and whitespace *)

Fixpoint strip_prefix (p s : string) : option string :=
  match p, s with
  | EmptyString, _ => Some s
  | String c p, String d s => if bool_decide (c = d) then strip_prefix p s else None
  | String _ _, EmptyString => None
  end.

#[global] Arguments strip_prefix : simpl never.

Definition strip_0x_or_self (s : string) : string := default s (strip_prefix "0x" s).

(** [str::trim_start_matches] with a non-empty pattern, on a byte count of fuel. *)
Fixpoint trim_start_matches_fuel (fuel : nat) (p s : string) : string :=
  match fuel with
  | O => s
  | S fuel => match strip_prefix p s with
              | Some r => trim_start_matches_fuel fuel p r
              | None => s
              end
  end.
Definition trim_start_matches (p s : string) : string :=
  trim_start_matches_fuel (String.length s) p s.

(** The code points with the Unicode property [White_Space], as the UTF-8
    bytes of their encoding: U+0009..U+000D, U+0020, U+0085, U+00A0, U+1680,
    U+2000..U+200A, U+2028, U+2029, U+202F, U+205F and U+3000. *)
Definition ws1 (a : Z) : bool := ((9 <=? a) && (a <=? 13)) || (a =? 32).
Definition ws2 (a b : Z) : bool := (a =? 0xC2) && ((b =? 0x85) || (b =? 0xA0)).
Definition ws3 (a b c : Z) : bool :=
  ((a =? 0xE1) && (b =? 0x9A) && (c =? 0x80)) ||
  ((a =? 0xE2) && (b =? 0x80) &&
     (((0x80 <=? c) && (c <=? 0x8A)) || (c =? 0xA8) || (c =? 0xA9) || (c =? 0xAF))) ||
  ((a =? 0xE2) && (b =? 0x81) && (c =? 0x9F)) ||
  ((a =? 0xE3) && (b =? 0x80) && (c =? 0x80)).

(** Drop the leading white space of a byte string. [ends] says that the bytes
    are given in reverse, for the trailing white space. *)
Fixpoint drop_ws (ends : bool) (l : list Z) : list Z :=
  match l with
  | a :: ((b :: ((c :: l3) as l2)) as l1) =>
      if ws1 a then drop_ws ends l1
      else if (if ends then ws2 b a else ws2 a b) then drop_ws ends l2
      else if (if ends then ws3 c b a else ws3 a b c) then drop_ws ends l3
      else l
  | a :: ((b :: l2) as l1) =>
      if ws1 a then drop_ws ends l1
      else if (if ends then ws2 b a else ws2 a b) then drop_ws ends l2
      else l
  | [a] => if ws1 a then [] else l
  | [] => []
  end.

Definition bytes_of (s : string) : list Z := byte_of <$> String.list_ascii_of_string s.
Definition str_of (l : list Z) : string := String.string_of_list_ascii (char_of <$> l).

Definition trim (s : string) : string :=
  str_of (reverse (drop_ws true (reverse (drop_ws false (bytes_of s))))).

(** ** Integers in text *)

Inductive ParseIntError := PEmpty | PInvalidDigit | PPosOverflow.
#[global] Instance ParseIntError_eq_dec : EqDecision ParseIntError.
Proof. solve_decision. Defined.

(** A byte that continues a character: an offset before it is not a character
    boundary.  [&s[..n]] panics past the end and inside a character. *)
Definition is_continuation (b : Z) : bool := (128 <=? b) && (b <? 192).

Definition str_slice_to {E : Type} (n : nat) (s : string) : res E string :=
  let bytes := bytes_of s in
  if Z.of_nat (length bytes) <? Z.of_nat n then Panic else
  match bytes !! n with
  | Some b => if is_continuation b then Panic else Ok (str_of (take n bytes))
  | None => Ok s
  end.

(** [char::to_digit]. *)
Definition to_digit (radix : Z) (c : Ascii.ascii) : option Z :=
  let z := byte_of c in
  let d := if (48 <=? z) && (z <=? 57) then z - 48
           else if (97 <=? z) && (z <=? 122) then z - 87
           else if (65 <=? z) && (z <=? 90) then z - 55
           else radix in
  if d <? radix then Some d else None.

Fixpoint parse_digits (w radix acc : Z) (s : string) : res ParseIntError Z :=
  match s with
  | EmptyString => Ok acc
  | String c s =>
      match to_digit radix c with
      | None => Err PInvalidDigit
      | Some d => if acc * radix + d <? 2 ^ w
                  then parse_digits w radix (acc * radix + d) s
                  else Err PPosOverflow
      end
  end.

(** [uW::from_str_radix]: one leading [+] is accepted. *)
Definition from_str_radix (w radix : Z) (s : string) : res ParseIntError Z :=
  match s with
  | EmptyString => Err PEmpty
  | String c r =>
      if byte_of c =? 43
      then match r with
           | EmptyString => Err PInvalidDigit
           | _ => parse_digits w radix 0 r
           end
      else parse_digits w radix 0 s
  end.

(** [str::parse::<uW>]. *)
Definition parse_uint (w : Z) (s : string) : res ParseIntError Z := from_str_radix w 10 s.

(** [ToString] on an unsigned integer, with a digit budget: 39 digits are
    enough for a [u128] and 78 for a 256-bit integer. *)
Fixpoint dec_digits (fuel : nat) (n : Z) (acc : string) : string :=
  match fuel with
  | O => acc
  | S fuel =>
      let acc := String (char_of (48 + n mod 10)) acc in
      if n <? 10 then acc else dec_digits fuel (n / 10) acc
  end.
Definition show_uint (n : Z) : string := dec_digits 78 n "".

(** ** Facts *)

Lemma char_of_byte_of c : char_of (byte_of c) = c.
Proof. unfold char_of, byte_of. by rewrite N2Z.id, Ascii.ascii_N_embedding. Qed.

Lemma byte_of_char_of z : 0 ≤ z < 256 → byte_of (char_of z) = z.
Proof.
  intros. unfold char_of, byte_of. rewrite Ascii.N_ascii_embedding; lia.
Qed.

Lemma byte_of_bound c : 0 ≤ byte_of c < 256.
Proof. unfold byte_of. pose proof (Ascii.N_ascii_bounded c). lia. Qed.

Lemma ascii_lower_idemp c : ascii_lower (ascii_lower c) = ascii_lower c.
Proof. by destruct c as [[] [] [] [] [] [] [] []]. Qed.

Lemma to_ascii_lowercase_idemp s :
  to_ascii_lowercase (to_ascii_lowercase s) = to_ascii_lowercase s.
Proof. induction s; simpl; [done|]. by rewrite ascii_lower_idemp, IHs. Qed.

(** Case-insensitive comparison is equality of the lower-cased strings. *)
Lemma eq_ignore_ascii_case_spec a b :
  eq_ignore_ascii_case a b = true ↔ to_ascii_lowercase a = to_ascii_lowercase b.
Proof.
  revert b; induction a as [|c a IH]; intros [|d b]; simpl; try done.
  rewrite andb_true_iff, bool_decide_eq_true, IH.
  split; [intros [-> ->]; done|intros H; split; congruence].
Qed.

Lemma eq_ignore_ascii_case_refl a : eq_ignore_ascii_case a a = true.
Proof. by apply eq_ignore_ascii_case_spec. Qed.

Lemma eq_ignore_ascii_case_sym a b :
  eq_ignore_ascii_case a b = eq_ignore_ascii_case b a.
Proof.
  apply eq_true_iff_eq. rewrite !eq_ignore_ascii_case_spec. by split.
Qed.

Lemma eq_ignore_ascii_case_trans a b c :
  eq_ignore_ascii_case a b = true → eq_ignore_ascii_case b c = true →
  eq_ignore_ascii_case a c = true.
Proof. rewrite !eq_ignore_ascii_case_spec. congruence. Qed.

Lemma to_digit_char d : 0 ≤ d < 10 → to_digit 10 (char_of (48 + d)) = Some d.
Proof.
  intros. unfold to_digit. rewrite byte_of_char_of by lia.
  replace ((48 <=? 48 + d) && (48 + d <=? 57)) with true by lia.
  replace (48 + d - 48) with d by lia. by replace (d <? 10) with true by lia.
Qed.

Lemma dec_digits_acc fuel n acc :
  dec_digits fuel n acc = dec_digits fuel n "" +:+ acc.
Proof.
  revert n acc; induction fuel as [|fuel IH]; intros n acc; simpl; [done|].
  destruct (n <? 10); [done|].
  rewrite (IH (n / 10) (String _ acc)), (IH (n / 10) (String _ "")).
  generalize (dec_digits fuel (n / 10) ""). intros s.
  unfold String.app. induction s as [|c s IHs]; simpl; [done|]. by rewrite IHs.
Qed.

Lemma parse_digits_app w radix acc a b :
  parse_digits w radix acc (a +:+ b) =
  v ← parse_digits w radix acc a; parse_digits w radix v b.
Proof.
  revert acc; induction a as [|c a IH]; intros acc; simpl; [done|].
  unfold String.app in *. simpl.
  destruct (to_digit radix c); [|done]. case_match; [|done]. apply IH.
Qed.

Lemma parse_dec_digits w fuel n :
  0 ≤ n < 2 ^ w → n < 10 ^ Z.of_nat fuel → (0 < fuel)%nat →
  parse_digits w 10 0 (dec_digits fuel n "") = Ok n.
Proof.
  revert n; induction fuel as [|fuel IH]; intros n Hn Hf Hpos; [lia|].
  cbn [dec_digits]. pose proof (Z.mod_pos_bound n 10 ltac:(lia)).
  destruct (n <? 10) eqn:Hlt.
  - cbn [parse_digits]. rewrite to_digit_char by lia.
    rewrite Z.mod_small by lia. by replace (0 * 10 + n <? 2 ^ w) with true by lia.
  - rewrite dec_digits_acc, parse_digits_app.
    assert (n / 10 < n) by (apply Z.div_lt; lia).
    rewrite IH.
    + cbn [parse_digits mbind res_bind]. rewrite to_digit_char by lia.
      replace (n / 10 * 10 + n mod 10) with n by (pose proof (Z.div_mod n 10); lia).
      by replace (n <? 2 ^ w) with true by lia.
    + split; [apply Z.div_pos|]; lia.
    + apply Z.div_lt_upper_bound; [lia|].
      rewrite Nat2Z.inj_succ, Z.pow_succ_r in Hf by lia. lia.
    + destruct fuel; [|lia]. simpl in Hf. lia.
Qed.

Lemma dec_digits_head fuel n :
  0 ≤ n → (0 < fuel)%nat →
  ∃ d s, dec_digits fuel n "" = String (char_of (48 + d)) s ∧ 0 ≤ d < 10.
Proof.
  revert n; induction fuel as [|fuel IH]; intros n Hn Hpos; [lia|].
  cbn [dec_digits]. pose proof (Z.mod_pos_bound n 10 ltac:(lia)).
  destruct (n <? 10); [eauto|]. rewrite dec_digits_acc.
  destruct fuel as [|fuel]; [by eexists _, _|].
  destruct (IH (n / 10)) as (d & s & -> & Hd); [apply Z.div_pos; lia|lia|].
  eexists d, _; split; [reflexivity|done].
Qed.

(** Printing then parsing an integer of at most 256 bits gives it back. *)
Lemma parse_show_uint w n : 0 ≤ w ≤ 256 → uint w n → parse_uint w (show_uint n) = Ok n.
Proof.
  intros Hw Hn. unfold parse_uint, from_str_radix, show_uint.
  assert (2 ^ w ≤ 2 ^ 256) by (apply Z.pow_le_mono_r; lia).
  destruct (dec_digits_head 78 n) as (d & s & Hs & Hd); [apply Hn|lia|].
  assert (n < 10 ^ Z.of_nat 78) by (unfold uint in Hn; lia).
  pose proof (parse_dec_digits w 78 n Hn ltac:(done) ltac:(lia)) as Hp.
  rewrite Hs in Hp |- *. rewrite byte_of_char_of by lia.
  by replace (48 + d =? 43) with false by lia.
Qed.

Lemma to_digit_range radix c d : 0 ≤ radix → to_digit radix c = Some d → 0 ≤ d < radix.
Proof.
  intros Hr. unfold to_digit. pose proof (byte_of_bound c). cbv zeta.
  destruct ((48 <=? byte_of c) && (byte_of c <=? 57)) eqn:?;
    [|destruct ((97 <=? byte_of c) && (byte_of c <=? 122)) eqn:?;
      [|destruct ((65 <=? byte_of c) && (byte_of c <=? 90)) eqn:?]];
    destruct (_ <? radix) eqn:?; intros; simplify_eq; lia.
Qed.

Lemma parse_digits_uint w radix acc s n :
  0 ≤ radix → uint w acc → parse_digits w radix acc s = Ok n → uint w n.
Proof.
  intros Hr. revert acc; induction s as [|c s IH]; simpl; intros acc Hacc.
  { by intros [= <-]. }
  destruct (to_digit radix c) as [d|] eqn:Hd; [|done].
  apply to_digit_range in Hd; [|done].
  destruct (_ <? _) eqn:Hlt; [|done]. apply IH. unfold uint in *. nia.
Qed.

(** A parsed integer is in range. *)
Lemma from_str_radix_range w radix s n :
  0 ≤ w → 0 ≤ radix → from_str_radix w radix s = Ok n → uint w n.
Proof.
  intros Hw Hr. assert (uint w 0) as H0 by (unfold uint; split; [lia|by apply Z.pow_pos_nonneg]).
  unfold from_str_radix. destruct s as [|c s]; [done|].
  case_match; [destruct s; [done|]|]; intros; by eapply (parse_digits_uint w radix 0).
Qed.

Lemma parse_uint_range w s n : 0 ≤ w → parse_uint w s = Ok n → uint w n.
Proof. intros Hw. by apply from_str_radix_range. Qed.

Lemma parse_digits_no_panic w radix acc s : parse_digits w radix acc s ≠ Panic.
Proof. revert acc; induction s; simpl; intros; repeat case_match; naive_solver. Qed.

Lemma parse_uint_no_panic w s : parse_uint w s ≠ Panic.
Proof.
  unfold parse_uint, from_str_radix. repeat case_match; try done; apply parse_digits_no_panic.
Qed.
#[export] Hint Resolve parse_uint_no_panic : engine.

Example trim_example : trim " 	0xAb
" = "0xAb".
Proof. reflexivity. Qed.
Example parse_example :
  parse_uint 128 "340282366920938463463374607431768211455" = Ok (2 ^ 128 - 1) ∧
  parse_uint 128 "340282366920938463463374607431768211456" = Err PPosOverflow ∧
  parse_uint 64 "+7" = Ok 7 ∧ parse_uint 64 "-7" = Err PInvalidDigit.
Proof. by vm_compute. Qed.

(** ** Trimming and case *)

Definition visible (c : Ascii.ascii) : bool := (33 <=? byte_of c) && (byte_of c <=? 126).

Lemma str_of_bytes_of s : str_of (bytes_of s) = s.
Proof.
  unfold str_of, bytes_of. rewrite <- list_fmap_compose.
  induction s as [|c s IH]; simpl; [done|].
  unfold compose at 1. rewrite char_of_byte_of. by f_equal.
Qed.

Lemma drop_ws_visible ends l : Forall (λ z, 33 ≤ z ≤ 126) l → drop_ws ends l = l.
Proof.
  destruct l as [|a [|b [|c l]]]; intros H; simpl; [done|..];
    repeat match goal with H : Forall _ (_ :: _) |- _ => inversion_clear H end;
    unfold ws1, ws2, ws3;
    repeat match goal with |- context [if ?b then _ else _] =>
      first [replace b with false by (destruct ends; lia)] end; done.
Qed.

Lemma str_all_bytes p s :
  str_all p s = true → Forall (λ z, p (char_of z) = true) (bytes_of s).
Proof.
  unfold bytes_of. induction s as [|c s IH]; simpl; [constructor|].
  rewrite andb_true_iff. intros [Hc Hs]. constructor; [by rewrite char_of_byte_of|auto].
Qed.

Lemma bytes_of_bound s : Forall (λ z, 0 ≤ z < 256) (bytes_of s).
Proof.
  unfold bytes_of. induction s as [|c s IH]; simpl; constructor; auto using byte_of_bound.
Qed.

(** A string of visible ASCII characters has nothing to trim. *)
Lemma trim_visible s : str_all visible s = true → trim s = s.
Proof.
  intros Hs. assert (Forall (λ z, 33 ≤ z ≤ 126) (bytes_of s)) as Hb.
  { pose proof (bytes_of_bound s) as Hbd. apply str_all_bytes in Hs.
    eapply Forall_impl; [apply Forall_and; split; [exact Hs|exact Hbd]|].
    intros z [Hz Hr]. unfold visible in Hz. rewrite byte_of_char_of in Hz by done. lia. }
  unfold trim. rewrite (drop_ws_visible false) by done.
  rewrite (drop_ws_visible true) by (by apply Forall_reverse).
  by rewrite reverse_involutive, str_of_bytes_of.
Qed.

Definition lower_byte (z : Z) : Z := if (65 <=? z) && (z <=? 90) then z + 32 else z.

Lemma bytes_of_lower s : bytes_of (to_ascii_lowercase s) = lower_byte <$> bytes_of s.
Proof.
  unfold bytes_of. induction s as [|c s IH]; simpl; [done|]. f_equal; [|done].
  unfold ascii_lower, lower_byte. pose proof (byte_of_bound c).
  destruct (_ && _) eqn:?; [|done]. apply byte_of_char_of. lia.
Qed.

Lemma str_of_lower l :
  Forall (λ z, 0 ≤ z < 256) l → str_of (lower_byte <$> l) = to_ascii_lowercase (str_of l).
Proof.
  unfold str_of. induction 1 as [|z l Hz Hl IH]; simpl; [done|]. f_equal; [|done].
  unfold ascii_lower, lower_byte. rewrite byte_of_char_of by done. by destruct (_ && _).
Qed.

Lemma ws1_lower a : ws1 (lower_byte a) = ws1 a.
Proof. unfold ws1, lower_byte. destruct ((65 <=? a) && _) eqn:?; lia. Qed.
Lemma ws2_lower a b : ws2 (lower_byte a) (lower_byte b) = ws2 a b.
Proof.
  unfold ws2, lower_byte.
  destruct ((65 <=? a) && _) eqn:?; destruct ((65 <=? b) && _) eqn:?; lia.
Qed.
Lemma ws3_lower a b c : ws3 (lower_byte a) (lower_byte b) (lower_byte c) = ws3 a b c.
Proof.
  unfold ws3, lower_byte.
  destruct ((65 <=? a) && _) eqn:?; destruct ((65 <=? b) && _) eqn:?;
    destruct ((65 <=? c) && _) eqn:?; lia.
Qed.

Lemma drop_ws_cons3 ends a b c l :
  drop_ws ends (a :: b :: c :: l) =
  if ws1 a then drop_ws ends (b :: c :: l)
  else if (if ends then ws2 b a else ws2 a b) then drop_ws ends (c :: l)
  else if (if ends then ws3 c b a else ws3 a b c) then drop_ws ends l
  else a :: b :: c :: l.
Proof. done. Qed.

Lemma drop_ws_lower_len n ends l :
  (length l ≤ n)%nat → drop_ws ends (lower_byte <$> l) = lower_byte <$> drop_ws ends l.
Proof.
  revert l; induction n as [|n IH]; intros l Hl; [by destruct l; simpl in *; [|lia]|].
  destruct l as [|a [|b [|c l]]].
  - done.
  - simpl. rewrite ws1_lower. by destruct (ws1 a).
  - simpl. rewrite !ws1_lower, !ws2_lower.
    by destruct (ws1 a), (ws1 b), ends, (ws2 a b), (ws2 b a).
  - rewrite !fmap_cons, !drop_ws_cons3, ws1_lower, !ws2_lower, !ws3_lower.
    rewrite <- !fmap_cons. simpl in Hl.
    destruct (ws1 a); [apply IH; simpl; lia|].
    destruct (if ends then ws2 b a else ws2 a b); [apply IH; simpl; lia|].
    destruct (if ends then ws3 c b a else ws3 a b c); [apply IH; lia|done].
Qed.

Lemma drop_ws_suffix n ends l : (length l ≤ n)%nat → drop_ws ends l `suffix_of` l.
Proof.
  revert l; induction n as [|n IH]; intros l Hl; [by destruct l; simpl in *; [|lia]|].
  destruct l as [|a [|b [|c l]]].
  - done.
  - simpl. destruct (ws1 a); [by exists [a]|done].
  - simpl. destruct (ws1 a), (ws1 b), (if ends then ws2 b a else ws2 a b);
      first [done|by exists [a; b]|by exists [a]].
  - rewrite drop_ws_cons3. simpl in Hl.
    destruct (ws1 a); [apply suffix_cons_r, IH; simpl; lia|].
    destruct (if ends then _ else _); [apply suffix_cons_r, suffix_cons_r, IH; simpl; lia|].
    destruct (if ends then _ else _); [|done].
    apply suffix_cons_r, suffix_cons_r, suffix_cons_r, IH; lia.
Qed.

Lemma drop_ws_Forall (P : Z → Prop) ends l : Forall P l → Forall P (drop_ws ends l).
Proof.
  destruct (drop_ws_suffix (length l) ends l (le_n _)) as [k Hk].
  rewrite Hk at 1. rewrite Forall_app. naive_solver.
Qed.

(** Trimming commutes with lower-casing. *)
Lemma trim_lower s : trim (to_ascii_lowercase s) = to_ascii_lowercase (trim s).
Proof.
  unfold trim. rewrite bytes_of_lower.
  rewrite (drop_ws_lower_len _ _ _ (le_n _)), <- fmap_reverse,
    (drop_ws_lower_len _ _ _ (le_n _)), <- fmap_reverse.
  apply str_of_lower, Forall_reverse, drop_ws_Forall, Forall_reverse,
    drop_ws_Forall, bytes_of_bound.
Qed.

Lemma str_all_hexdigit_lower s :
  str_all is_ascii_hexdigit (to_ascii_lowercase s) = str_all is_ascii_hexdigit s.
Proof.
  induction s as [|c s IH]; simpl; [done|]. rewrite IH. f_equal.
  by destruct c as [[] [] [] [] [] [] [] []].
Qed.

Lemma hexdigit_visible s : str_all is_ascii_hexdigit s = true → str_all visible s = true.
Proof.
  induction s as [|c s IH]; simpl; [done|]. rewrite !andb_true_iff. intros [Hc Hs].
  split; [|auto]. unfold is_ascii_hexdigit in Hc. unfold visible. lia.
Qed.

Lemma strip_prefix_app p s r : strip_prefix p s = Some r ↔ s = p +:+ r.
Proof.
  unfold String.app. revert s; induction p as [|c p IH]; intros s.
  { split; [by intros [= ->]|by intros ->]. }
  destruct s as [|d s]; [by split|].
  change (strip_prefix (String c p) (String d s))
    with (if bool_decide (c = d) then strip_prefix p s else None).
  cbn [String.append].
  case_bool_decide as Hc.
  - subst. rewrite IH. split; [by intros ->|by intros [= ->]].
  - split; [done|]. congruence.
Qed.

(** ** The byte-wise order of strings, [str::cmp] *)

Fixpoint str_leb (a b : string) : bool :=
  match a, b with
  | EmptyString, _ => true
  | String _ _, EmptyString => false
  | String c a, String d b =>
      (byte_of c <? byte_of d) || ((byte_of c =? byte_of d) && str_leb a b)
  end.

Lemma byte_of_inj c d : byte_of c = byte_of d → c = d.
Proof. intros H. by rewrite <- (char_of_byte_of c), H, char_of_byte_of. Qed.

Lemma str_leb_total a b : str_leb a b = false → str_leb b a = true.
Proof.
  revert b; induction a as [|c a IH]; intros [|d b]; simpl; try done.
  rewrite orb_false_iff, andb_false_iff. intros [Hlt [Heq|Hle]].
  - apply orb_true_iff. left. lia.
  - apply IH in Hle. rewrite Hle, andb_true_r. lia.
Qed.

Lemma str_leb_trans a b c : str_leb a b = true → str_leb b c = true → str_leb a c = true.
Proof.
  revert b c; induction a as [|x a IH]; intros [|y b] [|z c]; simpl; try done.
  rewrite !orb_true_iff, !andb_true_iff. intros [?|[? ?]] [?|[? ?]]; [left; lia..|].
  right. split; [lia|eauto].
Qed.

Lemma str_leb_antisym a b : str_leb a b = true → str_leb b a = true → a = b.
Proof.
  revert b; induction a as [|x a IH]; intros [|y b]; simpl; try done.
  rewrite !orb_true_iff, !andb_true_iff. intros [?|[Heq ?]] [?|[? ?]]; [lia..|].
  f_equal; [apply byte_of_inj; lia|auto].
Qed.

(** The text of a [ParseIntError]. *)
Definition show_parse_error (e : ParseIntError) : string :=
  match e with
  | PEmpty => "cannot parse integer from empty string"
  | PInvalidDigit => "invalid digit found in string"
  | PPosOverflow => "number too large to fit in target type"
  end.

(** [u128::to_le_bytes] and its like: [n] bytes, least significant first. *)
Fixpoint to_le_bytes (n : nat) (z : Z) : list Z :=
  match n with
  | O => []
  | S n => z mod 256 :: to_le_bytes n (z / 256)
  end.

Lemma to_le_bytes_inj n a b :
  0 ≤ a < 256 ^ Z.of_nat n → 0 ≤ b < 256 ^ Z.of_nat n →
  to_le_bytes n a = to_le_bytes n b → a = b.
Proof.
  revert a b; induction n as [|n IH]; intros a b Ha Hb; [simpl in *; lia|].
  rewrite Nat2Z.inj_succ, Z.pow_succ_r in Ha, Hb by lia. simpl. intros [= Hm Hd].
  assert (a / 256 = b / 256) as Hq.
  { apply IH; [| |done]; (split; [apply Z.div_pos; lia|apply Z.div_lt_upper_bound; lia]). }
  rewrite (Z.div_mod a 256), (Z.div_mod b 256) by lia. lia.
Qed.

Lemma to_le_bytes_length n z : length (to_le_bytes n z) = n.
Proof. revert z; induction n; intros; simpl; auto. Qed.
