(* ===== verification/Types.v ===== *)
(** The shared domain types of the workspace (crate [types]): chain events,
    opportunities and execution records.  Integers are [Z] with the width of
    the source noted beside the field; addresses, hashes and topics are
    strings, as in the source. *)

From S2P Require Import Prelude RustStr.
#[local] Open Scope Z_scope.

Abbreviation ChainId := Z (only parsing).
Abbreviation BlockNumber := Z (only parsing).
Abbreviation UnixTimestampMillis := Z (only parsing).
Abbreviation Amount := Z (only parsing).
Abbreviation TxHash := string (only parsing).
Abbreviation BlockHash := string (only parsing).
Abbreviation Address := string (only parsing).
Abbreviation Topic := string (only parsing).
Abbreviation Selector := string (only parsing).

(** ** Ingest types *)

Inductive BlockContext :=
| Pending
| Block_ (number : BlockNumber) (hash : option BlockHash).

Inductive Channel := Ipc | Ws | FlashblocksWs.

Inductive DecodeStatus := Decoded | Partial | Unsupported | Failed.

Module Protocol.
Inductive Protocol := Unknown | UniswapV2 | UniswapV3 | UniswapV4 | Aerodrome | Virtuals.
End Protocol.

Module Exchange.
Inductive Exchange := Unknown | PancakeSwap | BaseSwap | AlienBase | Aerodrome | Virtuals.
End Exchange.

Module StreamStatus.
Inductive StreamStatus :=
| Idle | Connecting | Subscribing | Running | Backoff | Reconnecting | Stopped.
End StreamStatus.

Module RawMessageType.
Inductive RawMessageType := Transaction | Log | Block | Flashblock | Heartbeat | Status | Unknown.
End RawMessageType.

#[global] Instance BlockContext_eq_dec : EqDecision BlockContext.
Proof. solve_decision. Defined.
#[global] Instance Channel_eq_dec : EqDecision Channel.
Proof. solve_decision. Defined.
#[global] Instance DecodeStatus_eq_dec : EqDecision DecodeStatus.
Proof. solve_decision. Defined.
#[global] Instance Protocol_eq_dec : EqDecision Protocol.Protocol.
Proof. solve_decision. Defined.
#[global] Instance Exchange_eq_dec : EqDecision Exchange.Exchange.
Proof. solve_decision. Defined.
#[global] Instance StreamStatus_eq_dec : EqDecision StreamStatus.StreamStatus.
Proof. solve_decision. Defined.
#[global] Instance RawMessageType_eq_dec : EqDecision RawMessageType.RawMessageType.
Proof. solve_decision. Defined.

Record RawPayloadSummary := {
  rps_message_type : RawMessageType.RawMessageType;
  rps_payload_size_bytes : Z;                 (* usize *)
  rps_fingerprint : option string;
  rps_subscription : option string }.

Record Metadata := {
  md_block_context : BlockContext;
  md_channel : Channel;
  md_observed_at_ms : UnixTimestampMillis;
  md_chain_id : ChainId;
  md_tx_hash : option TxHash;
  md_decode_status : DecodeStatus;
  md_raw : RawPayloadSummary }.

Record DecodedSwap := {
  ds_pool : option Address;
  ds_router : option Address;
  ds_token_in : option Address;
  ds_token_out : option Address;
  ds_amount_in : option Amount;
  ds_amount_out : option Amount;
  ds_amount_in_maximum : option Amount;
  ds_amount_out_minimum : option Amount;
  ds_exact_input : option bool;
  ds_recipient : option Address;
  ds_protocol : option Protocol.Protocol;
  ds_exchange : option Exchange.Exchange }.

Inductive DecodedLogKind :=
| V2Swap | V2Sync | V2Mint | V2Burn | V3Swap | V3Mint | V3Burn.

#[global] Instance DecodedLogKind_eq_dec : EqDecision DecodedLogKind.
Proof. solve_decision. Defined.

Record DecodedLogEvent := {
  dl_kind : DecodedLogKind;
  dl_pool : option Address;
  dl_sender : option Address;
  dl_recipient : option Address;
  dl_owner : option Address;
  dl_reserve0 : option Amount;
  dl_reserve1 : option Amount;
  dl_amount0_in : option Amount;
  dl_amount1_in : option Amount;
  dl_amount0_out : option Amount;
  dl_amount1_out : option Amount;
  dl_amount0 : option string;
  dl_amount1 : option string;
  dl_liquidity : option Amount;
  dl_sqrt_price_x96 : option string;
  dl_tick : option Z;                         (* i32 *)
  dl_tick_lower : option Z;                   (* i32 *)
  dl_tick_upper : option Z;                   (* i32 *)
  dl_protocol : option Protocol.Protocol;
  dl_exchange : option Exchange.Exchange }.

Record Transaction := {
  tx_metadata : Metadata;
  tx_from : option Address;
  tx_to : option Address;
  tx_value : option string;
  tx_input : option string;
  tx_selector : option Selector;
  tx_decoded_swap : option DecodedSwap;
  tx_protocol : option Protocol.Protocol;
  tx_exchange : option Exchange.Exchange }.

Record Log := {
  log_metadata : Metadata;
  log_address : option Address;
  log_topics : list Topic;
  log_data : option string;
  log_event_signature : option string;
  log_decoded_event : option DecodedLogEvent;
  log_protocol : option Protocol.Protocol;
  log_exchange : option Exchange.Exchange;
  log_log_index : option Z;                   (* u64 *)
  log_removed : option bool }.

Record Block := {
  block_metadata : Metadata;
  block_block_hash : option BlockHash;
  block_parent_hash : option BlockHash;
  block_timestamp_secs : option Z }.          (* u64 *)

Record Flashblock := {
  fb_metadata : Metadata;
  fb_payload_id : option string;
  fb_index : Z;                               (* u64 *)
  fb_parent_block_number : option BlockNumber;
  fb_parent_hash : option BlockHash;
  fb_block_hash : option BlockHash;
  fb_state_root : option string;
  fb_gas_used : option Z;                     (* u64 *)
  fb_tx_hashes : list TxHash;
  fb_log_count : Z }.                         (* usize *)

Inductive Event :=
| EvTransaction (t : Transaction)
| EvLog (l : Log)
| EvBlock (b : Block)
| EvFlashblock (f : Flashblock).

Record Heartbeat := {
  hb_block_context : BlockContext;
  hb_channel : Channel;
  hb_observed_at_ms : UnixTimestampMillis;
  hb_chain_id : ChainId;
  hb_message : option string }.

Record StreamStatusEvent := {
  ss_block_context : BlockContext;
  ss_channel : Channel;
  ss_observed_at_ms : UnixTimestampMillis;
  ss_chain_id : ChainId;
  ss_previous : option StreamStatus.StreamStatus;
  ss_current : StreamStatus.StreamStatus;
  ss_reason : option string }.

Inductive RuntimeEvent :=
| ReHeartbeat (h : Heartbeat)
| ReStreamStatus (s : StreamStatusEvent).

(** ** Decision types *)

Inductive OpportunityKind := TwoLegLoop | Triangle | Backrun | JitLiquidity.

#[global] Instance OpportunityKind_eq_dec : EqDecision OpportunityKind.
Proof. solve_decision. Defined.

Record RouteLeg := {
  leg_venue : option Exchange.Exchange;
  leg_protocol : option Protocol.Protocol;
  leg_target : Address;
  leg_pool_address : option Address;
  leg_token_in : Address;
  leg_token_out : Address;
  leg_amount_in : option Amount;
  leg_min_amount_out : option Amount }.

Record Opportunity := {
  op_id : string;
  op_kind : OpportunityKind;
  op_block_context : BlockContext;
  op_settlement_token : Address;
  op_input_amount : Amount;
  op_expected_output_amount : Amount;
  op_expected_net_profit : Amount;
  op_route : list RouteLeg;
  op_trigger_tx_hash : option string }.

Record SimulationResult := {
  sim_opportunity_id : string;
  sim_accepted : bool;
  sim_expected_gross_profit : Amount;
  sim_expected_net_profit : Amount;
  sim_gas_estimate : Z;                       (* u64 *)
  sim_gas_cost_wei : Amount;
  sim_l1_data_fee : Amount;
  sim_notes : list string }.

Record RiskDecision := {
  rd_opportunity_id : string;
  rd_accepted : bool;
  rd_reason : option string;
  rd_risk_hash : string;
  rd_min_surplus : Amount }.

(** ** Execution types *)

Module ExecutionStatus.
Inductive ExecutionStatus :=
| Built | Submitted | Included | Reverted | Dropped | Replaced | ProfitRealized.
End ExecutionStatus.

#[global] Instance ExecutionStatus_eq_dec : EqDecision ExecutionStatus.ExecutionStatus.
Proof. solve_decision. Defined.

Record ExecutionStep := {
  st_venue : option Exchange.Exchange;
  st_protocol : option Protocol.Protocol;
  st_target : Address;
  st_token_in : Address;
  st_token_out : Address;
  st_pool_fee : option Z;                     (* u32 *)
  st_amount_in : option Amount;
  st_min_amount_out : Amount;
  st_calldata_hint : option string;
  st_aux_address : option Address }.

Record ExecutionRequest := {
  rq_opportunity_id : string;
  rq_steps : list ExecutionStep;
  rq_min_repay : Amount;
  rq_min_surplus : Amount;
  rq_flashloan_asset : option Address;
  rq_flashloan_amount : option Amount;
  rq_risk_hash : string }.

Record ExecutionAttempt := {
  at_request_id : string;
  at_tx_hash : option string;
  at_status : ExecutionStatus.ExecutionStatus;
  at_execution_mode : string;
  at_submission_allowed : bool;
  at_blocked_reason : option string;
  at_requested_notional : Amount;
  at_gas_limit : option Z;                    (* u64 *)
  at_max_fee_per_gas : option Amount;
  at_max_priority_fee_per_gas : option Amount }.

Record ExecutionReceipt := {
  rc_request_id : string;
  rc_tx_hash : string;
  rc_block_number : option BlockNumber;
  rc_success : bool;
  rc_gas_used : option Z;                     (* u64 *)
  rc_effective_gas_price : option Amount;
  rc_l1_fee_paid : option Amount;
  rc_revert_reason : option string }.

Record ExecutionOutcome := {
  oc_request_id : string;
  oc_final_status : ExecutionStatus.ExecutionStatus;
  oc_tx_hash : string;
  oc_block_number : option BlockNumber;
  oc_total_fee_paid : option Amount;
  oc_realized_surplus : option Amount;
  oc_reason : option string }.

(** [attempt.status = s; attempt.tx_hash = h] on a clone. *)
Definition with_status (a : ExecutionAttempt) (s : ExecutionStatus.ExecutionStatus)
    (h : option string) : ExecutionAttempt :=
  {| at_request_id := at_request_id a;
     at_tx_hash := h;
     at_status := s;
     at_execution_mode := at_execution_mode a;
     at_submission_allowed := at_submission_allowed a;
     at_blocked_reason := at_blocked_reason a;
     at_requested_notional := at_requested_notional a;
     at_gas_limit := at_gas_limit a;
     at_max_fee_per_gas := at_max_fee_per_gas a;
     at_max_priority_fee_per_gas := at_max_priority_fee_per_gas a |}.
