(* ===== verification/Registry.v ===== *)
(** The protocol and exchange lookup tables (crate [registry]). *)

From S2P Require Import Prelude RustStr Types.
#[local] Open Scope Z_scope.

Inductive AddressType := Router | Factory | PositionManager | PoolManager | Bonding | Token.

Record RegistryMatch := {
  rm_protocol : option Protocol.Protocol;
  rm_exchange : option Exchange.Exchange }.

Definition RegistryMatch_empty : RegistryMatch :=
  {| rm_protocol := None; rm_exchange := None |}.

Definition merge (self fallback : RegistryMatch) : RegistryMatch :=
  {| rm_protocol := opt_or (rm_protocol self) (rm_protocol fallback);
     rm_exchange := opt_or (rm_exchange self) (rm_exchange fallback) |}.

Record AddressMetadata := {
  am_address : string;
  am_protocol : option Protocol.Protocol;
  am_exchange : option Exchange.Exchange;
  am_address_type : AddressType;
  am_label : string }.

Definition ADDRESS_BOOK : list AddressMetadata :=
  [ Build_AddressMetadata "0x4752ba5dbc23f44d87826276bf6fd6b1c372ad24"
      (Some Protocol.UniswapV2) None Router "Uniswap V2 Router02";
    Build_AddressMetadata "0x2626664c2603336e57b271c5c0b26f421741e481"
      (Some Protocol.UniswapV3) None Router "Uniswap V3 SwapRouter02";
    Build_AddressMetadata "0x198ef79f1f515f02dfe9e3115ed9fc07183f02fc"
      (Some Protocol.UniswapV4) None Router "Uniswap Universal Router 2";
    Build_AddressMetadata "0x33128a8fc17869897dce68ed026d694621f6fdfd"
      (Some Protocol.UniswapV3) None Factory "Uniswap V3 Factory";
    Build_AddressMetadata "0xfda619b6d20975be80a10332cd39b9a4b0faa8bb"
      (Some Protocol.UniswapV2) (Some Exchange.BaseSwap) Factory "BaseSwap Factory";
    Build_AddressMetadata "0x327df1e6de05895d2ab08513aadd9313fe505d86"
      (Some Protocol.UniswapV2) (Some Exchange.BaseSwap) Router "BaseSwap Router";
    Build_AddressMetadata "0x3e84d913803b02a4a7f027165e8ca42c14c0fde7"
      (Some Protocol.UniswapV2) (Some Exchange.AlienBase) Factory "AlienBase Factory";
    Build_AddressMetadata "0x8c1a3cf8f83074169fe5d7ad50b978e1cd6b37c7"
      (Some Protocol.UniswapV2) (Some Exchange.AlienBase) Router "AlienBase Router";
    Build_AddressMetadata "0x0fd83557b2be93617c9c1c1b6fd549401c74558c"
      (Some Protocol.UniswapV3) (Some Exchange.AlienBase) Factory "AlienBase Uniswap V3 Factory";
    Build_AddressMetadata "0xb20c411fc84fbb27e78608c24d0056d974ea9411"
      (Some Protocol.UniswapV3) (Some Exchange.AlienBase) Router "AlienBase V3 Smart Router";
    Build_AddressMetadata "0xcf77a3ba9a5ca399b7c97c74d54e5b1beb874e43"
      (Some Protocol.Aerodrome) (Some Exchange.Aerodrome) Router "Aerodrome Router";
    Build_AddressMetadata "0x6cb442acf35158d5eda88fe602221b67b400be3e"
      (Some Protocol.Aerodrome) (Some Exchange.Aerodrome) Router "Aerodrome Universal Router";
    Build_AddressMetadata "0x678aa4bf4e210cf2166753e054d5b7c31cc7fa86"
      (Some Protocol.UniswapV3) (Some Exchange.PancakeSwap) Router "PancakeSwap V3 Smart Router";
    Build_AddressMetadata "0xf66dea7b3e897cd44a5a231c61b6b4423d613259"
      (Some Protocol.Virtuals) (Some Exchange.Virtuals) Bonding "Virtuals Bonding Proxy";
    Build_AddressMetadata "0x0b3e328455c4059eeb9e3f84b5543f74e24e7e1b"
      (Some Protocol.Virtuals) (Some Exchange.Virtuals) Token "Virtuals Token" ].

Record SelectorEntry := {
  se_selector : string;
  se_protocol : option Protocol.Protocol;
  se_exchange : option Exchange.Exchange }.

Definition SELECTOR_ENTRIES : list SelectorEntry :=
  [ Build_SelectorEntry "0x38ed1739" (Some Protocol.UniswapV2) None;
    Build_SelectorEntry "0x8803dbee" (Some Protocol.UniswapV2) None;
    Build_SelectorEntry "0x7ff36ab5" (Some Protocol.UniswapV2) None;
    Build_SelectorEntry "0xfb3bdb41" (Some Protocol.UniswapV2) None;
    Build_SelectorEntry "0x18cbafe5" (Some Protocol.UniswapV2) None;
    Build_SelectorEntry "0x4a25d94a" (Some Protocol.UniswapV2) None;
    Build_SelectorEntry "0x5c11d795" (Some Protocol.UniswapV2) None;
    Build_SelectorEntry "0xb6f9de95" (Some Protocol.UniswapV2) None;
    Build_SelectorEntry "0x791ac947" (Some Protocol.UniswapV2) None;
    Build_SelectorEntry "0x414bf389" (Some Protocol.UniswapV3) None;
    Build_SelectorEntry "0xc04b8d59" (Some Protocol.UniswapV3) None;
    Build_SelectorEntry "0xdb3e2198" (Some Protocol.UniswapV3) None;
    Build_SelectorEntry "0xf28c0498" (Some Protocol.UniswapV3) None;
    Build_SelectorEntry "0xac9650d8" (Some Protocol.UniswapV3) None;
    Build_SelectorEntry "0x3593564c" (Some Protocol.UniswapV4) None;
    Build_SelectorEntry "0x24856bc3" (Some Protocol.UniswapV4) None ].

Record EventSignatureEntry := {
  es_signature : string;
  es_protocol : option Protocol.Protocol;
  es_exchange : option Exchange.Exchange }.

Definition EVENT_SIGNATURE_ENTRIES : list EventSignatureEntry :=
  [ Build_EventSignatureEntry
      "0xd78ad95fa46c994b6551d0da85fc275fe613ce37657fb8d5e3d130840159d822" (Some Protocol.UniswapV2) None;
    Build_EventSignatureEntry
      "0x1c411e9a96e071241c2f21f7726b17ae89e3cab4c78be50e062b03a9fffbbad1" (Some Protocol.UniswapV2) None;
    Build_EventSignatureEntry
      "0x4c209b5fc8ad50758f13e2e108bdbdff36c9b4a5d2f30f6a7c2a25d13f0f5e6d" (Some Protocol.UniswapV2) None;
    Build_EventSignatureEntry
      "0xdccd412f0b1252819a70d2cd3248e4723d18f7e41ee2b5f7f8ef4e3d5be2f4d8" (Some Protocol.UniswapV2) None;
    Build_EventSignatureEntry
      "0xc42079f94a6350d7e6235f29174924f928cc2ac818eb64fed8004e115fbcca67" (Some Protocol.UniswapV3) None ].

Definition normalize_hex (value : string) : option string :=
  let trimmed := trim value in
  let hex := strip_0x_or_self trimmed in
  if str_is_empty hex || negb (str_all is_ascii_hexdigit hex) then None
  else Some ("0x" +:+ to_ascii_lowercase hex).

Definition address_metadata (address : string) : option AddressMetadata :=
  normalized ← normalize_hex address;
  List.find (λ entry, bool_decide (am_address entry = normalized)) ADDRESS_BOOK.

Definition protocol_from_address (address : string) : option Protocol.Protocol :=
  address_metadata address ≫= am_protocol.

Definition exchange_from_address (address : string) : option Exchange.Exchange :=
  address_metadata address ≫= am_exchange.

Definition selector_entry (selector : string) : option SelectorEntry :=
  normalized ← normalize_hex selector;
  List.find (λ entry, bool_decide (se_selector entry = normalized)) SELECTOR_ENTRIES.

Definition protocol_from_selector (selector : string) : option Protocol.Protocol :=
  selector_entry selector ≫= se_protocol.

Definition exchange_from_selector (selector : string) : option Exchange.Exchange :=
  selector_entry selector ≫= se_exchange.

Definition event_signature_entry (event_signature : string) : option EventSignatureEntry :=
  normalized ← normalize_hex event_signature;
  List.find (λ entry, bool_decide (es_signature entry = normalized)) EVENT_SIGNATURE_ENTRIES.

Definition protocol_from_event_signature (s : string) : option Protocol.Protocol :=
  event_signature_entry s ≫= es_protocol.

Definition exchange_from_event_signature (s : string) : option Exchange.Exchange :=
  event_signature_entry s ≫= es_exchange.

Definition resolve_transaction (selector to : option string) : RegistryMatch :=
  let from_address := {| rm_protocol := to ≫= protocol_from_address;
                         rm_exchange := to ≫= exchange_from_address |} in
  let from_selector := {| rm_protocol := selector ≫= protocol_from_selector;
                          rm_exchange := selector ≫= exchange_from_selector |} in
  merge from_address from_selector.

Definition resolve_log (event_signature address : option string) : RegistryMatch :=
  let from_address := {| rm_protocol := address ≫= protocol_from_address;
                         rm_exchange := address ≫= exchange_from_address |} in
  let from_event := {| rm_protocol := event_signature ≫= protocol_from_event_signature;
                       rm_exchange := event_signature ≫= exchange_from_event_signature |} in
  merge from_address from_event.

(** ** Properties *)

Lemma strip_0x_app r : strip_0x_or_self ("0x" +:+ r) = r.
Proof. done. Qed.

Lemma normalize_hex_some value n :
  normalize_hex value = Some n ↔
  ∃ hex, hex = strip_0x_or_self (trim value) ∧ hex ≠ "" ∧
         str_all is_ascii_hexdigit hex = true ∧ n = "0x" +:+ to_ascii_lowercase hex.
Proof.
  unfold normalize_hex. cbv zeta. generalize (strip_0x_or_self (trim value)). intros hex.
  destruct (str_is_empty hex || _) eqn:E.
  - split; [done|]. intros (? & -> & Hne & Ha & _). rewrite Ha in E. by destruct hex.
  - apply orb_false_iff in E as [E1 E2]. apply negb_false_iff in E2. split.
    + intros [= <-]. exists hex. split_and!; try done. by destruct hex.
    + by intros (? & -> & _ & _ & ->).
Qed.

Lemma to_ascii_lowercase_nonempty s : s ≠ "" → to_ascii_lowercase s ≠ "".
Proof. by destruct s. Qed.

(** A normalised key is a fixed point of the normalisation. *)
Lemma normalize_hex_idemp value n : normalize_hex value = Some n → normalize_hex n = Some n.
Proof.
  rewrite normalize_hex_some. intros (hex & _ & Hne & Hall & ->).
  apply normalize_hex_some. exists (to_ascii_lowercase hex).
  rewrite trim_visible.
  - rewrite strip_0x_app, str_all_hexdigit_lower, to_ascii_lowercase_idemp.
    auto using to_ascii_lowercase_nonempty.
  - rewrite <- str_all_hexdigit_lower in Hall. apply hexdigit_visible in Hall. apply Hall.
Qed.

(** Lower-casing a key that normalises does not change its normal form. *)
Lemma normalize_hex_lower value n :
  normalize_hex value = Some n → normalize_hex (to_ascii_lowercase value) = Some n.
Proof.
  rewrite !normalize_hex_some. intros (hex & Hhex & Hne & Hall & ->).
  exists (to_ascii_lowercase hex). rewrite str_all_hexdigit_lower, to_ascii_lowercase_idemp.
  split_and!; auto using to_ascii_lowercase_nonempty.
  rewrite trim_lower. subst hex. unfold strip_0x_or_self in *.
  destruct (strip_prefix "0x" (trim value)) as [r|] eqn:Hr; simpl in *.
  - apply strip_prefix_app in Hr. by rewrite Hr.
  - destruct (strip_prefix "0x" (to_ascii_lowercase (trim value))) as [r|] eqn:Hl; [|done].
    exfalso. apply strip_prefix_app in Hl. unfold String.app in Hl.
    destruct (trim value) as [|c [|d s]]; simpl in Hl; [discriminate Hl..|].
    injection Hl as _ Hd _. simpl in Hall.
    rewrite !andb_true_iff in Hall. destruct Hall as (_ & Hd' & _). revert Hd Hd'.
    by destruct d as [[] [] [] [] [] [] [] []].
Qed.

Section table.
Context {A : Type} (key : A → string).

Lemma find_unique (l : list A) e :
  NoDup (key <$> l) → e ∈ l → List.find (λ x, bool_decide (key x = key e)) l = Some e.
Proof.
  induction l as [|x l IH]; [by inversion 2|]. rewrite fmap_cons, NoDup_cons.
  intros [Hx Hl] He. simpl. case_bool_decide as Hk.
  - apply elem_of_cons in He as [->|He]; [done|]. destruct Hx. rewrite Hk.
    by apply list_elem_of_fmap_2.
  - apply elem_of_cons in He as [->|He]; [done|]. auto.
Qed.
End table.

Lemma address_keys_unique : NoDup (am_address <$> ADDRESS_BOOK).
Proof. apply (bool_decide_unpack _). by vm_compute. Qed.
Lemma selector_keys_unique : NoDup (se_selector <$> SELECTOR_ENTRIES).
Proof. apply (bool_decide_unpack _). by vm_compute. Qed.
Lemma event_keys_unique : NoDup (es_signature <$> EVENT_SIGNATURE_ENTRIES).
Proof. apply (bool_decide_unpack _). by vm_compute. Qed.

(** Every spelling of a table key that normalises to it finds that entry, in the three
    tables. *)
Theorem registry_lookup_complete value :
  (∀ e, e ∈ ADDRESS_BOOK → normalize_hex value = Some (am_address e) →
     address_metadata value = Some e ∧ address_metadata (to_ascii_lowercase value) = Some e) ∧
  (∀ e, e ∈ SELECTOR_ENTRIES → normalize_hex value = Some (se_selector e) →
     selector_entry value = Some e ∧ selector_entry (to_ascii_lowercase value) = Some e) ∧
  (∀ e, e ∈ EVENT_SIGNATURE_ENTRIES → normalize_hex value = Some (es_signature e) →
     event_signature_entry value = Some e ∧
     event_signature_entry (to_ascii_lowercase value) = Some e).
Proof.
  split_and!; intros e He Hn; pose proof (normalize_hex_lower _ _ Hn) as Hl;
    unfold address_metadata, selector_entry, event_signature_entry; rewrite Hn, Hl;
    cbn [mbind option_bind].
  - by rewrite (find_unique am_address) by (done || apply address_keys_unique).
  - by rewrite (find_unique se_selector) by (done || apply selector_keys_unique).
  - by rewrite (find_unique es_signature) by (done || apply event_keys_unique).
Qed.

(** Every table key is its own normal form, so no entry is unreachable. *)
Lemma registry_keys_normal :
  Forall (λ e, normalize_hex (am_address e) = Some (am_address e)) ADDRESS_BOOK ∧
  Forall (λ e, normalize_hex (se_selector e) = Some (se_selector e)) SELECTOR_ENTRIES ∧
  Forall (λ e, normalize_hex (es_signature e) = Some (es_signature e)) EVENT_SIGNATURE_ENTRIES.
Proof. split_and!; apply (bool_decide_unpack _); by vm_compute. Qed.
