(* ===== verification/MarketsV2.v ===== *)
(** Constant-product pools (crate [markets], [lib.rs]): pool state, validation,
    quotes and the application of [Sync] logs to one pool. *)

From S2P Require Import Prelude RustStr Types.
#[local] Open Scope Z_scope.

Definition BPS_DENOMINATOR : Z := 10000.

Inductive PoolKind := ConstantProduct | ConcentratedLiquidity.

Record PoolQuote := {
  pq_pool_address : Address;
  pq_token_in : Address;
  pq_token_out : Address;
  pq_amount_in : Amount;
  pq_amount_out : Amount;
  pq_fee_bps : Z;                             (* u32 *)
  pq_price_impact_bps : Z }.                  (* u32 *)

Record V2PoolState := {
  v2_address : Address;
  v2_protocol : Protocol.Protocol;
  v2_exchange : option Exchange.Exchange;
  v2_token0 : Address;
  v2_token1 : Address;
  v2_reserve0 : Amount;
  v2_reserve1 : Amount;
  v2_fee_bps : Z;                             (* u32 *)
  v2_last_updated_block : option BlockNumber }.

#[global] Instance V2PoolState_eq_dec : EqDecision V2PoolState.
Proof. solve_decision. Defined.

Inductive MarketEventOutcome := Applied | Ignored | Reverted.

#[global] Instance MarketEventOutcome_eq_dec : EqDecision MarketEventOutcome.
Proof. solve_decision. Defined.

Inductive MarketError :=
| InvalidPool (reason : string)
| UnknownToken (pool_address token : Address)
| InsufficientInput
| InsufficientLiquidity
| ArithmeticOverflow
| MissingDecodedField (field : string)
| MissingLogIdentity
| MissingRevertSnapshot (tx_hash : TxHash) (log_index : Z).

#[global] Instance MarketError_eq_dec : EqDecision MarketError.
Proof. solve_decision. Defined.

Definition block_number (context : BlockContext) : option BlockNumber :=
  match context with Pending => None | Block_ number _ => Some number end.

Definition v2_validate (p : V2PoolState) : res MarketError unit :=
  if bool_decide (v2_token0 p = v2_token1 p)
  then Err (InvalidPool "pool tokens must be distinct addresses")
  else if (v2_reserve0 p =? 0) || (v2_reserve1 p =? 0)
  then Err (InvalidPool "pool reserves must be greater than zero")
  else if BPS_DENOMINATOR <=? v2_fee_bps p
  then Err (InvalidPool "fee_bps must be lower than 10_000")
  else Ok tt.

Definition v2_new (address : Address) (protocol : Protocol.Protocol)
    (exchange : option Exchange.Exchange) (token0 token1 : Address)
    (reserve0 reserve1 fee_bps : Z) : res MarketError V2PoolState :=
  let state := {| v2_address := address; v2_protocol := protocol;
                  v2_exchange := exchange; v2_token0 := token0; v2_token1 := token1;
                  v2_reserve0 := reserve0; v2_reserve1 := reserve1;
                  v2_fee_bps := fee_bps; v2_last_updated_block := None |} in
  _ ← v2_validate state;
  mret state.

(** [self.reserve0 = ..; self.reserve1 = ..; self.last_updated_block = ..]. *)
Definition v2_with_reserves (p : V2PoolState) (r0 r1 : Z) (b : option BlockNumber) :
    V2PoolState :=
  {| v2_address := v2_address p; v2_protocol := v2_protocol p;
     v2_exchange := v2_exchange p; v2_token0 := v2_token0 p; v2_token1 := v2_token1 p;
     v2_reserve0 := r0; v2_reserve1 := r1;
     v2_fee_bps := v2_fee_bps p; v2_last_updated_block := b |}.

Definition v2_apply_sync (p : V2PoolState) (reserve0 reserve1 : Z)
    (block : option BlockNumber) : res MarketError V2PoolState :=
  if (reserve0 =? 0) || (reserve1 =? 0)
  then Err (InvalidPool "sync reserves must be greater than zero")
  else Ok (v2_with_reserves p reserve0 reserve1 block).

Definition estimate_price_impact_bps (reserve_in reserve_out amount_in amount_out : Z) :
    res MarketError Z :=
  quoted_price_numerator ← ok_or (checked_mul 128 reserve_out BPS_DENOMINATOR) ArithmeticOverflow;
  quoted_price ← div_or_panic quoted_price_numerator reserve_in;
  realized_price_numerator ← ok_or (checked_mul 128 amount_out BPS_DENOMINATOR) ArithmeticOverflow;
  realized_price ← div_or_panic realized_price_numerator (Z.max amount_in 1);
  if (quoted_price =? 0) || (quoted_price <=? realized_price) then Ok 0
  else
    delta ← sub_or_panic quoted_price realized_price;
    scaled ← ok_or (checked_mul 128 delta BPS_DENOMINATOR) ArithmeticOverflow;
    impact ← div_or_panic scaled quoted_price;
    Ok (Z.min impact (uint_max 32)).

(** The reserves on the two sides of a swap of [token_in] and the token paid out. *)
Definition v2_sides (p : V2PoolState) (token_in : string) : option (Z * Z * Address) :=
  if eq_ignore_ascii_case token_in (v2_token0 p)
  then Some (v2_reserve0 p, v2_reserve1 p, v2_token1 p)
  else if eq_ignore_ascii_case token_in (v2_token1 p)
  then Some (v2_reserve1 p, v2_reserve0 p, v2_token0 p)
  else None.

Definition v2_quote_exact_in (p : V2PoolState) (token_in : string) (amount_in : Z) :
    res MarketError PoolQuote :=
  if amount_in =? 0 then Err InsufficientInput else
  '(reserve_in, reserve_out, token_out) ←
     ok_or (v2_sides p token_in) (UnknownToken (v2_address p) token_in);
  fee_multiplier ← ok_or (checked_sub BPS_DENOMINATOR (v2_fee_bps p)) ArithmeticOverflow;
  amount_in_with_fee ← ok_or (checked_mul 128 amount_in fee_multiplier) ArithmeticOverflow;
  numerator ← ok_or (checked_mul 128 amount_in_with_fee reserve_out) ArithmeticOverflow;
  denominator ← ok_or (value ← checked_mul 128 reserve_in BPS_DENOMINATOR;
                       checked_add 128 value amount_in_with_fee) ArithmeticOverflow;
  amount_out ← div_or_panic numerator denominator;
  if amount_out =? 0 then Err InsufficientLiquidity else
  price_impact_bps ← estimate_price_impact_bps reserve_in reserve_out amount_in amount_out;
  Ok {| pq_pool_address := v2_address p;
        pq_token_in := token_in;
        pq_token_out := token_out;
        pq_amount_in := amount_in;
        pq_amount_out := amount_out;
        pq_fee_bps := v2_fee_bps p;
        pq_price_impact_bps := price_impact_bps |}.

Definition v2_contains_token (p : V2PoolState) (token : string) : bool :=
  eq_ignore_ascii_case (v2_token0 p) token || eq_ignore_ascii_case (v2_token1 p) token.

Definition v2_other_token (p : V2PoolState) (token : string) : option string :=
  if eq_ignore_ascii_case (v2_token0 p) token then Some (v2_token1 p)
  else if eq_ignore_ascii_case (v2_token1 p) token then Some (v2_token0 p)
  else None.

(** The returned pool is the mutated [self]; on an error [self] is unchanged. *)
Definition v2_apply_log (p : V2PoolState) (log : Log) :
    res MarketError (MarketEventOutcome * V2PoolState) :=
  match log_address log with
  | None => Ok (Ignored, p)
  | Some address =>
      if negb (eq_ignore_ascii_case address (v2_address p)) then Ok (Ignored, p) else
      match log_decoded_event log with
      | None => Ok (Ignored, p)
      | Some decoded =>
          match dl_kind decoded with
          | V2Sync =>
              reserve0 ← ok_or (dl_reserve0 decoded) (MissingDecodedField "reserve0");
              reserve1 ← ok_or (dl_reserve1 decoded) (MissingDecodedField "reserve1");
              p' ← v2_apply_sync p reserve0 reserve1
                     (block_number (md_block_context (log_metadata log)));
              Ok (Applied, p')
          | _ => Ok (Ignored, p)
          end
      end
  end.

Record V2SyncSnapshot := {
  snap_reserve0 : Amount;
  snap_reserve1 : Amount;
  snap_last_updated_block : option BlockNumber }.

Definition v2_snapshot (p : V2PoolState) : V2SyncSnapshot :=
  {| snap_reserve0 := v2_reserve0 p;
     snap_reserve1 := v2_reserve1 p;
     snap_last_updated_block := v2_last_updated_block p |}.

Definition v2_restore (p : V2PoolState) (s : V2SyncSnapshot) : V2PoolState :=
  v2_with_reserves p (snap_reserve0 s) (snap_reserve1 s) (snap_last_updated_block s).

(** ** Well-formed pools *)

Record v2_wf (p : V2PoolState) : Prop := {
  v2_wf_tokens : v2_token0 p ≠ v2_token1 p;
  v2_wf_reserve0 : 0 < v2_reserve0 p < 2 ^ 128;
  v2_wf_reserve1 : 0 < v2_reserve1 p < 2 ^ 128;
  v2_wf_fee : 0 ≤ v2_fee_bps p < 10000 }.

Lemma v2_validate_ok p :
  uint 128 (v2_reserve0 p) → uint 128 (v2_reserve1 p) → uint 32 (v2_fee_bps p) →
  v2_validate p = Ok tt ↔ v2_wf p.
Proof.
  unfold uint, v2_validate, BPS_DENOMINATOR. intros H0 H1 Hf.
  case_bool_decide as Ht; [split; [done|by intros []]|].
  repeat case_match; split; (done || (intros []; lia) || (intros _; constructor; (done || lia))).
Qed.

Lemma v2_sides_wf p t rin rout tok :
  v2_wf p → v2_sides p t = Some (rin, rout, tok) → 0 < rin < 2 ^ 128 ∧ 0 < rout < 2 ^ 128.
Proof. intros []. unfold v2_sides. repeat case_match; naive_solver. Qed.

(** ** The constant-product formula over unbounded integers *)

Definition v2_amount_out (fee rin rout a : Z) : Z :=
  a * (10000 - fee) * rout / (rin * 10000 + a * (10000 - fee)).

Section formula.
Context (fee rin rout : Z).
Hypothesis Hfee : 0 ≤ fee < 10000.
Hypothesis Hrin : 0 < rin.
Hypothesis Hrout : 0 < rout.

Lemma v2_amount_out_mul a : 0 < a →
  v2_amount_out fee rin rout a * (rin * 10000 + a * (10000 - fee)) ≤ a * (10000 - fee) * rout.
Proof.
  intros. unfold v2_amount_out. rewrite Z.mul_comm. apply Z.mul_div_le. nia.
Qed.

Lemma v2_amount_out_bounds a : 0 < a → 0 ≤ v2_amount_out fee rin rout a < rout.
Proof.
  intros. unfold v2_amount_out.
  split; [apply Z.div_pos; nia|]. apply Z.div_lt_upper_bound; nia.
Qed.

(** The pool never pays more than its curve allows, whatever the fee. *)
Lemma v2_amount_out_fair a : 0 < a →
  v2_amount_out fee rin rout a * (rin + a) ≤ a * rout.
Proof.
  intros Ha. pose proof (v2_amount_out_mul a Ha) as Hm.
  pose proof (v2_amount_out_bounds a Ha) as [Hp _].
  set (q := v2_amount_out fee rin rout a) in *.
  apply (Z.mul_le_mono_pos_r _ _ (10000 - fee)); [lia|].
  assert (q * rin * (10000 - fee) ≤ q * rin * 10000)
    by (apply Z.mul_le_mono_nonneg_l; [apply Z.mul_nonneg_nonneg; lia|lia]).
  lia.
Qed.

Lemma v2_amount_out_product a : 0 < a →
  rin * rout ≤ (rin + a) * (rout - v2_amount_out fee rin rout a).
Proof. intros Ha. pose proof (v2_amount_out_fair a Ha). lia. Qed.

Lemma v2_amount_out_mono a b : 0 < a → a ≤ b →
  v2_amount_out fee rin rout a ≤ v2_amount_out fee rin rout b.
Proof.
  intros Ha Hab. pose proof (v2_amount_out_mul a Ha) as Hm.
  pose proof (v2_amount_out_bounds a Ha) as [Hp Hq].
  set (q := v2_amount_out fee rin rout a) in *.
  unfold v2_amount_out. apply Z.div_le_lower_bound; [nia|].
  assert (a * (10000 - fee) * (rout - q) ≤ b * (10000 - fee) * (rout - q))
    by (apply Z.mul_le_mono_nonneg_r; [lia|apply Z.mul_le_mono_nonneg_r; lia]).
  lia.
Qed.
End formula.

(** ** Quotes *)

Lemma estimate_price_impact_bps_ok rin rout a out i :
  0 < rin → 0 ≤ rout → 0 ≤ out → estimate_price_impact_bps rin rout a out = Ok i → 0 ≤ i ≤ 10000.
Proof.
  unfold estimate_price_impact_bps, BPS_DENOMINATOR. intros Hrin Hrout Hout H.
  inv_res. inv_checked.
  assert (0 ≤ out * 10000 / Z.max a 1) by (apply Z.div_pos; lia).
  destruct (_ || _) eqn:Hc; [by simplify_eq|]. inv_res. inv_checked.
  set (qp := rout * 10000 / rin) in *.
  assert (0 ≤ qp) by (apply Z.div_pos; lia).
  split; [apply Z.min_glb; [apply Z.div_pos; lia|unfold uint_max; lia]|].
  etransitivity; [apply Z.le_min_l|]. apply Z.div_le_upper_bound; lia.
Qed.

Lemma estimate_price_impact_bps_no_panic rin rout a out :
  rin ≠ 0 → estimate_price_impact_bps rin rout a out ≠ Panic.
Proof.
  intros Hrin. unfold estimate_price_impact_bps.
  apply bind_no_panic; [auto with engine|]; intros n Hn.
  rewrite div_or_panic_nonzero by done. cbn [mbind res_bind].
  apply bind_no_panic; [auto with engine|]; intros m Hm.
  rewrite div_or_panic_nonzero by lia. cbn [mbind res_bind].
  destruct (_ || _) eqn:Hc; [done|].
  rewrite sub_or_panic_le by lia. cbn [mbind res_bind].
  apply bind_no_panic; [auto with engine|]; intros s Hs.
  by rewrite div_or_panic_nonzero by lia.
Qed.

(** What a successful quote reports. *)
Lemma v2_quote_inv p t a q :
  v2_wf p → 0 ≤ a → v2_quote_exact_in p t a = Ok q →
  ∃ rin rout tok, v2_sides p t = Some (rin, rout, tok) ∧ 0 < a ∧
    pq_pool_address q = v2_address p ∧ pq_token_in q = t ∧ pq_token_out q = tok ∧
    pq_amount_in q = a ∧ pq_fee_bps q = v2_fee_bps p ∧
    pq_amount_out q = v2_amount_out (v2_fee_bps p) rin rout a ∧
    pq_amount_out q ≠ 0 ∧
    estimate_price_impact_bps rin rout a (pq_amount_out q) = Ok (pq_price_impact_bps q) ∧
    a * (10000 - v2_fee_bps p) * rout < 2 ^ 128 ∧
    rin * 10000 + a * (10000 - v2_fee_bps p) < 2 ^ 128.
Proof.
  intros Hwf Ha. unfold v2_quote_exact_in, BPS_DENOMINATOR.
  destruct (a =? 0) eqn:Ha0; [done|]. rewrite bind_ok.
  intros ([[rin rout] tok] & Hs & H). inv_res.
  match goal with H : (checked_mul _ _ _ ≫= _) = Some _ |- _ =>
    apply bind_Some in H as (v & Hv & H) end.
  inv_checked. case_if H as Hz. inv_res.
  exists rin, rout, tok. unfold v2_amount_out. cbn [pq_pool_address pq_token_in
    pq_token_out pq_amount_in pq_amount_out pq_fee_bps pq_price_impact_bps].
  apply Z.eqb_neq in Hz, Ha0. split_and!; try done; lia.
Qed.

(** C8. A quote of a well-formed pool pays the floor of the fee-adjusted
    constant-product formula, is non-zero and strictly below the reserve paid
    out, never decreases the product of the reserves, and reports a price
    impact of at most 10000 bps. *)
Theorem v2_quote_sound p t a q :
  v2_wf p → uint 128 a → v2_quote_exact_in p t a = Ok q →
  ∃ rin rout tok, v2_sides p t = Some (rin, rout, tok) ∧
    pq_token_out q = tok ∧ pq_amount_in q = a ∧
    pq_amount_out q =
      a * (10000 - v2_fee_bps p) * rout / (rin * 10000 + a * (10000 - v2_fee_bps p)) ∧
    0 < pq_amount_out q < rout ∧
    rin * rout ≤ (rin + a) * (rout - pq_amount_out q) ∧
    0 ≤ pq_price_impact_bps q ≤ 10000.
Proof.
  intros Hwf [Ha _] Hq.
  destruct (v2_quote_inv p t a q Hwf Ha Hq)
    as (rin & rout & tok & Hs & Ha' & _ & _ & ? & ? & _ & Hout & Hnz & Himp & _ & _).
  destruct (v2_sides_wf _ _ _ _ _ Hwf Hs) as [Hrin Hrout]. destruct (v2_wf_fee p Hwf).
  pose proof (v2_amount_out_bounds (v2_fee_bps p) rin rout ltac:(lia) ltac:(lia) ltac:(lia) a Ha').
  exists rin, rout, tok. split_and!; try done; try lia.
  - rewrite Hout. apply v2_amount_out_product; lia.
  - eapply estimate_price_impact_bps_ok in Himp; lia.
  - eapply estimate_price_impact_bps_ok in Himp; lia.
Qed.

Lemma checked_mul_err w a b e e' :
  ok_or (checked_mul w a b) e = Err (E:=MarketError) (A:=Z) e' → e' = e ∧ 2 ^ w ≤ a * b.
Proof. unfold checked_mul. case_match; naive_solver lia. Qed.

Lemma estimate_price_impact_bps_err rin rout a out e :
  0 < rin → 0 ≤ rout → 0 ≤ out < rout → estimate_price_impact_bps rin rout a out = Err e →
  e = ArithmeticOverflow ∧ 2 ^ 128 ≤ rout * 10000 * 10000.
Proof.
  unfold estimate_price_impact_bps, BPS_DENOMINATOR. intros Hrin Hrout Hout H.
  apply bind_err in H as [H|(n1 & Hn1 & H)].
  { apply checked_mul_err in H as [-> H]. split; [done|lia]. }
  inv_res. inv_checked. rewrite div_or_panic_nonzero in H by lia. cbn [mbind res_bind] in H.
  apply bind_err in H as [H|(n2 & Hn2 & H)].
  { apply checked_mul_err in H as [-> H]. split; [done|lia]. }
  inv_res. inv_checked. rewrite div_or_panic_nonzero in H by lia. cbn [mbind res_bind] in H.
  case_if H as Hc. rewrite sub_or_panic_le in H by lia. cbn [mbind res_bind] in H.
  assert (rout * 10000 / rin ≤ rout * 10000) by (apply Z.div_le_upper_bound; nia).
  assert (0 ≤ out * 10000 / Z.max a 1) by (apply Z.div_pos; lia).
  apply bind_err in H as [H|(n3 & Hn3 & H)].
  { apply checked_mul_err in H as [-> H]. split; [done|lia]. }
  rewrite div_or_panic_nonzero in H by lia. done.
Qed.

Lemma v2_quote_no_panic p t a : v2_wf p → 0 ≤ a → v2_quote_exact_in p t a ≠ Panic.
Proof.
  intros Hwf Ha. destruct (v2_wf_fee p Hwf). unfold v2_quote_exact_in, BPS_DENOMINATOR.
  destruct (a =? 0) eqn:Ha0; [done|]. apply Z.eqb_neq in Ha0.
  apply bind_no_panic; [auto with engine|]; intros [[rin rout] tok] Hs. inv_res.
  destruct (v2_sides_wf _ _ _ _ _ Hwf Hs) as [Hrin Hrout].
  do 4 (apply bind_no_panic; [auto with engine|]; intros); inv_res; inv_checked.
  match goal with H : (checked_mul _ _ _ ≫= _) = Some _ |- _ =>
    apply bind_Some in H as (v & Hv & H) end.
  inv_checked. rewrite div_or_panic_nonzero by nia. cbn [mbind res_bind].
  destruct (_ =? 0); [done|].
  apply bind_no_panic; [apply estimate_price_impact_bps_no_panic; lia|done].
Qed.

(** C9. A quote of a well-formed pool always returns: it never panics, and each
    error is returned only in its own case. *)
Theorem v2_quote_total p t a :
  v2_wf p → uint 128 a →
  match v2_quote_exact_in p t a with
  | Ok _ => a ≠ 0
  | Err InsufficientInput => a = 0
  | Err (UnknownToken address token) =>
      a ≠ 0 ∧ v2_sides p t = None ∧ address = v2_address p ∧ token = t
  | Err InsufficientLiquidity => a ≠ 0 ∧ ∃ rin rout tok, v2_sides p t = Some (rin, rout, tok) ∧
      v2_amount_out (v2_fee_bps p) rin rout a = 0
  | Err ArithmeticOverflow => a ≠ 0 ∧ ∃ rin rout tok, v2_sides p t = Some (rin, rout, tok) ∧
      (2 ^ 128 ≤ a * (10000 - v2_fee_bps p) * rout ∨
       2 ^ 128 ≤ rin * 10000 + a * (10000 - v2_fee_bps p) ∨
       2 ^ 128 ≤ rout * 10000 * 10000)
  | _ => False
  end.
Proof.
  intros Hwf [Ha _]. destruct (v2_wf_fee p Hwf) as [Hf0 Hf].
  unfold v2_quote_exact_in, BPS_DENOMINATOR. destruct (a =? 0) eqn:Ha0; [lia|].
  apply Z.eqb_neq in Ha0. destruct (v2_sides p t) as [[[rin rout] tok]|] eqn:Hs; cbn [ok_or mbind res_bind]; [|done].
  destruct (v2_sides_wf _ _ _ _ _ Hwf Hs) as [Hrin Hrout].
  unfold checked_sub. replace (v2_fee_bps p <=? 10000) with true by lia. cbn [ok_or mbind res_bind].
  set (m := 10000 - v2_fee_bps p).
  destruct (checked_mul 128 a m) as [am|] eqn:Ham; cbn [ok_or mbind res_bind option_bind].
  2:{ split; [done|]. exists rin, rout, tok. unfold checked_mul in Ham. case_match; [done|].
      split; [done|]. left. nia. }
  apply checked_mul_some in Ham as [-> Ham].
  destruct (checked_mul 128 (a * m) rout) as [n|] eqn:Hn; cbn [ok_or mbind res_bind option_bind].
  2:{ split; [done|]. exists rin, rout, tok. unfold checked_mul in Hn. case_match; [done|]. split; [done|]. lia. }
  apply checked_mul_some in Hn as [-> Hn].
  destruct (checked_mul 128 rin 10000) as [v|] eqn:Hv; cbn [ok_or mbind res_bind option_bind].
  2:{ split; [done|]. exists rin, rout, tok. unfold checked_mul in Hv. case_match; [done|]. split; [done|]. nia. }
  apply checked_mul_some in Hv as [-> Hv].
  destruct (checked_add _ _ _) as [d|] eqn:Hd; cbn [ok_or mbind res_bind option_bind].
  2:{ split; [done|]. exists rin, rout, tok. unfold checked_add in Hd. case_match; [done|]. split; [done|]. lia. }
  apply checked_add_some in Hd as [-> Hd].
  rewrite div_or_panic_nonzero by nia. cbn [mbind res_bind].
  change (a * m * rout / (rin * 10000 + a * m)) with (v2_amount_out (v2_fee_bps p) rin rout a).
  pose proof (v2_amount_out_bounds (v2_fee_bps p) rin rout ltac:(lia) ltac:(lia) ltac:(lia)
    a ltac:(lia)) as Hout.
  destruct (_ =? 0) eqn:Hz; [split; [done|]; exists rin, rout, tok; split; [done|lia]|].
  pose proof (estimate_price_impact_bps_no_panic rin rout a
    (v2_amount_out (v2_fee_bps p) rin rout a) ltac:(lia)) as Hnp.
  destruct (estimate_price_impact_bps _ _ _ _) as [i|e|] eqn:Hi; cbn [mbind res_bind]; [lia| |done].
  apply estimate_price_impact_bps_err in Hi as [-> Ho]; [|lia..].
  split; [done|]. exists rin, rout, tok. auto.
Qed.

(** A larger input never buys less from the same pool. *)
Theorem v2_quote_monotone p t a b qa qb :
  v2_wf p → uint 128 a → uint 128 b → a ≤ b →
  v2_quote_exact_in p t a = Ok qa → v2_quote_exact_in p t b = Ok qb →
  pq_amount_out qa ≤ pq_amount_out qb.
Proof.
  intros Hwf [Ha _] [Hb _] Hab Hqa Hqb.
  destruct (v2_quote_inv _ _ _ _ Hwf Ha Hqa)
    as (rin & rout & tok & Hs & Ha' & _ & _ & _ & _ & _ & -> & _).
  destruct (v2_quote_inv _ _ _ _ Hwf Hb Hqb)
    as (rin' & rout' & tok' & Hs' & Hb' & _ & _ & _ & _ & _ & -> & _). simplify_eq.
  destruct (v2_sides_wf _ _ _ _ _ Hwf Hs), (v2_wf_fee p Hwf).
  apply v2_amount_out_mono; lia.
Qed.

(** The pool after a swap settled at the quoted amounts. *)
Definition v2_after_swap (p : V2PoolState) (t : string) (a out : Z) : V2PoolState :=
  if eq_ignore_ascii_case t (v2_token0 p)
  then v2_with_reserves p (v2_reserve0 p + a) (v2_reserve1 p - out) (v2_last_updated_block p)
  else v2_with_reserves p (v2_reserve0 p - out) (v2_reserve1 p + a) (v2_last_updated_block p).

(** Swapping through one pool and straight back never returns more than was
    put in, so a loop needs two pools. *)
Theorem v2_round_trip_no_profit p t a q q' :
  v2_wf p → uint 128 a →
  eq_ignore_ascii_case (v2_token0 p) (v2_token1 p) = false →
  v2_quote_exact_in p t a = Ok q →
  v2_wf (v2_after_swap p t a (pq_amount_out q)) →
  v2_quote_exact_in (v2_after_swap p t a (pq_amount_out q))
    (pq_token_out q) (pq_amount_out q) = Ok q' →
  pq_amount_out q' ≤ a.
Proof.
  intros Hwf Hua Hne Hq Hwf' Hq'. destruct Hua as [Ha _].
  destruct (v2_quote_inv _ _ _ _ Hwf Ha Hq)
    as (rin & rout & tok & Hs & Ha' & _ & _ & Htok & _ & _ & Hout & Hnz & _).
  destruct (v2_sides_wf _ _ _ _ _ Hwf Hs) as [Hrin Hrout]. destruct (v2_wf_fee p Hwf) as [Hf0 Hf1].
  pose proof (v2_amount_out_fair (v2_fee_bps p) rin rout ltac:(lia) ltac:(lia) ltac:(lia)
    a ltac:(lia)) as Hfair. rewrite <- Hout in Hfair.
  pose proof (v2_amount_out_bounds (v2_fee_bps p) rin rout ltac:(lia) ltac:(lia) ltac:(lia)
    a ltac:(lia)) as Hb. rewrite <- Hout in Hb.
  set (y := pq_amount_out q) in *.
  destruct (v2_quote_inv _ _ _ _ Hwf' (proj1 Hb) Hq')
    as (rin' & rout' & tok' & Hs' & _ & _ & _ & _ & _ & _ & Hout' & _).
  assert (rin' = rout - y ∧ rout' = rin + a) as [-> ->].
  { revert Hs Hs'. rewrite Htok. unfold v2_sides, v2_after_swap.
    destruct (eq_ignore_ascii_case t (v2_token0 p)) eqn:E0;
      [|destruct (eq_ignore_ascii_case t (v2_token1 p)); [|done]];
      injection 1 as <- <- <-; cbn; [|rewrite eq_ignore_ascii_case_refl; naive_solver].
    rewrite (eq_ignore_ascii_case_sym (v2_token1 p) (v2_token0 p)), Hne,
      eq_ignore_ascii_case_refl. naive_solver. }
  assert (v2_fee_bps (v2_after_swap p t a y) = v2_fee_bps p) as Hfee
    by (unfold v2_after_swap; by case_match).
  rewrite Hfee in Hout'.
  pose proof (v2_amount_out_fair (v2_fee_bps p) (rout - y) (rin + a) ltac:(lia) ltac:(lia)
    ltac:(lia) y ltac:(lia)) as Hfair'. rewrite <- Hout' in Hfair'.
  nia.
Qed.

(** A trade of at least one token of 18 decimals against a reserve of at least
    [10^17] base units overflows the 128-bit numerator, so a well-formed pool
    refuses to quote it whenever its fee is at most 50 %. *)
Theorem v2_quote_refuses_18_decimals p t a rin rout tok :
  v2_wf p → v2_sides p t = Some (rin, rout, tok) → v2_fee_bps p ≤ 5000 →
  10 ^ 18 ≤ a → 10 ^ 17 ≤ rout →
  v2_quote_exact_in p t a = Err ArithmeticOverflow.
Proof.
  intros Hwf Hs Hf Ha Hr. destruct (v2_wf_fee p Hwf).
  unfold v2_quote_exact_in, BPS_DENOMINATOR, checked_sub.
  replace (a =? 0) with false by lia. rewrite Hs. cbn [ok_or mbind res_bind].
  replace (v2_fee_bps p <=? 10000) with true by lia. cbn [ok_or mbind res_bind].
  destruct (checked_mul 128 a _) eqn:Hm; cbn [ok_or mbind res_bind]; [|done]. inv_checked.
  replace (checked_mul 128 (a * (10000 - v2_fee_bps p)) rout) with (@None Z); [done|].
  unfold checked_mul. symmetry.
  replace (a * (10000 - v2_fee_bps p) * rout <? 2 ^ 128) with false; [done|].
  symmetry. apply Z.ltb_ge.
  assert (10 ^ 18 * 5000 ≤ a * (10000 - v2_fee_bps p)) by (apply Z.mul_le_mono_nonneg; lia).
  assert (10 ^ 18 * 5000 * 10 ^ 17 ≤ a * (10000 - v2_fee_bps p) * rout)
    by (apply Z.mul_le_mono_nonneg; lia).
  lia.
Qed.

(** ** Logs *)

Lemma v2_apply_log_wf p log o p' :
  v2_wf p →
  (∀ d, log_decoded_event log = Some d →
     (∀ r, dl_reserve0 d = Some r → uint 128 r) ∧ (∀ r, dl_reserve1 d = Some r → uint 128 r)) →
  v2_apply_log p log = Ok (o, p') → v2_wf p' ∧ v2_address p' = v2_address p.
Proof.
  intros Hwf Hd. unfold v2_apply_log, v2_apply_sync. repeat case_match; try naive_solver.
  intros H'. inv_res. specialize (Hd _ eq_refl) as [Hu0 Hu1].
  match goal with H : (if _ then _ else _) = Ok _ |- _ => case_if H as Hz end. inv_res.
  split; [|done].
  specialize (Hu0 _ ltac:(eassumption)). specialize (Hu1 _ ltac:(eassumption)).
  unfold uint in *. destruct Hwf. constructor; cbn; (done || lia).
Qed.
