(* ===== verification/U256.v ===== *)
(** The interface of [alloy_primitives::U256], the 256-bit integer the engine
    takes from a library.  The value of a [U256] is a [Z]; the operations are
    the methods of a class and their documented behaviour, on arguments in range,
    is the class [U256Laws].  [u256_Z] is a concrete instance. *)

From S2P Require Import Prelude RustStr.
#[local] Open Scope Z_scope.

Class U256 := {
  u256_checked_add : Z → Z → option Z;
  u256_checked_sub : Z → Z → option Z;
  u256_checked_mul : Z → Z → option Z;
  u256_div : Z → Z → Z;                       (* operator [/], divisor not zero *)
  u256_rem : Z → Z → Z;                       (* operator [%], divisor not zero *)
  u256_add : Z → Z → Z;                       (* operator [+] *)
  u256_sub : Z → Z → Z;                       (* operator [-] *)
  u256_mul : Z → Z → Z;                       (* operator [*] *)
  u256_shl : Z → Z → Z;
  u256_shr : Z → Z → Z;
  u256_into_limbs : Z → Z * Z * Z * Z;        (* four [u64], least significant first *)
  u256_from_str_radix : string → Z → option Z }.

Class U256Laws (U : U256) : Prop := {
  u256_checked_add_law a b : uint 256 a → uint 256 b →
    u256_checked_add a b = checked_add 256 a b;
  u256_checked_sub_law a b : uint 256 a → uint 256 b →
    u256_checked_sub a b = checked_sub a b;
  u256_checked_mul_law a b : uint 256 a → uint 256 b →
    u256_checked_mul a b = checked_mul 256 a b;
  u256_div_law a b : uint 256 a → uint 256 b → b ≠ 0 → u256_div a b = a / b;
  u256_rem_law a b : uint 256 a → uint 256 b → b ≠ 0 → u256_rem a b = a mod b;
  u256_add_law a b : uint 256 a → uint 256 b → uint 256 (a + b) → u256_add a b = a + b;
  u256_sub_law a b : uint 256 a → uint 256 b → b ≤ a → u256_sub a b = a - b;
  u256_mul_law a b : uint 256 a → uint 256 b → uint 256 (a * b) → u256_mul a b = a * b;
  u256_shl_law a n : uint 256 a → 0 ≤ n < 256 → u256_shl a n = (a * 2 ^ n) mod 2 ^ 256;
  u256_shr_law a n : uint 256 a → 0 ≤ n < 256 → u256_shr a n = a / 2 ^ n;
  u256_into_limbs_law a : uint 256 a →
    u256_into_limbs a =
      (a mod 2 ^ 64, a / 2 ^ 64 mod 2 ^ 64, a / 2 ^ 128 mod 2 ^ 64, a / 2 ^ 192);
  u256_from_str_radix_range s radix n : u256_from_str_radix s radix = Some n → uint 256 n;
  u256_from_str_radix_digits s radix n : radix = 10 ∨ radix = 16 → s ≠ "" →
    parse_digits 256 radix 0 s = Ok n → u256_from_str_radix s radix = Some n }.

(** The operator [/]: a zero divisor panics. *)
Definition u256_div_or_panic `{U256} {E : Type} (a b : Z) : res E Z :=
  if b =? 0 then Panic else Ok (u256_div a b).

(** ** A concrete instance *)

#[global] Instance u256_Z : U256 := {|
  u256_checked_add := checked_add 256;
  u256_checked_sub := checked_sub;
  u256_checked_mul := checked_mul 256;
  u256_div a b := a / b;
  u256_rem a b := a mod b;
  u256_add a b := (a + b) mod 2 ^ 256;
  u256_sub a b := (a - b) mod 2 ^ 256;
  u256_mul a b := (a * b) mod 2 ^ 256;
  u256_shl a n := (a * 2 ^ n) mod 2 ^ 256;
  u256_shr a n := a / 2 ^ n;
  u256_into_limbs a :=
    (a mod 2 ^ 64, a / 2 ^ 64 mod 2 ^ 64, a / 2 ^ 128 mod 2 ^ 64, a / 2 ^ 192);
  u256_from_str_radix s radix :=
    match s with
    | EmptyString => None
    | _ => if (radix =? 10) || (radix =? 16)
           then match parse_digits 256 radix 0 s with Ok n => Some n | _ => None end
           else None
    end |}.

#[global] Instance u256_Z_laws : U256Laws u256_Z.
Proof.
  constructor; cbn -[Z.pow parse_digits]; unfold uint; intros; try done.
  - apply Z.mod_small. lia.
  - apply Z.mod_small. lia.
  - apply Z.mod_small. lia.
  - assert (uint 256 0) by (unfold uint; lia). destruct s; [done|].
    destruct ((radix =? 10) || (radix =? 16)) eqn:Hr; [|done].
    destruct (parse_digits _ _ _ _) eqn:Hp; simplify_eq.
    eapply parse_digits_uint in Hp; [exact Hp|lia|done].
  - destruct s; [done|]. replace ((radix =? 10) || (radix =? 16)) with true by lia.
    match goal with H : parse_digits _ _ _ _ = Ok _ |- _ => by rewrite H end.
Qed.

(** ** Derived facts *)
Section laws.
Context {U : U256} {HU : U256Laws U}.

Lemma u256_div_or_panic_ok {E : Type} a b :
  uint 256 a → uint 256 b → b ≠ 0 → u256_div_or_panic (E:=E) a b = Ok (a / b).
Proof.
  intros. unfold u256_div_or_panic. replace (b =? 0) with false by lia.
  by rewrite u256_div_law.
Qed.

Lemma u256_low_limbs a : uint 256 a → a < 2 ^ 128 →
  match u256_into_limbs a with
  | (l0, l1, l2, l3) => l2 = 0 ∧ l3 = 0 ∧ Z.lor (Z.shiftl l1 64) l0 = a
  end.
Proof.
  intros Ha Hlt. rewrite u256_into_limbs_law by done. unfold uint in Ha.
  rewrite (Z.div_small a (2 ^ 128)), (Z.div_small a (2 ^ 192)) by lia.
  split_and!; [done..|].
  assert (0 ≤ a / 2 ^ 64) by (apply Z.div_pos; lia).
  assert (a / 2 ^ 64 < 2 ^ 64) by (apply Z.div_lt_upper_bound; lia).
  rewrite (Z.mod_small (a / 2 ^ 64)) by lia.
  rewrite <- Z.land_ones, Z.lor_comm by lia.
  pose proof (Z.add_lor_land (Z.land a (Z.ones 64)) (Z.shiftl (a / 2 ^ 64) 64)) as Hs.
  replace (Z.land (Z.land a (Z.ones 64)) (Z.shiftl (a / 2 ^ 64) 64)) with 0 in Hs.
  - rewrite (Z.land_ones a 64) in Hs at 2 by lia. rewrite Z.shiftl_mul_pow2 in Hs at 2 by lia.
    pose proof (Z.div_mod a (2 ^ 64)). lia.
  - symmetry. apply Z.bits_inj'. intros n Hn. rewrite !Z.land_spec, Z.bits_0.
    rewrite Z.testbit_ones_nonneg by lia. destruct (n <? 64) eqn:E.
    + rewrite Z.shiftl_spec_low by lia. by rewrite andb_false_r.
    + by rewrite andb_false_r.
Qed.

Lemma u256_high_limbs a : uint 256 a → 2 ^ 128 ≤ a →
  match u256_into_limbs a with (_, _, l2, l3) => l2 ≠ 0 ∨ l3 ≠ 0 end.
Proof.
  intros Ha Hge. rewrite u256_into_limbs_law by done. unfold uint in Ha.
  destruct (decide (a / 2 ^ 192 = 0)) as [Hz|]; [left|by right].
  assert (a < 2 ^ 192) by (apply Z.div_small_iff in Hz; lia).
  rewrite Z.mod_small.
  - intros Hz'. apply Z.div_small_iff in Hz'; lia.
  - split; [apply Z.div_pos; lia|apply Z.div_lt_upper_bound; lia].
Qed.
End laws.
