(* ===== verification/MarketsV3.v ===== *)
(** Concentrated-liquidity pools (crate [markets], [v3.rs]): pool state,
    validation, the in-range quote, the application of [Swap] logs and the
    tick-to-price table.  The 256-bit arithmetic is the interface [U256]. *)

From S2P Require Import Prelude RustStr Types MarketsV2 U256.
#[local] Open Scope Z_scope.

Definition FEE_PIPS_DENOMINATOR : Z := 1000000.
Definition MAX_IN_RANGE_IMPACT_BPS : Z := 500.

Record V3PoolState := {
  v3_address : Address;
  v3_protocol : Protocol.Protocol;
  v3_exchange : option Exchange.Exchange;
  v3_token0 : Address;
  v3_token1 : Address;
  v3_fee_pips : Z;                            (* u32 *)
  v3_tick_spacing : Z;                        (* i32 *)
  v3_sqrt_price_x96 : Z;                      (* U256 *)
  v3_liquidity : Z;                           (* u128 *)
  v3_tick : Z;                                (* i32 *)
  v3_last_updated_block : option BlockNumber }.

#[global] Instance V3PoolState_eq_dec : EqDecision V3PoolState.
Proof. solve_decision. Defined.

Definition v3_contains_token (p : V3PoolState) (token : string) : bool :=
  eq_ignore_ascii_case (v3_token0 p) token || eq_ignore_ascii_case (v3_token1 p) token.

Definition v3_other_token (p : V3PoolState) (token : string) : option string :=
  if eq_ignore_ascii_case (v3_token0 p) token then Some (v3_token1 p)
  else if eq_ignore_ascii_case (v3_token1 p) token then Some (v3_token0 p)
  else None.

(** [self.sqrt_price_x96 = ..; self.liquidity = ..; self.tick = ..]. *)
Definition v3_with_price (p : V3PoolState) (sqrt_price liquidity tick : Z)
    (b : option BlockNumber) : V3PoolState :=
  {| v3_address := v3_address p; v3_protocol := v3_protocol p;
     v3_exchange := v3_exchange p; v3_token0 := v3_token0 p; v3_token1 := v3_token1 p;
     v3_fee_pips := v3_fee_pips p; v3_tick_spacing := v3_tick_spacing p;
     v3_sqrt_price_x96 := sqrt_price; v3_liquidity := liquidity; v3_tick := tick;
     v3_last_updated_block := b |}.

(** [Result::expect] and [unwrap]. *)
Definition expect {E A : Type} (o : option A) : res E A :=
  match o with Some a => Ok a | None => Panic end.

Section ops.
Context {U : U256}.

Definition q96 : Z := u256_shl 1 96.

(** The price in the serialised pool: its decimal text, and the parser of the type. *)
Definition u256_decimal_serialize (value : Z) : string := show_uint value.
Definition u256_decimal_deserialize (raw : string) : option Z := u256_from_str_radix raw 10.

Definition max_sqrt_price : res MarketError Z :=
  expect (u256_from_str_radix "1461446703485210103287273052203988822378723970342" 10).

Definition min_sqrt_price : Z := 4295128739.

(** The test [price < min_sqrt_price() || price > max_sqrt_price()]. *)
Definition outside_price_range (price : Z) : res MarketError bool :=
  if price <? min_sqrt_price then Ok true
  else max ← max_sqrt_price; Ok (max <? price).

Definition v3_validate (p : V3PoolState) : res MarketError unit :=
  if bool_decide (v3_token0 p = v3_token1 p)
  then Err (InvalidPool "v3 pool tokens must be distinct addresses")
  else if FEE_PIPS_DENOMINATOR <=? v3_fee_pips p
  then Err (InvalidPool "v3 fee_pips must be lower than 1_000_000")
  else if v3_tick_spacing p <=? 0
  then Err (InvalidPool "v3 tick_spacing must be positive")
  else
    outside ← outside_price_range (v3_sqrt_price_x96 p);
    if (outside : bool)
    then Err (InvalidPool "v3 sqrt_price_x96 outside the protocol-defined range")
    else if v3_liquidity p =? 0 then Err InsufficientLiquidity
    else Ok tt.

Definition v3_new (address : Address) (protocol : Protocol.Protocol)
    (exchange : option Exchange.Exchange) (token0 token1 : Address)
    (fee_pips tick_spacing sqrt_price_x96 liquidity tick : Z) :
    res MarketError V3PoolState :=
  let state := {| v3_address := address; v3_protocol := protocol;
                  v3_exchange := exchange; v3_token0 := token0; v3_token1 := token1;
                  v3_fee_pips := fee_pips; v3_tick_spacing := tick_spacing;
                  v3_sqrt_price_x96 := sqrt_price_x96; v3_liquidity := liquidity;
                  v3_tick := tick; v3_last_updated_block := None |} in
  _ ← v3_validate state;
  mret state.

Definition apply_v3_swap_event (p : V3PoolState) (decoded : DecodedLogEvent) :
    res MarketError V3PoolState :=
  new_sqrt_price ← ok_or (dl_sqrt_price_x96 decoded) (MissingDecodedField "sqrt_price_x96");
  new_sqrt_price ← ok_or (u256_from_str_radix new_sqrt_price 10)
                         (MissingDecodedField "sqrt_price_x96");
  new_liquidity ← ok_or (dl_liquidity decoded) (MissingDecodedField "liquidity");
  new_tick ← ok_or (dl_tick decoded) (MissingDecodedField "tick");
  outside ← outside_price_range new_sqrt_price;
  if (outside : bool)
  then Err (InvalidPool "v3 swap event sqrt_price_x96 outside the protocol-defined range")
  else Ok (v3_with_price p new_sqrt_price new_liquidity new_tick (v3_last_updated_block p)).

(** The returned pool is the mutated [self]; on an error [self] is unchanged. *)
Definition v3_apply_log (p : V3PoolState) (log : Log) :
    res MarketError (MarketEventOutcome * V3PoolState) :=
  match log_address log with
  | None => Ok (Ignored, p)
  | Some address =>
      if negb (eq_ignore_ascii_case address (v3_address p)) then Ok (Ignored, p) else
      match log_decoded_event log with
      | None => Ok (Ignored, p)
      | Some decoded =>
          match dl_kind decoded with
          | V3Swap =>
              p' ← apply_v3_swap_event p decoded;
              Ok (Applied, v3_with_price p' (v3_sqrt_price_x96 p') (v3_liquidity p')
                             (v3_tick p') (block_number (md_block_context (log_metadata log))))
          | _ => Ok (Ignored, p)
          end
      end
  end.

Definition mul_u256 (a b : Z) : res MarketError Z :=
  ok_or (u256_checked_mul a b) ArithmeticOverflow.

Definition div_round_up (numerator denominator : Z) : res MarketError Z :=
  if denominator =? 0 then Err ArithmeticOverflow else
  let q := u256_div numerator denominator in
  let r := u256_rem numerator denominator in
  if r =? 0 then Ok q else ok_or (u256_checked_add q 1) ArithmeticOverflow.

Definition u256_to_u128 (value : Z) : res MarketError Z :=
  let '(l0, l1, l2, l3) := u256_into_limbs value in
  if negb (l2 =? 0) || negb (l3 =? 0) then Err ArithmeticOverflow
  else Ok (Z.lor (Z.shiftl l1 64) l0).

Definition price_impact_bps (sqrt_before sqrt_after : Z) (zero_for_one : bool) :
    res MarketError Z :=
  let scale (num denom : Z) : res MarketError Z :=
    bps_u256 ← u256_div_or_panic (u256_mul num 20000) denom;
    if uint_max 32 <? bps_u256 then Ok (uint_max 32)
    else let '(l0, _, _, _) := u256_into_limbs bps_u256 in Ok (l0 mod 2 ^ 32) in
  if zero_for_one then
    if sqrt_before <=? sqrt_after then Ok 0
    else scale (u256_sub sqrt_before sqrt_after) sqrt_before
  else
    if sqrt_after <=? sqrt_before then Ok 0
    else scale (u256_sub sqrt_after sqrt_before) sqrt_before.

(** Step 2 of [quote_exact_in]: the square-root price after the swap. *)
Definition v3_sqrt_price_next (zero_for_one : bool) (sqrt_price liquidity amount : Z) :
    res MarketError Z :=
  numerator1 ← mul_u256 liquidity q96;
  if zero_for_one then
    quotient ← u256_div_or_panic numerator1 sqrt_price;
    divisor ← ok_or (u256_checked_add quotient amount) ArithmeticOverflow;
    div_round_up numerator1 divisor
  else
    scaled ← mul_u256 amount q96;
    delta ← u256_div_or_panic scaled liquidity;
    ok_or (u256_checked_add sqrt_price delta) ArithmeticOverflow.

(** Step 4 of [quote_exact_in]: the amount paid out for the move of the price. *)
Definition v3_amount_out (zero_for_one : bool) (sqrt_price sqrt_price_next liquidity : Z) :
    res MarketError Z :=
  if zero_for_one then
    diff ← ok_or (u256_checked_sub sqrt_price sqrt_price_next) ArithmeticOverflow;
    product ← mul_u256 liquidity diff;
    u256_div_or_panic product q96
  else
    diff ← ok_or (u256_checked_sub sqrt_price_next sqrt_price) ArithmeticOverflow;
    product ← mul_u256 liquidity diff;
    numerator ← mul_u256 product q96;
    denominator ← mul_u256 sqrt_price sqrt_price_next;
    u256_div_or_panic numerator denominator.

Definition v3_quote_exact_in (p : V3PoolState) (token_in : string) (amount_in : Z) :
    res MarketError PoolQuote :=
  if amount_in =? 0 then Err InsufficientInput else
  if v3_liquidity p =? 0 then Err InsufficientLiquidity else
  zero_for_one ← (if eq_ignore_ascii_case token_in (v3_token0 p) then Ok true
                  else if eq_ignore_ascii_case token_in (v3_token1 p) then Ok false
                  else Err (UnknownToken (v3_address p) token_in));
  let token_out := if (zero_for_one : bool) then v3_token1 p else v3_token0 p in
  fee_factor ← sub_or_panic FEE_PIPS_DENOMINATOR (v3_fee_pips p);
  scaled ← ok_or (checked_mul 128 amount_in fee_factor) ArithmeticOverflow;
  let amount_in_less_fee := scaled / FEE_PIPS_DENOMINATOR in
  if amount_in_less_fee =? 0 then Err InsufficientInput else
  let liquidity := v3_liquidity p in
  let sqrt_price := v3_sqrt_price_x96 p in
  sqrt_price_next ← v3_sqrt_price_next zero_for_one sqrt_price liquidity amount_in_less_fee;
  provisional_impact ← price_impact_bps sqrt_price sqrt_price_next zero_for_one;
  if MAX_IN_RANGE_IMPACT_BPS <? provisional_impact then Err InsufficientLiquidity else
  amount_out_u256 ← v3_amount_out zero_for_one sqrt_price sqrt_price_next liquidity;
  amount_out ← u256_to_u128 amount_out_u256;
  if amount_out =? 0 then Err InsufficientLiquidity else
  impact ← price_impact_bps sqrt_price sqrt_price_next zero_for_one;
  Ok {| pq_pool_address := v3_address p;
        pq_token_in := token_in;
        pq_token_out := token_out;
        pq_amount_in := amount_in;
        pq_amount_out := amount_out;
        pq_fee_bps := (v3_fee_pips p + 99) / 100;
        pq_price_impact_bps := impact |}.

Definition CONSTANTS : list string := [
  "0xfffcb933bd6fad37aa2d162d1a594001";
  "0xfff97272373d413259a46990580e213a";
  "0xfff2e50f5f656932ef12357cf3c7fdcc";
  "0xffe5caca7e10e4e61c3624eaa0941cd0";
  "0xffcb9843d60f6159c9db58835c926644";
  "0xff973b41fa98c081472e6896dfb254c0";
  "0xff2ea16466c96a3843ec78b326b52861";
  "0xfe5dee046a99a2a811c461f1969c3053";
  "0xfcbe86c7900a88aedcffc83b479aa3a4";
  "0xf987a7253ac413176f2b074cf7815e54";
  "0xf3392b0822b70005940c7a398e4b70f3";
  "0xe7159475a2c29b7443b29c7fa6e889d9";
  "0xd097f3bdfd2022b8845ad8f792aa5825";
  "0xa9f746462d870fdf8a65dc1f90e061e5";
  "0x70d869a156d2a1b890bb3df62baf32f7";
  "0x31be135f97d08fd981231505542fcfa6";
  "0x9aa508b5b7a84e1c677de54f3e99bc9";
  "0x5d6af8dedb81196699c329225ee604";
  "0x2216e584f5fa1ea926041bedfe98";
  "0x48a170391f7dc42444e8fa2"]%string.

(** The loop over the entries from index [idx] on. *)
Fixpoint ratio_loop (abs_tick idx : Z) (entries : list string) (ratio : Z) :
    res MarketError Z :=
  match entries with
  | [] => Ok ratio
  | raw :: entries =>
      if negb (Z.land abs_tick (Z.shiftl 1 idx) =? 0) then
        factor ← expect (u256_from_str_radix (trim_start_matches "0x" raw) 16);
        ratio_loop abs_tick (idx + 1) entries (u256_shr (u256_mul ratio factor) 128)
      else ratio_loop abs_tick (idx + 1) entries ratio
  end.

Definition MIN_TICK : Z := -887272.
Definition MAX_TICK : Z := 887272.

Definition get_sqrt_ratio_at_tick (tick : Z) : res MarketError Z :=
  if negb ((MIN_TICK <=? tick) && (tick <=? MAX_TICK))
  then Err (InvalidPool "v3 tick outside protocol bounds") else
  let abs_tick := Z.abs tick in
  ratio ← (if negb (Z.land abs_tick 1 =? 0)
           then expect (u256_from_str_radix "fffcb933bd6fad37aa2d162d1a594001" 16)
           else Ok (u256_shl 1 128));
  ratio ← ratio_loop abs_tick 1 (drop 1 CONSTANTS) ratio;
  ratio ← (if 0 <? tick then u256_div_or_panic (uint_max 256) ratio else Ok ratio);
  let shifted := u256_shr ratio 32 in
  let modulus := u256_shl 1 32 in
  if modulus =? 0 then Panic else
  if u256_rem ratio modulus =? 0 then Ok shifted else Ok (u256_add shifted 1).

End ops.

(** ** Well-formed pools *)

Definition MAX_SQRT_PRICE : Z := 1461446703485210103287273052203988822378723970342.

(** The liquidity may be zero: a [Swap] log can report it. *)
Record v3_wf (p : V3PoolState) : Prop := {
  v3_wf_tokens : v3_token0 p ≠ v3_token1 p;
  v3_wf_fee : 0 ≤ v3_fee_pips p < 1000000;
  v3_wf_spacing : 0 < v3_tick_spacing p;
  v3_wf_price : min_sqrt_price ≤ v3_sqrt_price_x96 p ≤ MAX_SQRT_PRICE;
  v3_wf_liquidity : uint 128 (v3_liquidity p) }.

(** The direction of a swap of [token_in] and the token paid out. *)
Definition v3_side (p : V3PoolState) (token_in : string) : option (bool * Address) :=
  if eq_ignore_ascii_case token_in (v3_token0 p) then Some (true, v3_token1 p)
  else if eq_ignore_ascii_case token_in (v3_token1 p) then Some (false, v3_token0 p)
  else None.

(** The input left after the fee. *)
Definition v3_less_fee (p : V3PoolState) (amount_in : Z) : Z :=
  amount_in * (1000000 - v3_fee_pips p) / 1000000.

Section arith.
Context {U : U256} {HU : U256Laws U}.

Lemma q96_eq : q96 = 2 ^ 96.
Proof. unfold q96. by rewrite u256_shl_law by (unfold uint; lia). Qed.

Lemma max_sqrt_price_eq : max_sqrt_price = Ok MAX_SQRT_PRICE.
Proof.
  unfold max_sqrt_price.
  by rewrite (u256_from_str_radix_digits _ _ MAX_SQRT_PRICE) by (auto; by vm_compute).
Qed.

Lemma outside_price_range_eq price :
  outside_price_range price =
    Ok (negb (bool_decide (min_sqrt_price ≤ price ≤ MAX_SQRT_PRICE))).
Proof.
  unfold outside_price_range. rewrite max_sqrt_price_eq. cbn [mbind res_bind].
  case_bool_decide; destruct (price <? min_sqrt_price) eqn:E; simpl; try lia; f_equal; lia.
Qed.

Lemma v3_validate_ok p :
  uint 32 (v3_fee_pips p) → uint 128 (v3_liquidity p) →
  v3_validate p = Ok tt ↔ v3_wf p ∧ v3_liquidity p ≠ 0.
Proof.
  unfold v3_validate, FEE_PIPS_DENOMINATOR. intros [Hf _] HL.
  rewrite outside_price_range_eq. cbn [mbind res_bind]. split.
  - intros H. repeat (case_match; [done|]).
    repeat match goal with
    | H : negb (bool_decide _) = false |- _ => apply negb_false_iff, bool_decide_eq_true in H
    | H : bool_decide _ = false |- _ => apply bool_decide_eq_false in H
    end.
    split; [constructor; (done || lia)|lia].
  - intros [[] Hz]. rewrite bool_decide_false by done.
    replace (1000000 <=? v3_fee_pips p) with false by lia.
    replace (v3_tick_spacing p <=? 0) with false by lia.
    rewrite bool_decide_true by done. simpl. by replace (v3_liquidity p =? 0) with false by lia.
Qed.

Lemma v3_apply_log_wf p log o p' :
  v3_wf p →
  (∀ d l, log_decoded_event log = Some d → dl_liquidity d = Some l → uint 128 l) →
  v3_apply_log p log = Ok (o, p') → v3_wf p' ∧ v3_address p' = v3_address p.
Proof.
  intros Hwf Hd. unfold v3_apply_log, apply_v3_swap_event. repeat case_match; try naive_solver.
  rewrite bind_ok. intros (p1 & H' & [= <- <-]).
  do 4 (apply bind_ok in H' as (? & ? & H')). rewrite outside_price_range_eq in H'.
  cbn [mbind res_bind] in H'. case_if H' as Hb.
  apply negb_false_iff, bool_decide_eq_true in Hb. injection H' as <-.
  inv_res. split; [|done]. destruct Hwf. constructor; cbn; eauto.
Qed.

Lemma mul_u256_ok a b : uint 256 a → uint 256 b → a * b < 2 ^ 256 → mul_u256 a b = Ok (a * b).
Proof.
  intros. unfold mul_u256. rewrite u256_checked_mul_law by done. unfold checked_mul.
  by replace (a * b <? 2 ^ 256) with true by lia.
Qed.

Lemma mul_u256_eq a b : uint 256 a → uint 256 b →
  mul_u256 a b = if 2 ^ 256 <=? a * b then Err ArithmeticOverflow else Ok (a * b).
Proof.
  intros. unfold mul_u256. rewrite u256_checked_mul_law by done. unfold checked_mul.
  destruct (_ <? _) eqn:E; [replace (_ <=? _) with false by lia|replace (_ <=? _) with true by lia];
    done.
Qed.

Lemma mul_u256_inv a b c : uint 256 a → uint 256 b → mul_u256 a b = Ok c →
  c = a * b ∧ uint 256 c.
Proof.
  intros Ha Hb. unfold mul_u256. rewrite u256_checked_mul_law by done.
  rewrite ok_or_ok, checked_mul_some. unfold uint in *. intros [-> ?]. split; [done|].
  split; [|done]. apply Z.mul_nonneg_nonneg; lia.
Qed.

Lemma checked_add_256 {E : Type} a b (e : E) : uint 256 a → uint 256 b → a + b < 2 ^ 256 →
  ok_or (u256_checked_add a b) e = Ok (a + b).
Proof.
  intros. rewrite u256_checked_add_law by done. unfold checked_add.
  by replace (a + b <? 2 ^ 256) with true by lia.
Qed.

Lemma div_round_up_spec n d : uint 256 n → uint 256 d → 0 < d →
  ∃ q, div_round_up n d = Ok q ∧ n ≤ q * d < n + d ∧ 0 ≤ q ≤ n.
Proof.
  unfold uint. intros Hn Hd Hpos. unfold div_round_up.
  replace (d =? 0) with false by lia.
  rewrite u256_div_law, u256_rem_law by (unfold uint; lia).
  pose proof (Z.div_mod n d ltac:(lia)). pose proof (Z.mod_pos_bound n d ltac:(lia)).
  assert (0 ≤ n / d) by (apply Z.div_pos; lia).
  assert (n / d ≤ n) by (apply Z.div_le_upper_bound; nia).
  destruct (n mod d =? 0) eqn:Hr.
  - exists (n / d). split; [done|]. nia.
  - assert (n / d + 1 ≤ n) by (destruct (decide (d = 1)); [subst; rewrite Z.mod_1_r in *; lia|nia]).
    exists (n / d + 1). rewrite checked_add_256 by (unfold uint; lia). split; [done|]. nia.
Qed.

Lemma u256_to_u128_ok v : uint 256 v →
  u256_to_u128 v = if v <? 2 ^ 128 then Ok v else Err ArithmeticOverflow.
Proof.
  intros Hv. unfold u256_to_u128. destruct (v <? 2 ^ 128) eqn:Hlt.
  - pose proof (u256_low_limbs v Hv ltac:(lia)) as Hl.
    destruct (u256_into_limbs v) as [[[l0 l1] l2] l3]. destruct Hl as (-> & -> & ->). done.
  - pose proof (u256_high_limbs v Hv ltac:(lia)) as Hl.
    destruct (u256_into_limbs v) as [[[l0 l1] l2] l3].
    destruct Hl as [Hl|Hl]; apply Z.eqb_neq in Hl; rewrite Hl; simpl; [done|].
    by rewrite orb_true_r.
Qed.

(** The impact is the relative move of the square-root price, doubled, in bps. *)
Lemma price_impact_bps_spec b a z :
  0 < b < 2 ^ 160 → 0 ≤ a < 2 ^ 225 →
  price_impact_bps b a z =
    Ok (Z.min ((if z then Z.max (b - a) 0 else Z.max (a - b) 0) * 20000 / b) (uint_max 32)).
Proof.
  intros Hb Ha. unfold price_impact_bps.
  assert (∀ n, 0 ≤ n < 2 ^ 225 →
    (bps_u256 ← u256_div_or_panic (E:=MarketError) (u256_mul n 20000) b;
     if uint_max 32 <? bps_u256 then Ok (uint_max 32)
     else let '(l0, _, _, _) := u256_into_limbs bps_u256 in Ok (l0 mod 2 ^ 32)) =
    Ok (Z.min (n * 20000 / b) (uint_max 32))) as Hscale.
  { intros n Hn. rewrite u256_mul_law by (unfold uint; lia).
    rewrite u256_div_or_panic_ok by (unfold uint; lia). cbn [mbind res_bind].
    assert (0 ≤ n * 20000 / b) by (apply Z.div_pos; lia).
    assert (n * 20000 / b ≤ n * 20000) by (apply Z.div_le_upper_bound; nia).
    unfold uint_max. destruct (_ <? _) eqn:Hlt; [f_equal; lia|].
    rewrite u256_into_limbs_law by (unfold uint; lia). f_equal.
    rewrite !(Z.mod_small (n * 20000 / b)) by lia. lia. }
  destruct z; destruct (_ <=? _) eqn:Hle.
  - rewrite Z.max_r by lia. by rewrite Z.mul_0_l, Zdiv_0_l.
  - rewrite Hscale; rewrite u256_sub_law by (unfold uint; lia); [|lia].
    by rewrite Z.max_l by lia.
  - rewrite Z.max_r by lia. by rewrite Z.mul_0_l, Zdiv_0_l.
  - rewrite Hscale; rewrite u256_sub_law by (unfold uint; lia); [|lia].
    by rewrite Z.max_l by lia.
Qed.
End arith.

(** ** Quotes *)

(** The swap over unbounded integers: the square-root price after it, rounded
    against the trader, the amount it pays out and the impact in bps. *)
Definition v3_next (z : bool) (P L x : Z) : Z :=
  if z then (L * 2 ^ 96 + (L * 2 ^ 96 / P + x) - 1) / (L * 2 ^ 96 / P + x)
  else P + x * 2 ^ 96 / L.

Definition v3_out (z : bool) (P P' L : Z) : Z :=
  if z then L * (P - P') / 2 ^ 96 else L * (P' - P) * 2 ^ 96 / (P * P').

Definition v3_impact (z : bool) (P P' : Z) : Z :=
  (if z then Z.max (P - P') 0 else Z.max (P' - P) 0) * 20000 / P.

(** A 256-bit product of step 4 does not fit. *)
Definition v3_overflows (z : bool) (P P' L : Z) : bool :=
  if z then 2 ^ 256 <=? L * (P - P')
  else (2 ^ 256 <=? L * (P' - P) * 2 ^ 96) || (2 ^ 256 <=? P * P').

Section quotes.
Context {U : U256} {HU : U256Laws U}.
Context (P L a : Z).
Hypothesis HP : min_sqrt_price ≤ P ≤ MAX_SQRT_PRICE.
Hypothesis HL : 0 < L < 2 ^ 128.
Hypothesis Ha : 0 < a < 2 ^ 128.

(** Selling token0: the price falls to the rounded-up quotient, never below the
    exact price after the swap. *)
Lemma v3_sqrt_price_next_zero :
  ∃ P', v3_sqrt_price_next true P L a = Ok P' ∧ 0 ≤ P' < 2 ^ 225 ∧
    P * (L * 2 ^ 96) ≤ P' * (L * 2 ^ 96 + a * P) ∧
    P' = v3_next true P L a ∧ P' ≤ P.
Proof.
  unfold min_sqrt_price, MAX_SQRT_PRICE in HP. unfold v3_sqrt_price_next.
  rewrite q96_eq, mul_u256_ok by (unfold uint; lia). cbn [mbind res_bind].
  rewrite u256_div_or_panic_ok by (unfold uint; lia). cbn [mbind res_bind].
  set (N := L * 2 ^ 96). assert (0 < N < 2 ^ 224) by lia.
  assert (0 ≤ N / P) by (apply Z.div_pos; lia).
  assert (N / P ≤ N) by (apply Z.div_le_upper_bound; nia).
  rewrite checked_add_256 by (unfold uint; lia). cbn [mbind res_bind].
  destruct (div_round_up_spec N (N / P + a)) as (q & Hq & Hmul & Hle); [unfold uint; lia..|].
  exists q. split; [done|]. split; [lia|].
  assert (P * (N / P) ≤ N) by (apply Z.mul_div_le; lia).
  assert (N < P * (N / P + 1)) by (rewrite Z.add_1_r; apply Z.mul_succ_div_gt; lia).
  assert (q ≤ P) by nia.
  assert (q = v3_next true P L a).
  { unfold v3_next. fold N. apply Z.div_unique with (N + (N / P + a) - 1 - q * (N / P + a)); [left|]; lia. }
  assert (P * (N / P + a) ≤ N + a * P) by lia.
  assert (P * N ≤ P * (q * (N / P + a))) by (apply Z.mul_le_mono_nonneg_l; lia).
  assert (q * (P * (N / P + a)) ≤ q * (N + a * P)) by (apply Z.mul_le_mono_nonneg_l; lia).
  split_and!; (done || lia).
Qed.

(** Selling token1: the price rises by the rounded-down quotient. *)
Lemma v3_sqrt_price_next_one :
  ∃ d, v3_sqrt_price_next false P L a = Ok (P + d) ∧ 0 ≤ d ≤ a * 2 ^ 96 ∧
    d * L ≤ a * 2 ^ 96 ∧ P + d = v3_next false P L a.
Proof.
  unfold min_sqrt_price, MAX_SQRT_PRICE in HP. unfold v3_sqrt_price_next.
  rewrite q96_eq, mul_u256_ok by (unfold uint; lia). cbn [mbind res_bind].
  rewrite mul_u256_ok by (unfold uint; lia). cbn [mbind res_bind].
  rewrite u256_div_or_panic_ok by (unfold uint; lia). cbn [mbind res_bind].
  assert (0 ≤ a * 2 ^ 96 / L) by (apply Z.div_pos; lia).
  assert (a * 2 ^ 96 / L ≤ a * 2 ^ 96) by (apply Z.div_le_upper_bound; nia).
  rewrite checked_add_256 by (unfold uint; lia).
  exists (a * 2 ^ 96 / L). split; [done|]. split; [lia|].
  split; [|done]. rewrite Z.mul_comm. apply Z.mul_div_le. lia.
Qed.

(** The exact output of the curve bounds the quoted one, in both directions. *)
Definition v3_fair (z : bool) (out : Z) : Prop :=
  if z then out * 2 ^ 96 * (L * 2 ^ 96 + a * P) ≤ L * a * (P * P)
  else out * P * (P * L + a * 2 ^ 96) ≤ a * 2 ^ 96 * 2 ^ 96 * L.

Lemma v3_amount_out_zero P' out :
  0 ≤ P' < 2 ^ 225 → P * (L * 2 ^ 96) ≤ P' * (L * 2 ^ 96 + a * P) →
  v3_amount_out true P P' L = Ok out → uint 256 out ∧ v3_fair true out.
Proof.
  unfold min_sqrt_price, MAX_SQRT_PRICE in HP. intros HP' Hmul. unfold v3_amount_out.
  rewrite u256_checked_sub_law by (unfold uint; lia). intros H. inv_res. inv_checked.
  match goal with H : mul_u256 _ _ = Ok _ |- _ =>
    apply mul_u256_inv in H as [-> Hu]; [|unfold uint; lia..] end.
  rewrite q96_eq in *. rewrite u256_div_or_panic_ok in H by (done || unfold uint; lia). inv_res.
  assert (2 ^ 96 * (L * (P - P') / 2 ^ 96) ≤ L * (P - P')) as Ho by (apply Z.mul_div_le; lia).
  unfold uint in *. set (out := L * (P - P') / 2 ^ 96) in *.
  assert (0 ≤ out) by (apply Z.div_pos; lia). split; [lia|]. unfold v3_fair.
  set (N := L * 2 ^ 96) in *. set (D := N + a * P) in *.
  assert (0 ≤ D) by (subst D N; apply Z.add_nonneg_nonneg; [lia|apply Z.mul_nonneg_nonneg; lia]).
  assert (2 ^ 96 * out * D ≤ L * (P - P') * D) by (apply Z.mul_le_mono_nonneg_r; done).
  assert (L * (P * N) ≤ L * (P' * D)) by (apply Z.mul_le_mono_nonneg_l; lia).
  subst D. lia.
Qed.

Lemma v3_amount_out_one d out :
  0 ≤ d ≤ a * 2 ^ 96 → d * L ≤ a * 2 ^ 96 →
  v3_amount_out false P (P + d) L = Ok out → uint 256 out ∧ v3_fair false out.
Proof.
  unfold min_sqrt_price, MAX_SQRT_PRICE in HP. intros Hd HdL. unfold v3_amount_out.
  rewrite u256_checked_sub_law by (unfold uint; lia). intros H. inv_res. inv_checked.
  replace (P + d - P) with d in * by lia. rewrite q96_eq in *.
  repeat match goal with H : mul_u256 _ _ = Ok _ |- _ =>
    apply mul_u256_inv in H as [-> ?]; [|done || (unfold uint; lia)..] end.
  assert (0 < P * (P + d)) by (apply Z.mul_pos_pos; lia).
  rewrite u256_div_or_panic_ok in H by (done || lia). inv_res.
  pose proof (Z.mul_div_le (L * d * 2 ^ 96) (P * (P + d)) ltac:(lia)) as Ho.
  unfold uint in *. set (out := L * d * 2 ^ 96 / (P * (P + d))) in *.
  assert (0 ≤ out) by (apply Z.div_pos; lia).
  assert (out ≤ L * d * 2 ^ 96) by (subst out; apply Z.div_le_upper_bound; nia).
  split; [lia|]. unfold v3_fair.
  set (e := a * 2 ^ 96) in *. set (x := out * P).
  assert (x * (P + d) ≤ L * 2 ^ 96 * d) as Hx by (subst x; lia).
  assert (0 ≤ x) as Hx0 by (subst x; lia).
  assert (x ≤ L * 2 ^ 96) by (clear -Hx HP Hd HL Hx0; nia).
  assert (x * (e - d * L) ≤ L * 2 ^ 96 * (e - d * L)) by (apply Z.mul_le_mono_nonneg_r; lia).
  assert (L * (x * (P + d)) ≤ L * (L * 2 ^ 96 * d)) by (apply Z.mul_le_mono_nonneg_l; lia).
  lia.
Qed.

(** The amount of step 4, or the overflow of one of its 256-bit products. *)
Lemma v3_amount_out_eq (z : bool) P' :
  0 < P' < 2 ^ 225 → (if z then P' ≤ P else P ≤ P') →
  v3_amount_out z P P' L =
    if v3_overflows z P P' L then Err ArithmeticOverflow else Ok (v3_out z P P' L).
Proof.
  unfold min_sqrt_price, MAX_SQRT_PRICE in HP. intros HP' Hz.
  assert (uint 256 (2 ^ 96) ∧ uint 256 P ∧ uint 256 L ∧ uint 256 P') as (? & ? & ? & ?)
    by (unfold uint; lia).
  unfold v3_amount_out, v3_overflows, v3_out. rewrite q96_eq.
  destruct z; rewrite u256_checked_sub_law by done; unfold checked_sub.
  - replace (P' <=? P) with true by lia. cbn [ok_or mbind res_bind].
    rewrite mul_u256_eq by (unfold uint in *; lia).
    destruct (_ <=? _) eqn:Hov; cbn [mbind res_bind]; [done|].
    rewrite u256_div_or_panic_ok; [done| |done|lia]. unfold uint. split; [|lia].
    apply Z.mul_nonneg_nonneg; lia.
  - replace (P <=? P') with true by lia. cbn [ok_or mbind res_bind].
    assert (0 ≤ L * (P' - P)) by (apply Z.mul_nonneg_nonneg; lia).
    assert (0 < P * P') by (apply Z.mul_pos_pos; lia).
    rewrite (mul_u256_eq L (P' - P)) by (unfold uint in *; lia).
    destruct (2 ^ 256 <=? L * (P' - P)) eqn:Hov; cbn [mbind res_bind].
    { by replace (2 ^ 256 <=? L * (P' - P) * 2 ^ 96) with true by lia. }
    rewrite (mul_u256_eq (L * (P' - P))) by (unfold uint; lia).
    destruct (2 ^ 256 <=? L * (P' - P) * 2 ^ 96) eqn:Hov2; cbn [mbind res_bind orb]; [done|].
    rewrite mul_u256_eq by done.
    destruct (2 ^ 256 <=? P * P') eqn:Hov3; cbn [mbind res_bind]; [done|].
    rewrite u256_div_or_panic_ok; [done|unfold uint; lia..|lia].
Qed.
End quotes.

Lemma v3_side_eq p t :
  (if eq_ignore_ascii_case t (v3_token0 p) then Ok true
   else if eq_ignore_ascii_case t (v3_token1 p) then Ok false
   else Err (UnknownToken (v3_address p) t)) =
  match v3_side p t with
  | Some (z, _) => Ok z
  | None => Err (UnknownToken (v3_address p) t)
  end.
Proof. unfold v3_side. by repeat case_match. Qed.

Lemma v3_side_out p t z tok :
  v3_side p t = Some (z, tok) → (if z then v3_token1 p else v3_token0 p) = tok.
Proof. unfold v3_side. repeat case_match; naive_solver. Qed.

Section quote.
Context {U : U256} {HU : U256Laws U}.

(** The step of the price, whatever the direction. *)
Lemma v3_step P L a (z : bool) :
  min_sqrt_price ≤ P ≤ MAX_SQRT_PRICE → 0 < L < 2 ^ 128 → 0 < a < 2 ^ 128 →
  let P' := v3_next z P L a in
  v3_sqrt_price_next z P L a = Ok P' ∧ 0 < P' < 2 ^ 225 ∧ (if z then P' ≤ P else P ≤ P') ∧
    ∀ out, v3_amount_out z P P' L = Ok out → uint 256 out ∧ v3_fair P L a z out.
Proof.
  intros HP HL Ha. destruct z.
  - destruct (v3_sqrt_price_next_zero P L a HP HL Ha) as (P' & HP' & Hb & Hm & <- & Hle).
    split; [done|]. split; [|split; [done|intros; by eapply v3_amount_out_zero]].
    unfold min_sqrt_price in HP. destruct (decide (P' = 0)) as [->|]; [|lia].
    rewrite Z.mul_0_l in Hm. assert (0 < P * (L * 2 ^ 96)) by (apply Z.mul_pos_pos; lia). lia.
  - destruct (v3_sqrt_price_next_one P L a HP HL Ha) as (d & Hd & Hb & Hm & <-).
    split; [done|].
    split; [unfold min_sqrt_price, MAX_SQRT_PRICE in HP; lia|].
    split; [lia|]. intros. by eapply v3_amount_out_one.
Qed.

Lemma v3_less_fee_bounds p a :
  v3_wf p → uint 128 a → 0 ≤ v3_less_fee p a ≤ a.
Proof.
  intros [_ Hf _ _ _] [Ha _]. unfold v3_less_fee. split.
  - apply Z.div_pos; [apply Z.mul_nonneg_nonneg|]; lia.
  - apply Z.div_le_upper_bound; [lia|]. nia.
Qed.

(** C15. A V3 quote never pays more than the exact swap on the pool's curve at its
    current liquidity, after the fee; it is non-zero and its price impact is at
    most 500 bps. *)
Theorem v3_quote_sound p t a q :
  v3_wf p → uint 128 a → v3_quote_exact_in p t a = Ok q →
  ∃ z tok, v3_side p t = Some (z, tok) ∧
    pq_token_out q = tok ∧ pq_amount_in q = a ∧
    0 < pq_amount_out q < 2 ^ 128 ∧
    v3_fair (v3_sqrt_price_x96 p) (v3_liquidity p) (v3_less_fee p a) z (pq_amount_out q) ∧
    0 ≤ pq_price_impact_bps q ≤ 500.
Proof.
  intros Hwf Ha. pose proof (v3_less_fee_bounds p a Hwf Ha) as Hlf.
  destruct Hwf as [_ Hf _ HP HL]. unfold v3_quote_exact_in.
  destruct (a =? 0) eqn:Ha0; [done|]. destruct (v3_liquidity p =? 0) eqn:HL0; [done|].
  rewrite v3_side_eq. destruct (v3_side p t) as [[z tok]|] eqn:Hs; cbn [mbind res_bind]; [|done].
  unfold FEE_PIPS_DENOMINATOR. rewrite sub_or_panic_le by lia. cbn [mbind res_bind].
  rewrite bind_ok. intros (s & Hsc & H). inv_res. inv_checked.
  change (a * (1000000 - v3_fee_pips p) / 1000000) with (v3_less_fee p a) in H.
  case_if H as Hl0. apply Z.eqb_neq in Ha0, HL0, Hl0. unfold uint in Ha, HL.
  destruct (v3_step (v3_sqrt_price_x96 p) (v3_liquidity p) (v3_less_fee p a) z)
    as (HP' & Hb & _ & Hout); [done|lia..|].
  set (P' := v3_next _ _ _ _) in *. rewrite HP' in H. cbn [mbind res_bind] in H.
  assert (0 < v3_sqrt_price_x96 p < 2 ^ 160) by (unfold min_sqrt_price, MAX_SQRT_PRICE in HP; lia).
  rewrite price_impact_bps_spec in H by lia. cbn [mbind res_bind] in H.
  case_if H as Himp. inv_res. specialize (Hout _ ltac:(eassumption)) as [Hu Hfair].
  match goal with H : u256_to_u128 _ = Ok _ |- _ => rewrite u256_to_u128_ok in H by done;
    case_if H as Hlt end. inv_res. case_if H as Hz. inv_res.
  exists z, tok. cbn. unfold MAX_IN_RANGE_IMPACT_BPS, uint in *. split_and!; try done; try lia.
  - by apply v3_side_out in Hs.
  - apply Z.min_glb; [apply Z.div_pos; [|lia]|done]. destruct z; lia.
Qed.

(** C16. A V3 quote of a well-formed pool always returns: no division by zero, no
    wrap-around in the 256-bit arithmetic.  A success pays exactly the rounded
    amount of the swap over unbounded integers, and each error is returned only in
    its own case. *)
Theorem v3_quote_total p t a :
  v3_wf p → uint 128 a →
  let P := v3_sqrt_price_x96 p in let L := v3_liquidity p in let x := v3_less_fee p a in
  match v3_quote_exact_in p t a with
  | Ok q => ∃ z tok, v3_side p t = Some (z, tok) ∧ 0 < x ∧ 0 < L ∧
      pq_amount_out q = v3_out z P (v3_next z P L x) L
  | Err InsufficientInput => x = 0
  | Err (UnknownToken address token) =>
      v3_side p t = None ∧ address = v3_address p ∧ token = t
  | Err InsufficientLiquidity => a ≠ 0 ∧ (L = 0 ∨ ∃ z tok,
      v3_side p t = Some (z, tok) ∧ 0 < x ∧
      (500 < v3_impact z P (v3_next z P L x) ∨ v3_out z P (v3_next z P L x) L = 0))
  | Err ArithmeticOverflow => L ≠ 0 ∧ ∃ z tok, v3_side p t = Some (z, tok) ∧
      (2 ^ 128 ≤ a * (1000000 - v3_fee_pips p) ∨ v3_overflows z P (v3_next z P L x) L = true ∨
       2 ^ 128 ≤ v3_out z P (v3_next z P L x) L)
  | _ => False
  end.
Proof.
  intros Hwf Ha. cbn zeta. pose proof (v3_less_fee_bounds p a Hwf Ha) as Hlf.
  destruct Hwf as [_ Hf _ HP HL]. unfold v3_quote_exact_in.
  destruct (a =? 0) eqn:Ha0.
  { apply Z.eqb_eq in Ha0 as ->. unfold v3_less_fee. by rewrite Z.mul_0_l. }
  destruct (v3_liquidity p =? 0) eqn:HL0; [lia|].
  rewrite v3_side_eq. destruct (v3_side p t) as [[z tok]|] eqn:Hs; cbn [mbind res_bind]; [|done].
  unfold FEE_PIPS_DENOMINATOR. rewrite sub_or_panic_le by lia. cbn [mbind res_bind].
  unfold checked_mul. destruct (_ <? _) eqn:Hm; cbn [ok_or mbind res_bind];
    [|split; [lia|]; exists z, tok; split; [done|lia]].
  change (a * (1000000 - v3_fee_pips p) / 1000000) with (v3_less_fee p a).
  destruct (v3_less_fee p a =? 0) eqn:Hl0; [lia|].
  apply Z.eqb_neq in Ha0, HL0, Hl0. unfold uint in Ha, HL.
  destruct (v3_step (v3_sqrt_price_x96 p) (v3_liquidity p) (v3_less_fee p a) z)
    as (HP' & Hb & Hdir & Hout); [done|lia..|].
  set (P' := v3_next _ _ _ _) in *. rewrite HP'. cbn [mbind res_bind].
  assert (0 < v3_sqrt_price_x96 p < 2 ^ 160) by (unfold min_sqrt_price, MAX_SQRT_PRICE in HP; lia).
  rewrite price_impact_bps_spec by lia. cbn [mbind res_bind].
  fold (v3_impact z (v3_sqrt_price_x96 p) P'). unfold MAX_IN_RANGE_IMPACT_BPS.
  destruct (500 <? Z.min (v3_impact _ _ _) _) eqn:Himp; cbv beta iota.
  { split; [done|]. right. exists z, tok. fold P'. split_and!; [done|lia|]. left. lia. }
  rewrite v3_amount_out_eq in * by (done || lia).
  destruct (v3_overflows _ _ _ _) eqn:Hov; cbn [mbind res_bind];
    [split; [done|]; exists z, tok; fold P'; by auto|].
  destruct (Hout _ eq_refl) as [Hu _]. rewrite u256_to_u128_ok by done.
  destruct (v3_out z (v3_sqrt_price_x96 p) _ _ <? 2 ^ 128) eqn:Hfit; cbn [mbind res_bind];
    [|split; [done|]; exists z, tok; fold P'; split; [done|]; lia].
  destruct (v3_out z (v3_sqrt_price_x96 p) _ _ =? 0) eqn:Hz; cbn [pq_amount_out].
  - split; [done|]. right. exists z, tok. fold P'. split_and!; [done|lia|lia].
  - exists z, tok. fold P'. split_and!; (done || lia).
Qed.
End quote.

(** ** The tick table

    [tick_ratio t] is the Q128.128 price of [-t], the product of the table's
    factors over the bits of [t], over unbounded integers. *)
Definition tick_factors : list Z := Eval vm_compute in
  omap (λ raw, match parse_digits 256 16 0 (trim_start_matches "0x" raw) with
               | Ok n => Some n | _ => None end) CONSTANTS.

Fixpoint ratio_fold (t idx : Z) (fs : list Z) (r : Z) : Z :=
  match fs with
  | [] => r
  | f :: fs => ratio_fold t (idx + 1) fs (if Z.testbit t idx then r * f / 2 ^ 128 else r)
  end.

Lemma ratio_fold_cons t idx f fs r :
  ratio_fold t idx (f :: fs) r =
  ratio_fold t (idx + 1) fs (if Z.testbit t idx then r * f / 2 ^ 128 else r).
Proof. done. Qed.

Definition tick_ratio (t : Z) : Z := ratio_fold t 0 tick_factors (2 ^ 128).

Definition is_factor (f : Z) : Prop := 0 < f < 2 ^ 128.

Lemma land_bit t i : 0 ≤ i → negb (Z.land t (Z.shiftl 1 i) =? 0) = Z.testbit t i.
Proof.
  intros Hi. rewrite Z.shiftl_1_l. destruct (Z.testbit t i) eqn:Hb.
  - destruct (_ =? 0) eqn:Hz; [|done]. apply Z.eqb_eq in Hz.
    assert (Z.testbit (Z.land t (2 ^ i)) i = true) as Hc
      by (by rewrite Z.land_spec, Hb, Z.pow2_bits_true by lia).
    rewrite Hz, Z.bits_0 in Hc. done.
  - replace (Z.land t (2 ^ i)) with 0; [done|]. symmetry. apply Z.bits_inj'. intros n Hn.
    rewrite Z.land_spec, Z.bits_0. destruct (decide (n = i)) as [->|]; [by rewrite Hb|].
    rewrite Z.pow2_bits_false by lia. by rewrite andb_false_r.
Qed.

Lemma ratio_step_bounds r f : 0 ≤ r → is_factor f → 0 ≤ r * f / 2 ^ 128 ≤ r.
Proof.
  unfold is_factor. intros. split; [apply Z.div_pos; lia|].
  apply Z.div_le_upper_bound; [lia|]. nia.
Qed.

Lemma ratio_fold_bounds t idx fs r :
  0 ≤ r → Forall is_factor fs → 0 ≤ ratio_fold t idx fs r ≤ r.
Proof.
  intros Hr Hfs. revert idx r Hr. induction Hfs as [|f fs Hf _ IH]; intros idx r Hr; simpl; [lia|].
  pose proof (ratio_step_bounds r f Hr Hf). case_match; [|by apply IH].
  specialize (IH (idx + 1) (r * f / 2 ^ 128)). lia.
Qed.

(** More bits, a smaller ratio. *)
Lemma ratio_fold_mono s t idx fs r r' :
  0 ≤ idx → (∀ i, 0 ≤ i → Z.testbit t i = true → Z.testbit s i = true) →
  0 ≤ r' ≤ r → Forall is_factor fs → ratio_fold s idx fs r' ≤ ratio_fold t idx fs r.
Proof.
  intros Hidx Hbits Hr Hfs. revert idx r r' Hidx Hr.
  induction Hfs as [|f fs Hf _ IH]; intros idx r r' Hidx Hr; simpl; [lia|].
  pose proof (ratio_step_bounds r' f ltac:(lia) Hf). pose proof (ratio_step_bounds r f ltac:(lia) Hf).
  assert (r' * f / 2 ^ 128 ≤ r * f / 2 ^ 128)
    by (apply Z.div_le_mono; [lia|]; unfold is_factor in Hf; nia).
  apply IH; [lia|]. destruct (Z.testbit t idx) eqn:Ht; [rewrite Hbits by done; lia|].
  destruct (Z.testbit s idx); lia.
Qed.

(** Every [t <= T] has its bits within one of the masks of [T]. *)
Fixpoint masks (n : nat) (T : Z) : list Z :=
  match n with
  | O => [0]
  | S n => if Z.testbit T (Z.of_nat n)
           then Z.ones (Z.of_nat n) ::
                map (λ s, Z.lor s (2 ^ Z.of_nat n)) (masks n (T - 2 ^ Z.of_nat n))
           else masks n T
  end.

Lemma testbit_top n T : 0 ≤ n → 0 ≤ T < 2 ^ (n + 1) → Z.testbit T n = (2 ^ n <=? T).
Proof.
  intros Hn HT. rewrite Z.pow_add_r in HT by lia.
  rewrite Z.testbit_eqb by lia. pose proof (Z.pow_pos_nonneg 2 n ltac:(lia) Hn).
  destruct (2 ^ n <=? T) eqn:E.
  - replace (T / 2 ^ n) with 1; [done|].
    apply Z.div_unique with (T - 2 ^ n); lia.
  - rewrite Z.div_small by lia. done.
Qed.

Lemma masks_cover n T t : 0 ≤ t ≤ T → T < 2 ^ Z.of_nat n →
  ∃ s, s ∈ masks n T ∧ ∀ i, 0 ≤ i → Z.testbit t i = true → Z.testbit s i = true.
Proof.
  revert T t. induction n as [|n IH]; intros T t Ht HT.
  { exists 0. split; [by left|]. replace t with 0 by (simpl in HT; lia). done. }
  rewrite Nat2Z.inj_succ, <- Z.add_1_r in HT. cbn [masks].
  pose proof (Z.pow_pos_nonneg 2 (Z.of_nat n) ltac:(lia) ltac:(lia)) as Hpos.
  rewrite testbit_top by lia. destruct (2 ^ Z.of_nat n <=? T) eqn:E; [|apply IH; lia].
  rewrite Z.pow_add_r in HT by lia. destruct (decide (t < 2 ^ Z.of_nat n)) as [Hlt|Hge].
  - exists (Z.ones (Z.of_nat n)). split; [by left|]. intros i Hi Hb.
    rewrite Z.testbit_ones_nonneg by lia. apply Z.ltb_lt.
    destruct (decide (i < Z.of_nat n)); [done|].
    rewrite <- (Z.mod_small t (2 ^ Z.of_nat n)), Z.mod_pow2_bits_high in Hb by lia. done.
  - destruct (IH (T - 2 ^ Z.of_nat n) (t - 2 ^ Z.of_nat n)) as (s & Hs & Hbits); [lia..|].
    exists (Z.lor s (2 ^ Z.of_nat n)). split; [right; by apply (list_elem_of_fmap_2 (λ s, Z.lor s (2 ^ Z.of_nat n)))|].
    intros i Hi Hb. rewrite Z.lor_spec. destruct (decide (i = Z.of_nat n)) as [->|Hne].
    { by rewrite Z.pow2_bits_true, orb_true_r by lia. }
    apply orb_true_iff. left. apply Hbits; [done|].
    assert (i < Z.of_nat n).
    { destruct (decide (i < Z.of_nat n)); [done|].
      rewrite <- (Z.mod_small t (2 ^ (Z.of_nat n + 1))), Z.mod_pow2_bits_high in Hb; [done|lia|].
      rewrite Z.pow_add_r; lia. }
    rewrite <- Hb. rewrite <- (Z.mod_pow2_bits_low t (Z.of_nat n)),
      <- (Z.mod_pow2_bits_low (t - _) (Z.of_nat n)) by lia.
    f_equal. rewrite <- (Z_mod_plus_full _ 1). f_equal. lia.
Qed.

Lemma tick_factors_ok : Forall is_factor tick_factors.
Proof. repeat constructor. Qed.

Lemma tick_ratio_head t :
  tick_ratio t = ratio_fold t 1 (drop 1 tick_factors)
    (if Z.testbit t 0 then 0xfffcb933bd6fad37aa2d162d1a594001 else 2 ^ 128).
Proof.
  unfold tick_ratio.
  replace tick_factors with (0xfffcb933bd6fad37aa2d162d1a594001 :: drop 1 tick_factors) at 1
    by (by vm_compute).
  rewrite ratio_fold_cons, Z.mul_comm, Z.div_mul by lia. done.
Qed.

Lemma tick_ratio_le t : 0 ≤ tick_ratio t ≤ 2 ^ 128.
Proof. unfold tick_ratio. apply ratio_fold_bounds; [lia|apply tick_factors_ok]. Qed.

Lemma tick_ratio_mono s t :
  (∀ i, 0 ≤ i → Z.testbit t i = true → Z.testbit s i = true) → tick_ratio s ≤ tick_ratio t.
Proof.
  intros Hbits. unfold tick_ratio.
  apply ratio_fold_mono; [lia|done|lia|apply tick_factors_ok].
Qed.

Definition MIN_RATIO : Z := 18447437462383981825.

Lemma masks_ratio : Forall (λ s, MIN_RATIO ≤ tick_ratio s) (masks 20 887272).
Proof. apply (bool_decide_unpack _). by vm_compute. Qed.

(** The ratio stays above the one of the largest tick. *)
Lemma tick_ratio_bounds t : 0 ≤ t ≤ 887272 → MIN_RATIO ≤ tick_ratio t ≤ 2 ^ 128.
Proof.
  intros Ht. split; [|apply tick_ratio_le].
  destruct (masks_cover 20 887272 t Ht) as (s & Hs & Hbits); [done|].
  pose proof masks_ratio as Hall. rewrite Forall_forall in Hall.
  etransitivity; [by apply Hall|]. by apply tick_ratio_mono.
Qed.

Section ticks.
Context {U : U256} {HU : U256Laws U}.

Lemma ratio_loop_spec t idx entries fs r :
  0 ≤ idx → 0 ≤ r ≤ 2 ^ 128 →
  Forall2 (λ raw f, parse_digits 256 16 0 (trim_start_matches "0x" raw) = Ok f ∧
                    trim_start_matches "0x" raw ≠ "" ∧ is_factor f) entries fs →
  ratio_loop t idx entries r = Ok (ratio_fold t idx fs r).
Proof.
  intros Hidx Hr Hfs. revert idx r Hidx Hr.
  induction Hfs as [|raw f entries fs (Hp & Hne & Hf) _ IH]; intros idx r Hidx Hr; [done|].
  cbn [ratio_loop ratio_fold]. rewrite land_bit by done.
  pose proof (ratio_step_bounds r f ltac:(lia) Hf).
  destruct (Z.testbit t idx); [|apply IH; lia].
  rewrite (u256_from_str_radix_digits _ _ f) by auto. cbn [expect mbind res_bind].
  unfold is_factor in Hf. assert (r * f < 2 ^ 256) by nia.
  rewrite u256_mul_law by (unfold uint; lia). rewrite u256_shr_law by (unfold uint; lia).
  apply IH; lia.
Qed.

Lemma tick_loop_eq t : 0 ≤ t →
  (ratio ← (if negb (Z.land t 1 =? 0)
            then expect (u256_from_str_radix "fffcb933bd6fad37aa2d162d1a594001" 16)
            else Ok (u256_shl 1 128));
   ratio_loop t 1 (drop 1 CONSTANTS) ratio) = Ok (tick_ratio t).
Proof.
  intros Ht. change (Z.land t 1) with (Z.land t (Z.shiftl 1 0)). rewrite land_bit by done.
  rewrite (u256_from_str_radix_digits _ _ 0xfffcb933bd6fad37aa2d162d1a594001) by (auto; by vm_compute).
  rewrite u256_shl_law by (unfold uint; lia).
  transitivity (ratio_loop t 1 (drop 1 CONSTANTS)
    (if Z.testbit t 0 then 0xfffcb933bd6fad37aa2d162d1a594001 else 2 ^ 128)).
  { by destruct (Z.testbit t 0). }
  rewrite (ratio_loop_spec _ _ _ (drop 1 tick_factors)).
  - rewrite tick_ratio_head. by destruct (Z.testbit t 0).
  - lia.
  - destruct (Z.testbit t 0); lia.
  - repeat (constructor; [split; [by vm_compute|split; [by vm_compute|done]]|]). constructor.
Qed.

Lemma tick_loop_ex t : 0 ≤ t ≤ 887272 →
  ∃ x, x = tick_ratio t ∧ MIN_RATIO ≤ x ≤ 2 ^ 128 ∧
    (ratio ← (if negb (Z.land t 1 =? 0)
              then expect (u256_from_str_radix "fffcb933bd6fad37aa2d162d1a594001" 16)
              else Ok (u256_shl 1 128));
     ratio_loop t 1 (drop 1 CONSTANTS) ratio) = Ok x.
Proof.
  intros Ht. exists (tick_ratio t).
  split; [done|]. split; [by apply tick_ratio_bounds|]. apply tick_loop_eq. lia.
Qed.

(** Division by [2^32], rounded up. *)
Definition ceil32 (r : Z) : Z := if r mod 2 ^ 32 =? 0 then r / 2 ^ 32 else r / 2 ^ 32 + 1.

Lemma ceil32_bounds r : r ≤ ceil32 r * 2 ^ 32 < r + 2 ^ 32.
Proof.
  unfold ceil32. pose proof (Z.div_mod r (2 ^ 32)). pose proof (Z.mod_pos_bound r (2 ^ 32)).
  destruct (_ =? 0) eqn:E; lia.
Qed.

Lemma ceil32_mono r s : r ≤ s → ceil32 r ≤ ceil32 s.
Proof. intros. pose proof (ceil32_bounds r). pose proof (ceil32_bounds s). lia. Qed.

(** The Q128.128 price of a tick. *)
Definition tick_price (t : Z) : Z :=
  if 0 <? t then uint_max 256 / tick_ratio (Z.abs t) else tick_ratio (Z.abs t).

Lemma ceil32_code p : 0 ≤ p ≤ uint_max 256 →
  (if u256_shl 1 32 =? 0 then Panic else
   if u256_rem p (u256_shl 1 32) =? 0 then Ok (u256_shr p 32)
   else Ok (E:=MarketError) (u256_add (u256_shr p 32) 1)) = Ok (ceil32 p).
Proof.
  unfold uint_max. intros Hp.
  rewrite u256_shl_law by (unfold uint; lia). change (1 * 2 ^ 32 mod 2 ^ 256) with (2 ^ 32).
  replace (2 ^ 32 =? 0) with false by lia.
  rewrite u256_rem_law, u256_shr_law by (unfold uint; lia).
  assert (0 ≤ p / 2 ^ 32 < 2 ^ 224)
    by (split; [apply Z.div_pos; lia|apply Z.div_lt_upper_bound; lia]).
  rewrite u256_add_law by (unfold uint; lia). unfold ceil32. by case_match.
Qed.

Lemma max_div_bounds x : 0 < x → 0 ≤ uint_max 256 / x ≤ uint_max 256.
Proof.
  unfold uint_max. intros. split; [apply Z.div_pos; lia|apply Z.div_le_upper_bound; nia].
Qed.

Lemma get_sqrt_ratio_at_tick_eq t : MIN_TICK ≤ t ≤ MAX_TICK →
  get_sqrt_ratio_at_tick t = Ok (ceil32 (tick_price t)).
Proof.
  unfold MIN_TICK, MAX_TICK. intros Ht. unfold get_sqrt_ratio_at_tick, MIN_TICK, MAX_TICK.
  replace ((-887272 <=? t) && (t <=? 887272)) with true by lia. cbn [negb].
  destruct (tick_loop_ex (Z.abs t) ltac:(lia)) as (x & Heq & Hx & Hloop).
  unfold tick_price. rewrite <- Heq. clear Heq. unfold MIN_RATIO in Hx.
  apply bind_ok in Hloop as (r0 & -> & Hloop). cbn [mbind res_bind].
  rewrite Hloop. cbn [mbind res_bind]. pose proof (max_div_bounds x ltac:(lia)).
  destruct (0 <? t); [rewrite u256_div_or_panic_ok by (unfold uint, uint_max; lia)|];
    apply ceil32_code; [done|unfold uint_max; lia].
Qed.

(** The tick conversion is total on the protocol's ticks and refuses the
    others; its result lies in the price range that pools are validated
    against, at most [2^96] for ticks up to zero and at least that from zero on. *)
Theorem tick_price_in_range t :
  match get_sqrt_ratio_at_tick t with
  | Ok r => MIN_TICK ≤ t ≤ MAX_TICK ∧ min_sqrt_price ≤ r ≤ MAX_SQRT_PRICE ∧
      (t ≤ 0 → r ≤ 2 ^ 96) ∧ (0 ≤ t → 2 ^ 96 ≤ r)
  | Err e => e = InvalidPool "v3 tick outside protocol bounds" ∧ ¬ MIN_TICK ≤ t ≤ MAX_TICK
  | Panic => False
  end.
Proof.
  destruct (decide (MIN_TICK ≤ t ≤ MAX_TICK)) as [Ht|Ht].
  2:{ unfold get_sqrt_ratio_at_tick.
      replace ((MIN_TICK <=? t) && (t <=? MAX_TICK)) with false by lia. done. }
  rewrite get_sqrt_ratio_at_tick_eq by done. split; [done|].
  unfold MIN_TICK, MAX_TICK in Ht.
  destruct (tick_ratio_bounds (Z.abs t) ltac:(lia)) as [Hlo Hhi].
  unfold MIN_RATIO in Hlo.
  unfold tick_price.
  destruct (0 <? t) eqn:Hs.
  - assert (uint_max 256 / 2 ^ 128 ≤ uint_max 256 / tick_ratio (Z.abs t))
      by (apply Z.div_le_compat_l; [unfold uint_max|]; lia).
    assert (uint_max 256 / tick_ratio (Z.abs t) ≤ uint_max 256 / 18447437462383981825)
      by (apply Z.div_le_compat_l; [unfold uint_max|]; lia).
    split_and!; [..|lia|intros _].
    + transitivity (ceil32 (uint_max 256 / 2 ^ 128)); [by vm_compute|by apply ceil32_mono].
    + transitivity (ceil32 (uint_max 256 / 18447437462383981825));
        [by apply ceil32_mono|by vm_compute].
    + transitivity (ceil32 (uint_max 256 / 2 ^ 128)); [by vm_compute|by apply ceil32_mono].
  - assert (ceil32 (tick_ratio (Z.abs t)) ≤ 2 ^ 96)
      by (transitivity (ceil32 (2 ^ 128)); [by apply ceil32_mono|by vm_compute]).
    split_and!; [|unfold MAX_SQRT_PRICE; lia|done|].
    + transitivity (ceil32 18447437462383981825); [by vm_compute|by apply ceil32_mono].
    + intros. by replace t with 0 by lia.
Qed.

Lemma ceil32_reciprocal x : 0 < x →
  (ceil32 (uint_max 256 / x) - 1) * (ceil32 x - 1) < 2 ^ 192 ∧
  2 ^ 224 ≤ (ceil32 (uint_max 256 / x) * 2 ^ 32 + 1) * ceil32 x.
Proof.
  intros Hx. pose proof (ceil32_bounds x). pose proof (ceil32_bounds (uint_max 256 / x)).
  pose proof (Z.mul_div_le (uint_max 256) x Hx).
  pose proof (Z.mul_succ_div_gt (uint_max 256) x Hx).
  pose proof (max_div_bounds x Hx).
  set (y := uint_max 256 / x) in *. clearbody y.
  set (cx := ceil32 x) in *. set (cy := ceil32 y) in *. clearbody cx cy.
  unfold uint_max in *. split.
  - destruct (decide (cy = 0)) as [->|]; [lia|].
    assert ((cy - 1) * 2 ^ 32 * ((cx - 1) * 2 ^ 32) ≤ y * x)
      by (apply Z.mul_le_mono_nonneg; lia). lia.
  - assert ((y + 1) * x ≤ (cy * 2 ^ 32 + 1) * (cx * 2 ^ 32))
      by (apply Z.mul_le_mono_nonneg; lia). lia.
Qed.

(** The prices of opposite ticks are reciprocal up to the rounding of the
    last unit. *)
Theorem tick_price_reciprocal t r r' :
  0 < t → get_sqrt_ratio_at_tick t = Ok r → get_sqrt_ratio_at_tick (- t) = Ok r' →
  (r - 1) * (r' - 1) < 2 ^ 192 ∧ 2 ^ 224 ≤ (r * 2 ^ 32 + 1) * r'.
Proof.
  intros Hpos Hr Hr'.
  assert (MIN_TICK ≤ t ≤ MAX_TICK) as Ht.
  { unfold get_sqrt_ratio_at_tick in Hr. unfold MIN_TICK, MAX_TICK in *. case_if Hr as Hc. lia. }
  rewrite get_sqrt_ratio_at_tick_eq in Hr by done.
  rewrite get_sqrt_ratio_at_tick_eq in Hr' by (unfold MIN_TICK, MAX_TICK in *; lia).
  injection Hr as <-. injection Hr' as <-. unfold MIN_TICK, MAX_TICK in Ht.
  pose proof (tick_ratio_bounds (Z.abs t) ltac:(lia)) as Hx. unfold MIN_RATIO in Hx.
  unfold tick_price. replace (0 <? t) with true by lia. replace (0 <? - t) with false by lia.
  rewrite Z.abs_opp. apply ceil32_reciprocal. lia.
Qed.

(** The table of the tick conversion is the repeated squaring it stands
    for: the square of the first factor is [10000/10001], each other factor is
    the square of the one before it, to two units in the last place of the
    Q128.128 format. *)
Theorem tick_table_squares :
  ∃ fs, Forall2 (λ raw f, u256_from_str_radix (trim_start_matches "0x" raw) 16 = Some f)
          CONSTANTS fs ∧
    (∀ f, head fs = Some f → Z.abs (f * f * 10001 - 2 ^ 256 * 10000) ≤ 10001 * 2 ^ 129) ∧
    (∀ i f g, fs !! i = Some f → fs !! S i = Some g → Z.abs (f * f - 2 ^ 128 * g) ≤ 2 ^ 129).
Proof.
  exists tick_factors. split; [|split].
  - repeat (constructor; [by rewrite (u256_from_str_radix_digits _ _ _ (or_intror eq_refl))
      by (auto; by vm_compute)|]). constructor.
  - intros f [= <-]. by vm_compute.
  - assert (Forall (λ p, Z.abs (p.1 * p.1 - 2 ^ 128 * p.2) ≤ 2 ^ 129)
      (zip tick_factors (tail tick_factors))) as Hall.
    { apply (bool_decide_unpack _). by vm_compute. }
    rewrite Forall_lookup in Hall. intros i f g Hf Hg. apply (Hall i (f, g)).
    apply lookup_zip_with_Some. exists f, g. split_and!; [done..|].
    by rewrite <- lookup_tail in Hg.
Qed.
End ticks.
