(* ===== verification/PoolBook.v ===== *)
(** The book of pools (crate [markets], [lib.rs]): the map from pool address to
    pool state, the history of applied [Sync] logs and the application of a log
    to the book, reorganisations included. *)

From S2P Require Import Prelude RustStr Types MarketsV2 U256 MarketsV3.
#[local] Open Scope Z_scope.

Inductive PoolState :=
| V2 (pool : V2PoolState)
| V3 (pool : V3PoolState).

#[global] Instance PoolState_eq_dec : EqDecision PoolState.
Proof. solve_decision. Defined.

(** [tx_hash] and [log_index]. *)
Abbreviation AppliedLogKey := (TxHash * Z)%type (only parsing).

Record PoolBook := {
  pools : gmap string PoolState;
  applied_sync_history : gmap AppliedLogKey V2SyncSnapshot }.

Definition pool_kind (p : PoolState) : PoolKind :=
  match p with V2 _ => ConstantProduct | V3 _ => ConcentratedLiquidity end.

Definition pool_address (p : PoolState) : string :=
  match p with V2 pool => v2_address pool | V3 pool => v3_address pool end.

Definition normalize_address_key (address : string) : string :=
  let trimmed := trim address in
  let hex := default trimmed (strip_prefix "0x" trimmed) in
  "0x" +:+ to_ascii_lowercase hex.

Definition book_new : PoolBook := {| pools := ∅; applied_sync_history := ∅ |}.

Definition insert_v2_pool (b : PoolBook) (pool : V2PoolState) : PoolBook :=
  {| pools := <[normalize_address_key (v2_address pool) := V2 pool]> (pools b);
     applied_sync_history := applied_sync_history b |}.

Definition insert_v3_pool (b : PoolBook) (pool : V3PoolState) : PoolBook :=
  {| pools := <[normalize_address_key (v3_address pool) := V3 pool]> (pools b);
     applied_sync_history := applied_sync_history b |}.

Definition book_pool (b : PoolBook) (address : string) : option PoolState :=
  pools b !! normalize_address_key address.

Definition book_v2_pool (b : PoolBook) (address : string) : option V2PoolState :=
  match book_pool b address with Some (V2 pool) => Some pool | _ => None end.

Definition book_v3_pool (b : PoolBook) (address : string) : option V3PoolState :=
  match book_pool b address with Some (V3 pool) => Some pool | _ => None end.

(** [HashMap::values] visits the entries in an unspecified order, given here as
    the list [values]; a run of the program has [values] a permutation of the
    values of [pools]. *)
Definition v2_pools (values : list PoolState) : list V2PoolState :=
  omap (λ p, match p with V2 pool => Some pool | _ => None end) values.
Definition v3_pools (values : list PoolState) : list V3PoolState :=
  omap (λ p, match p with V3 pool => Some pool | _ => None end) values.

Definition iteration_order (b : PoolBook) (values : list PoolState) : Prop :=
  values ≡ₚ (map_to_list (pools b)).*2.

Definition applied_log_key (log : Log) : res MarketError AppliedLogKey :=
  tx_hash ← ok_or (md_tx_hash (log_metadata log)) MissingLogIdentity;
  log_index ← ok_or (log_log_index log) MissingLogIdentity;
  mret (tx_hash, log_index).

Section book_ops.
Context {U : U256}.

Definition pool_quote_exact_in (p : PoolState) (token_in : string) (amount_in : Z) :
    res MarketError PoolQuote :=
  match p with
  | V2 pool => v2_quote_exact_in pool token_in amount_in
  | V3 pool => v3_quote_exact_in pool token_in amount_in
  end.

(** The mutated history and pool are returned with the outcome. *)
Definition apply_v2_log (history : gmap AppliedLogKey V2SyncSnapshot)
    (pool : V2PoolState) (log : Log) :
    res MarketError (MarketEventOutcome * V2PoolState * gmap AppliedLogKey V2SyncSnapshot) :=
  match log_decoded_event log with
  | None => Ok (Ignored, pool, history)
  | Some decoded =>
      match dl_kind decoded with
      | V2Sync =>
          applied_key ← applied_log_key log;
          if default false (log_removed log) then
            match history !! applied_key with
            | None => Err (MissingRevertSnapshot applied_key.1 applied_key.2)
            | Some previous =>
                Ok (Reverted, v2_restore pool previous, delete applied_key history)
            end
          else
            let snapshot := v2_snapshot pool in
            '(outcome, pool') ← v2_apply_log pool log;
            Ok (outcome, pool',
                match outcome with
                | Applied => <[applied_key := snapshot]> history
                | _ => history
                end)
      | _ => Ok (Ignored, pool, history)
      end
  end.

(** The book after the call is returned beside the result: on an error the pool
    taken out of the map is not put back. *)
Definition book_apply_log (b : PoolBook) (log : Log) :
    res MarketError MarketEventOutcome * PoolBook :=
  match log_address log with
  | None => (Ok Ignored, b)
  | Some address =>
      let key := normalize_address_key address in
      match pools b !! key with
      | None => (Ok Ignored, b)
      | Some pool_state =>
          let taken := delete key (pools b) in
          let history := applied_sync_history b in
          match pool_state with
          | V2 pool =>
              match apply_v2_log history pool log with
              | Ok (outcome, pool', history') =>
                  (Ok outcome, {| pools := <[key := V2 pool']> taken;
                                  applied_sync_history := history' |})
              | Err e => (Err e, {| pools := taken; applied_sync_history := history |})
              | Panic => (Panic, {| pools := taken; applied_sync_history := history |})
              end
          | V3 pool =>
              match v3_apply_log pool log with
              | Ok (outcome, pool') =>
                  (Ok outcome, {| pools := <[key := V3 pool']> taken;
                                  applied_sync_history := history |})
              | Err e => (Err e, {| pools := taken; applied_sync_history := history |})
              | Panic => (Panic, {| pools := taken; applied_sync_history := history |})
              end
          end
      end
  end.

(** A sequence of logs applied in order, with the result of each. *)
Fixpoint book_apply_logs (b : PoolBook) (logs : list Log) :
    list (res MarketError MarketEventOutcome) * PoolBook :=
  match logs with
  | [] => ([], b)
  | log :: logs =>
      let '(r, b) := book_apply_log b log in
      let '(rs, b) := book_apply_logs b logs in (r :: rs, b)
  end.

End book_ops.

(** ** Keys *)

(** Addresses that differ only in the case of their digits share a key. *)
Lemma normalize_address_key_case a b :
  eq_ignore_ascii_case a b = true →
  opt_is_some (strip_prefix "0x" (trim a)) = true →
  opt_is_some (strip_prefix "0x" (trim b)) = true →
  normalize_address_key a = normalize_address_key b.
Proof.
  rewrite eq_ignore_ascii_case_spec. intros Heq. unfold normalize_address_key.
  destruct (strip_prefix "0x" (trim a)) as [ra|] eqn:Ha; [|done].
  destruct (strip_prefix "0x" (trim b)) as [rb|] eqn:Hb; [|done]. intros _ _. simpl.
  apply strip_prefix_app in Ha, Hb. f_equal.
  assert (to_ascii_lowercase ("0x" +:+ ra) = to_ascii_lowercase ("0x" +:+ rb)) as H
    by (by rewrite <- Ha, <- Hb, <- !trim_lower, Heq).
  by injection H.
Qed.

(** ** The invariant of the book *)

Definition pool_wf (p : PoolState) : Prop :=
  match p with V2 pool => v2_wf pool | V3 pool => v3_wf pool end.

(** Every pool is well formed and stored under the key of its own address, and
    every snapshot holds valid reserves. *)
Record book_wf (b : PoolBook) : Prop := {
  book_wf_pools : map_Forall (λ k p, k = normalize_address_key (pool_address p) ∧ pool_wf p)
                             (pools b);
  book_wf_history : map_Forall (λ _ s, 0 < snap_reserve0 s < 2 ^ 128 ∧
                                       0 < snap_reserve1 s < 2 ^ 128)
                               (applied_sync_history b) }.

(** The decoded amounts of a log are [u128]. *)
Definition log_typed (log : Log) : Prop :=
  ∀ d, log_decoded_event log = Some d →
    (∀ r, dl_reserve0 d = Some r → uint 128 r) ∧
    (∀ r, dl_reserve1 d = Some r → uint 128 r) ∧
    (∀ r, dl_liquidity d = Some r → uint 128 r).

(** What decides the effect of a log on a book. *)
Definition is_sync (removed : bool) (log : Log) : Prop :=
  default false (log_removed log) = removed ∧
  ∃ d, log_decoded_event log = Some d ∧ dl_kind d = V2Sync.

Lemma v2_restore_wf p s :
  v2_wf p → 0 < snap_reserve0 s < 2 ^ 128 → 0 < snap_reserve1 s < 2 ^ 128 →
  v2_wf (v2_restore p s).
Proof. intros []. by constructor. Qed.

Lemma v2_restore_snapshot p r0 r1 b :
  v2_restore (v2_with_reserves p r0 r1 b) (v2_snapshot p) = p.
Proof. by destruct p. Qed.

Section invariant.
Context {U : U256} {HU : U256Laws U}.

Lemma applied_log_key_no_panic log : applied_log_key log ≠ Panic.
Proof. by repeat (apply bind_no_panic; [auto with engine|]; intros). Qed.

Lemma v2_apply_log_no_panic p log : v2_apply_log p log ≠ Panic.
Proof.
  unfold v2_apply_log, v2_apply_sync. repeat case_match; try done.
  all: repeat (apply bind_no_panic; [auto with engine|]; intros); repeat case_match; try done.
Qed.

Lemma v3_apply_log_no_panic p log : v3_apply_log p log ≠ Panic.
Proof.
  unfold v3_apply_log, apply_v3_swap_event. repeat case_match; try done.
  apply bind_no_panic; [|done].
  repeat (apply bind_no_panic; [auto with engine|]; intros).
  - by rewrite outside_price_range_eq.
  - by case_match.
Qed.

Lemma apply_v2_log_wf h p log o p' h' :
  v2_wf p → log_typed log →
  map_Forall (λ _ s, 0 < snap_reserve0 s < 2 ^ 128 ∧ 0 < snap_reserve1 s < 2 ^ 128) h →
  apply_v2_log h p log = Ok (o, p', h') →
  v2_wf p' ∧ v2_address p' = v2_address p ∧
  map_Forall (λ _ s, 0 < snap_reserve0 s < 2 ^ 128 ∧ 0 < snap_reserve1 s < 2 ^ 128) h'.
Proof.
  intros Hwf Hty Hh. unfold apply_v2_log.
  destruct (log_decoded_event log) as [d|] eqn:Hd; [|naive_solver].
  destruct (dl_kind d); try naive_solver. rewrite bind_ok. intros (k & _ & H).
  destruct (default false (log_removed log)).
  - destruct (h !! k) as [s|] eqn:Hk; [|done]. injection H as <- <- <-.
    destruct (Hh _ _ Hk). split_and!; [by apply v2_restore_wf|done|].
    by apply map_Forall_delete.
  - apply bind_ok in H as ([o1 p1] & Ha & H). injection H as <- <- <-.
    destruct (v2_apply_log_wf p log o1 p1) as [Hwf1 Hadr]; [done| |done|].
    { intros d' Hd'. destruct (Hty d' Hd') as (? & ? & _). done. }
    split_and!; [done..|]. destruct o1; try done.
    apply map_Forall_insert_2; [|done]. destruct Hwf. done.
Qed.

(** One log, on every branch: applied, reverted, ignored and refused. *)
Lemma book_apply_log_wf b log r b' :
  book_wf b → log_typed log → book_apply_log b log = (r, b') → book_wf b' ∧ r ≠ Panic.
Proof.
  intros Hwfb Hty. pose proof Hwfb as [Hp Hh]. unfold book_apply_log.
  destruct (log_address log) as [address|]; [|by injection 1 as <- <-].
  set (key := normalize_address_key address).
  destruct (pools b !! key) as [[p|p]|] eqn:Hk; [..|by injection 1 as <- <-].
  - destruct (Hp _ _ Hk) as [Hkey Hwf].
    destruct (apply_v2_log _ _ _) as [[[o p'] h']|e|] eqn:Ha; injection 1 as <- <-.
    + destruct (apply_v2_log_wf _ _ _ _ _ _ Hwf Hty Hh Ha) as (Hwf' & Hadr & Hh').
      split; [|done]. constructor; [|done]. cbn. apply map_Forall_insert_2.
      { cbn. by rewrite Hadr. } by apply map_Forall_delete.
    + split; [|done]. constructor; [by apply map_Forall_delete|done].
    + exfalso. revert Ha. unfold apply_v2_log. repeat case_match; try done.
      * apply bind_no_panic; [apply applied_log_key_no_panic|]. intros. by case_match.
      * apply bind_no_panic; [apply applied_log_key_no_panic|]. intros.
        apply bind_no_panic; [apply v2_apply_log_no_panic|]. by intros [].
  - destruct (Hp _ _ Hk) as [Hkey Hwf].
    destruct (v3_apply_log _ _) as [[o p']|e|] eqn:Ha; injection 1 as <- <-.
    + destruct (v3_apply_log_wf p log o p') as [Hwf' Hadr]; [done| |done|].
      { intros d l Hd Hl. by apply (Hty d Hd). }
      split; [|done]. constructor; [|done]. cbn. apply map_Forall_insert_2.
      { cbn. by rewrite Hadr. } by apply map_Forall_delete.
    + split; [|done]. constructor; [by apply map_Forall_delete|done].
    + by apply v3_apply_log_no_panic in Ha.
Qed.

(** C13. Applying any sequence of logs never panics and keeps the invariant of the
    book, whatever happens to each log: applied, reverted, ignored or refused. *)
Theorem book_apply_log_invariant b logs rs b' :
  book_wf b → Forall log_typed logs → book_apply_logs b logs = (rs, b') →
  book_wf b' ∧ Forall (λ r, r ≠ Panic) rs.
Proof.
  intros Hb Hl. revert b rs Hb. induction Hl as [|log logs Hlog _ IH]; intros b rs Hb; cbn.
  { by intros [= <- <-]. }
  destruct (book_apply_log b log) as [r b1] eqn:Hr.
  destruct (book_apply_log_wf _ _ _ _ Hb Hlog Hr) as [Hb1 Hp].
  destruct (book_apply_logs b1 logs) as [rs1 b2] eqn:Hrs. intros [= <- <-].
  destruct (IH b1 rs1 Hb1 Hrs). by split; [|constructor].
Qed.

(** ** Applying and reverting [Sync] logs *)

Definition log_key (log : Log) : option AppliedLogKey :=
  tx_hash ← md_tx_hash (log_metadata log);
  log_index ← log_log_index log;
  Some (tx_hash, log_index).

Lemma applied_log_key_eq log :
  applied_log_key log = ok_or (log_key log) MissingLogIdentity.
Proof.
  unfold applied_log_key, log_key.
  destruct (md_tx_hash _); [|done]. by destruct (log_log_index log).
Qed.

(** The effect of a [Sync] log that is applied. *)
Lemma book_sync_inv b log b' :
  is_sync false log → book_apply_log b log = (Ok Applied, b') →
  ∃ address k p r0 r1 blk, log_address log = Some address ∧ log_key log = Some k ∧
    pools b !! normalize_address_key address = Some (V2 p) ∧
    b' = {| pools := <[normalize_address_key address := V2 (v2_with_reserves p r0 r1 blk)]>
                       (pools b);
            applied_sync_history := <[k := v2_snapshot p]> (applied_sync_history b) |}.
Proof.
  intros [Hrm (d & Hd & Hkind)]. unfold book_apply_log.
  destruct (log_address log) as [address|] eqn:Ha; [|done].
  destruct (pools b !! _) as [[p|p]|] eqn:Hk; [| |done].
  - unfold apply_v2_log. rewrite Hd, Hkind, Hrm, applied_log_key_eq.
    destruct (log_key log) as [k|]; cbn [ok_or mbind res_bind]; [|done].
    unfold v2_apply_log. rewrite Ha, Hd, Hkind.
    destruct (negb _); [done|].
    destruct (dl_reserve0 d) as [r0|]; cbn [ok_or mbind res_bind]; [|done].
    destruct (dl_reserve1 d) as [r1|]; cbn [ok_or mbind res_bind]; [|done].
    unfold v2_apply_sync. destruct (_ || _); cbn [mbind res_bind]; [done|].
    intros [= <-]. rewrite insert_delete_eq. by repeat eexists.
  - unfold v3_apply_log. rewrite Ha, Hd, Hkind. by destruct (negb _).
Qed.

(** The effect of a removed [Sync] log whose snapshot is in the history. *)
Lemma book_removed_eq b log address k p s :
  is_sync true log → log_address log = Some address → log_key log = Some k →
  pools b !! normalize_address_key address = Some (V2 p) →
  applied_sync_history b !! k = Some s →
  book_apply_log b log =
    (Ok Reverted,
     {| pools := <[normalize_address_key address := V2 (v2_restore p s)]> (pools b);
        applied_sync_history := delete k (applied_sync_history b) |}).
Proof.
  intros [Hrm (d & Hd & Hkind)] Ha Hlk Hk Hs. unfold book_apply_log.
  rewrite Ha, Hk. unfold apply_v2_log.
  rewrite Hd, Hkind, Hrm, applied_log_key_eq, Hlk. cbn [ok_or mbind res_bind].
  by rewrite Hs, insert_delete_eq.
Qed.

(** The same log with its [removed] flag set, as a node sends it on a reorganisation. *)
Definition removed_log (log : Log) : Log :=
  {| log_metadata := log_metadata log; log_address := log_address log;
     log_topics := log_topics log; log_data := log_data log;
     log_event_signature := log_event_signature log;
     log_decoded_event := log_decoded_event log; log_protocol := log_protocol log;
     log_exchange := log_exchange log; log_log_index := log_log_index log;
     log_removed := Some true |}.

Lemma book_undo_step b log b' :
  is_sync false log → book_apply_log b log = (Ok Applied, b') →
  ∃ k, log_key log = Some k ∧
    book_apply_log b' (removed_log log) =
      (Ok Reverted, {| pools := pools b;
                       applied_sync_history := delete k (applied_sync_history b) |}).
Proof.
  intros Hsync Happ. destruct (book_sync_inv _ _ _ Hsync Happ)
    as (address & k & p & r0 & r1 & blk & Ha & Hk & Hp & ->).
  exists k. split; [done|]. destruct Hsync as [_ Hd].
  erewrite book_removed_eq; [|done|exact Ha|exact Hk|apply lookup_insert_eq..].
  cbn. rewrite insert_insert_eq, v2_restore_snapshot, delete_insert_eq.
  by rewrite (insert_id (pools b)).
Qed.

Lemma book_apply_logs_app b l1 l2 :
  book_apply_logs b (l1 ++ l2) =
    let '(rs1, b1) := book_apply_logs b l1 in
    let '(rs2, b2) := book_apply_logs b1 l2 in (rs1 ++ rs2, b2).
Proof.
  revert b. induction l1 as [|log l1 IH]; intros b; simpl; [by destruct (book_apply_logs b l2)|].
  destruct (book_apply_log b log) as [r b1]. rewrite IH.
  destruct (book_apply_logs b1 l1) as [rs1 b2]. by destruct (book_apply_logs b2 l2).
Qed.

(** C14. A reorganisation is undone exactly: [Sync] logs with distinct
    identities, all applied and then sent again as removed in the reverse order,
    are all reverted and leave the book as it was. *)
Theorem book_reorg_undo b logs b' :
  Forall (is_sync false) logs → NoDup (log_key <$> logs) →
  (∀ log k, log ∈ logs → log_key log = Some k → applied_sync_history b !! k = None) →
  book_apply_logs b logs = (replicate (length logs) (Ok Applied), b') →
  book_apply_logs b' (reverse (removed_log <$> logs)) =
    (replicate (length logs) (Ok Reverted), b).
Proof.
  intros Hsync. revert b. induction Hsync as [|log logs Hs _ IH]; intros b Hnd Hfresh Happ.
  { by injection Happ as <-. }
  cbn [book_apply_logs length replicate] in Happ.
  destruct (book_apply_log b log) as [r b1] eqn:Hlog.
  destruct (book_apply_logs b1 logs) as [rs b2] eqn:Hlogs. injection Happ as -> -> ->.
  destruct (book_undo_step _ _ _ Hs Hlog) as (k & Hk & Hundo).
  destruct (book_sync_inv _ _ _ Hs Hlog) as (? & k' & p & ? & ? & ? & _ & Hk' & _ & Hb1).
  rewrite fmap_cons, NoDup_cons in Hnd. destruct Hnd as [Hnin Hnd].
  rewrite fmap_cons, reverse_cons, book_apply_logs_app, (IH b1).
  - cbn [book_apply_logs]. rewrite Hundo.
    rewrite delete_id by (by eapply (Hfresh log); [left|]). destruct b. cbn.
    f_equal. by rewrite <- replicate_cons_app.
  - done.
  - intros log' k1 Hin Hk1. rewrite Hb1. cbn. rewrite lookup_insert_ne.
    { eapply (Hfresh log'); [by right|done]. }
    intros ->. apply Hnin. rewrite Hk', <- Hk1. by apply list_elem_of_fmap_2.
  - done.
Qed.

(** A log delivered twice is recorded once: its removal then takes the book
    back to the state after the first delivery and not before it, and the second
    removal is refused and drops the pool. *)
Theorem book_duplicate_delivery b log b1 b2 :
  is_sync false log →
  book_apply_log b log = (Ok Applied, b1) → book_apply_log b1 log = (Ok Applied, b2) →
  ∃ address b3 b4 tx_hash log_index, log_address log = Some address ∧
    book_apply_log b2 (removed_log log) = (Ok Reverted, b3) ∧ pools b3 = pools b1 ∧
    book_apply_log b3 (removed_log log) = (Err (MissingRevertSnapshot tx_hash log_index), b4) ∧
    book_pool b4 address = None.
Proof.
  intros Hs H1 H2. destruct (book_undo_step _ _ _ Hs H2) as (k & Hk & Hundo).
  destruct (book_sync_inv _ _ _ Hs H1)
    as (address & k' & p & r0 & r1 & blk & Ha & Hk' & Hp & Hb1).
  eexists address, _, _, k.1, k.2. split; [done|]. split; [exact Hundo|]. split; [done|].
  destruct Hs as [_ (d & Hd & Hkind)]. unfold book_apply_log, removed_log at 1. cbn [log_address].
  rewrite Ha. cbn [pools]. rewrite Hb1. cbn [pools]. rewrite lookup_insert_eq.
  unfold apply_v2_log, removed_log at 1. cbn [log_decoded_event]. rewrite Hd, Hkind.
  rewrite applied_log_key_eq. change (log_key (removed_log log)) with (log_key log). rewrite Hk.
  cbn [ok_or mbind res_bind removed_log log_removed default applied_sync_history].
  rewrite lookup_delete_eq. split; [reflexivity|].
  unfold book_pool. cbn [pools]. apply lookup_delete_eq.
Qed.

(** A refused log evicts the pool it is for: every error leaves the book
    without that pool and otherwise unchanged, so later logs of the pool are
    ignored. *)
Theorem book_error_evicts b log e b' :
  book_apply_log b log = (Err e, b') →
  ∃ address p, log_address log = Some address ∧ book_pool b address = Some p ∧
    b' = {| pools := delete (normalize_address_key address) (pools b);
            applied_sync_history := applied_sync_history b |} ∧
    ∀ log', log_address log' = Some address → book_apply_log b' log' = (Ok Ignored, b').
Proof.
  unfold book_apply_log at 1. destruct (log_address log) as [address|]; [|done].
  destruct (pools b !! _) as [p|] eqn:Hp; [|done]. intros H.
  assert (b' = {| pools := delete (normalize_address_key address) (pools b);
                  applied_sync_history := applied_sync_history b |}) as ->
    by (repeat case_match; naive_solver).
  exists address, p. split_and!; try done.
  intros log' Ha'. unfold book_apply_log. rewrite Ha'. cbn. by rewrite lookup_delete_eq.
Qed.

(** A log touches no pool but the one its address names. *)
Theorem book_apply_log_frame b log address :
  (∀ a, log_address log = Some a → normalize_address_key a ≠ normalize_address_key address) →
  book_pool (book_apply_log b log).2 address = book_pool b address.
Proof.
  intros Hne. unfold book_apply_log, book_pool.
  destruct (log_address log) as [a|]; [|done]. specialize (Hne a eq_refl).
  repeat case_match; cbn; rewrite ?lookup_insert_ne, ?lookup_delete_ne by done; done.
Qed.

(** A removed [Swap] log of a V3 pool is applied a second time: the book
    does not distinguish it from the log it takes back. *)
Theorem book_v3_removed_reapplied b log address p :
  log_address log = Some address → book_pool b address = Some (V3 p) →
  book_apply_log b (removed_log log) = book_apply_log b log.
Proof.
  unfold book_pool. intros Ha Hp. unfold book_apply_log. cbn [removed_log log_address].
  by rewrite Ha, Hp.
Qed.

End invariant.

(** A pool inserted in a book of valid pools keeps the invariant, and is
    found again under any spelling of its address that differs in case only. *)
Theorem book_insert_lookup b pool address :
  book_wf b → v2_wf pool →
  eq_ignore_ascii_case address (v2_address pool) = true →
  opt_is_some (strip_prefix "0x" (trim address)) = true →
  opt_is_some (strip_prefix "0x" (trim (v2_address pool))) = true →
  book_wf (insert_v2_pool b pool) ∧ book_v2_pool (insert_v2_pool b pool) address = Some pool.
Proof.
  intros [Hp Hh] Hwf Heq Ha Hb. split.
  - constructor; [|done]. by apply map_Forall_insert_2.
  - unfold book_v2_pool, book_pool, insert_v2_pool. cbn.
    by rewrite (normalize_address_key_case address (v2_address pool)), lookup_insert_eq.
Qed.
