(* ===== verification/Config.v ===== *)
(** The configuration layer (crate [config]): the readers of the environment,
    the configuration records and their validation.  The environment is a
    function from variable names to values; a value that is not valid Unicode
    reads as absent, as in [env::var(key).ok()]. *)

From S2P Require Import Prelude RustStr Types.
#[local] Open Scope Z_scope.

Inductive ConfigError :=
| MissingRequired (key context : string)
| InvalidValue (key value context : string)
| Validation (message : string).

#[global] Instance ConfigError_eq_dec : EqDecision ConfigError.
Proof. solve_decision. Defined.

Inductive ExecutionMode := Shadow | Canary | Live.

#[global] Instance ExecutionMode_eq_dec : EqDecision ExecutionMode.
Proof. solve_decision. Defined.

(** ** Readers *)

Definition Env : Type := string → option string.

Fixpoint find_map {A B : Type} (f : A → option B) (l : list A) : option B :=
  match l with
  | [] => None
  | a :: l => match f a with Some b => Some b | None => find_map f l end
  end.

Definition first_key (keys : list string) : string := default "" (head keys).

Definition optional_non_empty_any (env : Env) (keys : list string) : option string :=
  find_map (λ key,
    value ← trim <$> env key;
    if str_is_empty value then None else Some value) keys.

Definition required_var_any (env : Env) (keys : list string) : res ConfigError string :=
  ok_or (find_map (λ key, optional_non_empty_any env [key]) keys)
        (MissingRequired (first_key keys) "value is required").

Definition string_var_any (env : Env) (keys : list string) (dflt : string) :
    res ConfigError string :=
  Ok (default dflt (optional_non_empty_any env keys)).

Definition bool_var_any (env : Env) (keys : list string) (dflt : bool) :
    res ConfigError bool :=
  match optional_non_empty_any env keys with
  | None => Ok dflt
  | Some value =>
      let lower := to_ascii_lowercase value in
      if bool_decide (lower ∈ ["true"; "1"; "yes"; "on"]%string) then Ok true
      else if bool_decide (lower ∈ ["false"; "0"; "no"; "off"]%string) then Ok false
      else Err (InvalidValue (first_key keys) value "expected a boolean value")
  end.

(** [str::split] at commas and white space, on the UTF-8 bytes; [cur] is the
    current piece, reversed. *)
Fixpoint split_csv (cur l : list Z) : list (list Z) :=
  match l with
  | [] => [reverse cur]
  | a :: l1 =>
      if (a =? 44) || ws1 a then reverse cur :: split_csv [] l1 else
      match l1 with
      | [] => [reverse (a :: cur)]
      | b :: l2 =>
          if ws2 a b then reverse cur :: split_csv [] l2 else
          match l2 with
          | c :: l3 => if ws3 a b c then reverse cur :: split_csv [] l3
                       else split_csv (a :: cur) l1
          | [] => split_csv (a :: cur) l1
          end
      end
  end.

Definition csv_var_any (env : Env) (keys : list string) : list string :=
  match optional_non_empty_any env keys with
  | None => []
  | Some raw =>
      to_ascii_lowercase <$>
        filter (λ s, str_is_empty s = false) (trim ∘ str_of <$> split_csv [] (bytes_of raw))
  end.

(** [u64_var_any], [u32_var_any] and [usize_var_any] differ in the width and in
    the text of the error. *)
Definition uint_var_any (w : Z) (context : string) (env : Env) (keys : list string)
    (dflt : Z) : res ConfigError Z :=
  match optional_non_empty_any env keys with
  | None => Ok dflt
  | Some value =>
      map_err (λ _, InvalidValue (first_key keys) value context) (parse_uint w value)
  end.
Definition u64_var_any := uint_var_any 64 "expected an unsigned integer".
Definition u32_var_any := uint_var_any 32 "expected an unsigned integer".
Definition usize_var_any := uint_var_any 64 "expected a positive integer".

Definition parse_channel (value : string) : res ConfigError Channel :=
  let lower := to_ascii_lowercase (trim value) in
  if bool_decide (lower = "ipc") then Ok Ipc
  else if bool_decide (lower = "ws") || bool_decide (lower = "websocket") then Ok Ws
  else Err (InvalidValue "INGEST_CHANNEL" value "expected `ipc` or `ws`").

Definition parse_execution_mode (value : string) : res ConfigError ExecutionMode :=
  let lower := to_ascii_lowercase (trim value) in
  if bool_decide (lower = "shadow") || bool_decide (lower = "research") then Ok Shadow
  else if bool_decide (lower = "canary") then Ok Canary
  else if bool_decide (lower = "live") then Ok Live
  else Err (InvalidValue "EXECUTION_MODE" value "expected `shadow`, `canary`, or `live`").

Definition parse_u128 (key value : string) : res ConfigError Z :=
  map_err (λ _, InvalidValue key value
    "expected an unsigned 128-bit integer encoded as a base-10 string") (parse_uint 128 value).

Definition validate_positive (value : Z) (message : string) : res ConfigError unit :=
  if value =? 0 then Err (Validation message) else Ok tt.

Definition validate_backoff (initial max : Z) (initial_key max_key : string) :
    res ConfigError unit :=
  if initial =? 0 then
    Err (Validation (
      if bool_decide (initial_key = "INGEST_RECONNECT_INITIAL_MS")
      then "INGEST_RECONNECT_INITIAL_MS must be greater than zero"
      else "initial backoff must be greater than zero"))
  else if max <? initial then
    Err (Validation (
      if bool_decide (max_key = "INGEST_RECONNECT_MAX_MS")
      then "INGEST_RECONNECT_MAX_MS must be greater than or equal to INGEST_RECONNECT_INITIAL_MS"
      else if bool_decide (max_key = "RPC_RETRY_MAX_MS")
      then "RPC_RETRY_MAX_MS must be greater than or equal to RPC_RETRY_INITIAL_MS"
      else "maximum backoff must be greater than or equal to initial backoff"))
  else Ok tt.

Definition is_valid_address (value : string) : bool :=
  let trimmed := default value (strip_prefix "0x" value) in
  (str_len trimmed =? 40) && str_all is_ascii_hexdigit trimmed.

(** ** Configuration records *)

Record IngestConfig := {
  ing_chain_id : Z;                           (* u64 *)
  ing_channel : Channel;
  ing_ipc_file_path : option string;
  ing_ws_url : option string;
  ing_flashblocks_ws_url : option string;
  ing_subscribe_transactions : bool;
  ing_subscribe_logs : bool;
  ing_subscribe_blocks : bool;
  ing_subscribe_flashblocks : bool;
  ing_reconnect_initial_ms : Z;               (* u64 *)
  ing_reconnect_max_ms : Z;                   (* u64 *)
  ing_heartbeat_timeout_secs : Z;             (* u64 *)
  ing_dedup_cache_size : Z;                   (* usize *)
  ing_event_channel_capacity : Z;             (* usize *)
  ing_runtime_channel_capacity : Z }.         (* usize *)

Record RpcConfig := {
  rpcc_chain_id : Z;                          (* u64 *)
  rpcc_http_url : option string;
  rpcc_ws_url : option string;
  rpcc_ipc_file_path : option string;
  rpcc_flashblocks_ws_url : option string;
  rpcc_multicall3_address : option string;
  rpcc_retry_initial_ms : Z;                  (* u64 *)
  rpcc_retry_max_ms : Z;                      (* u64 *)
  rpcc_request_timeout_ms : Z }.              (* u64 *)

Record SignerConfig := {
  sgn_private_key : option string;
  sgn_keystore_path : option string;
  sgn_keystore_password : option string;
  sgn_aws_kms_key_id : option string }.

Record DecisionConfig := {
  dec_max_route_hops : Z;                     (* usize *)
  dec_max_candidate_routes : Z;               (* usize *)
  dec_min_net_profit_wei : string;
  dec_kill_switch_path : option string;
  dec_settlement_token : option string;
  dec_scan_trade_amount_wei : option string;
  dec_v2_bootstrap_path : option string;
  dec_simulation_gas_estimate : Z;            (* u64 *)
  dec_simulation_gas_cost_wei : string;
  dec_simulation_l1_data_fee_wei : string }.

Record RiskConfig := {
  rcfg_min_net_profit_wei : string;
  rcfg_min_profit_bps : Z;                      (* u32 *)
  rcfg_max_trade_notional_wei : option string;
  rcfg_max_per_block_notional_wei : option string;
  rcfg_max_daily_notional_wei : option string;
  rcfg_max_slippage_bps : Z;                    (* u32 *)
  rcfg_token_allowlist : list string;
  rcfg_token_denylist : list string;
  rcfg_max_consecutive_reverts : Z;             (* u32 *)
  rcfg_kill_switch_path : option string }.

Record ExecutionConfig := {
  exec_mode : ExecutionMode;
  exec_submit_timeout_secs : Z;               (* u64 *)
  exec_receipt_timeout_secs : Z;              (* u64 *)
  exec_router_address : option string;
  exec_canary_max_trade_wei : option string;
  exec_canary_max_daily_wei : option string;
  exec_gas_limit_multiplier_bps : Z;          (* u32 *)
  exec_max_fee_per_gas_wei : option string;
  exec_max_priority_fee_per_gas_wei : option string;
  exec_plan_deadline_secs : Z;                (* u64 *)
  exec_use_flashloan : bool;
  exec_ethcall_preflight_required : bool;
  exec_ethcall_timeout_secs : Z }.            (* u64 *)

Record StorageConfig := {
  sto_database_url : option string;
  sto_max_connections : Z;                    (* u32 *)
  sto_connect_timeout_secs : Z;               (* u64 *)
  sto_auto_migrate : bool }.

Record DiscoveryConfig := {
  dis_enabled : bool;
  dis_factories_path : option string;
  dis_multicall3_address : option string;
  dis_pinned_head_block : option Z }.         (* u64 *)

(** ** Validation *)

Definition ingest_validate (c : IngestConfig) : res ConfigError unit :=
  if ing_chain_id c =? 0
  then Err (Validation "INGEST_CHAIN_ID / BASE_CHAIN_ID must be greater than zero") else
  _ ← match ing_channel c, ing_ipc_file_path c, ing_ws_url c with
      | Ipc, None, _ =>
          Err (MissingRequired "INGEST_IPC_FILE_PATH"
                               "INGEST_CHANNEL=ipc requires an IPC file path")
      | Ws, _, None =>
          Err (MissingRequired "INGEST_WS_URL" "INGEST_CHANNEL=ws requires a websocket URL")
      | _, _, _ => Ok tt
      end;
  if negb (ing_subscribe_transactions c) && negb (ing_subscribe_logs c) &&
     negb (ing_subscribe_blocks c)
  then Err (Validation "at least one ingest subscription must be enabled") else
  if ing_subscribe_flashblocks c && negb (opt_is_some (ing_flashblocks_ws_url c))
  then Err (MissingRequired "INGEST_FLASHBLOCKS_WS_URL"
    "INGEST_SUBSCRIBE_FLASHBLOCKS=true requires a flashblocks websocket URL") else
  _ ← validate_backoff (ing_reconnect_initial_ms c) (ing_reconnect_max_ms c)
        "INGEST_RECONNECT_INITIAL_MS" "INGEST_RECONNECT_MAX_MS";
  _ ← validate_positive (ing_heartbeat_timeout_secs c)
        "INGEST_HEARTBEAT_TIMEOUT_SECS must be greater than zero";
  _ ← validate_positive (ing_dedup_cache_size c)
        "INGEST_DEDUP_CACHE_SIZE must be greater than zero";
  _ ← validate_positive (ing_event_channel_capacity c)
        "INGEST_EVENT_CHANNEL_CAPACITY must be greater than zero";
  validate_positive (ing_runtime_channel_capacity c)
        "INGEST_RUNTIME_CHANNEL_CAPACITY must be greater than zero".

Definition rpc_validate (c : RpcConfig) : res ConfigError unit :=
  if rpcc_chain_id c =? 0
  then Err (Validation "RPC_CHAIN_ID / BASE_CHAIN_ID must be greater than zero") else
  if negb (opt_is_some (rpcc_http_url c)) && negb (opt_is_some (rpcc_ws_url c)) &&
     negb (opt_is_some (rpcc_ipc_file_path c))
  then Err (Validation
    "at least one of RPC_HTTP_URL, RPC_WS_URL, or RPC_IPC_FILE_PATH must be configured") else
  _ ← validate_backoff (rpcc_retry_initial_ms c) (rpcc_retry_max_ms c)
        "RPC_RETRY_INITIAL_MS" "RPC_RETRY_MAX_MS";
  validate_positive (rpcc_request_timeout_ms c)
        "RPC_REQUEST_TIMEOUT_MS must be greater than zero".

Definition signer_validate (c : SignerConfig) (execution : ExecutionConfig) :
    res ConfigError unit :=
  if bool_decide (exec_mode execution = Shadow) then Ok tt else
  if negb (opt_is_some (sgn_private_key c)) && negb (opt_is_some (sgn_keystore_path c)) &&
     negb (opt_is_some (sgn_aws_kms_key_id c))
  then Err (Validation "live/canary execution requires a signer source")
  else Ok tt.

Definition decision_validate (c : DecisionConfig) : res ConfigError unit :=
  _ ← validate_positive (dec_max_route_hops c)
        "DECISION_MAX_ROUTE_HOPS / MAX_ROUTE_HOPS must be greater than zero";
  _ ← validate_positive (dec_max_candidate_routes c)
        "DECISION_MAX_CANDIDATE_ROUTES / MAX_CANDIDATE_ROUTES must be greater than zero";
  _ ← parse_u128 "DECISION_MIN_NET_PROFIT_WEI" (dec_min_net_profit_wei c);
  _ ← validate_positive (dec_simulation_gas_estimate c)
        "DECISION_SIMULATION_GAS_ESTIMATE must be greater than zero";
  _ ← parse_u128 "DECISION_SIMULATION_GAS_COST_WEI" (dec_simulation_gas_cost_wei c);
  _ ← parse_u128 "DECISION_SIMULATION_L1_DATA_FEE_WEI" (dec_simulation_l1_data_fee_wei c);
  match dec_settlement_token c, dec_scan_trade_amount_wei c with
  | Some _, Some amount => _ ← parse_u128 "DECISION_SCAN_TRADE_AMOUNT_WEI" amount; Ok tt
  | None, None => Ok tt
  | Some _, None => Err (MissingRequired "DECISION_SCAN_TRADE_AMOUNT_WEI"
      "decision runtime scanning requires a trade amount when a settlement token is configured")
  | None, Some _ => Err (MissingRequired "DECISION_SETTLEMENT_TOKEN"
      "decision runtime scanning requires a settlement token when a trade amount is configured")
  end.

Definition risk_validate (c : RiskConfig) (execution : ExecutionConfig) :
    res ConfigError unit :=
  _ ← parse_u128 "RISK_MIN_NET_PROFIT_WEI" (rcfg_min_net_profit_wei c);
  _ ← opt_traverse (parse_u128 "RISK_MAX_TRADE_NOTIONAL_WEI") (rcfg_max_trade_notional_wei c);
  _ ← opt_traverse (parse_u128 "RISK_MAX_PER_BLOCK_NOTIONAL_WEI")
        (rcfg_max_per_block_notional_wei c);
  _ ← opt_traverse (parse_u128 "RISK_MAX_DAILY_NOTIONAL_WEI") (rcfg_max_daily_notional_wei c);
  if 10000 <? rcfg_min_profit_bps c
  then Err (Validation "RISK_MIN_PROFIT_BPS must be <= 10000") else
  if 10000 <? rcfg_max_slippage_bps c
  then Err (Validation "RISK_MAX_SLIPPAGE_BPS must be <= 10000") else
  _ ← (if bool_decide (exec_mode execution ≠ Shadow) then
         if negb (opt_is_some (rcfg_max_trade_notional_wei c))
         then Err (MissingRequired "RISK_MAX_TRADE_NOTIONAL_WEI"
                "live/canary execution requires a per-trade notional cap")
         else if negb (opt_is_some (rcfg_max_daily_notional_wei c))
         then Err (MissingRequired "RISK_MAX_DAILY_NOTIONAL_WEI"
                "live/canary execution requires a daily notional cap")
         else Ok tt
       else Ok tt);
  if forallb is_valid_address (rcfg_token_allowlist c ++ rcfg_token_denylist c) then Ok tt
  else Err (Validation
    "RISK_TOKEN_ALLOWLIST / RISK_TOKEN_DENYLIST entries must be 0x-prefixed 20-byte addresses").

Definition execution_validate (c : ExecutionConfig) : res ConfigError unit :=
  _ ← validate_positive (exec_submit_timeout_secs c)
        "EXECUTION_SUBMIT_TIMEOUT_SECS must be greater than zero";
  _ ← validate_positive (exec_receipt_timeout_secs c)
        "EXECUTION_RECEIPT_TIMEOUT_SECS must be greater than zero";
  if exec_gas_limit_multiplier_bps c <? 10000
  then Err (Validation "EXECUTION_GAS_LIMIT_MULTIPLIER_BPS must be at least 10000") else
  _ ← validate_positive (exec_plan_deadline_secs c)
        "EXECUTION_PLAN_DEADLINE_SECS must be greater than zero";
  _ ← validate_positive (exec_ethcall_timeout_secs c)
        "EXECUTION_ETHCALL_TIMEOUT_SECS must be greater than zero";
  if bool_decide (exec_mode c ≠ Shadow) && negb (opt_is_some (exec_router_address c))
  then Err (MissingRequired "EXECUTION_ROUTER_ADDRESS"
    "live/canary execution requires a deployed execution router address") else
  _ ← opt_traverse (parse_u128 "EXECUTION_MAX_FEE_PER_GAS_WEI") (exec_max_fee_per_gas_wei c);
  _ ← opt_traverse (parse_u128 "EXECUTION_MAX_PRIORITY_FEE_PER_GAS_WEI")
        (exec_max_priority_fee_per_gas_wei c);
  if bool_decide (exec_mode c = Canary) then
    max_trade ← ok_or (exec_canary_max_trade_wei c)
      (MissingRequired "EXECUTION_CANARY_MAX_TRADE_WEI" "canary mode requires a per-trade limit");
    max_daily ← ok_or (exec_canary_max_daily_wei c)
      (MissingRequired "EXECUTION_CANARY_MAX_DAILY_WEI" "canary mode requires a daily limit");
    _ ← parse_u128 "EXECUTION_CANARY_MAX_TRADE_WEI" max_trade;
    _ ← parse_u128 "EXECUTION_CANARY_MAX_DAILY_WEI" max_daily;
    Ok tt
  else Ok tt.

Definition storage_validate (c : StorageConfig) : res ConfigError unit :=
  if negb (opt_is_some (sto_database_url c)) then Ok tt else
  if sto_max_connections c =? 0
  then Err (Validation "STORAGE_MAX_CONNECTIONS must be greater than zero") else
  validate_positive (sto_connect_timeout_secs c)
    "STORAGE_CONNECT_TIMEOUT_SECS must be greater than zero".

Definition discovery_validate (c : DiscoveryConfig) : res ConfigError unit :=
  if negb (dis_enabled c) then Ok tt else
  if str_is_empty (default "" (dis_factories_path c))
  then Err (Validation "DISCOVERY_FACTORIES_PATH is required when DISCOVERY_ENABLED=true") else
  if str_is_empty (default "" (dis_multicall3_address c))
  then Err (Validation "DISCOVERY_MULTICALL3_ADDRESS is required when DISCOVERY_ENABLED=true")
  else Ok tt.

(** ** Construction from the environment *)

Definition ingest_from_env (env : Env) : res ConfigError IngestConfig :=
  raw ← required_var_any env ["INGEST_CHANNEL"; "BASE_TRANSPORT"]%string;
  channel ← parse_channel raw;
  chain_id ← u64_var_any env ["INGEST_CHAIN_ID"; "BASE_CHAIN_ID"]%string 8453;
  subscribe_transactions ← bool_var_any env
    ["INGEST_SUBSCRIBE_TRANSACTIONS"; "FLASHBLOCKS_SUBSCRIBE_TRANSACTIONS"]%string true;
  subscribe_logs ← bool_var_any env
    ["INGEST_SUBSCRIBE_LOGS"; "FLASHBLOCKS_SUBSCRIBE_PENDING_LOGS"]%string true;
  subscribe_blocks ← bool_var_any env ["INGEST_SUBSCRIBE_BLOCKS"]%string true;
  subscribe_flashblocks ← bool_var_any env ["INGEST_SUBSCRIBE_FLASHBLOCKS"]%string false;
  reconnect_initial_ms ← u64_var_any env ["INGEST_RECONNECT_INITIAL_MS"]%string 500;
  reconnect_max_ms ← u64_var_any env ["INGEST_RECONNECT_MAX_MS"]%string 10000;
  heartbeat_timeout_secs ← u64_var_any env ["INGEST_HEARTBEAT_TIMEOUT_SECS"]%string 15;
  dedup_cache_size ← usize_var_any env ["INGEST_DEDUP_CACHE_SIZE"]%string 50000;
  event_channel_capacity ← usize_var_any env ["INGEST_EVENT_CHANNEL_CAPACITY"]%string 4096;
  runtime_channel_capacity ← usize_var_any env ["INGEST_RUNTIME_CHANNEL_CAPACITY"]%string 512;
  let config := {|
    ing_chain_id := chain_id;
    ing_channel := channel;
    ing_ipc_file_path :=
      optional_non_empty_any env ["INGEST_IPC_FILE_PATH"; "BASE_IPC_PATH"]%string;
    ing_ws_url := optional_non_empty_any env ["INGEST_WS_URL"; "BASE_WS_URL"]%string;
    ing_flashblocks_ws_url :=
      optional_non_empty_any env ["INGEST_FLASHBLOCKS_WS_URL"; "FLASHBLOCKS_WS_URL"]%string;
    ing_subscribe_transactions := subscribe_transactions;
    ing_subscribe_logs := subscribe_logs;
    ing_subscribe_blocks := subscribe_blocks;
    ing_subscribe_flashblocks := subscribe_flashblocks;
    ing_reconnect_initial_ms := reconnect_initial_ms;
    ing_reconnect_max_ms := reconnect_max_ms;
    ing_heartbeat_timeout_secs := heartbeat_timeout_secs;
    ing_dedup_cache_size := dedup_cache_size;
    ing_event_channel_capacity := event_channel_capacity;
    ing_runtime_channel_capacity := runtime_channel_capacity |} in
  _ ← ingest_validate config;
  Ok config.

Definition rpc_from_env (env : Env) : res ConfigError RpcConfig :=
  chain_id ← u64_var_any env ["RPC_CHAIN_ID"; "BASE_CHAIN_ID"]%string 8453;
  retry_initial_ms ← u64_var_any env ["RPC_RETRY_INITIAL_MS"]%string 250;
  retry_max_ms ← u64_var_any env ["RPC_RETRY_MAX_MS"]%string 5000;
  request_timeout_ms ← u64_var_any env ["RPC_REQUEST_TIMEOUT_MS"]%string 5000;
  let config := {|
    rpcc_chain_id := chain_id;
    rpcc_http_url := optional_non_empty_any env ["RPC_HTTP_URL"; "BASE_RPC_URL"]%string;
    rpcc_ws_url := optional_non_empty_any env ["RPC_WS_URL"; "BASE_WS_URL"]%string;
    rpcc_ipc_file_path :=
      optional_non_empty_any env ["RPC_IPC_FILE_PATH"; "BASE_IPC_PATH"]%string;
    rpcc_flashblocks_ws_url :=
      optional_non_empty_any env ["RPC_FLASHBLOCKS_WS_URL"; "FLASHBLOCKS_WS_URL"]%string;
    rpcc_multicall3_address := optional_non_empty_any env ["RPC_MULTICALL3_ADDRESS"]%string;
    rpcc_retry_initial_ms := retry_initial_ms;
    rpcc_retry_max_ms := retry_max_ms;
    rpcc_request_timeout_ms := request_timeout_ms |} in
  _ ← rpc_validate config;
  Ok config.

Definition signer_from_env (env : Env) : res ConfigError SignerConfig :=
  Ok {| sgn_private_key :=
          optional_non_empty_any env ["SIGNER_PRIVATE_KEY"; "EXECUTOR_PRIVATE_KEY"]%string;
        sgn_keystore_path := optional_non_empty_any env ["SIGNER_KEYSTORE_PATH"]%string;
        sgn_keystore_password := optional_non_empty_any env ["SIGNER_KEYSTORE_PASSWORD"]%string;
        sgn_aws_kms_key_id := optional_non_empty_any env ["SIGNER_AWS_KMS_KEY_ID"]%string |}.

Definition decision_from_env (env : Env) : res ConfigError DecisionConfig :=
  max_route_hops ← usize_var_any env ["DECISION_MAX_ROUTE_HOPS"; "MAX_ROUTE_HOPS"]%string 3;
  max_candidate_routes ← usize_var_any env
    ["DECISION_MAX_CANDIDATE_ROUTES"; "MAX_CANDIDATE_ROUTES"]%string 16;
  min_net_profit_wei ← string_var_any env ["DECISION_MIN_NET_PROFIT_WEI"]%string "0";
  simulation_gas_estimate ← u64_var_any env ["DECISION_SIMULATION_GAS_ESTIMATE"]%string 180000;
  simulation_gas_cost_wei ← string_var_any env ["DECISION_SIMULATION_GAS_COST_WEI"]%string "0";
  simulation_l1_data_fee_wei ←
    string_var_any env ["DECISION_SIMULATION_L1_DATA_FEE_WEI"]%string "0";
  let config := {|
    dec_max_route_hops := max_route_hops;
    dec_max_candidate_routes := max_candidate_routes;
    dec_min_net_profit_wei := min_net_profit_wei;
    dec_kill_switch_path := optional_non_empty_any env ["DECISION_KILL_SWITCH_PATH"]%string;
    dec_settlement_token := optional_non_empty_any env ["DECISION_SETTLEMENT_TOKEN"]%string;
    dec_scan_trade_amount_wei :=
      optional_non_empty_any env ["DECISION_SCAN_TRADE_AMOUNT_WEI"]%string;
    dec_v2_bootstrap_path := optional_non_empty_any env ["DECISION_V2_BOOTSTRAP_PATH"]%string;
    dec_simulation_gas_estimate := simulation_gas_estimate;
    dec_simulation_gas_cost_wei := simulation_gas_cost_wei;
    dec_simulation_l1_data_fee_wei := simulation_l1_data_fee_wei |} in
  _ ← decision_validate config;
  Ok config.

(** Not validated here: [AppConfig::validate] does it, with the execution mode. *)
Definition risk_from_env (env : Env) : res ConfigError RiskConfig :=
  min_net_profit_wei ← string_var_any env ["RISK_MIN_NET_PROFIT_WEI"]%string "0";
  min_profit_bps ← u32_var_any env ["RISK_MIN_PROFIT_BPS"]%string 0;
  max_slippage_bps ← u32_var_any env ["RISK_MAX_SLIPPAGE_BPS"]%string 100;
  max_consecutive_reverts ← u32_var_any env ["RISK_MAX_CONSECUTIVE_REVERTS"]%string 3;
  Ok {|
    rcfg_min_net_profit_wei := min_net_profit_wei;
    rcfg_min_profit_bps := min_profit_bps;
    rcfg_max_trade_notional_wei :=
      optional_non_empty_any env ["RISK_MAX_TRADE_NOTIONAL_WEI"]%string;
    rcfg_max_per_block_notional_wei :=
      optional_non_empty_any env ["RISK_MAX_PER_BLOCK_NOTIONAL_WEI"]%string;
    rcfg_max_daily_notional_wei :=
      optional_non_empty_any env ["RISK_MAX_DAILY_NOTIONAL_WEI"]%string;
    rcfg_max_slippage_bps := max_slippage_bps;
    rcfg_token_allowlist := csv_var_any env ["RISK_TOKEN_ALLOWLIST"]%string;
    rcfg_token_denylist := csv_var_any env ["RISK_TOKEN_DENYLIST"]%string;
    rcfg_max_consecutive_reverts := max_consecutive_reverts;
    rcfg_kill_switch_path :=
      optional_non_empty_any env ["RISK_KILL_SWITCH_PATH"; "DECISION_KILL_SWITCH_PATH"]%string |}.

Definition execution_from_env (env : Env) : res ConfigError ExecutionConfig :=
  raw_mode ← string_var_any env ["EXECUTION_MODE"; "ENGINE_MODE"]%string "shadow";
  mode ← parse_execution_mode raw_mode;
  submit_timeout_secs ← u64_var_any env ["EXECUTION_SUBMIT_TIMEOUT_SECS"]%string 30;
  receipt_timeout_secs ← u64_var_any env ["EXECUTION_RECEIPT_TIMEOUT_SECS"]%string 60;
  gas_limit_multiplier_bps ←
    u32_var_any env ["EXECUTION_GAS_LIMIT_MULTIPLIER_BPS"]%string 12000;
  plan_deadline_secs ← u64_var_any env ["EXECUTION_PLAN_DEADLINE_SECS"]%string 30;
  use_flashloan ← bool_var_any env ["EXECUTION_USE_FLASHLOAN"]%string true;
  ethcall_preflight_required ←
    bool_var_any env ["EXECUTION_ETHCALL_PREFLIGHT_REQUIRED"]%string true;
  ethcall_timeout_secs ← u64_var_any env ["EXECUTION_ETHCALL_TIMEOUT_SECS"]%string 5;
  let config := {|
    exec_mode := mode;
    exec_submit_timeout_secs := submit_timeout_secs;
    exec_receipt_timeout_secs := receipt_timeout_secs;
    exec_router_address := optional_non_empty_any env ["EXECUTION_ROUTER_ADDRESS"]%string;
    exec_canary_max_trade_wei :=
      optional_non_empty_any env ["EXECUTION_CANARY_MAX_TRADE_WEI"]%string;
    exec_canary_max_daily_wei :=
      optional_non_empty_any env ["EXECUTION_CANARY_MAX_DAILY_WEI"]%string;
    exec_gas_limit_multiplier_bps := gas_limit_multiplier_bps;
    exec_max_fee_per_gas_wei :=
      optional_non_empty_any env ["EXECUTION_MAX_FEE_PER_GAS_WEI"]%string;
    exec_max_priority_fee_per_gas_wei :=
      optional_non_empty_any env ["EXECUTION_MAX_PRIORITY_FEE_PER_GAS_WEI"]%string;
    exec_plan_deadline_secs := plan_deadline_secs;
    exec_use_flashloan := use_flashloan;
    exec_ethcall_preflight_required := ethcall_preflight_required;
    exec_ethcall_timeout_secs := ethcall_timeout_secs |} in
  _ ← execution_validate config;
  Ok config.

Definition storage_from_env (env : Env) : res ConfigError StorageConfig :=
  max_connections ← u32_var_any env ["STORAGE_MAX_CONNECTIONS"]%string 10;
  connect_timeout_secs ← u64_var_any env ["STORAGE_CONNECT_TIMEOUT_SECS"]%string 5;
  auto_migrate ← bool_var_any env ["STORAGE_AUTO_MIGRATE"]%string true;
  let config := {|
    sto_database_url := optional_non_empty_any env ["STORAGE_DATABASE_URL"; "DATABASE_URL"]%string;
    sto_max_connections := max_connections;
    sto_connect_timeout_secs := connect_timeout_secs;
    sto_auto_migrate := auto_migrate |} in
  _ ← storage_validate config;
  Ok config.

Definition discovery_from_env (env : Env) : res ConfigError DiscoveryConfig :=
  enabled ← bool_var_any env ["DISCOVERY_ENABLED"]%string false;
  pinned_head_block ← opt_traverse
    (λ raw, map_err (λ _, InvalidValue "DISCOVERY_PINNED_HEAD_BLOCK" raw
                            "expected an unsigned integer") (parse_uint 64 raw))
    (optional_non_empty_any env ["DISCOVERY_PINNED_HEAD_BLOCK"]%string);
  Ok {| dis_enabled := enabled;
        dis_factories_path := optional_non_empty_any env ["DISCOVERY_FACTORIES_PATH"]%string;
        dis_multicall3_address :=
          optional_non_empty_any env ["DISCOVERY_MULTICALL3_ADDRESS"]%string;
        dis_pinned_head_block := pinned_head_block |}.

(** ** The whole configuration

    [socket_addr_from_str] is the [FromStr] instance of [std::net::SocketAddr]. *)
Section app.
Context {SocketAddr : Type} (socket_addr_from_str : string → option SocketAddr).

Record MetricsConfig := {
  met_enabled : bool;
  met_log_level : string;
  met_healthz_bind_addr : SocketAddr;
  met_prometheus_bind_addr : option SocketAddr }.

Definition parse_socket_addr (key value : string) : res ConfigError SocketAddr :=
  ok_or (socket_addr_from_str value)
        (InvalidValue key value "expected a socket address like 127.0.0.1:9000").

Definition socket_addr_var_any (env : Env) (keys : list string) (dflt : string) :
    res ConfigError SocketAddr :=
  parse_socket_addr (first_key keys) (default dflt (optional_non_empty_any env keys)).

Definition metrics_validate (c : MetricsConfig) : res ConfigError unit :=
  if str_is_empty (trim (met_log_level c))
  then Err (Validation "LOG_LEVEL must not be empty") else Ok tt.

Definition metrics_from_env (env : Env) : res ConfigError MetricsConfig :=
  enabled ← bool_var_any env ["METRICS_ENABLED"]%string true;
  prometheus_bind_addr ← opt_traverse (parse_socket_addr "METRICS_PROMETHEUS_BIND_ADDR")
    (optional_non_empty_any env ["METRICS_PROMETHEUS_BIND_ADDR"]%string);
  log_level ← string_var_any env ["LOG_LEVEL"]%string "info";
  healthz_bind_addr ←
    socket_addr_var_any env ["METRICS_HEALTHZ_BIND_ADDR"]%string "127.0.0.1:9000";
  let config := {| met_enabled := enabled; met_log_level := log_level;
                   met_healthz_bind_addr := healthz_bind_addr;
                   met_prometheus_bind_addr := prometheus_bind_addr |} in
  _ ← metrics_validate config;
  Ok config.

Record AppConfig := {
  app_ingest : IngestConfig;
  app_rpc : RpcConfig;
  app_signer : SignerConfig;
  app_decision : DecisionConfig;
  app_risk : RiskConfig;
  app_execution : ExecutionConfig;
  app_storage : StorageConfig;
  app_metrics : MetricsConfig;
  app_discovery : DiscoveryConfig }.

Definition app_validate (c : AppConfig) : res ConfigError unit :=
  _ ← ingest_validate (app_ingest c);
  _ ← rpc_validate (app_rpc c);
  _ ← signer_validate (app_signer c) (app_execution c);
  _ ← decision_validate (app_decision c);
  _ ← risk_validate (app_risk c) (app_execution c);
  _ ← execution_validate (app_execution c);
  _ ← storage_validate (app_storage c);
  _ ← metrics_validate (app_metrics c);
  discovery_validate (app_discovery c).

Definition app_from_env (env : Env) : res ConfigError AppConfig :=
  ingest ← ingest_from_env env;
  rpc ← rpc_from_env env;
  signer ← signer_from_env env;
  decision ← decision_from_env env;
  risk ← risk_from_env env;
  execution ← execution_from_env env;
  storage ← storage_from_env env;
  metrics ← metrics_from_env env;
  discovery ← discovery_from_env env;
  let config := {| app_ingest := ingest; app_rpc := rpc; app_signer := signer;
                   app_decision := decision; app_risk := risk; app_execution := execution;
                   app_storage := storage; app_metrics := metrics;
                   app_discovery := discovery |} in
  _ ← app_validate config;
  Ok config.

End app.
Arguments MetricsConfig : clear implicits.
Arguments AppConfig : clear implicits.

(** ** Properties *)

Lemma map_err_ok {E F A : Type} (f : E → F) (r : res E A) a :
  map_err f r = Ok a ↔ r = Ok a.
Proof. destruct r; naive_solver. Qed.

Lemma parse_u128_ok key value n : parse_u128 key value = Ok n ↔ parse_uint 128 value = Ok n.
Proof. apply map_err_ok. Qed.

Lemma opt_traverse_ok {E A B : Type} (f : A → res E B) o r :
  opt_traverse f o = Ok r ↔
  match o with Some a => ∃ b, f a = Ok b ∧ r = Some b | None => r = None end.
Proof.
  unfold opt_traverse. destruct o as [a|].
  - rewrite bind_ok. split.
    + intros (b & Hb & [= <-]). eauto.
    + intros (b & Hb & ->). eauto.
  - split; [by intros [= <-]|by intros ->].
Qed.

Lemma optional_non_empty_any_some env keys v :
  optional_non_empty_any env keys = Some v →
  v ≠ "" ∧ ∃ key raw, key ∈ keys ∧ env key = Some raw ∧ v = trim raw.
Proof.
  unfold optional_non_empty_any. induction keys as [|key keys IH]; [done|]. simpl.
  destruct (env key) as [raw|] eqn:Hraw; simpl.
  - destruct (str_is_empty (trim raw)) eqn:He.
    + intros H. destruct (IH H) as (? & k & r & ? & ? & ?).
      split; [done|]. exists k, r. split; [by right|done].
    + intros [= <-]. split; [by destruct (trim raw)|]. exists key, raw. split; [by left|done].
  - intros H. destruct (IH H) as (? & k & r & ? & ? & ?).
    split; [done|]. exists k, r. split; [by right|done].
Qed.

Lemma uint_var_any_range w context env keys dflt n :
  0 ≤ w → uint w dflt → uint_var_any w context env keys dflt = Ok n → uint w n.
Proof.
  unfold uint_var_any. intros Hw Hd. case_match; [|by intros [= <-]].
  rewrite map_err_ok. by apply parse_uint_range.
Qed.

(** *** No reader and no validation panics *)

Lemma map_err_no_panic {E F A : Type} (f : E → F) (r : res E A) : r ≠ Panic → map_err f r ≠ Panic.
Proof. by destruct r. Qed.
Lemma parse_u128_no_panic key value : parse_u128 key value ≠ Panic.
Proof. apply map_err_no_panic, parse_uint_no_panic. Qed.
Lemma uint_var_any_no_panic w context env keys dflt :
  uint_var_any w context env keys dflt ≠ Panic.
Proof. unfold uint_var_any. case_match; [|done]. apply map_err_no_panic, parse_uint_no_panic. Qed.
Lemma bool_var_any_no_panic env keys dflt : bool_var_any env keys dflt ≠ Panic.
Proof. unfold bool_var_any. by repeat case_match. Qed.
Lemma string_var_any_no_panic env keys dflt : string_var_any env keys dflt ≠ Panic.
Proof. done. Qed.
Lemma required_var_any_no_panic env keys : required_var_any env keys ≠ Panic.
Proof. apply ok_or_no_panic. Qed.
Lemma validate_positive_no_panic v m : validate_positive v m ≠ Panic.
Proof. unfold validate_positive. by case_match. Qed.
Lemma validate_backoff_no_panic a b k l : validate_backoff a b k l ≠ Panic.
Proof. unfold validate_backoff. by repeat case_match. Qed.
Lemma parse_channel_no_panic v : parse_channel v ≠ Panic.
Proof. unfold parse_channel. by repeat case_match. Qed.
Lemma parse_execution_mode_no_panic v : parse_execution_mode v ≠ Panic.
Proof. unfold parse_execution_mode. by repeat case_match. Qed.
Lemma opt_traverse_no_panic {E A B : Type} (f : A → res E B) o :
  (∀ a, f a ≠ Panic) → opt_traverse f o ≠ Panic.
Proof. intros. destruct o; [|done]. by apply bind_no_panic. Qed.

#[export] Hint Resolve map_err_no_panic parse_uint_no_panic parse_u128_no_panic
  uint_var_any_no_panic bool_var_any_no_panic string_var_any_no_panic
  required_var_any_no_panic validate_positive_no_panic validate_backoff_no_panic
  parse_channel_no_panic parse_execution_mode_no_panic opt_traverse_no_panic : engine.

(** Walk through a computation whose steps cannot panic. *)
Ltac no_panic :=
  cbv zeta;
  repeat first
    [ done
    | solve [auto with engine]
    | progress intros
    | apply bind_no_panic
    | match goal with |- (if ?b then _ else _) ≠ _ => destruct b end
    | match goal with |- match ?o with _ => _ end ≠ _ => destruct o end ].

Lemma ingest_validate_no_panic c : ingest_validate c ≠ Panic.
Proof. unfold ingest_validate. no_panic. Qed.
Lemma rpc_validate_no_panic c : rpc_validate c ≠ Panic.
Proof. unfold rpc_validate. no_panic. Qed.
Lemma signer_validate_no_panic c e : signer_validate c e ≠ Panic.
Proof. unfold signer_validate. no_panic. Qed.
Lemma decision_validate_no_panic c : decision_validate c ≠ Panic.
Proof. unfold decision_validate. no_panic. Qed.
Lemma risk_validate_no_panic c e : risk_validate c e ≠ Panic.
Proof. unfold risk_validate. no_panic. Qed.
Lemma execution_validate_no_panic c : execution_validate c ≠ Panic.
Proof. unfold execution_validate. no_panic. Qed.
Lemma storage_validate_no_panic c : storage_validate c ≠ Panic.
Proof. unfold storage_validate. no_panic. Qed.
Lemma discovery_validate_no_panic c : discovery_validate c ≠ Panic.
Proof. unfold discovery_validate. no_panic. Qed.

#[export] Hint Resolve ingest_validate_no_panic rpc_validate_no_panic
  signer_validate_no_panic decision_validate_no_panic risk_validate_no_panic
  execution_validate_no_panic storage_validate_no_panic discovery_validate_no_panic : engine.

(** *** What validation establishes *)

Definition parses_u128 (raw : string) : Prop := ∃ n, parse_uint 128 raw = Ok n ∧ uint 128 n.

Lemma parse_u128_parses key raw n : parse_u128 key raw = Ok n → parses_u128 raw.
Proof. rewrite parse_u128_ok. intros H. exists n. split; [done|]. by eapply parse_uint_range. Qed.

Lemma opt_parse_parses key o r :
  opt_traverse (parse_u128 key) o = Ok r → ∀ raw, o = Some raw → parses_u128 raw.
Proof.
  intros H raw ->. apply opt_traverse_ok in H as (n & Hn & _). by eapply parse_u128_parses.
Qed.

(** The facts about a validated risk configuration the rest of the engine uses. *)
Record risk_valid (c : RiskConfig) (mode : ExecutionMode) : Prop := {
  rv_min_net_profit : parses_u128 (rcfg_min_net_profit_wei c);
  rv_max_trade raw : rcfg_max_trade_notional_wei c = Some raw → parses_u128 raw;
  rv_max_per_block raw : rcfg_max_per_block_notional_wei c = Some raw → parses_u128 raw;
  rv_max_daily raw : rcfg_max_daily_notional_wei c = Some raw → parses_u128 raw;
  rv_bps : rcfg_min_profit_bps c ≤ 10000 ∧ rcfg_max_slippage_bps c ≤ 10000;
  rv_caps : mode ≠ Shadow →
    is_Some (rcfg_max_trade_notional_wei c) ∧ is_Some (rcfg_max_daily_notional_wei c);
  rv_tokens : Forall (λ t, is_valid_address t = true)
    (rcfg_token_allowlist c ++ rcfg_token_denylist c) }.

Lemma opt_is_some_true {A : Type} (o : option A) : negb (opt_is_some o) = false → is_Some o.
Proof. destruct o; [by eexists|done]. Qed.

Lemma risk_validate_valid c e : risk_validate c e = Ok tt → risk_valid c (exec_mode e).
Proof.
  unfold risk_validate. intros H. do 4 (apply bind_ok in H as (? & ? & H)).
  case_if H as Hb1. case_if H as Hb2. apply bind_ok in H as (? & Hcaps & H).
  case_if H as Htok. constructor; eauto using parse_u128_parses, opt_parse_parses.
  - lia.
  - intros Hmode. rewrite bool_decide_true in Hcaps by done.
    case_if Hcaps as Hs1. case_if Hcaps as Hs2. auto using opt_is_some_true.
  - rewrite forallb_forall in Htok. apply Forall_forall. intros t Ht.
    apply Htok. by apply list_elem_of_In.
Qed.

Record execution_valid (c : ExecutionConfig) : Prop := {
  ev_timeouts : exec_submit_timeout_secs c ≠ 0 ∧ exec_receipt_timeout_secs c ≠ 0 ∧
    exec_plan_deadline_secs c ≠ 0 ∧ exec_ethcall_timeout_secs c ≠ 0;
  ev_multiplier : 10000 ≤ exec_gas_limit_multiplier_bps c;
  ev_router : exec_mode c ≠ Shadow → is_Some (exec_router_address c);
  ev_max_fee raw : exec_max_fee_per_gas_wei c = Some raw → parses_u128 raw;
  ev_max_priority raw : exec_max_priority_fee_per_gas_wei c = Some raw → parses_u128 raw;
  ev_canary : exec_mode c = Canary → ∃ trade daily,
    exec_canary_max_trade_wei c = Some trade ∧ parses_u128 trade ∧
    exec_canary_max_daily_wei c = Some daily ∧ parses_u128 daily }.

Lemma validate_positive_ok v m u : validate_positive v m = Ok u → v ≠ 0.
Proof. unfold validate_positive. case_match; [done|lia]. Qed.

Lemma execution_validate_valid c : execution_validate c = Ok tt → execution_valid c.
Proof.
  unfold execution_validate. intros H. do 2 (apply bind_ok in H as (? & ? & H)).
  case_if H as Hm. do 2 (apply bind_ok in H as (? & ? & H)). case_if H as Hr.
  do 2 (apply bind_ok in H as (? & ? & H)).
  constructor; eauto using opt_parse_parses.
  - split_and!; eauto using validate_positive_ok.
  - lia.
  - intros Hmode. rewrite bool_decide_true in Hr by done. by apply opt_is_some_true.
  - intros Hmode. rewrite bool_decide_true in H by done. inv_res.
    eauto 10 using parse_u128_parses.
Qed.

Record decision_valid (c : DecisionConfig) : Prop := {
  dv_min_net_profit : parses_u128 (dec_min_net_profit_wei c);
  dv_gas_cost : parses_u128 (dec_simulation_gas_cost_wei c);
  dv_l1_data_fee : parses_u128 (dec_simulation_l1_data_fee_wei c);
  dv_gas_estimate : dec_simulation_gas_estimate c ≠ 0;
  dv_scan : is_Some (dec_settlement_token c) ↔ is_Some (dec_scan_trade_amount_wei c);
  dv_scan_amount raw : dec_scan_trade_amount_wei c = Some raw → parses_u128 raw }.

Lemma decision_validate_valid c : decision_validate c = Ok tt → decision_valid c.
Proof.
  unfold decision_validate. intros H. do 6 (apply bind_ok in H as (? & ? & H)).
  assert ((is_Some (dec_settlement_token c) ↔ is_Some (dec_scan_trade_amount_wei c)) ∧
          ∀ raw, dec_scan_trade_amount_wei c = Some raw → parses_u128 raw) as [Hiff Hraw].
  { destruct (dec_settlement_token c), (dec_scan_trade_amount_wei c); try done.
    - apply bind_ok in H as (? & ? & _). split; [split; by eexists|].
      intros raw [= <-]. by eapply parse_u128_parses. }
  constructor; eauto using parse_u128_parses, validate_positive_ok.
Qed.

Section app_properties.
Context {SocketAddr : Type} (socket_addr_from_str : string → option SocketAddr).

Lemma app_validate_no_panic (c : AppConfig SocketAddr) : app_validate c ≠ Panic.
Proof. unfold app_validate, metrics_validate. no_panic. Qed.

Lemma app_from_env_no_panic env : app_from_env socket_addr_from_str env ≠ Panic.
Proof.
  unfold app_from_env, ingest_from_env, rpc_from_env, signer_from_env, decision_from_env,
    risk_from_env, execution_from_env, storage_from_env, metrics_from_env, discovery_from_env,
    socket_addr_var_any, parse_socket_addr, metrics_validate, u64_var_any, u32_var_any,
    usize_var_any.
  pose proof app_validate_no_panic. no_panic.
Qed.

Lemma app_from_env_validated env c : app_from_env socket_addr_from_str env = Ok c → app_validate c = Ok tt.
Proof.
  unfold app_from_env. intros H. do 10 (apply bind_ok in H as (? & ? & H)).
  injection H as <-. by match goal with H : app_validate _ = Ok ?u |- _ => destruct u end.
Qed.

(** C19. Reading the configuration never panics, and a configuration that is
    accepted in a mode that submits transactions has a signer source, a router,
    a per-trade and a daily notional cap that parse, and, in canary mode, both
    canary limits. *)
Theorem config_live_requirements env c :
  app_from_env socket_addr_from_str env ≠ Panic ∧
  (app_from_env socket_addr_from_str env = Ok c → exec_mode (app_execution c) ≠ Shadow →
   (is_Some (sgn_private_key (app_signer c)) ∨ is_Some (sgn_keystore_path (app_signer c)) ∨
    is_Some (sgn_aws_kms_key_id (app_signer c))) ∧
   is_Some (exec_router_address (app_execution c)) ∧
   (∃ raw, rcfg_max_trade_notional_wei (app_risk c) = Some raw ∧ parses_u128 raw) ∧
   (∃ raw, rcfg_max_daily_notional_wei (app_risk c) = Some raw ∧ parses_u128 raw) ∧
   (exec_mode (app_execution c) = Canary → ∃ trade daily,
      exec_canary_max_trade_wei (app_execution c) = Some trade ∧ parses_u128 trade ∧
      exec_canary_max_daily_wei (app_execution c) = Some daily ∧ parses_u128 daily)).
Proof.
  split; [apply app_from_env_no_panic|]. intros Hc Hmode. apply app_from_env_validated in Hc.
  unfold app_validate in Hc. do 8 (apply bind_ok in Hc as ([] & ? & Hc)).
  assert (risk_valid (app_risk c) (exec_mode (app_execution c))) as Hrisk
    by (by apply risk_validate_valid).
  assert (execution_valid (app_execution c)) as Hexec by (by apply execution_validate_valid).
  destruct (rv_caps _ _ Hrisk Hmode) as [[t Ht] [d Hd]]. split_and!.
  - match goal with H : signer_validate _ _ = Ok _ |- _ => unfold signer_validate in H;
      rewrite bool_decide_false in H by done; case_if H as Hs end.
    rewrite !andb_false_iff in Hs. destruct Hs as [[Hs|Hs]|Hs]; eauto using opt_is_some_true.
  - by apply (ev_router _ Hexec).
  - exists t. split; [done|]. by apply (rv_max_trade _ _ Hrisk).
  - exists d. split; [done|]. by apply (rv_max_daily _ _ Hrisk).
  - apply (ev_canary _ Hexec).
Qed.
End app_properties.
