(* ===== verification/Risk.v ===== *)
(** The risk engine (crate [decision], [risk.rs]): the policy, the state behind
    its lock, the stateless gates and the assessment of an opportunity.

    The engine's effects are arguments: [sha256_hex] is the lower-case hex
    SHA-256 digest of the [sha2] crate, [path_exists] the file system at the
    time of the call and [now] the reading of the clock.  The lock is never
    poisoned, as no operation that holds it panics, so an operation is a function
    from the state to the state. *)

From S2P Require Import Prelude RustStr Types Config.
#[local] Open Scope Z_scope.

Definition SECONDS_PER_DAY : Z := 24 * 60 * 60.

Record RiskPolicy := {
  pol_min_net_profit_wei : Amount;
  pol_min_profit_bps : Z;                     (* u32 *)
  pol_max_trade_notional_wei : option Amount;
  pol_max_per_block_notional_wei : option Amount;
  pol_max_daily_notional_wei : option Amount;
  pol_max_slippage_bps : Z;                   (* u32 *)
  pol_token_allowlist : gset string;
  pol_token_denylist : gset string;
  pol_max_consecutive_reverts : Z;            (* u32 *)
  pol_kill_switch_path : option string }.

(** An [anyhow] error made by [anyhow!] is its text. *)
Definition parse_amount (raw : string) : res string Z :=
  map_err (λ err, "invalid amount `" +:+ raw +:+ "`: " +:+ show_parse_error err)
          (parse_uint 128 raw).

Definition policy_from_config (config : RiskConfig) : res string RiskPolicy :=
  min_net_profit_wei ←
    map_err (λ err, "invalid RISK_MIN_NET_PROFIT_WEI: " +:+ show_parse_error err)
            (parse_uint 128 (rcfg_min_net_profit_wei config));
  max_trade_notional_wei ← opt_traverse parse_amount (rcfg_max_trade_notional_wei config);
  max_per_block_notional_wei ←
    opt_traverse parse_amount (rcfg_max_per_block_notional_wei config);
  max_daily_notional_wei ← opt_traverse parse_amount (rcfg_max_daily_notional_wei config);
  Ok {| pol_min_net_profit_wei := min_net_profit_wei;
        pol_min_profit_bps := rcfg_min_profit_bps config;
        pol_max_trade_notional_wei := max_trade_notional_wei;
        pol_max_per_block_notional_wei := max_per_block_notional_wei;
        pol_max_daily_notional_wei := max_daily_notional_wei;
        pol_max_slippage_bps := rcfg_max_slippage_bps config;
        pol_token_allowlist := list_to_set (to_ascii_lowercase <$> rcfg_token_allowlist config);
        pol_token_denylist := list_to_set (to_ascii_lowercase <$> rcfg_token_denylist config);
        pol_max_consecutive_reverts := rcfg_max_consecutive_reverts config;
        pol_kill_switch_path := rcfg_kill_switch_path config |}.

Record RiskState := {
  rs_block_notional : option (BlockNumber * Amount);
  rs_daily_entries : list (Z * Amount);       (* VecDeque of (u64, Amount) *)
  rs_daily_total : Amount;
  rs_consecutive_reverts : Z;                 (* u32 *)
  rs_operator_killed : bool }.

(** [RiskState::default()]. *)
Definition RiskState_default : RiskState :=
  {| rs_block_notional := None; rs_daily_entries := []; rs_daily_total := 0;
     rs_consecutive_reverts := 0; rs_operator_killed := false |}.

Definition with_daily (s : RiskState) (entries : list (Z * Amount)) (total : Amount) : RiskState :=
  {| rs_block_notional := rs_block_notional s; rs_daily_entries := entries;
     rs_daily_total := total; rs_consecutive_reverts := rs_consecutive_reverts s;
     rs_operator_killed := rs_operator_killed s |}.

Definition trigger_kill_switch (s : RiskState) : RiskState :=
  {| rs_block_notional := rs_block_notional s; rs_daily_entries := rs_daily_entries s;
     rs_daily_total := rs_daily_total s; rs_consecutive_reverts := rs_consecutive_reverts s;
     rs_operator_killed := true |}.

Definition record_outcome (s : RiskState) (success : bool) : RiskState :=
  {| rs_block_notional := rs_block_notional s; rs_daily_entries := rs_daily_entries s;
     rs_daily_total := rs_daily_total s;
     rs_consecutive_reverts := if success then 0
                               else saturating_add 32 (rs_consecutive_reverts s) 1;
     rs_operator_killed := rs_operator_killed s |}.

(** The loop of [prune_daily_entries] over the front of the queue. *)
Fixpoint prune_front (horizon : Z) (entries : list (Z * Amount)) (total : Amount) :
    list (Z * Amount) * Amount :=
  match entries with
  | (ts, amount) :: rest =>
      if ts <? horizon then prune_front horizon rest (saturating_sub total amount)
      else (entries, total)
  | [] => ([], total)
  end.

Definition prune_daily_entries (s : RiskState) (now : Z) : RiskState :=
  let horizon := saturating_sub now SECONDS_PER_DAY in
  let '(entries, total) := prune_front horizon (rs_daily_entries s) (rs_daily_total s) in
  with_daily s entries total.

Definition opportunity_token_iter (o : Opportunity) : list string :=
  let tokens := op_settlement_token o ::
    concat (map (λ leg, [leg_token_in leg; leg_token_out leg]) (op_route o)) in
  dedup_by (λ a b, bool_decide (a = b)) (stable_sort str_leb tokens).

(** The first token that a list refuses, with the reason. *)
Fixpoint token_reject (p : RiskPolicy) (tokens : list string) : option string :=
  match tokens with
  | [] => None
  | token :: tokens =>
      let normalized := to_ascii_lowercase token in
      if bool_decide (normalized ∈ pol_token_denylist p)
      then Some ("token " +:+ token +:+ " is on the denylist")
      else if bool_decide (pol_token_allowlist p ≠ ∅) &&
              negb (bool_decide (normalized ∈ pol_token_allowlist p))
      then Some ("token " +:+ token +:+ " is not on the allowlist")
      else token_reject p tokens
  end.

Definition stateless_reject (path_exists : string → bool) (p : RiskPolicy)
    (o : Opportunity) (s : SimulationResult) : option string :=
  let kill_switch :=
    match pol_kill_switch_path p with
    | Some path => if path_exists path then Some path else None
    | None => None
    end in
  match kill_switch with
  | Some path => Some ("kill switch file is present at " +:+ path)
  | None =>
  if negb (sim_accepted s) then Some "simulation rejected the opportunity"%string else
  if sim_expected_net_profit s <? pol_min_net_profit_wei p
  then Some ("expected net profit " +:+ show_uint (sim_expected_net_profit s) +:+
             " is below the minimum " +:+ show_uint (pol_min_net_profit_wei p)) else
  let bps_threshold :=
    saturating_mul 128 (op_input_amount o) (pol_min_profit_bps p) / 10000 in
  if (0 <? pol_min_profit_bps p) && (0 <? op_input_amount o) &&
     (sim_expected_net_profit s <? bps_threshold)
  then Some ("expected net profit " +:+ show_uint (sim_expected_net_profit s) +:+
             " is below " +:+ show_uint (pol_min_profit_bps p) +:+ " bps of notional (" +:+
             show_uint bps_threshold +:+ ")") else
  let over_trade_cap :=
    match pol_max_trade_notional_wei p with
    | Some cap => if cap <? op_input_amount o then Some cap else None
    | None => None
    end in
  match over_trade_cap with
  | Some cap => Some ("trade notional " +:+ show_uint (op_input_amount o) +:+
                      " exceeds per-trade cap " +:+ show_uint cap)
  | None =>
  match token_reject p (opportunity_token_iter o) with
  | Some reason => Some reason
  | None =>
  let shortfall := saturating_sub (op_input_amount o) (op_expected_output_amount o) in
  let cap_value :=
    saturating_mul 128 (op_input_amount o) (pol_max_slippage_bps p) / 10000 in
  if (pol_max_slippage_bps p <? 10000) &&
     (op_expected_output_amount o <? op_input_amount o) && (cap_value <? shortfall)
  then Some ("path shortfall " +:+ show_uint shortfall +:+ " exceeds " +:+
             show_uint (pol_max_slippage_bps p) +:+ " bps of notional")
  else None
  end end end.

Section engine.
Context (sha256_hex : list Z → string).

Definition risk_hash (o : Opportunity) (s : SimulationResult) (min_surplus : Amount) : string :=
  sha256_hex (bytes_of (op_id o) ++
    to_le_bytes 16 (op_expected_output_amount o) ++
    to_le_bytes 16 (sim_expected_net_profit s) ++
    to_le_bytes 16 (sim_gas_cost_wei s) ++
    to_le_bytes 16 (sim_l1_data_fee s) ++
    to_le_bytes 16 min_surplus).

Definition deny (p : RiskPolicy) (o : Opportunity) (reason : string) (s : SimulationResult) :
    RiskDecision :=
  let min_surplus := pol_min_net_profit_wei p in
  {| rd_opportunity_id := op_id o; rd_accepted := false; rd_reason := Some reason;
     rd_risk_hash := risk_hash o s min_surplus; rd_min_surplus := min_surplus |}.

(** The bucket of the per-block cap: [BlockNumber::MAX] while pending. *)
Definition block_bucket (context : BlockContext) : BlockNumber :=
  match context with Block_ number _ => number | Pending => uint_max 64 end.

Definition assess (path_exists : string → bool) (now : Z) (p : RiskPolicy)
    (state : RiskState) (o : Opportunity) (s : SimulationResult) :
    RiskDecision * RiskState :=
  let block_number := block_bucket (op_block_context o) in
  match stateless_reject path_exists p o s with
  | Some reason => (deny p o reason s, state)
  | None =>
  if rs_operator_killed state
  then (deny p o "operator kill switch is engaged" s, state) else
  if (pol_max_consecutive_reverts p <=? rs_consecutive_reverts state) &&
     (0 <? pol_max_consecutive_reverts p)
  then (deny p o ("circuit breaker tripped after " +:+
          show_uint (rs_consecutive_reverts state) +:+ " consecutive reverts") s, state) else
  let block_used :=
    match rs_block_notional state with
    | Some (current_block, used) => if current_block =? block_number then used else 0
    | None => 0
    end in
  let projected := saturating_add 128 block_used (op_input_amount o) in
  let over_block_cap :=
    match pol_max_per_block_notional_wei p with
    | Some cap => if cap <? projected then Some cap else None
    | None => None
    end in
  match over_block_cap with
  | Some cap => (deny p o ("per-block notional " +:+ show_uint projected +:+
                           " would exceed cap " +:+ show_uint cap) s, state)
  | None =>
  let state := prune_daily_entries state now in
  let daily_projected := saturating_add 128 (rs_daily_total state) (op_input_amount o) in
  let over_daily_cap :=
    match pol_max_daily_notional_wei p with
    | Some cap => if cap <? daily_projected then Some cap else None
    | None => None
    end in
  match over_daily_cap with
  | Some cap => (deny p o ("daily notional " +:+ show_uint daily_projected +:+
                           " would exceed cap " +:+ show_uint cap) s, state)
  | None =>
  let new_block_used := saturating_add 128 block_used (op_input_amount o) in
  let min_surplus := pol_min_net_profit_wei p in
  ({| rd_opportunity_id := op_id o; rd_accepted := true; rd_reason := None;
      rd_risk_hash := risk_hash o s min_surplus; rd_min_surplus := min_surplus |},
   {| rs_block_notional := Some (block_number, new_block_used);
      rs_daily_entries := rs_daily_entries state ++ [(now, op_input_amount o)];
      rs_daily_total := saturating_add 128 (rs_daily_total state) (op_input_amount o);
      rs_consecutive_reverts := rs_consecutive_reverts state;
      rs_operator_killed := rs_operator_killed state |})
  end end end.

(** ** Runs of the engine *)

Inductive RiskOp :=
| Assess (path_exists : string → bool) (now : Z) (o : Opportunity) (s : SimulationResult)
| RecordOutcome (success : bool)
| TriggerKillSwitch.

(** A commitment: when it was accepted, in which bucket and for how much. *)
Record Commitment := { cm_now : Z; cm_bucket : Z; cm_amount : Z }.

Definition risk_step (p : RiskPolicy) (state : RiskState) (op : RiskOp) :
    RiskState * list Commitment :=
  match op with
  | Assess path_exists now o s =>
      let '(d, state) := assess path_exists now p state o s in
      (state, if rd_accepted d
              then [{| cm_now := now; cm_bucket := block_bucket (op_block_context o);
                       cm_amount := op_input_amount o |}]
              else [])
  | RecordOutcome success => (record_outcome state success, [])
  | TriggerKillSwitch => (trigger_kill_switch state, [])
  end.

Fixpoint risk_run (p : RiskPolicy) (state : RiskState) (ops : list RiskOp) :
    RiskState * list Commitment :=
  match ops with
  | [] => (state, [])
  | op :: ops =>
      let '(state, c) := risk_step p state op in
      let '(state, cs) := risk_run p state ops in (state, c ++ cs)
  end.

End engine.

(** ** The gates *)

Lemma opportunity_token_iter_elem o t :
  t ∈ opportunity_token_iter o ↔
  t = op_settlement_token o ∨
  ∃ leg, leg ∈ op_route o ∧ (t = leg_token_in leg ∨ t = leg_token_out leg).
Proof.
  unfold opportunity_token_iter. set (tokens := op_settlement_token o :: _).
  transitivity (t ∈ tokens).
  - split; intros H.
    + rewrite <- (stable_sort_perm str_leb tokens). eapply elem_of_sublist; [exact H|].
      apply dedup_by_sublist.
    + rewrite <- (stable_sort_perm str_leb tokens) in H.
      apply (dedup_by_covers (λ a b, bool_decide (a = b))) in H as (y & Hy & [->|Heq]); [done|].
      apply bool_decide_eq_true in Heq as ->. done.
  - subst tokens. rewrite elem_of_cons. apply or_iff_compat_l.
    induction (op_route o) as [|leg l IH]; simpl.
    + split; [by intros ?%elem_of_nil|]. by intros (? & ?%elem_of_nil & _).
    + rewrite !elem_of_cons, IH. split.
      * intros [->|[->|(leg' & ? & ?)]]; [exists leg; split; [by left|auto]..|].
        exists leg'. split; [by right|done].
      * intros (leg' & [->|?]%elem_of_cons & ?); naive_solver.
Qed.

Lemma token_reject_none p tokens :
  token_reject p tokens = None ↔
  ∀ t, t ∈ tokens → (to_ascii_lowercase t ∉ pol_token_denylist p) ∧
    (pol_token_allowlist p ≠ ∅ → to_ascii_lowercase t ∈ pol_token_allowlist p).
Proof.
  induction tokens as [|t tokens IH]; simpl; [split; [by intros _ ? ?%elem_of_nil|done]|].
  case_bool_decide as Hd.
  { split; [done|]. intros H. destruct (H t) as [? _]; [left|done]. }
  destruct (bool_decide (pol_token_allowlist p ≠ ∅) && _) eqn:Ha.
  - split; [done|]. intros H. apply andb_true_iff in Ha as [Hne Hnot].
    apply bool_decide_eq_true in Hne. apply negb_true_iff, bool_decide_eq_false in Hnot.
    destruct (H t) as [_ Hin]; [left|]. by apply Hin in Hne.
  - rewrite IH. split.
    + intros H t' [->|Ht']%elem_of_cons; [|by apply H]. split; [done|].
      intros Hne. rewrite bool_decide_true in Ha by done. simpl in Ha.
      by apply negb_false_iff, bool_decide_eq_true in Ha.
    + intros H t' Ht'. apply H. by right.
Qed.

(** What passing the stateless gates means. *)
Record gates_open (path_exists : string → bool) (p : RiskPolicy) (o : Opportunity)
    (s : SimulationResult) : Prop := {
  go_kill_switch path : pol_kill_switch_path p = Some path → path_exists path = false;
  go_simulation : sim_accepted s = true;
  go_min_profit : pol_min_net_profit_wei p ≤ sim_expected_net_profit s;
  go_min_bps : 0 < pol_min_profit_bps p → 0 < op_input_amount o →
    saturating_mul 128 (op_input_amount o) (pol_min_profit_bps p) / 10000 ≤
      sim_expected_net_profit s;
  go_trade_cap cap : pol_max_trade_notional_wei p = Some cap → op_input_amount o ≤ cap;
  go_tokens t : t = op_settlement_token o ∨
      (∃ leg, leg ∈ op_route o ∧ (t = leg_token_in leg ∨ t = leg_token_out leg)) →
    (to_ascii_lowercase t ∉ pol_token_denylist p) ∧
    (pol_token_allowlist p ≠ ∅ → to_ascii_lowercase t ∈ pol_token_allowlist p);
  go_slippage : pol_max_slippage_bps p < 10000 →
    op_input_amount o - op_expected_output_amount o ≤
      Z.max 0 (saturating_mul 128 (op_input_amount o) (pol_max_slippage_bps p) / 10000) }.

Lemma stateless_reject_gates path_exists p o s :
  stateless_reject path_exists p o s = None → gates_open path_exists p o s.
Proof.
  unfold stateless_reject. cbv zeta. intros H.
  destruct (match pol_kill_switch_path p with Some _ => _ | None => _ end) eqn:Hk; [done|].
  case_if H as Hacc. case_if H as Hmin. case_if H as Hbps.
  destruct (match pol_max_trade_notional_wei p with Some _ => _ | None => _ end) eqn:Hcap; [done|].
  destruct (token_reject p _) eqn:Htok; [done|]. case_if H as Hslip.
  constructor.
  - intros path Hp. rewrite Hp in Hk. by destruct (path_exists path).
  - by apply negb_false_iff in Hacc.
  - lia.
  - intros. apply Z.le_ngt. intros ?. rewrite !andb_false_iff in Hbps. lia.
  - intros cap Hp. rewrite Hp in Hcap. destruct (cap <? op_input_amount o) eqn:?; [done|lia].
  - intros t Ht. apply opportunity_token_iter_elem in Ht. revert t Ht. by apply token_reject_none.
  - intros. rewrite !andb_false_iff in Hslip. unfold saturating_sub in Hslip. lia.
Qed.

Definition entries_sum (es : list (Z * Amount)) : Z := foldr (λ e acc, e.2 + acc) 0 es.

Lemma prune_front_spec h es tot es' tot' :
  prune_front h es tot = (es', tot') →
  ∃ old, es = old ++ es' ∧ Forall (λ e, e.1 < h) old ∧
    (Forall (λ e, 0 ≤ e.2) es → tot = entries_sum es → tot' = entries_sum es').
Proof.
  revert tot. induction es as [|[ts a] es IH]; intros tot; simpl.
  { intros [= <- <-]. by exists []. }
  destruct (ts <? h) eqn:Hlt; [|intros [= <- <-]; by exists []].
  intros Hp. destruct (IH _ Hp) as (old & -> & Hold & Hsum).
  exists ((ts, a) :: old). split; [done|]. split; [constructor; [cbn; lia|done]|].
  intros [Ha Hes]%Forall_cons Htot. apply Hsum; [done|]. unfold saturating_sub. cbn in *.
  assert (0 ≤ entries_sum (old ++ es')); [|lia].
  clear -Hes. induction Hes; simpl; lia.
Qed.

Definition block_used (state : RiskState) (bucket : Z) : Z :=
  match rs_block_notional state with
  | Some (b, used) => if b =? bucket then used else 0
  | None => 0
  end.

Section assess.
Context (sha256_hex : list Z → string).
Abbreviation assess := (assess sha256_hex).

(** The state after an accepted assessment and the limits it respects. *)
Lemma assess_accepted path_exists now p state o s d state' :
  assess path_exists now p state o s = (d, state') → rd_accepted d = true →
  stateless_reject path_exists p o s = None ∧
  rs_operator_killed state = false ∧
  (0 < pol_max_consecutive_reverts p →
     rs_consecutive_reverts state < pol_max_consecutive_reverts p) ∧
  let bucket := block_bucket (op_block_context o) in
  let used := saturating_add 128 (block_used state bucket) (op_input_amount o) in
  let pruned := prune_daily_entries state now in
  let total := saturating_add 128 (rs_daily_total pruned) (op_input_amount o) in
  (∀ cap, pol_max_per_block_notional_wei p = Some cap → used ≤ cap) ∧
  (∀ cap, pol_max_daily_notional_wei p = Some cap → total ≤ cap) ∧
  state' = {| rs_block_notional := Some (bucket, used);
              rs_daily_entries := rs_daily_entries pruned ++ [(now, op_input_amount o)];
              rs_daily_total := total;
              rs_consecutive_reverts := rs_consecutive_reverts state;
              rs_operator_killed := rs_operator_killed state |}.
Proof.
  unfold Risk.assess. fold (block_used state (block_bucket (op_block_context o))). cbv zeta.
  destruct (stateless_reject _ _ _ _); [by intros [= <- <-]|].
  destruct (rs_operator_killed state) eqn:Hk; [by intros [= <- <-]|].
  destruct ((_ <=? _) && _) eqn:Hbr; [by intros [= <- <-]|].
  set (used := saturating_add 128 (block_used _ _) _).
  destruct (match pol_max_per_block_notional_wei p with Some _ => _ | None => _ end) eqn:Hb;
    [by intros [= <- <-]|].
  set (total := saturating_add 128 (rs_daily_total _) _).
  destruct (match pol_max_daily_notional_wei p with Some _ => _ | None => _ end) eqn:Hd;
    [by intros [= <- <-]|].
  intros [= <- <-] _. split_and!; try done.
  - intros. rewrite andb_false_iff in Hbr. lia.
  - intros cap Hc. rewrite Hc in Hb. destruct (cap <? used) eqn:?; [done|lia].
  - intros cap Hc. rewrite Hc in Hd. destruct (cap <? total) eqn:?; [done|lia].
  - f_equal; unfold prune_daily_entries; by destruct (prune_front _ _ _).
Qed.

(** A denial changes nothing but the entries that have left the window. *)
Lemma assess_denied path_exists now p state o s d state' :
  assess path_exists now p state o s = (d, state') → rd_accepted d = false →
  is_Some (rd_reason d) ∧ (state' = state ∨ state' = prune_daily_entries state now).
Proof.
  unfold Risk.assess. intros H Hd. repeat case_match; simplify_eq; cbn in *; try done; eauto.
Qed.

(** C12. An opportunity is accepted only when every gate is open: the kill switch
    file is absent, the simulation and both profit floors pass, the trade is
    within the per-trade cap, every token of the route is allowed, the path
    shortfall is within the slippage limit, neither the operator nor the breaker
    has stopped the engine, and the committed notional stays within the block and
    daily caps. *)
Theorem risk_accepted_gates path_exists now p state o s d state' :
  assess path_exists now p state o s = (d, state') → rd_accepted d = true →
  gates_open path_exists p o s ∧ rs_operator_killed state = false ∧
  (0 < pol_max_consecutive_reverts p →
     rs_consecutive_reverts state < pol_max_consecutive_reverts p) ∧
  (∀ cap, pol_max_per_block_notional_wei p = Some cap →
     saturating_add 128 (block_used state (block_bucket (op_block_context o)))
       (op_input_amount o) ≤ cap) ∧
  (∀ cap, pol_max_daily_notional_wei p = Some cap → rs_daily_total state' ≤ cap).
Proof.
  intros H Hacc.
  destruct (assess_accepted _ _ _ _ _ _ _ _ H Hacc) as (Hs & Hk & Hb & Hblk & Hd & ->).
  split_and!; auto using stateless_reject_gates.
Qed.

(** A denied opportunity has a reason and leaves every counter as it was: no
    notional is committed, the revert counter and the switch are unchanged, and
    the daily window at most loses entries older than a day. *)
Theorem risk_denied_frame path_exists now p state o s d state' :
  assess path_exists now p state o s = (d, state') → rd_accepted d = false →
  is_Some (rd_reason d) ∧
  rs_block_notional state' = rs_block_notional state ∧
  rs_consecutive_reverts state' = rs_consecutive_reverts state ∧
  rs_operator_killed state' = rs_operator_killed state ∧
  ∃ old, rs_daily_entries state = old ++ rs_daily_entries state' ∧
    Forall (λ e, e.1 < saturating_sub now SECONDS_PER_DAY) old.
Proof.
  intros H Hd. destruct (assess_denied _ _ _ _ _ _ _ _ H Hd) as [Hr [->| ->]].
  - split_and!; try done. by exists [].
  - unfold prune_daily_entries, with_daily.
    destruct (prune_front _ _ _) as [es tot] eqn:Hp. cbn.
    destruct (prune_front_spec _ _ _ _ _ Hp) as (old & Heq & Hold & _).
    split_and!; eauto.
Qed.

(** ** The rolling daily window *)

(** The operations of a run are typed and its clock does not go back. *)
Fixpoint clock_monotone (t0 : Z) (ops : list RiskOp) : Prop :=
  match ops with
  | [] => True
  | Assess _ now o _ :: ops =>
      t0 ≤ now ∧ uint 128 (op_input_amount o) ∧ clock_monotone now ops
  | _ :: ops => clock_monotone t0 ops
  end.

Definition amounts_sum (cs : list Commitment) : Z := foldr (λ c acc, cm_amount c + acc) 0 cs.

(** The notional committed in the day that ends at [t]. *)
Definition window_sum (t : Z) (cs : list Commitment) : Z :=
  amounts_sum (filter (λ c, saturating_sub t SECONDS_PER_DAY ≤ cm_now c) cs).

Lemma amounts_sum_app cs ds : amounts_sum (cs ++ ds) = amounts_sum cs + amounts_sum ds.
Proof. induction cs; simpl; lia. Qed.

Lemma amounts_sum_nonneg cs : Forall (λ c, 0 ≤ cm_amount c) cs → 0 ≤ amounts_sum cs.
Proof. induction 1; simpl; lia. Qed.

Lemma window_sum_le t cs :
  Forall (λ c, 0 ≤ cm_amount c) cs → window_sum t cs ≤ amounts_sum cs.
Proof.
  unfold window_sum. induction 1 as [|c cs Hc Hcs IH]; [done|].
  rewrite filter_cons. case_decide; simpl; lia.
Qed.

Lemma window_sum_all t cs :
  Forall (λ c, saturating_sub t SECONDS_PER_DAY ≤ cm_now c) cs → window_sum t cs = amounts_sum cs.
Proof.
  unfold window_sum. induction 1 as [|c cs Hc Hcs IH]; [done|].
  rewrite filter_cons_True by done. unfold amounts_sum in *. cbn. by rewrite IH.
Qed.

Lemma window_sum_old t cs :
  Forall (λ c, cm_now c < saturating_sub t SECONDS_PER_DAY) cs → window_sum t cs = 0.
Proof.
  unfold window_sum. induction 1 as [|c cs Hc Hcs IH]; [done|].
  rewrite filter_cons_False; [done|lia].
Qed.

Lemma window_sum_app t cs ds : window_sum t (cs ++ ds) = window_sum t cs + window_sum t ds.
Proof. unfold window_sum. by rewrite filter_app, amounts_sum_app. Qed.

(** The queue holds the commitments [cs] of the run but for some that have left
    the window at [t], and the total is their sum. *)
Record daily_inv (cap : Z) (state : RiskState) (cs : list Commitment) (t : Z) : Prop := {
  di_split : ∃ old kept, cs = old ++ kept ∧
    rs_daily_entries state = map (λ c, (cm_now c, cm_amount c)) kept ∧
    rs_daily_total state = amounts_sum kept ∧
    Forall (λ c, cm_now c < saturating_sub t SECONDS_PER_DAY) old;
  di_cap : rs_daily_total state ≤ cap;
  di_amounts : Forall (λ c, 0 ≤ cm_amount c) cs }.

Lemma entries_sum_map kept :
  entries_sum (map (λ c, (cm_now c, cm_amount c)) kept) = amounts_sum kept.
Proof. induction kept; simpl; congruence. Qed.

Lemma daily_inv_later cap state cs t t' :
  t ≤ t' → daily_inv cap state cs t → daily_inv cap state cs t'.
Proof.
  intros Ht [(old & kept & -> & He & Hsum & Hold) Hcap Ham]. constructor; [|done..].
  exists old, kept. split_and!; try done. eapply Forall_impl; [exact Hold|].
  unfold saturating_sub. cbn. intros. lia.
Qed.

Lemma map_app_inv {A B : Type} (f : A → B) l xs ys :
  map f l = xs ++ ys → ∃ l1 l2, l = l1 ++ l2 ∧ map f l1 = xs ∧ map f l2 = ys.
Proof.
  revert l; induction xs as [|x xs IH]; intros l H; [by exists [], l|].
  destruct l as [|a l]; simplify_eq/=. destruct (IH l) as (l1 & l2 & -> & <- & <-); [done|].
  by exists (a :: l1), l2.
Qed.

Lemma daily_inv_prune cap state cs now :
  daily_inv cap state cs now → daily_inv cap (prune_daily_entries state now) cs now.
Proof.
  intros [(old & kept & -> & He & Hsum & Hold) Hcap Ham]. unfold prune_daily_entries.
  destruct (prune_front _ _ _) as [es tot] eqn:Hp.
  destruct (prune_front_spec _ _ _ _ _ Hp) as (gone & Hsplit & Hgone & Htot).
  rewrite He in Hsplit. destruct (map_app_inv _ _ _ _ Hsplit) as (k1 & k2 & -> & Hk1 & Hk2).
  rewrite Forall_app in Ham. destruct Ham as [Ham1 Ham2].
  assert (tot = amounts_sum k2) as ->.
  { rewrite Htot, <- Hk2; [apply entries_sum_map| |by rewrite He, entries_sum_map].
    rewrite He. apply Forall_map. eapply Forall_impl; [exact Ham2|done]. }
  constructor; cbn.
  - exists (old ++ k1), k2. split_and!; [by rewrite app_assoc|done|done|].
    rewrite Forall_app. split; [done|]. subst gone. rewrite Forall_map in Hgone. done.
  - rewrite Hsum, amounts_sum_app in Hcap. apply Forall_app in Ham2 as [Hn _].
    apply amounts_sum_nonneg in Hn. lia.
  - by rewrite Forall_app.
Qed.

Section daily.
Context (p : RiskPolicy) (cap : Z).
Hypothesis Hcap : pol_max_daily_notional_wei p = Some cap.
Hypothesis Hbound : cap < uint_max 128.

Lemma daily_step pe now o s d state state' cs t :
  daily_inv cap state cs t → t ≤ now → uint 128 (op_input_amount o) →
  assess pe now p state o s = (d, state') →
  let c := {| cm_now := now; cm_bucket := block_bucket (op_block_context o);
              cm_amount := op_input_amount o |} in
  let new := if rd_accepted d then [c] else [] in
  daily_inv cap state' (cs ++ new) now ∧
  (rd_accepted d = true → window_sum now (cs ++ new) ≤ cap).
Proof.
  intros Hinv Ht Ha Hassess c. apply (daily_inv_later _ _ _ _ now) in Hinv; [|done].
  destruct (rd_accepted d) eqn:Hd; intros new; subst new.
  - destruct (assess_accepted _ _ _ _ _ _ _ _ Hassess Hd)
      as (_ & _ & _ & _ & Hdaily & ->). specialize (Hdaily _ Hcap).
    apply daily_inv_prune in Hinv. set (pr := prune_daily_entries state now) in *.
    destruct Hinv as [(old & kept & -> & He & Hsum & Hold) Hc Ham].
    unfold saturating_add in *. rewrite Z.min_l in * by lia.
    destruct Ha as [Ha _]. split.
    + constructor; cbn; [|lia|].
      * exists old, (kept ++ [c]). rewrite He, Hsum, map_app, amounts_sum_app. cbn.
        split_and!; [by rewrite app_assoc|done|lia|done].
      * rewrite Forall_app. split; [done|]. by repeat constructor.
    + intros _. rewrite <- app_assoc, window_sum_app, window_sum_old by done.
      etransitivity; [apply Z.eq_le_incl, Z.add_0_l|].
      etransitivity; [apply window_sum_le|].
      * rewrite Forall_app in Ham |- *. split; [apply Ham|]. by repeat constructor.
      * rewrite amounts_sum_app. cbn. lia.
  - split; [|done]. rewrite app_nil_r.
    destruct (assess_denied _ _ _ _ _ _ _ _ Hassess Hd) as [_ [->| ->]]; [done|].
    by apply daily_inv_prune.
Qed.

Lemma daily_run ops state cs0 t state' cs :
  daily_inv cap state cs0 t → clock_monotone t ops →
  risk_run sha256_hex p state ops = (state', cs) →
  ∀ pre c post, cs = pre ++ c :: post → window_sum (cm_now c) (cs0 ++ pre ++ [c]) ≤ cap.
Proof.
  revert state cs0 t cs. induction ops as [|op ops IH]; intros state cs0 t cs Hinv Hops Hrun.
  { simpl in Hrun. simplify_eq. by intros [] ??. }
  cbn [risk_run] in Hrun. destruct (risk_step _ p state op) as [st1 new] eqn:Hstep.
  destruct (risk_run _ p st1 ops) as [st2 rest] eqn:Hrest. simplify_eq.
  destruct op as [pe now o s|b|]; cbn [risk_step] in Hstep.
  - destruct (assess pe now p state o s) as [d st] eqn:Hassess.
    destruct Hops as (Ht & Ha & Hops).
    destruct (daily_step _ _ _ _ _ _ _ _ _ Hinv Ht Ha Hassess) as [Hinv' Hwin].
    cbv zeta in *. simplify_eq. specialize (IH _ _ _ _ Hinv' Hops Hrest).
    destruct (rd_accepted d); [|intros pre c post Heq; specialize (IH pre c post Heq);
      by rewrite app_nil_r in IH].
    intros [|c0 pre] c post Heq; simplify_eq/=.
    + by apply Hwin.
    + specialize (IH pre c post eq_refl). by rewrite <- app_assoc in IH.
  - simplify_eq. intros pre c post Heq. eapply IH; [|exact Hops|exact Hrest|exact Heq].
    by destruct Hinv; constructor.
  - simplify_eq. intros pre c post Heq. eapply IH; [|exact Hops|exact Hrest|exact Heq].
    by destruct Hinv; constructor.
Qed.
End daily.

(** The daily cap is never exceeded: in every run of the engine whose clock
    does not go back, whenever an opportunity is accepted the notional committed
    over the last 24 hours, that trade included, is within the cap. *)
Theorem risk_daily_cap p cap ops state cs :
  pol_max_daily_notional_wei p = Some cap → 0 ≤ cap < uint_max 128 → clock_monotone 0 ops →
  risk_run sha256_hex p RiskState_default ops = (state, cs) →
  ∀ pre c post, cs = pre ++ c :: post → window_sum (cm_now c) (pre ++ [c]) ≤ cap.
Proof.
  intros Hp Hcap Hops Hrun pre c post Heq.
  apply (daily_run p cap Hp (proj2 Hcap) ops RiskState_default [] 0 state cs) with (post := post);
    try done.
  constructor; [by exists [], []|cbn; lia|done].
Qed.

(** ** The per-block cap *)

(** The blocks of a run are visited in order. *)
Fixpoint buckets_monotone (b0 : Z) (ops : list RiskOp) : Prop :=
  match ops with
  | [] => True
  | Assess _ _ o _ :: ops =>
      b0 ≤ block_bucket (op_block_context o) ∧ uint 128 (op_input_amount o) ∧
      buckets_monotone (block_bucket (op_block_context o)) ops
  | _ :: ops => buckets_monotone b0 ops
  end.

Definition bucket_sum (b : Z) (cs : list Commitment) : Z :=
  amounts_sum (filter (λ c, cm_bucket c = b) cs).

Lemma bucket_sum_app b cs ds : bucket_sum b (cs ++ ds) = bucket_sum b cs + bucket_sum b ds.
Proof. unfold bucket_sum. by rewrite filter_app, amounts_sum_app. Qed.

Lemma bucket_sum_later b b' cs :
  Forall (λ c, cm_bucket c ≤ b) cs → b < b' → bucket_sum b' cs = 0.
Proof.
  unfold bucket_sum. induction 1 as [|c cs Hc Hcs IH]; intros Hb; [done|].
  rewrite filter_cons_False; [auto|lia].
Qed.

(** The counter is the notional committed in the last bucket used. *)
Record block_inv (cap : Z) (state : RiskState) (cs : list Commitment) (b : Z) : Prop := {
  bi_used : match rs_block_notional state with
            | None => cs = []
            | Some (b', used) => b' ≤ b ∧ used = bucket_sum b' cs ∧
                                 Forall (λ c, cm_bucket c ≤ b') cs
            end;
  bi_cap n : bucket_sum n cs ≤ cap }.

Lemma block_inv_used cap state cs b b' :
  block_inv cap state cs b → b ≤ b' → block_used state b' = bucket_sum b' cs.
Proof.
  intros [Hu _] Hb. unfold block_used. destruct (rs_block_notional state) as [[bk used]|].
  - destruct Hu as (Hbk & -> & Hall). destruct (bk =? b') eqn:He; [f_equal; lia|].
    symmetry. eapply bucket_sum_later; [exact Hall|lia].
  - by subst.
Qed.

Lemma block_inv_frame cap state state' cs b b' :
  block_inv cap state cs b → b ≤ b' → rs_block_notional state' = rs_block_notional state →
  block_inv cap state' cs b'.
Proof.
  intros [Hu Hc] Hb Heq. constructor; [|done]. rewrite Heq.
  destruct (rs_block_notional state) as [[]|]; [|done]. destruct Hu as (? & ? & ?).
  split_and!; [lia|done..].
Qed.

Lemma block_step p cap pe now o s d state state' cs b :
  pol_max_per_block_notional_wei p = Some cap → cap < uint_max 128 →
  let bucket := block_bucket (op_block_context o) in
  block_inv cap state cs b → b ≤ bucket → uint 128 (op_input_amount o) →
  assess pe now p state o s = (d, state') →
  block_inv cap state'
    (cs ++ if rd_accepted d
           then [{| cm_now := now; cm_bucket := bucket; cm_amount := op_input_amount o |}]
           else []) bucket.
Proof.
  intros Hp Hcap bucket Hinv Hb Ha Hassess. destruct (rd_accepted d) eqn:Hd.
  - destruct (assess_accepted _ _ _ _ _ _ _ _ Hassess Hd)
      as (_ & _ & _ & Hblk & _ & ->). specialize (Hblk _ Hp). fold bucket in Hblk |- *.
    rewrite (block_inv_used _ _ _ _ bucket Hinv Hb) in *.
    unfold saturating_add in *. rewrite Z.min_l in * by lia.
    assert (bucket_sum bucket [{| cm_now := now; cm_bucket := bucket;
              cm_amount := op_input_amount o |}] = op_input_amount o) as Hone.
    { unfold bucket_sum. rewrite filter_cons_True by done. cbn. lia. }
    constructor; cbn.
    + split_and!; [done|by rewrite bucket_sum_app, Hone|].
      rewrite Forall_app. split; [|by repeat constructor]. destruct Hinv as [Hu _].
      destruct (rs_block_notional state) as [[]|]; [|by subst].
      destruct Hu as (? & ? & Hall). eapply Forall_impl; [exact Hall|]. cbn. lia.
    + intros n. rewrite bucket_sum_app. destruct (decide (n = bucket)) as [->|Hne].
      * by rewrite Hone.
      * unfold bucket_sum at 2. rewrite filter_cons_False by (cbn; congruence). cbn.
        destruct Hinv as [_ Hc]. specialize (Hc n). lia.
  - rewrite app_nil_r. eapply block_inv_frame; [exact Hinv|done|].
    destruct (assess_denied _ _ _ _ _ _ _ _ Hassess Hd) as [_ [->| ->]]; [done|].
    unfold prune_daily_entries. by destruct (prune_front _ _ _).
Qed.

Lemma block_run p cap ops state cs0 b state' cs :
  pol_max_per_block_notional_wei p = Some cap → cap < uint_max 128 →
  block_inv cap state cs0 b → buckets_monotone b ops →
  risk_run sha256_hex p state ops = (state', cs) → ∀ n, bucket_sum n (cs0 ++ cs) ≤ cap.
Proof.
  intros Hp Hcap. revert state cs0 b cs.
  induction ops as [|op ops IH]; intros state cs0 b cs Hinv Hops Hrun.
  { simpl in Hrun. simplify_eq. rewrite app_nil_r. apply Hinv. }
  cbn [risk_run] in Hrun. destruct (risk_step _ p state op) as [st1 new] eqn:Hstep.
  destruct (risk_run _ p st1 ops) as [st2 rest] eqn:Hrest. simplify_eq.
  rewrite app_assoc. destruct op as [pe now o s|ok|]; cbn [risk_step] in Hstep.
  - destruct (assess pe now p state o s) as [d st] eqn:Hassess.
    destruct Hops as (Hb & Ha & Hops). simplify_eq.
    eapply IH; [|exact Hops|exact Hrest]. by eapply block_step.
  - simplify_eq. rewrite app_nil_r. eapply IH; [|exact Hops|exact Hrest].
    by eapply block_inv_frame.
  - simplify_eq. rewrite app_nil_r. eapply IH; [|exact Hops|exact Hrest].
    by eapply block_inv_frame.
Qed.

(** When the blocks of the assessed opportunities are visited in order, the
    notional committed in any one block is within the per-block cap. *)
Theorem risk_block_cap p cap ops state cs :
  pol_max_per_block_notional_wei p = Some cap → 0 ≤ cap < uint_max 128 →
  buckets_monotone 0 ops → risk_run sha256_hex p RiskState_default ops = (state, cs) →
  ∀ n, bucket_sum n cs ≤ cap.
Proof.
  intros Hp Hcap Hops Hrun n.
  eapply (block_run p cap ops _ []); [done|lia| |exact Hops|exact Hrun].
  constructor; [done|]. intros. cbn. lia.
Qed.

(** ** Stopping the engine *)

Definition tripped (p : RiskPolicy) (state : RiskState) : Prop :=
  0 < pol_max_consecutive_reverts p ≤ rs_consecutive_reverts state.

Lemma assess_halted pe now p state o s :
  rs_operator_killed state = true ∨ tripped p state →
  rd_accepted (assess pe now p state o s).1 = false ∧
  (assess pe now p state o s).2 = state.
Proof.
  unfold Risk.assess, tripped. intros H. destruct (stateless_reject _ _ _ _); [done|].
  destruct (rs_operator_killed state) eqn:Hk; [done|].
  destruct H as [?|H]; [done|].
  replace ((_ <=? _) && _) with true; [done|]. symmetry. apply andb_true_iff. lia.
Qed.

(** Once the operator has triggered the kill switch nothing is accepted any
    more, whatever happens; once the breaker has tripped nothing is accepted
    until a success is recorded. *)
Theorem risk_halted p state ops :
  rs_operator_killed state = true ∨
    (tripped p state ∧ uint 32 (pol_max_consecutive_reverts p) ∧
     Forall (λ op, op ≠ RecordOutcome true) ops) →
  (risk_run sha256_hex p state ops).2 = [].
Proof.
  revert state. induction ops as [|op ops IH]; intros state H; [done|].
  cbn [risk_run]. destruct op as [pe now o s|ok|]; cbn [risk_step].
  - destruct (assess_halted pe now p state o s) as [Hd Hs]; [naive_solver|].
    destruct (assess pe now p state o s) as [d st]. cbn in Hd, Hs. subst st. rewrite Hd.
    specialize (IH state). destruct (risk_run _ p state ops). cbn in *. apply IH.
    destruct H as [?|(? & ? & ?%Forall_cons)]; naive_solver.
  - specialize (IH (record_outcome state ok)).
    destruct (risk_run _ p (record_outcome state ok) ops). cbn in *. apply IH.
    destruct H as [?|([H1 H2] & H3 & [Hne ?]%Forall_cons)]; [by left|]. destruct ok; [done|].
    right. split_and!; [|done..].
    unfold tripped, record_outcome, saturating_add, uint, uint_max in *. cbn. lia.
  - specialize (IH (trigger_kill_switch state)).
    destruct (risk_run _ p (trigger_kill_switch state) ops). cbn in *. apply IH. by left.
Qed.

End assess.

(** ** The cap across alternating blocks *)

Definition sample_opportunity (context : BlockContext) (amount : Z) : Opportunity :=
  {| op_id := "loop"; op_kind := TwoLegLoop; op_block_context := context;
     op_settlement_token := "0xweth"; op_input_amount := amount;
     op_expected_output_amount := amount + 10; op_expected_net_profit := 10;
     op_route := []; op_trigger_tx_hash := None |}.

Definition sample_simulation : SimulationResult :=
  {| sim_opportunity_id := "loop"; sim_accepted := true; sim_expected_gross_profit := 10;
     sim_expected_net_profit := 10; sim_gas_estimate := 1; sim_gas_cost_wei := 0;
     sim_l1_data_fee := 0; sim_notes := [] |}.

Definition sample_policy (per_block daily : option Amount) : RiskPolicy :=
  {| pol_min_net_profit_wei := 0; pol_min_profit_bps := 0;
     pol_max_trade_notional_wei := None; pol_max_per_block_notional_wei := per_block;
     pol_max_daily_notional_wei := daily; pol_max_slippage_bps := 100;
     pol_token_allowlist := ∅; pol_token_denylist := ∅;
     pol_max_consecutive_reverts := 3; pol_kill_switch_path := None |}.

(** The per-block cap does not hold when opportunities of a block and of
    the pending block alternate: the counter is reset at each change, and a block
    commits twice its cap. *)
Theorem risk_block_cap_alternating :
  ∃ p cap ops, pol_max_per_block_notional_wei p = Some cap ∧ clock_monotone 0 ops ∧
    ∀ sha256_hex, cap < bucket_sum 7 (risk_run sha256_hex p RiskState_default ops).2.
Proof.
  set (a c := Assess (λ _, false) 5 (sample_opportunity c 100) sample_simulation).
  exists (sample_policy (Some 100) None), 100,
    [a (Block_ 7 None); a Pending; a (Block_ 7 None)].
  split_and!; [done| |].
  - by repeat (split; [done|]).
  - intros. reflexivity.
Qed.

(** ** The policy of a validated configuration *)

Lemma parse_amount_parses raw : parses_u128 raw → ∃ n, parse_amount raw = Ok n ∧ uint 128 n.
Proof. intros (n & Hn & ?). exists n. unfold parse_amount. by rewrite Hn. Qed.

Lemma opt_parse_amount o :
  (∀ raw, o = Some raw → parses_u128 raw) →
  ∃ r, opt_traverse parse_amount o = Ok r ∧ (is_Some o ↔ is_Some r) ∧
       ∀ n, r = Some n → uint 128 n.
Proof.
  intros H. destruct o as [raw|].
  - destruct (parse_amount_parses raw (H _ eq_refl)) as (n & Hn & Hu). exists (Some n).
    unfold opt_traverse. rewrite Hn. split; [done|]. split; [by split; eexists|].
    by intros ? [= <-].
  - exists None. split; [done|]. split; [done|]. by intros ? [=].
Qed.

(** A configuration that passes validation always makes a policy, with the
    validated floors and caps. *)
Theorem policy_from_validated_config c e :
  risk_validate c e = Ok tt →
  ∃ p, policy_from_config c = Ok p ∧
    uint 128 (pol_min_net_profit_wei p) ∧
    pol_min_profit_bps p ≤ 10000 ∧ pol_max_slippage_bps p ≤ 10000 ∧
    (∀ cap, pol_max_daily_notional_wei p = Some cap → uint 128 cap) ∧
    (exec_mode e ≠ Shadow →
       is_Some (pol_max_trade_notional_wei p) ∧ is_Some (pol_max_daily_notional_wei p)).
Proof.
  intros H%risk_validate_valid. destruct H as [(m & Hm & Hmu) Ht Hb Hd [Hb1 Hb2] Hcaps _].
  destruct (opt_parse_amount _ Ht) as (t & Htr & Hti & _).
  destruct (opt_parse_amount _ Hb) as (b & Hbr & _).
  destruct (opt_parse_amount _ Hd) as (d & Hdr & Hdi & Hdu).
  unfold policy_from_config. rewrite Hm, Htr, Hbr, Hdr. cbn [map_err mbind res_bind].
  eexists. split; [reflexivity|]. cbn. split_and!; try done.
  intros Hmode. specialize (Hcaps Hmode). tauto.
Qed.
