(* ===== verification/Decision.v ===== *)
(** The decision layer (crate [decision], [lib.rs]): detection of two-leg loops
    in the book, their simulation under the cost model, the legacy risk check and
    the execution request. *)

From S2P Require Import Prelude RustStr Types MarketsV2 U256 MarketsV3 PoolBook Config Risk.
#[local] Open Scope Z_scope.

Record TwoLegLoopInput := {
  tl_block_context : BlockContext;
  tl_settlement_token : Address;
  tl_amount_in : Amount;
  tl_first_pool : V2PoolState;
  tl_second_pool : V2PoolState;
  tl_trigger_tx_hash : option string }.

Record SimulationConfig := {
  sc_gas_estimate : Z;                        (* u64 *)
  sc_gas_cost_wei : Amount;
  sc_l1_data_fee_wei : Amount }.

Definition simulation_from_config (config : DecisionConfig) : res string SimulationConfig :=
  gas_cost_wei ← map_err (λ _, "failed to parse DECISION_SIMULATION_GAS_COST_WEI"%string)
    (parse_uint 128 (dec_simulation_gas_cost_wei config));
  l1_data_fee_wei ← map_err (λ _, "failed to parse DECISION_SIMULATION_L1_DATA_FEE_WEI"%string)
    (parse_uint 128 (dec_simulation_l1_data_fee_wei config));
  Ok {| sc_gas_estimate := dec_simulation_gas_estimate config;
        sc_gas_cost_wei := gas_cost_wei;
        sc_l1_data_fee_wei := l1_data_fee_wei |}.

Definition loop_id (token first second : string) (amount_in : Z) : string :=
  "loop:" +:+ token +:+ ":" +:+ first +:+ ":" +:+ second +:+ ":" +:+ show_uint amount_in.

Definition detect_two_leg_loop (input : TwoLegLoopInput) : outcome (option Opportunity) :=
  let token := tl_settlement_token input in
  let first := tl_first_pool input in
  let second := tl_second_pool input in
  if tl_amount_in input =? 0 then Ok None else
  first_quote ← ok (v2_quote_exact_in first token (tl_amount_in input));
  match first_quote with
  | None => Ok None
  | Some first_quote =>
  second_quote ←
    ok (v2_quote_exact_in second (pq_token_out first_quote) (pq_amount_out first_quote));
  match second_quote with
  | None => Ok None
  | Some second_quote =>
  if bool_decide (pq_token_out second_quote ≠ token) then Ok None else
  match checked_sub (pq_amount_out second_quote) (tl_amount_in input) with
  | None => Ok None
  | Some expected_net_profit =>
  if expected_net_profit =? 0 then Ok None else
  Ok (Some {|
    op_id := loop_id token (v2_address first) (v2_address second) (tl_amount_in input);
    op_kind := TwoLegLoop;
    op_block_context := tl_block_context input;
    op_settlement_token := token;
    op_input_amount := tl_amount_in input;
    op_expected_output_amount := pq_amount_out second_quote;
    op_expected_net_profit := expected_net_profit;
    op_route := [
      {| leg_venue := v2_exchange first;
         leg_protocol := Some (v2_protocol first);
         leg_target := v2_address first;
         leg_pool_address := Some (v2_address first);
         leg_token_in := pq_token_in first_quote;
         leg_token_out := pq_token_out first_quote;
         leg_amount_in := Some (pq_amount_in first_quote);
         leg_min_amount_out := Some (pq_amount_out first_quote) |};
      {| leg_venue := v2_exchange second;
         leg_protocol := Some (v2_protocol second);
         leg_target := v2_address second;
         leg_pool_address := Some (v2_address second);
         leg_token_in := pq_token_out first_quote;
         leg_token_out := pq_token_out second_quote;
         leg_amount_in := Some (pq_amount_in second_quote);
         leg_min_amount_out := Some (pq_amount_out second_quote) |}];
    op_trigger_tx_hash := tl_trigger_tx_hash input |})
  end end end.

(** The comparison of [sort_by]: profit descending, then identifier ascending. *)
Definition opportunity_le (left right : Opportunity) : bool :=
  (op_expected_net_profit right <? op_expected_net_profit left) ||
  ((op_expected_net_profit right =? op_expected_net_profit left) &&
   str_leb (op_id left) (op_id right)).

(** The guards of the nested loops over a pair of pools. *)
Definition loop_candidate (settlement_token : string) (first second : V2PoolState) : bool :=
  v2_contains_token first settlement_token &&
  match v2_other_token first settlement_token with
  | None => false
  | Some intermediate =>
      negb (eq_ignore_ascii_case (v2_address first) (v2_address second)) &&
      v2_contains_token second intermediate && v2_contains_token second settlement_token
  end.

Section scan.
Context (context : BlockContext) (settlement_token : string) (amount_in : Amount)
  (trigger_tx_hash : option string).

Definition loop_input (first second : V2PoolState) : TwoLegLoopInput :=
  {| tl_block_context := context; tl_settlement_token := settlement_token;
     tl_amount_in := amount_in; tl_first_pool := first; tl_second_pool := second;
     tl_trigger_tx_hash := trigger_tx_hash |}.

(** The inner loop for one first pool. *)
Fixpoint scan_second (first : V2PoolState) (pools : list V2PoolState) :
    outcome (list Opportunity) :=
  match pools with
  | [] => Ok []
  | second :: pools =>
      found ← (if loop_candidate settlement_token first second
               then detect_two_leg_loop (loop_input first second) else Ok None);
      rest ← scan_second first pools;
      Ok (match found with Some o => o :: rest | None => rest end)
  end.

Fixpoint scan_first (all pools : list V2PoolState) : outcome (list Opportunity) :=
  match pools with
  | [] => Ok []
  | first :: pools =>
      found ← scan_second first all;
      rest ← scan_first all pools;
      Ok (found ++ rest)
  end.

(** [values] is the iteration order of the book's map, the same for both loops as
    the book does not change. *)
Definition detect_two_leg_loops_from_book (values : list PoolState) :
    outcome (list Opportunity) :=
  opportunities ← scan_first (v2_pools values) (v2_pools values);
  Ok (dedup_by (λ left right, bool_decide (op_id left = op_id right))
        (stable_sort opportunity_le opportunities)).
End scan.

Definition simulate_two_leg_opportunity (o : Opportunity) (simulation : SimulationConfig) :
    option SimulationResult :=
  if bool_decide (op_kind o ≠ TwoLegLoop) || negb (Nat.eqb (length (op_route o)) 2) then None else
  expected_gross_profit ← checked_sub (op_expected_output_amount o) (op_input_amount o);
  after_gas ← checked_sub expected_gross_profit (sc_gas_cost_wei simulation);
  expected_net_profit ← checked_sub after_gas (sc_l1_data_fee_wei simulation);
  Some {| sim_opportunity_id := op_id o;
          sim_accepted := 0 <? expected_net_profit;
          sim_expected_gross_profit := expected_gross_profit;
          sim_expected_net_profit := expected_net_profit;
          sim_gas_estimate := sc_gas_estimate simulation;
          sim_gas_cost_wei := sc_gas_cost_wei simulation;
          sim_l1_data_fee := sc_l1_data_fee_wei simulation;
          sim_notes := ["simulation path uses deterministic local V2 quotes"%string;
                        "gas and L1 data fee are config-driven cost baselines"%string] |}.

Definition assess_risk (sha256_hex : list Z → string) (o : Opportunity)
    (s : SimulationResult) (config : DecisionConfig) : option RiskDecision :=
  match parse_uint 128 (dec_min_net_profit_wei config) with
  | Ok min_surplus =>
      let accepted := sim_accepted s && (min_surplus <=? sim_expected_net_profit s) in
      Some {| rd_opportunity_id := op_id o;
              rd_accepted := accepted;
              rd_reason := if accepted then None else
                Some "expected net profit is below the configured minimum surplus"%string;
              rd_risk_hash := risk_hash sha256_hex o s min_surplus;
              rd_min_surplus := min_surplus |}
  | _ => None
  end.

Fixpoint build_steps (route : list RouteLeg) : option (list ExecutionStep) :=
  match route with
  | [] => Some []
  | leg :: route =>
      min_amount_out ← leg_min_amount_out leg;
      steps ← build_steps route;
      Some ({| st_venue := leg_venue leg;
               st_protocol := leg_protocol leg;
               st_target := leg_target leg;
               st_token_in := leg_token_in leg;
               st_token_out := leg_token_out leg;
               st_pool_fee := None;
               st_amount_in := leg_amount_in leg;
               st_min_amount_out := min_amount_out;
               st_calldata_hint := Some "v2_exact_input"%string;
               st_aux_address := None |} :: steps)
  end.

Definition build_execution_request (o : Opportunity) (risk : RiskDecision) :
    option ExecutionRequest :=
  if negb (rd_accepted risk) then None else
  steps ← build_steps (op_route o);
  Some {| rq_opportunity_id := op_id o;
          rq_steps := steps;
          rq_min_repay := op_input_amount o;
          rq_min_surplus := rd_min_surplus risk;
          rq_flashloan_asset := Some (op_settlement_token o);
          rq_flashloan_amount := Some (op_input_amount o);
          rq_risk_hash := rd_risk_hash risk |}.

(** ** One loop *)

Lemma v2_quote_uint p t a q :
  v2_wf p → uint 128 a → v2_quote_exact_in p t a = Ok q →
  uint 128 (pq_amount_out q) ∧ 0 < pq_amount_out q ∧ pq_token_in q = t ∧ pq_amount_in q = a.
Proof.
  intros Hwf [Ha _] Hq. destruct (v2_quote_inv _ _ _ _ Hwf Ha Hq)
    as (rin & rout & tok & Hs & Ha' & _ & Ht & _ & Hin & _ & Hout & Hnz & _).
  destruct (v2_sides_wf _ _ _ _ _ Hwf Hs), (v2_wf_fee p Hwf).
  pose proof (v2_amount_out_bounds (v2_fee_bps p) rin rout ltac:(lia) ltac:(lia) ltac:(lia) a Ha').
  unfold uint. split_and!; (done || lia).
Qed.

(** The two quotes of a profitable loop. *)
Definition loop_quotes (input : TwoLegLoopInput) (q1 q2 : PoolQuote) : Prop :=
  v2_quote_exact_in (tl_first_pool input) (tl_settlement_token input) (tl_amount_in input)
    = Ok q1 ∧
  v2_quote_exact_in (tl_second_pool input) (pq_token_out q1) (pq_amount_out q1) = Ok q2 ∧
  pq_token_out q2 = tl_settlement_token input ∧ tl_amount_in input < pq_amount_out q2.

Section one_loop.
Context (input : TwoLegLoopInput).
Hypothesis Hfirst : v2_wf (tl_first_pool input).
Hypothesis Hsecond : v2_wf (tl_second_pool input).
Hypothesis Hamount : uint 128 (tl_amount_in input).

Lemma detect_some q1 q2 :
  loop_quotes input q1 q2 →
  ∃ o, detect_two_leg_loop input = Ok (Some o) ∧
    op_expected_net_profit o = pq_amount_out q2 - tl_amount_in input.
Proof.
  intros (Hq1 & Hq2 & Htok & Hlt). unfold detect_two_leg_loop. cbv zeta.
  destruct (tl_amount_in input =? 0) eqn:H0.
  { apply Z.eqb_eq in H0. unfold v2_quote_exact_in in Hq1. by rewrite H0 in Hq1. }
  rewrite Hq1. cbn [ok mbind res_bind]. rewrite Hq2. cbn [ok mbind res_bind].
  rewrite bool_decide_false by (intros Hn; by apply Hn).
  unfold checked_sub. replace (_ <=? _) with true by lia.
  replace (pq_amount_out q2 - tl_amount_in input =? 0) with false by lia.
  eexists. split; [reflexivity|done].
Qed.

Lemma detect_inv :
  ∃ r, detect_two_leg_loop input = Ok r ∧
    match r with
    | None => ¬ ∃ q1 q2, loop_quotes input q1 q2
    | Some o => ∃ q1 q2 l1 l2, loop_quotes input q1 q2 ∧
        op_id o = loop_id (tl_settlement_token input) (v2_address (tl_first_pool input))
                    (v2_address (tl_second_pool input)) (tl_amount_in input) ∧
        op_kind o = TwoLegLoop ∧ op_block_context o = tl_block_context input ∧
        op_settlement_token o = tl_settlement_token input ∧
        op_input_amount o = tl_amount_in input ∧
        op_expected_output_amount o = pq_amount_out q2 ∧
        op_expected_net_profit o = pq_amount_out q2 - tl_amount_in input ∧
        0 < op_expected_net_profit o ∧ op_route o = [l1; l2] ∧
        leg_target l1 = v2_address (tl_first_pool input) ∧
        leg_token_in l1 = tl_settlement_token input ∧ leg_token_out l1 = pq_token_out q1 ∧
        leg_amount_in l1 = Some (tl_amount_in input) ∧
        leg_min_amount_out l1 = Some (pq_amount_out q1) ∧
        leg_target l2 = v2_address (tl_second_pool input) ∧
        leg_token_in l2 = leg_token_out l1 ∧ leg_token_out l2 = tl_settlement_token input ∧
        leg_amount_in l2 = leg_min_amount_out l1 ∧
        leg_min_amount_out l2 = Some (pq_amount_out q2)
    end.
Proof.
  assert (∀ r, detect_two_leg_loop input = Ok r → is_Some r ∨
    ¬ ∃ q1 q2, loop_quotes input q1 q2) as Hnone.
  { intros [o|] H; [left; by eexists|right]. intros (q1 & q2 & Hq).
    destruct (detect_some q1 q2 Hq) as (o & Ho & _). by rewrite H in Ho. }
  revert Hnone. unfold detect_two_leg_loop at 2. cbv zeta. unfold detect_two_leg_loop. cbv zeta.
  intros Hnone.
  destruct (tl_amount_in input =? 0) eqn:H0;
    [exists None; split; [done|by destruct (Hnone _ eq_refl) as [[? ?]|]]|].
  destruct (v2_quote_exact_in (tl_first_pool input) _ _) as [q1|e|] eqn:Hq1; cbn [ok mbind res_bind] in *;
    [|exists None; split; [done|by destruct (Hnone _ eq_refl) as [[? ?]|]]
     |by apply v2_quote_no_panic in Hq1; [|done|apply Hamount]].
  destruct (v2_quote_uint _ _ _ _ Hfirst Hamount Hq1) as (Hu1 & Hp1 & Ht1 & Ha1).
  destruct (v2_quote_exact_in (tl_second_pool input) _ _) as [q2|e|] eqn:Hq2; cbn [ok mbind res_bind] in *;
    [|exists None; split; [done|by destruct (Hnone _ eq_refl) as [[? ?]|]]
     |by apply v2_quote_no_panic in Hq2; [|done|apply Hu1]].
  destruct (v2_quote_uint _ _ _ _ Hsecond Hu1 Hq2) as (Hu2 & Hp2 & Ht2 & Ha2).
  case_bool_decide as Htok;
    [exists None; split; [done|by destruct (Hnone _ eq_refl) as [[? ?]|]]|].
  destruct (checked_sub _ _) as [net|] eqn:Hnet;
    [|exists None; split; [done|by destruct (Hnone _ eq_refl) as [[? ?]|]]].
  apply checked_sub_some in Hnet as [-> Hle].
  destruct (_ - _ =? 0) eqn:Hz;
    [exists None; split; [done|by destruct (Hnone _ eq_refl) as [[? ?]|]]|].
  apply Z.eqb_neq in Hz. eexists. split; [reflexivity|]. exists q1, q2. do 2 eexists.
  unfold loop_quotes. cbn. rewrite Ht1, Ha1, Ha2. split_and!; try done; try lia.
Qed.
End one_loop.

(** C10. Detection on valid pools always returns, and returns an opportunity
    exactly when the two quotes chain back to the settlement token for more than
    was put in; the opportunity carries the chained route, the second quote as
    its output and the exact surplus as its profit. *)
Theorem detect_two_leg_loop_correct input :
  v2_wf (tl_first_pool input) → v2_wf (tl_second_pool input) → uint 128 (tl_amount_in input) →
  ∃ r, detect_two_leg_loop input = Ok r ∧
    match r with
    | None => ¬ ∃ q1 q2, loop_quotes input q1 q2
    | Some o => ∃ q1 q2 l1 l2, loop_quotes input q1 q2 ∧
        op_settlement_token o = tl_settlement_token input ∧
        op_input_amount o = tl_amount_in input ∧
        op_expected_output_amount o = pq_amount_out q2 ∧
        op_expected_net_profit o = op_expected_output_amount o - op_input_amount o ∧
        0 < op_expected_net_profit o ∧ op_route o = [l1; l2] ∧
        leg_token_in l1 = op_settlement_token o ∧ leg_token_in l2 = leg_token_out l1 ∧
        leg_token_out l2 = op_settlement_token o ∧
        leg_amount_in l1 = Some (op_input_amount o) ∧
        leg_amount_in l2 = leg_min_amount_out l1 ∧
        leg_min_amount_out l2 = Some (op_expected_output_amount o)
    end.
Proof.
  intros H1 H2 Ha. destruct (detect_inv input H1 H2 Ha) as (r & Hr & Hspec).
  exists r. split; [done|]. destruct r as [o|]; [|done].
  destruct Hspec as (q1 & q2 & l1 & l2 & Hq & _ & _ & _ & Ht & Hin & Hout & Hnet & Hpos & Hroute
    & _ & Hl1 & _ & Hl1a & _ & _ & Hl2 & Hl2o & Hl2a & Hl2m).
  exists q1, q2, l1, l2. split_and!; try done; congruence.
Qed.

(** The settlement token is compared with the pools' spelling exactly, while
    every other comparison ignores case: when its spelling differs from both
    tokens of the second pool no loop is ever found. *)
Theorem detect_settlement_case_sensitive input :
  v2_wf (tl_first_pool input) → v2_wf (tl_second_pool input) → uint 128 (tl_amount_in input) →
  tl_settlement_token input ≠ v2_token0 (tl_second_pool input) →
  tl_settlement_token input ≠ v2_token1 (tl_second_pool input) →
  detect_two_leg_loop input = Ok None.
Proof.
  intros H1 H2 Ha Hn0 Hn1. destruct (detect_inv input H1 H2 Ha) as ([o|] & Hr & Hspec); [|done].
  destruct Hspec as (q1 & q2 & l1 & l2 & (Hq1 & Hq2 & Htok & _) & _). exfalso.
  destruct (v2_quote_uint _ _ _ _ H1 Ha Hq1) as ([Hu _] & _).
  destruct (v2_quote_inv _ _ _ _ H2 Hu Hq2) as (rin & rout & tok & Hs & _ & _ & _ & Ht & _).
  revert Hs. unfold v2_sides. repeat case_match; naive_solver congruence.
Qed.

(** ** The whole book *)

Lemma opportunity_le_total x y : opportunity_le x y = false → opportunity_le y x = true.
Proof.
  unfold opportunity_le. rewrite orb_false_iff, andb_false_iff.
  intros [Hlt [Heq|Hle]]; [apply orb_true_iff; left; lia|]. apply str_leb_total in Hle.
  rewrite Hle, andb_true_r. lia.
Qed.

Lemma opportunity_le_trans x y z :
  opportunity_le x y = true → opportunity_le y z = true → opportunity_le x z = true.
Proof.
  unfold opportunity_le. rewrite !orb_true_iff, !andb_true_iff.
  intros [?|[? ?]] [?|[? ?]]; [left; lia..|]. right. split; [lia|].
  by eapply str_leb_trans.
Qed.

Section book.
Context (context : BlockContext) (token : string) (amount : Amount) (trigger : option string).
Abbreviation input := (loop_input context token amount trigger).
Hypothesis Hamount : uint 128 amount.

(** What a pair of pools contributes. *)
Definition contributes (first second : V2PoolState) (o : Opportunity) : Prop :=
  loop_candidate token first second = true ∧
  detect_two_leg_loop (input first second) = Ok (Some o).

Definition found (first second : V2PoolState) : option Opportunity :=
  if loop_candidate token first second
  then match detect_two_leg_loop (input first second) with Ok r => r | _ => None end
  else None.

Lemma detect_ok first second :
  v2_wf first → v2_wf second →
  (if loop_candidate token first second
   then detect_two_leg_loop (input first second) else Ok None) = Ok (found first second).
Proof.
  intros Hf Hs. unfold found. destruct (loop_candidate token first second); [|done].
  destruct (detect_inv (input first second) Hf Hs Hamount) as (r & -> & _). done.
Qed.

Lemma found_contributes first second o :
  v2_wf first → v2_wf second → found first second = Some o ↔ contributes first second o.
Proof.
  intros Hf Hs. unfold found, contributes.
  destruct (loop_candidate token first second); [|naive_solver].
  destruct (detect_inv (input first second) Hf Hs Hamount) as (r & -> & _). naive_solver.
Qed.

Lemma scan_second_eq first pools :
  v2_wf first → Forall v2_wf pools →
  scan_second context token amount trigger first pools = Ok (omap (found first) pools).
Proof.
  intros Hf Hp. induction Hp as [|second pools Hs _ IH]; [done|].
  cbn [scan_second]. rewrite detect_ok, IH by done. cbn. by destruct (found first second).
Qed.

Lemma scan_first_eq all pools :
  Forall v2_wf all → Forall v2_wf pools →
  scan_first context token amount trigger all pools =
    Ok (pools ≫= λ first, omap (found first) all).
Proof.
  intros Ha Hp. induction Hp as [|first pools Hf _ IH]; [done|].
  cbn [scan_first]. by rewrite scan_second_eq, IH.
Qed.

Lemma scan_first_ok all pools :
  Forall v2_wf all → Forall v2_wf pools →
  ∃ os, scan_first context token amount trigger all pools = Ok os ∧
    ∀ o, o ∈ os ↔ ∃ first second, first ∈ pools ∧ second ∈ all ∧ contributes first second o.
Proof.
  intros Ha Hp. eexists. split; [by apply scan_first_eq|]. intros o.
  rewrite Forall_forall in Ha, Hp. rewrite list_elem_of_bind.
  setoid_rewrite list_elem_of_omap. split.
  - intros (f & (s & Hs & Hfs) & Hf). apply found_contributes in Hfs; eauto.
  - intros (f & s & Hf & Hs & Hc). exists f. split; [|done]. exists s. split; [done|].
    apply found_contributes; eauto.
Qed.

Lemma v2_pools_wf values : Forall pool_wf values → Forall v2_wf (v2_pools values).
Proof.
  intros H. apply Forall_forall. intros p. unfold v2_pools. rewrite list_elem_of_omap.
  intros ([p'|p'] & Hin & Hp); simplify_eq. rewrite Forall_forall in H. by apply H in Hin.
Qed.

Lemma detect_loops_elem values :
  Forall pool_wf values →
  ∃ os, detect_two_leg_loops_from_book context token amount trigger values = Ok os ∧
    ∀ o, o ∈ os → ∃ first second, first ∈ v2_pools values ∧ second ∈ v2_pools values ∧
      contributes first second o.
Proof.
  intros Hwf. apply v2_pools_wf in Hwf.
  destruct (scan_first_ok _ _ Hwf Hwf) as (os & Hos & Hel).
  unfold detect_two_leg_loops_from_book. rewrite Hos. cbn [mbind res_bind].
  eexists. split; [reflexivity|]. intros o Ho.
  eapply elem_of_sublist in Ho; [|apply dedup_by_sublist].
  by rewrite stable_sort_perm, Hel in Ho.
Qed.

(** C17. Scanning a book of valid pools always returns. The result is ordered by
    decreasing profit, then by identifier; each element comes from two
    distinct pools of the book that pass the guards; and each loop such a pair
    yields is represented, by an element of its identifier at least as
    profitable. *)
Theorem detect_loops_sound_complete values :
  Forall pool_wf values →
  ∃ os, detect_two_leg_loops_from_book context token amount trigger values = Ok os ∧
    StronglySorted (λ a b, opportunity_le a b = true) os ∧
    (∀ o, o ∈ os → ∃ first second, V2 first ∈ values ∧ V2 second ∈ values ∧
       contributes first second o) ∧
    (∀ first second o, V2 first ∈ values → V2 second ∈ values → contributes first second o →
       ∃ o', o' ∈ os ∧ op_id o' = op_id o ∧
         op_expected_net_profit o ≤ op_expected_net_profit o').
Proof.
  intros Hwf. apply v2_pools_wf in Hwf.
  destruct (scan_first_ok _ _ Hwf Hwf) as (os & Hos & Hel).
  assert (∀ p, p ∈ v2_pools values ↔ V2 p ∈ values) as Hin.
  { intros p. unfold v2_pools. rewrite list_elem_of_omap. split.
    - intros ([|] & ? & ?); naive_solver.
    - intros. by exists (V2 p). }
  pose proof (stable_sort_sorted _ opportunity_le_total opportunity_le_trans os) as Hsort.
  unfold detect_two_leg_loops_from_book. rewrite Hos. cbn [mbind res_bind].
  eexists. split; [reflexivity|]. split_and!.
  - eapply StronglySorted_sublist; [apply dedup_by_sublist|done].
  - intros o Ho. eapply elem_of_sublist in Ho; [|apply dedup_by_sublist].
    rewrite stable_sort_perm, Hel in Ho. setoid_rewrite <- Hin. naive_solver.
  - intros first second o Hf Hs Hc. assert (o ∈ stable_sort opportunity_le os) as Ho.
    { rewrite stable_sort_perm. apply Hel. exists first, second. by rewrite !Hin. }
    destruct (dedup_by_covers_sorted (λ l r, bool_decide (op_id l = op_id r)) _ _ _ Hsort Ho)
      as (o' & Ho' & [->|[Hid%bool_decide_eq_true Hle]]); [by exists o|].
    exists o'. split_and!; [done|done|]. unfold opportunity_le in Hle.
    rewrite orb_true_iff, andb_true_iff in Hle. lia.
Qed.

(** The key the ranking is decided by. *)
Definition rank_key (o : Opportunity) : Z * string := (op_expected_net_profit o, op_id o).
Definition rank_le (a b : Z * string) : Prop :=
  b.1 < a.1 ∨ b.1 = a.1 ∧ str_leb a.2 b.2 = true.

#[local] Instance rank_le_antisymm : AntiSymm (=) rank_le.
Proof.
  intros [x a] [y b]. unfold rank_le. cbn. intros [?|[? ?]] [?|[? ?]]; [lia..|].
  f_equal; [done|]. by apply str_leb_antisym.
Qed.

Lemma sorted_rank os :
  StronglySorted (λ a b, opportunity_le a b = true) os → StronglySorted rank_le (rank_key <$> os).
Proof.
  induction 1 as [|o os Hs IH Ho]; [constructor|]. constructor; [done|].
  apply Forall_fmap. eapply Forall_impl; [exact Ho|]. intros o'. unfold opportunity_le, rank_le.
  cbn. rewrite orb_true_iff, andb_true_iff.
  intros [?|[? ?]]; [left; lia|right; split; [lia|done]].
Qed.

(** The ranking does not depend on the iteration order of the hash map: two
    orders of the same pools give the same profits and identifiers in the same
    order. *)
Theorem detect_loops_order_independent values values' :
  Forall pool_wf values → values ≡ₚ values' →
  ∃ os os', detect_two_leg_loops_from_book context token amount trigger values = Ok os ∧
    detect_two_leg_loops_from_book context token amount trigger values' = Ok os' ∧
    rank_key <$> os = rank_key <$> os'.
Proof.
  intros Hwf Hperm. assert (Forall pool_wf values') as Hwf' by (by rewrite <- Hperm).
  apply v2_pools_wf in Hwf, Hwf'. unfold detect_two_leg_loops_from_book.
  rewrite !scan_first_eq by done. cbn [mbind res_bind].
  eexists _, _. split; [reflexivity|]. split; [reflexivity|].
  rewrite !(dedup_by_fmap rank_key _ (λ a b, bool_decide (a.2 = b.2))) by done. f_equal.
  assert (v2_pools values ≡ₚ v2_pools values') as Hp by (unfold v2_pools; by rewrite Hperm).
  apply (StronglySorted_unique rank_le);
    [apply sorted_rank, stable_sort_sorted; [apply opportunity_le_total|apply opportunity_le_trans]..|].
  rewrite !stable_sort_perm. apply fmap_Permutation.
  transitivity (v2_pools values' ≫= λ first, omap (found first) (v2_pools values));
    [by rewrite Hp|].
  induction (v2_pools values') as [|f l IH] at 1 3; [done|]. cbn. by rewrite Hp, IH.
Qed.
End book.

(** ** Simulation and request *)

(** The simulation charges exactly the gas and data fee to the surplus of
    the route, accepts when something is left, and gives no result for another
    kind of opportunity or when the costs exceed the surplus. *)
Theorem simulate_exact o c :
  0 ≤ sc_gas_cost_wei c → 0 ≤ sc_l1_data_fee_wei c →
  let surplus := op_expected_output_amount o - op_input_amount o in
  let costs := sc_gas_cost_wei c + sc_l1_data_fee_wei c in
  match simulate_two_leg_opportunity o c with
  | Some r => op_kind o = TwoLegLoop ∧ length (op_route o) = 2%nat ∧ costs ≤ surplus ∧
      sim_expected_gross_profit r = surplus ∧ sim_expected_net_profit r = surplus - costs ∧
      (sim_accepted r = true ↔ costs < surplus)
  | None => op_kind o ≠ TwoLegLoop ∨ length (op_route o) ≠ 2%nat ∨ surplus < costs
  end.
Proof.
  intros Hg Hl. cbv zeta. unfold simulate_two_leg_opportunity.
  destruct (bool_decide _ || _) eqn:Hc.
  - apply orb_true_iff in Hc as [Hc%bool_decide_eq_true|Hc%negb_true_iff%Nat.eqb_neq]; auto.
  - apply orb_false_iff in Hc as [Hk%bool_decide_eq_false Hlen%negb_false_iff%Nat.eqb_eq].
    apply dec_stable in Hk. unfold checked_sub.
    destruct (op_input_amount o <=? _) eqn:H1; cbn [mbind option_bind]; [|right; right; lia].
    destruct (sc_gas_cost_wei c <=? _) eqn:H2; cbn [mbind option_bind]; [|right; right; lia].
    destruct (sc_l1_data_fee_wei c <=? _) eqn:H3; cbn [mbind option_bind]; [|right; right; lia].
    cbn. split_and!; (done || lia).
Qed.

Lemma simulate_some o c r :
  simulate_two_leg_opportunity o c = Some r →
  sim_expected_net_profit r = op_expected_output_amount o - op_input_amount o -
    sc_gas_cost_wei c - sc_l1_data_fee_wei c.
Proof.
  unfold simulate_two_leg_opportunity. destruct (bool_decide _ || _); [done|]. intros H.
  apply bind_Some in H as (g & Hg & H). apply bind_Some in H as (a & Ha & H).
  apply bind_Some in H as (n & Hn & H). inv_checked. by simplify_eq/=.
Qed.

(** What a request for a loop must guarantee: it borrows and repays the amount, its
    two steps chain from the settlement token back to it, and the minimum output
    of the last step covers the repayment, the required surplus and the costs. *)
Record request_covers (token : string) (amount : Amount) (c : SimulationConfig)
    (rq : ExecutionRequest) (s1 s2 : ExecutionStep) : Prop := {
  cov_steps : rq_steps rq = [s1; s2];
  cov_repay : rq_min_repay rq = amount;
  cov_loan : rq_flashloan_amount rq = Some amount;
  cov_asset : rq_flashloan_asset rq = Some token;
  cov_token_in : st_token_in s1 = token;
  cov_chain : st_token_in s2 = st_token_out s1;
  cov_token_out : st_token_out s2 = token;
  cov_amount : st_amount_in s2 = Some (st_min_amount_out s1);
  cov_surplus : rq_min_repay rq + rq_min_surplus rq + sc_gas_cost_wei c + sc_l1_data_fee_wei c ≤
                  st_min_amount_out s2 }.

(** The request of an accepted loop. *)
Lemma accepted_request sha256_hex path_exists now p state input c o s d state' :
  v2_wf (tl_first_pool input) → v2_wf (tl_second_pool input) → uint 128 (tl_amount_in input) →
  detect_two_leg_loop input = Ok (Some o) →
  simulate_two_leg_opportunity o c = Some s →
  assess sha256_hex path_exists now p state o s = (d, state') → rd_accepted d = true →
  op_input_amount o = tl_amount_in input ∧
  ∃ rq s1 s2, build_execution_request o d = Some rq ∧
    request_covers (tl_settlement_token input) (tl_amount_in input) c rq s1 s2 ∧
    st_target s1 = v2_address (tl_first_pool input) ∧
    st_target s2 = v2_address (tl_second_pool input).
Proof.
  intros H1 H2 Ha Hdet Hsim Hrisk Hacc.
  destruct (detect_inv input H1 H2 Ha) as (r & Hr & Hspec). rewrite Hdet in Hr. simplify_eq.
  destruct Hspec as (q1 & q2 & l1 & l2 & _ & _ & _ & _ & Ht & Hin & Hout & _ & _ & Hroute
    & Hl1t & Hl1 & _ & Hl1a & Hl1m & Hl2t & Hl2 & Hl2o & Hl2a & Hl2m).
  destruct (assess_accepted _ _ _ _ _ _ _ _ _ Hrisk Hacc) as (Hgate & _).
  apply stateless_reject_gates in Hgate. pose proof (go_min_profit _ _ _ _ Hgate) as Hmin.
  apply simulate_some in Hsim. assert (rd_min_surplus d = pol_min_net_profit_wei p) as Hd.
  { revert Hrisk. unfold assess, deny. repeat case_match; by intros [= <- _]. }
  split; [done|]. unfold build_execution_request. rewrite Hacc, Hroute. cbn [negb build_steps].
  rewrite Hl1m. cbn [mbind option_bind]. rewrite Hl2m. cbn [mbind option_bind].
  do 3 eexists. split; [reflexivity|].
  split; [constructor; cbn; [reflexivity|..]|split; [exact Hl1t|exact Hl2t]]; cbn;
    rewrite ?Hin, ?Ht, ?Hd, ?Hl1, ?Hl2, ?Hl2o, ?Hl2a, ?Hl1m; (done || lia).
Qed.

(** An opportunity of the scan is a loop of two pools of the book. *)
Lemma scanned_loop context token amount trigger values os o :
  uint 128 amount → Forall pool_wf values →
  detect_two_leg_loops_from_book context token amount trigger values = Ok os → o ∈ os →
  ∃ first second, v2_wf first ∧ v2_wf second ∧
    detect_two_leg_loop (loop_input context token amount trigger first second) = Ok (Some o) ∧
    first ∈ v2_pools values ∧ second ∈ v2_pools values ∧
    eq_ignore_ascii_case (v2_address first) (v2_address second) = false.
Proof.
  intros Ha Hwf Hos Ho.
  destruct (detect_loops_elem context token amount trigger Ha values Hwf) as (os' & Hos' & Hel).
  rewrite Hos in Hos'. simplify_eq. destruct (Hel o Ho) as (f & sd & Hf & Hs & Hne & Hd).
  apply v2_pools_wf in Hwf. rewrite Forall_forall in Hwf. exists f, sd.
  split_and!; auto. unfold loop_candidate in Hne. destruct (v2_contains_token _ _); [|done].
  destruct (v2_other_token _ _); [|done]. by destruct (eq_ignore_ascii_case _ _).
Qed.

(** C11. From the book to the request: when the risk engine accepts the simulation
    of a loop found in the book, the request can be built; it borrows and repays
    the scanned amount, its two steps chain from the settlement token back to
    it, and the minimum output of the last step covers the repayment, the
    required surplus and the simulated costs. *)
Theorem accepted_request_covers sha256_hex path_exists now p state context token amount trigger
    values os o c s d state' :
  uint 128 amount → Forall pool_wf values →
  detect_two_leg_loops_from_book context token amount trigger values = Ok os → o ∈ os →
  simulate_two_leg_opportunity o c = Some s →
  assess sha256_hex path_exists now p state o s = (d, state') → rd_accepted d = true →
  ∃ rq s1 s2, build_execution_request o d = Some rq ∧ request_covers token amount c rq s1 s2.
Proof.
  intros Ha Hwf Hos Ho Hsim Hrisk Hacc.
  destruct (scanned_loop _ _ _ _ _ _ _ Ha Hwf Hos Ho) as (f & sd & Hf & Hs & Hd & _).
  destruct (accepted_request sha256_hex path_exists now p state (loop_input context token amount trigger f sd)
    c o s d state') as (_ & rq & s1 & s2 & Hrq & Hcov & _); try done. by exists rq, s1, s2.
Qed.

(** A validated configuration always gives a cost model. *)
Lemma simulation_from_validated c :
  decision_validate c = Ok tt →
  ∃ sc, simulation_from_config c = Ok sc ∧ uint 128 (sc_gas_cost_wei sc) ∧
    uint 128 (sc_l1_data_fee_wei sc) ∧ sc_gas_estimate sc ≠ 0.
Proof.
  intros [_ (g & Hg & Hgu) (l & Hl & Hlu) Hest _ _]%decision_validate_valid.
  unfold simulation_from_config. rewrite Hg, Hl. cbn. by eexists.
Qed.
