(* ===== verification/Execution.v ===== *)
(** The execution layer (crate [execution], [lib.rs]): preparation of an
    attempt, the mode gates, the calldata of the router, the life cycle of an
    attempt and the run of a request against a transport.

    Addresses, 32-byte words and the ABI encoding come from the [alloy] crates:
    they are the methods of the class [Alloy].  An [anyhow] error is the list of
    its messages, outermost context first. *)

From S2P Require Import Prelude RustStr Types Config Decision.
#[local] Open Scope Z_scope.

Abbreviation error := (list string).
Abbreviation anyhow := (res (list string)).

(** [Context::context] and [anyhow!]. *)
Definition context {A : Type} (r : anyhow A) (c : string) : anyhow A := map_err (cons c) r.
Definition bail {A : Type} (m : string) : anyhow A := Err [m].

(** [str::parse::<Amount>] as an [anyhow] computation. *)
Definition parse_amount_anyhow (raw : string) : anyhow Z :=
  map_err (λ e, [show_parse_error e]) (parse_uint 128 raw).

Record PreparedExecution := {
  pe_attempt : ExecutionAttempt;
  pe_should_submit : bool }.

Record FinalizedExecution := {
  fe_attempt : ExecutionAttempt;
  fe_outcome : ExecutionOutcome }.

Record SubmissionPayload := {
  sp_router_address : string;
  sp_calldata : list Z;
  sp_value : Amount }.

Inductive ExecutionRunResult :=
| Blocked (attempt : ExecutionAttempt)
| SubmittedPending (attempt : ExecutionAttempt)
| Finalized (f : FinalizedExecution).

Inductive EthCallSimulation :=
| Passed (gas_used : option Z)
| Skipped (reason : string).

Definition is_passed (s : EthCallSimulation) : bool :=
  match s with Passed _ => true | Skipped _ => false end.

Inductive RouterVenueKind := UniswapV2 | UniswapV3Single | AerodromeV2.

Definition venue_code (k : RouterVenueKind) : Z :=
  match k with UniswapV2 => 1 | UniswapV3Single => 2 | AerodromeV2 => 3 end.

(** Addresses and words are byte lists. *)
Record RouterRouteStep := {
  rr_venueKind : Z;
  rr_target : list Z;
  rr_tokenIn : list Z;
  rr_tokenOut : list Z;
  rr_fee : Z;
  rr_minAmountOut : Z;
  rr_extraData : list Z }.

Record RouterExecutionPlan := {
  rp_settlementToken : list Z;
  rp_fundingAmount : Z;
  rp_minRepayAmount : Z;
  rp_minSurplus : Z;
  rp_deadline : Z;
  rp_steps : list RouterRouteStep;
  rp_riskHash : list Z }.

(** ** Preparation *)

Definition padded_gas_limit (gas_estimate multiplier_bps : Z) : anyhow Z :=
  numerator ← ok_or (checked_mul 128 gas_estimate multiplier_bps) ["gas limit padding overflow"%string];
  raised ← ok_or (checked_add 128 numerator 9999) ["gas limit padding overflow"%string];
  let padded := raised / 10000 in
  if padded <? 2 ^ 64 then Ok padded
  else Err ["padded gas limit does not fit into u64";
            "out of range integral type conversion attempted"]%string.

Definition parse_optional_amount (key : string) (value : option string) : anyhow (option Z) :=
  opt_traverse (λ raw, context (parse_amount_anyhow raw) ("failed to parse " +:+ key)) value.

Definition parse_required_amount (key : string) (value : option string) : anyhow Z :=
  raw ← ok_or value [key +:+ " is required for this execution mode"];
  context (parse_amount_anyhow raw) ("failed to parse " +:+ key).

Definition execution_mode_label (mode : ExecutionMode) : string :=
  match mode with Shadow => "shadow" | Canary => "canary" | Live => "live" end.

Definition submission_policy (config : ExecutionConfig)
    (requested_notional current_daily_requested_wei : Amount) : anyhow (bool * option string) :=
  match exec_mode config with
  | Shadow => Ok (false, Some "execution mode is configured for build-only operation"%string)
  | Canary =>
      max_trade ← parse_required_amount "EXECUTION_CANARY_MAX_TRADE_WEI"
                    (exec_canary_max_trade_wei config);
      max_daily ← parse_required_amount "EXECUTION_CANARY_MAX_DAILY_WEI"
                    (exec_canary_max_daily_wei config);
      if max_trade <? requested_notional
      then Ok (false, Some "request exceeds canary per-trade notional limit"%string) else
      projected_daily ← ok_or (checked_add 128 current_daily_requested_wei requested_notional)
                          ["canary daily requested notional overflow"%string];
      if max_daily <? projected_daily
      then Ok (false, Some "request exceeds canary daily notional limit"%string)
      else Ok (true, None)
  | Live => Ok (true, None)
  end.

Definition prepare_execution (config : ExecutionConfig) (request : ExecutionRequest)
    (simulation : SimulationResult) (current_daily_requested_wei : Amount) :
    anyhow PreparedExecution :=
  match rq_steps request with
  | [] => bail "execution request must contain at least one step"
  | _ =>
  let requested_notional := default (rq_min_repay request) (rq_flashloan_amount request) in
  if requested_notional =? 0
  then bail "execution request notional must be greater than zero" else
  gas_limit ← padded_gas_limit (sim_gas_estimate simulation)
                (exec_gas_limit_multiplier_bps config);
  max_fee_per_gas ← parse_optional_amount "EXECUTION_MAX_FEE_PER_GAS_WEI"
                      (exec_max_fee_per_gas_wei config);
  max_priority_fee_per_gas ← parse_optional_amount "EXECUTION_MAX_PRIORITY_FEE_PER_GAS_WEI"
                               (exec_max_priority_fee_per_gas_wei config);
  '(submission_allowed, blocked_reason) ←
    submission_policy config requested_notional current_daily_requested_wei;
  Ok {| pe_attempt := {|
          at_request_id := rq_opportunity_id request;
          at_tx_hash := None;
          at_status := ExecutionStatus.Built;
          at_execution_mode := execution_mode_label (exec_mode config);
          at_submission_allowed := submission_allowed;
          at_blocked_reason := blocked_reason;
          at_requested_notional := requested_notional;
          at_gas_limit := Some gas_limit;
          at_max_fee_per_gas := max_fee_per_gas;
          at_max_priority_fee_per_gas := max_priority_fee_per_gas |};
        pe_should_submit := submission_allowed |}
  end.

(** ** Life cycle *)

Definition mark_submitted (attempt : ExecutionAttempt) (tx_hash : string) :
    anyhow ExecutionAttempt :=
  if bool_decide (at_status attempt ≠ ExecutionStatus.Built)
  then bail "only built execution attempts can transition to submitted" else
  if negb (at_submission_allowed attempt)
  then bail "execution attempt is blocked and cannot transition to submitted" else
  if str_is_empty (trim tx_hash)
  then bail "submitted transaction hash must not be empty"
  else Ok (with_status attempt ExecutionStatus.Submitted (Some tx_hash)).

Definition total_fee_paid (receipt : ExecutionReceipt) : anyhow (option Amount) :=
  match rc_gas_used receipt, rc_effective_gas_price receipt with
  | Some gas_used, Some effective_gas_price =>
      execution_fee ← ok_or (checked_mul 128 gas_used effective_gas_price)
                        ["execution fee overflow"%string];
      total ← ok_or (checked_add 128 execution_fee (default 0 (rc_l1_fee_paid receipt)))
                ["total fee overflow"%string];
      Ok (Some total)
  | _, _ => Ok (rc_l1_fee_paid receipt)
  end.

Definition classify_success (realized_surplus : option Amount) (min_surplus : Amount) :
    ExecutionStatus.ExecutionStatus * option string :=
  match realized_surplus with
  | Some realized =>
      if min_surplus <=? realized then (ExecutionStatus.ProfitRealized, None)
      else (ExecutionStatus.Included,
            Some ("transaction included but realized surplus " +:+ show_uint realized +:+
                  " is below minimum required " +:+ show_uint min_surplus))
  | None => (ExecutionStatus.Included,
             Some "transaction included but realized surplus is not yet known"%string)
  end.

Definition finalize_from_receipt (attempt : ExecutionAttempt) (receipt : ExecutionReceipt)
    (realized_surplus : option Amount) (min_surplus : Amount) : anyhow FinalizedExecution :=
  if bool_decide (at_status attempt ≠ ExecutionStatus.Submitted) &&
     bool_decide (at_status attempt ≠ ExecutionStatus.Included)
  then bail "only submitted or included attempts can be finalized from a receipt" else
  if match at_tx_hash attempt with
     | Some tx_hash => bool_decide (tx_hash ≠ rc_tx_hash receipt)
     | None => false
     end
  then bail "receipt transaction hash does not match the attempt" else
  total_fee_paid ← total_fee_paid receipt;
  let '(final_status, reason) :=
    if rc_success receipt then classify_success realized_surplus min_surplus
    else (ExecutionStatus.Reverted,
          opt_or (rc_revert_reason receipt) (Some "transaction reverted on-chain"%string)) in
  Ok {| fe_attempt := with_status attempt final_status (Some (rc_tx_hash receipt));
        fe_outcome := {|
          oc_request_id := at_request_id attempt;
          oc_final_status := final_status;
          oc_tx_hash := rc_tx_hash receipt;
          oc_block_number := rc_block_number receipt;
          oc_total_fee_paid := total_fee_paid;
          oc_realized_surplus := realized_surplus;
          oc_reason := reason |} |}.

Definition mark_dropped (attempt : ExecutionAttempt) (reason : string) :
    anyhow FinalizedExecution :=
  if bool_decide (at_status attempt ≠ ExecutionStatus.Submitted)
  then bail "only submitted execution attempts can transition to dropped" else
  if str_is_empty (trim reason)
  then bail "dropped execution attempts must record a reason" else
  tx_hash ← ok_or (at_tx_hash attempt)
              ["submitted execution attempt is missing its transaction hash"%string];
  Ok {| fe_attempt := with_status attempt ExecutionStatus.Dropped (at_tx_hash attempt);
        fe_outcome := {|
          oc_request_id := at_request_id attempt;
          oc_final_status := ExecutionStatus.Dropped;
          oc_tx_hash := tx_hash;
          oc_block_number := None;
          oc_total_fee_paid := None;
          oc_realized_surplus := None;
          oc_reason := Some reason |} |}.

(** ** Calldata *)

(** What the layer takes from the [alloy] crates: parsing an address and a
    32-byte word, printing an address, and the ABI encoding of the two router
    calls. *)
Class Alloy := {
  address_from_str : string → anyhow (list Z);
  address_to_string : list Z → string;
  bytes32_from_str : string → anyhow (list Z);
  encode_executePlan : RouterExecutionPlan → list Z;
  encode_executePlanWithFlashLoan : RouterExecutionPlan → list Z }.

(** Parsing returns values of the fixed lengths, or an error. *)
Class AlloyLaws (A : Alloy) : Prop := {
  address_from_str_length s a : address_from_str s = Ok a → length a = 20%nat;
  bytes32_from_str_length s w : bytes32_from_str s = Ok w → length w = 32%nat;
  address_from_str_no_panic s : address_from_str s ≠ Panic;
  bytes32_from_str_no_panic s : bytes32_from_str s ≠ Panic }.

(** A concrete instance: fixed-length hexadecimal with an optional prefix, and
    the concatenation of the plan's integer fields for the encoding. *)
Definition hex_word (n : nat) (s : string) : anyhow (list Z) :=
  let digits := strip_0x_or_self s in
  if str_len digits =? 2 * Z.of_nat n then
    map_err (λ e, [show_parse_error e])
      ((λ v, reverse (to_le_bytes n v)) <$> parse_digits (8 * Z.of_nat n) 16 0 digits)
  else Err ["invalid string length"%string].

Definition hex_digit (d : Z) : Z := if d <? 10 then 48 + d else 87 + d.
Definition show_hex (bytes : list Z) : string :=
  "0x" +:+ str_of (b ← bytes; [hex_digit (b / 16); hex_digit (b mod 16)]).

#[global] Instance alloy_hex : Alloy := {|
  address_from_str := hex_word 20;
  address_to_string := show_hex;
  bytes32_from_str := hex_word 32;
  encode_executePlan p := [rp_fundingAmount p; rp_minRepayAmount p; rp_minSurplus p; rp_deadline p];
  encode_executePlanWithFlashLoan p :=
    [rp_fundingAmount p; rp_minRepayAmount p; rp_minSurplus p; rp_deadline p] |}.

Lemma hex_word_length n s w : hex_word n s = Ok w → length w = n.
Proof.
  unfold hex_word. cbv zeta. case_match; [|done]. rewrite map_err_ok.
  destruct (parse_digits _ _ _ _); [|done..]. intros [= <-].
  by rewrite length_reverse, to_le_bytes_length.
Qed.

Lemma hex_word_no_panic n s : hex_word n s ≠ Panic.
Proof.
  unfold hex_word. cbv zeta. case_match; [|done]. intros Hpanic.
  assert (parse_digits (8 * Z.of_nat n) 16 0 (strip_0x_or_self s) ≠ Panic) as Hp
    by apply parse_digits_no_panic.
  by destruct (parse_digits _ _ _ _).
Qed.

#[global] Instance alloy_hex_laws : AlloyLaws alloy_hex.
Proof.
  constructor; intros s; try apply hex_word_no_panic; intros w; apply hex_word_length.
Qed.

Section payload.
Context {A : Alloy}.

Definition parse_address (value ctx : string) : anyhow (list Z) :=
  context (address_from_str value)
    ("failed to parse " +:+ ctx +:+ " `" +:+ value +:+ "` as an address").

Definition parse_risk_hash (value : string) : anyhow (list Z) :=
  let normalized := match strip_prefix "0x" value with
                    | Some _ => value
                    | None => "0x" +:+ value
                    end in
  context (bytes32_from_str normalized)
    ("failed to parse risk hash `" +:+ value +:+ "` as bytes32").

Definition build_route_step (index : Z) (step : ExecutionStep) : anyhow RouterRouteStep :=
  let name := "execution step " +:+ show_uint index in
  calldata_hint ← ok_or (st_calldata_hint step) [name +:+ " is missing calldata_hint"];
  target ← parse_address (st_target step) "execution step target";
  token_in ← parse_address (st_token_in step) "execution step token_in";
  token_out ← parse_address (st_token_out step) "execution step token_out";
  let min_amount_out := st_min_amount_out step in
  if bool_decide (calldata_hint ∈ ["uniswap_v3_exact_input_single"; "v3_exact_input_single"]%string)
  then
    fee_bps ← ok_or (st_pool_fee step) [name +:+ " v3 swap is missing pool_fee"];
    fee_u24 ← (if fee_bps <=? 1000000 then Ok fee_bps
               else bail (name +:+ " has an invalid v3 pool fee `" +:+ show_uint fee_bps +:+ "`"));
    Ok {| rr_venueKind := venue_code UniswapV3Single; rr_target := target;
          rr_tokenIn := token_in; rr_tokenOut := token_out; rr_fee := fee_u24;
          rr_minAmountOut := min_amount_out; rr_extraData := [] |}
  else if bool_decide (calldata_hint ∈ ["v2_exact_input"; "uniswap_v2_exact_input"]%string)
  then
    Ok {| rr_venueKind := venue_code UniswapV2; rr_target := target;
          rr_tokenIn := token_in; rr_tokenOut := token_out; rr_fee := 0;
          rr_minAmountOut := min_amount_out; rr_extraData := [] |}
  else if bool_decide (calldata_hint ∈ ["aerodrome_v2_volatile"; "aerodrome_v2_stable"]%string)
  then
    let stable := bool_decide (calldata_hint = "aerodrome_v2_stable") in
    factory_str ← ok_or (st_aux_address step)
      [name +:+ " aerodrome swap is missing aux_address (factory)"];
    factory ← parse_address factory_str "execution step aerodrome factory";
    Ok {| rr_venueKind := venue_code AerodromeV2; rr_target := target;
          rr_tokenIn := token_in; rr_tokenOut := token_out; rr_fee := 0;
          rr_minAmountOut := min_amount_out;
          rr_extraData := replicate 31 0 ++ [if (stable : bool) then 1 else 0] ++
                          replicate 12 0 ++ factory |}
  else bail (name +:+ " uses unsupported calldata hint `" +:+ calldata_hint +:+ "`").

(** The steps with their index. *)
Fixpoint build_route_steps (index : Z) (steps : list ExecutionStep) :
    anyhow (list RouterRouteStep) :=
  match steps with
  | [] => Ok []
  | step :: steps =>
      r ← build_route_step index step;
      rs ← build_route_steps (index + 1) steps;
      Ok (r :: rs)
  end.

Definition build_plan (config : ExecutionConfig) (request : ExecutionRequest) (now_secs : Z) :
    anyhow (list Z * RouterExecutionPlan) :=
  router_address ← ok_or (exec_router_address config)
    ["EXECUTION_ROUTER_ADDRESS is required to build calldata"%string];
  router_address ← parse_address router_address "EXECUTION_ROUTER_ADDRESS";
  asset ← ok_or (rq_flashloan_asset request)
    ["execution request is missing flashloan_asset"%string];
  settlement_token ← parse_address asset "execution request flashloan_asset";
  risk_hash ← parse_risk_hash (rq_risk_hash request);
  funding_amount ← ok_or (rq_flashloan_amount request)
    ["execution request is missing flashloan_amount"%string];
  steps ← build_route_steps 0 (rq_steps request);
  deadline ← ok_or (checked_add 64 now_secs (exec_plan_deadline_secs config))
    ["plan deadline overflow"%string];
  Ok (router_address,
      {| rp_settlementToken := settlement_token;
         rp_fundingAmount := funding_amount;
         rp_minRepayAmount := rq_min_repay request;
         rp_minSurplus := rq_min_surplus request;
         rp_deadline := deadline;
         rp_steps := steps;
         rp_riskHash := risk_hash |}).

Definition build_submission_payload_at (config : ExecutionConfig) (request : ExecutionRequest)
    (now_secs : Z) : anyhow SubmissionPayload :=
  '(router_address, plan) ← build_plan config request now_secs;
  let calldata := if exec_use_flashloan config then encode_executePlanWithFlashLoan plan
                  else encode_executePlan plan in
  Ok {| sp_router_address := address_to_string router_address;
        sp_calldata := calldata;
        sp_value := 0 |}.

(** [clock] is the result of [SystemTime::now().duration_since(UNIX_EPOCH)] in
    seconds. *)
Definition build_submission_payload (clock : anyhow Z) (config : ExecutionConfig)
    (request : ExecutionRequest) : anyhow SubmissionPayload :=
  now ← context clock "system clock is before UNIX epoch";
  build_submission_payload_at config request now.

End payload.

(** ** Transports *)

(** The trait [ExecutionTransport] over a state [T], the world the transport
    acts on.  [submit] and [simulate] run under a timeout: [None] is the elapsed
    timeout. *)
Class ExecutionTransport (T : Type) := {
  tr_submit : T → SubmissionPayload → ExecutionAttempt → option (anyhow string) * T;
  tr_await_receipt : T → ExecutionRequest → ExecutionAttempt → Z →
    anyhow (option ExecutionReceipt) * T;
  tr_simulate : T → SubmissionPayload → ExecutionAttempt →
    option (anyhow EthCallSimulation) * T }.

(** The body [simulate] has in the trait. *)
Definition default_simulate : anyhow EthCallSimulation :=
  Ok (Skipped "transport does not implement live eth_call simulation").

Record UnavailableTransport := { ut_reason : string }.

#[global] Instance unavailable_transport : ExecutionTransport UnavailableTransport := {|
  tr_submit t _ _ := (Some (bail (ut_reason t)), t);
  tr_await_receipt t _ _ _ := (bail (ut_reason t), t);
  tr_simulate t _ _ := (Some default_simulate, t) |}.

Definition execute_with_transport {A : Alloy} {T : Type} {X : ExecutionTransport T} (t : T)
    (clock : anyhow Z) (config : ExecutionConfig) (request : ExecutionRequest)
    (simulation : SimulationResult) (current_daily_requested_wei : Amount) :
    anyhow ExecutionRunResult * T :=
  match prepare_execution config request simulation current_daily_requested_wei with
  | Err e => (Err e, t)
  | Panic => (Panic, t)
  | Ok prepared =>
  if negb (pe_should_submit prepared) then (Ok (Blocked (pe_attempt prepared)), t) else
  match build_submission_payload clock config request with
  | Err e => (Err e, t)
  | Panic => (Panic, t)
  | Ok submission_payload =>
  let '(submission, t) := tr_submit t submission_payload (pe_attempt prepared) in
  match submission with
  | None => (Err ["timed out while submitting execution attempt";
                  "deadline has elapsed"]%string, t)
  | Some (Err e) => (Err e, t)
  | Some Panic => (Panic, t)
  | Some (Ok tx_hash) =>
  match mark_submitted (pe_attempt prepared) tx_hash with
  | Err e => (Err e, t)
  | Panic => (Panic, t)
  | Ok submitted =>
  let '(maybe_receipt, t) :=
    tr_await_receipt t request submitted (exec_receipt_timeout_secs config) in
  match maybe_receipt with
  | Panic => (Panic, t)
  | Err _ => (Ok (SubmittedPending submitted), t)
  | Ok None =>
      (Finalized <$> mark_dropped submitted "timed out while waiting for execution receipt", t)
  | Ok (Some receipt) =>
      (Finalized <$> finalize_from_receipt submitted receipt None (rq_min_surplus request), t)
  end end end end end.

(** ** Properties of the preparation *)

Lemma padded_gas_limit_cases g m :
  uint 64 g → uint 32 m →
  match padded_gas_limit g m with
  | Ok l => l = (g * m + 9999) / 10000 ∧ l < 2 ^ 64
  | Err _ => (2 ^ 64 - 1) * 10000 < g * m
  | Panic => False
  end.
Proof.
  unfold uint, padded_gas_limit, checked_mul, checked_add. intros Hg Hm.
  assert (g * m < 2 ^ 96) by nia.
  replace (g * m <? 2 ^ 128) with true by lia. cbn [ok_or mbind res_bind].
  replace (g * m + 9999 <? 2 ^ 128) with true by lia. cbn [ok_or mbind res_bind].
  pose proof (Z.div_mod (g * m + 9999) 10000). pose proof (Z.mod_pos_bound (g * m + 9999) 10000).
  destruct (_ <? 2 ^ 64) eqn:Hlt; lia.
Qed.

(** The gas limit is the estimate scaled by the multiplier and rounded up:
    never less than the estimate for a validated multiplier, and refused only
    when it does not fit 64 bits. *)
Theorem padded_gas_limit_exact g m :
  uint 64 g → uint 32 m →
  match padded_gas_limit g m with
  | Ok l => g * m ≤ l * 10000 < g * m + 10000 ∧ l < 2 ^ 64 ∧ (10000 ≤ m → g ≤ l)
  | Err _ => (2 ^ 64 - 1) * 10000 < g * m
  | Panic => False
  end.
Proof.
  intros Hg Hm. pose proof (padded_gas_limit_cases g m Hg Hm) as H.
  destruct (padded_gas_limit g m) as [l|e|]; [|done..]. destruct H as [-> Hl].
  pose proof (Z.div_mod (g * m + 9999) 10000). pose proof (Z.mod_pos_bound (g * m + 9999) 10000).
  unfold uint in *. split_and!; [lia..|]. intros. nia.
Qed.

Lemma parse_required_amount_ok key o n :
  parse_required_amount key o = Ok n ↔ ∃ raw, o = Some raw ∧ parse_uint 128 raw = Ok n.
Proof.
  unfold parse_required_amount, context, parse_amount_anyhow. rewrite bind_ok.
  setoid_rewrite ok_or_ok. by setoid_rewrite map_err_ok; setoid_rewrite map_err_ok.
Qed.

Lemma submission_policy_ok config n daily b r :
  submission_policy config n daily = Ok (b, r) →
  (b = true ↔ r = None) ∧
  match exec_mode config with
  | Shadow => b = false
  | Canary => b = true → ∃ raw_trade raw_daily max_trade max_daily,
      exec_canary_max_trade_wei config = Some raw_trade ∧
      parse_uint 128 raw_trade = Ok max_trade ∧
      exec_canary_max_daily_wei config = Some raw_daily ∧
      parse_uint 128 raw_daily = Ok max_daily ∧
      n ≤ max_trade ∧ daily + n ≤ max_daily
  | Live => b = true
  end.
Proof.
  unfold submission_policy. destruct (exec_mode config); [naive_solver| |naive_solver].
  intros H. apply bind_ok in H as (mt & Ht & H). apply bind_ok in H as (md & Hd & H).
  apply parse_required_amount_ok in Ht as (rt & Ht & Hpt).
  apply parse_required_amount_ok in Hd as (rd & Hd & Hpd).
  destruct (mt <? n) eqn:Hlt; [naive_solver|]. inv_res. inv_checked.
  destruct (md <? daily + n) eqn:Hlt2; [naive_solver|]. simplify_eq.
  split; [done|]. intros _. exists rt, rd, mt, md. split_and!; (done || lia).
Qed.

Lemma prepare_inv config request simulation daily p :
  prepare_execution config request simulation daily = Ok p →
  ∃ gas, padded_gas_limit (sim_gas_estimate simulation)
           (exec_gas_limit_multiplier_bps config) = Ok gas ∧
    rq_steps request ≠ [] ∧
    at_request_id (pe_attempt p) = rq_opportunity_id request ∧
    at_status (pe_attempt p) = ExecutionStatus.Built ∧ at_tx_hash (pe_attempt p) = None ∧
    at_gas_limit (pe_attempt p) = Some gas ∧
    at_requested_notional (pe_attempt p) =
      default (rq_min_repay request) (rq_flashloan_amount request) ∧
    at_requested_notional (pe_attempt p) ≠ 0 ∧
    pe_should_submit p = at_submission_allowed (pe_attempt p) ∧
    submission_policy config (at_requested_notional (pe_attempt p)) daily =
      Ok (at_submission_allowed (pe_attempt p), at_blocked_reason (pe_attempt p)).
Proof.
  unfold prepare_execution. destruct (rq_steps request) eqn:Hs; [done|]. intros H.
  case_if H as Hz. apply bind_ok in H as (gas & Hgas & H).
  do 2 (apply bind_ok in H as (? & ? & H)). apply bind_ok in H as ([b r] & Hp & H).
  injection H as <-. exists gas. cbn. apply Z.eqb_neq in Hz. split_and!; done.
Qed.

(** A prepared attempt is built and not yet sent. It may be submitted exactly
    when no reason blocks it: never in shadow mode, always in live mode, and in
    canary mode only when the trade is within the per-trade limit and the day's
    requests, this one included, are within the daily limit. *)
Theorem prepare_execution_gates config request simulation daily p :
  prepare_execution config request simulation daily = Ok p →
  let a := pe_attempt p in
  at_status a = ExecutionStatus.Built ∧ at_tx_hash a = None ∧
  pe_should_submit p = at_submission_allowed a ∧
  (at_submission_allowed a = true ↔ at_blocked_reason a = None) ∧
  at_requested_notional a = default (rq_min_repay request) (rq_flashloan_amount request) ∧
  at_requested_notional a ≠ 0 ∧
  match exec_mode config with
  | Shadow => at_submission_allowed a = false
  | Live => at_submission_allowed a = true
  | Canary => at_submission_allowed a = true → ∃ raw_trade raw_daily max_trade max_daily,
      exec_canary_max_trade_wei config = Some raw_trade ∧
      parse_uint 128 raw_trade = Ok max_trade ∧
      exec_canary_max_daily_wei config = Some raw_daily ∧
      parse_uint 128 raw_daily = Ok max_daily ∧
      at_requested_notional a ≤ max_trade ∧ daily + at_requested_notional a ≤ max_daily
  end.
Proof.
  intros (gas & _ & _ & _ & Hs & Ht & _ & Hn & Hz & Hsub & Hp)%prepare_inv.
  apply submission_policy_ok in Hp as [Hb Hm]. cbv zeta. split_and!; done.
Qed.

(** A validated configuration never fails in preparation: for a non-empty
    request the only refusals are a zero notional, a gas limit beyond 64 bits and
    an overflow of the day's total. *)
Theorem prepare_execution_total config request simulation daily :
  execution_validate config = Ok tt → rq_steps request ≠ [] →
  uint 64 (sim_gas_estimate simulation) → uint 32 (exec_gas_limit_multiplier_bps config) →
  let notional := default (rq_min_repay request) (rq_flashloan_amount request) in
  match prepare_execution config request simulation daily with
  | Ok _ => True
  | Err _ => notional = 0 ∨
      (2 ^ 64 - 1) * 10000 < sim_gas_estimate simulation * exec_gas_limit_multiplier_bps config ∨
      2 ^ 128 ≤ daily + notional
  | Panic => False
  end.
Proof.
  intros Hv Hsteps Hg Hm. apply execution_validate_valid in Hv as [_ _ _ Hfee Hprio Hcan].
  cbv zeta. unfold prepare_execution. destruct (rq_steps request); [done|].
  set (n := default _ _). destruct (n =? 0) eqn:Hz; [left; lia|].
  assert (∀ k o, (∀ raw, o = Some raw → parses_u128 raw) → ∃ r, parse_optional_amount k o = Ok r)
    as Hopt.
  { intros k [raw|] Ho; [|by exists None]. destruct (Ho _ eq_refl) as (v & Hv & _).
    exists (Some v). unfold parse_optional_amount, opt_traverse, context, parse_amount_anyhow.
    by rewrite Hv. }
  pose proof (padded_gas_limit_cases _ _ Hg Hm) as Hpad.
  destruct (padded_gas_limit _ _) as [gas|err|]; cbn [mbind res_bind]; [|auto|done].
  destruct (Hopt "EXECUTION_MAX_FEE_PER_GAS_WEI" _ Hfee) as (f & ->).
  destruct (Hopt "EXECUTION_MAX_PRIORITY_FEE_PER_GAS_WEI" _ Hprio) as (pf & ->).
  cbn [mbind res_bind]. unfold submission_policy.
  destruct (exec_mode config) eqn:Hmode; [done| |done].
  destruct (Hcan eq_refl) as (t & d & -> & (tn & Htn & _) & -> & (dn & Hdn & _)).
  unfold parse_required_amount, context, parse_amount_anyhow. cbn [ok_or mbind res_bind].
  rewrite Htn, Hdn. cbn [map_err mbind res_bind]. destruct (tn <? n); [done|].
  unfold checked_add. destruct (daily + n <? 2 ^ 128) eqn:Ho; cbn [ok_or mbind res_bind]; [|right; right; lia].
  by destruct (dn <? daily + n).
Qed.

(** ** The life cycle as a transition system *)

(** A transition of an attempt is a successful call of one of the three
    operations. *)
Inductive lifecycle : ExecutionAttempt → ExecutionAttempt → Prop :=
| lifecycle_submit a tx_hash a' : mark_submitted a tx_hash = Ok a' → lifecycle a a'
| lifecycle_finalize a receipt surplus min_surplus f :
    finalize_from_receipt a receipt surplus min_surplus = Ok f → lifecycle a (fe_attempt f)
| lifecycle_drop a reason f : mark_dropped a reason = Ok f → lifecycle a (fe_attempt f).

(** The edges of the diagram of statuses. *)
Definition status_edge (s s' : ExecutionStatus.ExecutionStatus) : bool :=
  match s, s' with
  | ExecutionStatus.Built, ExecutionStatus.Submitted => true
  | ExecutionStatus.Submitted, ExecutionStatus.Dropped => true
  | (ExecutionStatus.Submitted | ExecutionStatus.Included),
    (ExecutionStatus.Included | ExecutionStatus.Reverted | ExecutionStatus.ProfitRealized) => true
  | _, _ => false
  end.

Lemma mark_submitted_inv a h a' :
  mark_submitted a h = Ok a' →
  at_status a = ExecutionStatus.Built ∧ at_submission_allowed a = true ∧ trim h ≠ "" ∧
  a' = with_status a ExecutionStatus.Submitted (Some h).
Proof.
  unfold mark_submitted. intros H. case_if H as Hs. case_if H as Ha. case_if H as Hh.
  apply bool_decide_eq_false, dec_stable in Hs. apply negb_false_iff in Ha.
  simplify_eq. split_and!; try done. by destruct (trim h).
Qed.

Lemma finalize_inv a r rs ms f :
  finalize_from_receipt a r rs ms = Ok f →
  (at_status a = ExecutionStatus.Submitted ∨ at_status a = ExecutionStatus.Included) ∧
  (∀ h, at_tx_hash a = Some h → h = rc_tx_hash r) ∧
  ∃ status reason fee, total_fee_paid r = Ok fee ∧
    (status, reason) = (if rc_success r then classify_success rs ms
      else (ExecutionStatus.Reverted,
            opt_or (rc_revert_reason r) (Some "transaction reverted on-chain"%string))) ∧
    f = {| fe_attempt := with_status a status (Some (rc_tx_hash r));
           fe_outcome := {| oc_request_id := at_request_id a; oc_final_status := status;
             oc_tx_hash := rc_tx_hash r; oc_block_number := rc_block_number r;
             oc_total_fee_paid := fee; oc_realized_surplus := rs; oc_reason := reason |} |}.
Proof.
  unfold finalize_from_receipt. intros H. case_if H as Hs. case_if H as Hh.
  apply bind_ok in H as (fee & Hfee & H).
  destruct (if rc_success r then _ else _) as [status reason] eqn:Hc. injection H as <-.
  split; [|split].
  - apply andb_false_iff in Hs as [Hs|Hs]; apply bool_decide_eq_false, dec_stable in Hs; auto.
  - intros h Hh'. rewrite Hh' in Hh. by apply bool_decide_eq_false, dec_stable in Hh.
  - by exists status, reason, fee.
Qed.

Lemma mark_dropped_inv a reason f :
  mark_dropped a reason = Ok f →
  at_status a = ExecutionStatus.Submitted ∧ ∃ h, at_tx_hash a = Some h ∧
    fe_attempt f = with_status a ExecutionStatus.Dropped (Some h) ∧
    oc_final_status (fe_outcome f) = ExecutionStatus.Dropped ∧ oc_tx_hash (fe_outcome f) = h ∧
    oc_request_id (fe_outcome f) = at_request_id a.
Proof.
  unfold mark_dropped. intros H. case_if H as Hs. case_if H as Hr.
  apply bind_ok in H as (h & Hh & H). apply ok_or_ok in Hh. injection H as <-. cbn. rewrite Hh.
  apply bool_decide_eq_false, dec_stable in Hs. split; [done|]. by exists h.
Qed.

(** What an operation keeps of an attempt. *)
Definition same_request (a a' : ExecutionAttempt) : Prop :=
  at_request_id a' = at_request_id a ∧ at_requested_notional a' = at_requested_notional a ∧
  at_gas_limit a' = at_gas_limit a ∧ at_submission_allowed a' = at_submission_allowed a ∧
  at_execution_mode a' = at_execution_mode a.

Lemma with_status_same a s h : same_request a (with_status a s h).
Proof. done. Qed.

Lemma classify_success_status rs ms :
  (classify_success rs ms).1 = ExecutionStatus.Included ∨
  (classify_success rs ms).1 = ExecutionStatus.ProfitRealized.
Proof. unfold classify_success. repeat case_match; auto. Qed.

Lemma lifecycle_step a a' :
  lifecycle a a' →
  status_edge (at_status a) (at_status a') = true ∧ same_request a a' ∧
  match at_status a with
  | ExecutionStatus.Built =>
      at_submission_allowed a = true ∧ ∃ h, at_tx_hash a' = Some h ∧ trim h ≠ ""
  | _ => ∀ h, at_tx_hash a = Some h → at_tx_hash a' = Some h
  end.
Proof.
  intros [a1 h a1' H|a1 r rs ms f H|a1 reason f H].
  - apply mark_submitted_inv in H as (Hs & Ha & Hh & ->). rewrite Hs.
    split; [done|]. split; [done|]. split; [done|]. by exists h.
  - apply finalize_inv in H as (Hs & Hh & status & reason & fee & _ & Hc & ->).
    cbn. split; [|split; [done|]].
    + assert (status = ExecutionStatus.Included ∨ status = ExecutionStatus.ProfitRealized ∨
              status = ExecutionStatus.Reverted) as Hst.
      { destruct (rc_success r); [|naive_solver]. pose proof (classify_success_status rs ms).
        rewrite <- Hc in *. naive_solver. }
      destruct Hs as [-> | ->], Hst as [->|[->| ->]]; done.
    + destruct Hs as [-> | ->]; intros h Hh'; by rewrite (Hh h).
  - apply mark_dropped_inv in H as (Hs & h & Hh & -> & _). rewrite Hs. cbn.
    split; [done|]. split; [done|]. congruence.
Qed.

Lemma status_edge_not_built s s' : status_edge s s' = true → s' ≠ ExecutionStatus.Built.
Proof. by destruct s, s'. Qed.

Lemma lifecycle_keeps_hash a b h :
  rtc lifecycle a b → at_status a ≠ ExecutionStatus.Built → at_tx_hash a = Some h →
  at_tx_hash b = Some h.
Proof.
  induction 1 as [|x y z Hxy _ IH]; [done|]. intros Hx Hh.
  destruct (lifecycle_step _ _ Hxy) as (He & _ & Hm).
  apply IH; [by eapply status_edge_not_built|]. by destruct (at_status x); [|apply Hm..].
Qed.

Lemma lifecycle_reach a0 a :
  at_status a0 = ExecutionStatus.Built → rtc lifecycle a0 a →
  same_request a0 a ∧
  (a = a0 ∨ at_status a ≠ ExecutionStatus.Built ∧ at_submission_allowed a = true ∧
     ∃ h, at_tx_hash a = Some h ∧ trim h ≠ "").
Proof.
  intros Hb. revert a. apply rtc_ind_r; [by split; [|left]|].
  intros x y Hx Hxy [Hsame IH].
  destruct (lifecycle_step _ _ Hxy) as (He & Hsame' & Hm). unfold same_request in *.
  split; [naive_solver congruence|right]. split; [by eapply status_edge_not_built|].
  destruct IH as [->|(Hnb & Ha & h & Hh & Ht)].
  - rewrite Hb in Hm. destruct Hm as (Ha & h & Hh & Ht). split; [naive_solver congruence|eauto].
  - split; [naive_solver congruence|]. exists h. split; [|done].
    destruct (at_status x); [done|by apply Hm..].
Qed.

(** C18. The life cycle of an attempt, over every sequence of operations: its
    request, notional and gas limit never change; it leaves the built status only
    if the mode gates allowed it, and never in shadow mode; from then on it has
    one non-blank transaction hash that never changes; and its status moves only
    along the edges of the diagram. *)
Theorem attempt_lifecycle config request simulation daily p a :
  prepare_execution config request simulation daily = Ok p →
  rtc lifecycle (pe_attempt p) a →
  same_request (pe_attempt p) a ∧
  (a = pe_attempt p ∨
   exec_mode config ≠ Shadow ∧ at_submission_allowed a = true ∧
   ∃ h, trim h ≠ "" ∧ ∀ b, rtc lifecycle a b → at_tx_hash b = Some h) ∧
  (∀ b, lifecycle a b → status_edge (at_status a) (at_status b) = true).
Proof.
  intros (gas & _ & _ & _ & Hs & _ & _ & _ & _ & _ & Hp)%prepare_inv Hr.
  destruct (lifecycle_reach _ _ Hs Hr) as [Hsame Hcase]. split; [done|]. split.
  - destruct Hcase as [->|(Hnb & Ha & h & Hh & Ht)]; [by left|right].
    split; [|split; [done|]].
    + intros Hmode. apply submission_policy_ok in Hp as [_ Hp]. rewrite Hmode in Hp.
      destruct Hsame as (_ & _ & _ & Hsame & _). congruence.
    + exists h. split; [done|]. intros b Hb. by eapply lifecycle_keeps_hash.
  - intros b Hb. by apply lifecycle_step in Hb as [? _].
Qed.

(** Reverted, dropped and realised attempts are final: no operation accepts
    them. *)
Theorem terminal_statuses a b :
  at_status a ∈ [ExecutionStatus.Reverted; ExecutionStatus.Dropped;
                 ExecutionStatus.ProfitRealized; ExecutionStatus.Replaced] →
  ¬ lifecycle a b.
Proof.
  intros Ha Hb. apply lifecycle_step in Hb as [He _]. revert Ha He.
  rewrite !elem_of_cons, elem_of_nil. intros [->|[->|[->|[->|[]]]]]; by destruct (at_status b).
Qed.

(** ** Running a request *)

Section run.
Context {A : Alloy} {T : Type} {X : ExecutionTransport T}.

(** A run against any transport. An attempt that is not allowed, in
    particular any attempt in shadow mode, is returned blocked without a call of
    the transport. A finalised attempt was submitted under the hash the transport
    returned and is reported under that hash, as included, reverted or dropped. *)
Theorem execute_with_transport_sound (t : T) clock config request simulation daily r t' :
  execute_with_transport t clock config request simulation daily = (r, t') →
  (exec_mode config = Shadow →
     t' = t ∧ ∀ res, r = Ok res → ∃ a, res = Blocked a ∧ at_submission_allowed a = false) ∧
  match r with
  | Ok (Blocked a) => t' = t ∧ at_submission_allowed a = false ∧ is_Some (at_blocked_reason a)
  | Ok (SubmittedPending a) => at_status a = ExecutionStatus.Submitted
  | Ok (Finalized f) => ∃ payload prepared tx_hash t1,
      prepare_execution config request simulation daily = Ok prepared ∧
      build_submission_payload clock config request = Ok payload ∧
      tr_submit t payload (pe_attempt prepared) = (Some (Ok tx_hash), t1) ∧
      trim tx_hash ≠ "" ∧ oc_tx_hash (fe_outcome f) = tx_hash ∧
      at_tx_hash (fe_attempt f) = Some tx_hash ∧
      at_status (fe_attempt f) = oc_final_status (fe_outcome f) ∧
      oc_request_id (fe_outcome f) = rq_opportunity_id request ∧
      oc_final_status (fe_outcome f) ∈
        [ExecutionStatus.Included; ExecutionStatus.Reverted; ExecutionStatus.Dropped]
  | _ => True
  end.
Proof.
  unfold execute_with_transport.
  destruct (prepare_execution _ _ _ _) as [p|e|] eqn:Hprep; [|naive_solver..].
  pose proof (prepare_inv _ _ _ _ _ Hprep)
    as (gas & _ & _ & Hid & Hst & Htx & _ & _ & _ & Hsub & Hpol).
  apply submission_policy_ok in Hpol as [Hreason Hmode].
  destruct (pe_should_submit p) eqn:Hsubmit; cbn [negb].
  2:{ intros [= <- <-]. split; [intros; split; [done|intros ? [= <-]; by eexists]|].
      split_and!; [done|done|]. destruct (at_blocked_reason _); [by eexists|].
      rewrite <- Hsub in Hreason. by destruct Hreason as [_ Hr]; discriminate (Hr eq_refl). }
  assert (exec_mode config ≠ Shadow) as Hns
    by (intros Hm; rewrite Hm in Hmode; congruence).
  intros H. split; [done|]. revert H.
  destruct (build_submission_payload _ _ _) as [payload|e|] eqn:Hpay; [|naive_solver..].
  destruct (tr_submit t payload _) as [[[tx_hash|e|]|] t1] eqn:Hsend; [|naive_solver..].
  destruct (mark_submitted _ _) as [a|e|] eqn:Hmark; [|naive_solver..].
  apply mark_submitted_inv in Hmark as (_ & _ & Htrim & ->).
  destruct (tr_await_receipt _ _ _ _) as [[[receipt|]|e|] t2]; [| |naive_solver..].
  - destruct (finalize_from_receipt _ _ _ _) as [f|e|] eqn:Hf; [|naive_solver..].
    intros [= <- <-].
    apply finalize_inv in Hf as (_ & Hh & status & reason & fee & _ & Hc & ->).
    exists payload, p, tx_hash, t1. cbn. rewrite <- (Hh tx_hash) by done.
    split_and!; try done. destruct (rc_success receipt); simplify_eq/=; set_solver.
  - destruct (mark_dropped _ _) as [f|e|] eqn:Hf; [|naive_solver..]. intros [= <- <-].
    apply mark_dropped_inv in Hf as (_ & h & Hh & Hfa & Hfs & Hft & Hrid).
    cbn in Hh. injection Hh as <-. exists payload, p, tx_hash, t1. rewrite Hfa, Hfs.
    split_and!; try done; [by rewrite Hrid|set_solver].
Qed.
End run.

(** ** The plan sent to the router *)

(** How a step of the plan encodes a step of the request. *)
Record encodes_step {A : Alloy} (step : ExecutionStep) (r : RouterRouteStep) : Prop := {
  es_target : address_from_str (st_target step) = Ok (rr_target r);
  es_token_in : address_from_str (st_token_in step) = Ok (rr_tokenIn r);
  es_token_out : address_from_str (st_token_out step) = Ok (rr_tokenOut r);
  es_min_out : rr_minAmountOut r = st_min_amount_out step;
  es_venue : rr_venueKind r = venue_code UniswapV2 ∧ rr_fee r = 0 ∧ rr_extraData r = [] ∨
    rr_venueKind r = venue_code UniswapV3Single ∧ st_pool_fee step = Some (rr_fee r) ∧
      rr_fee r ≤ 1000000 ∧ rr_extraData r = [] ∨
    rr_venueKind r = venue_code AerodromeV2 ∧ rr_fee r = 0 ∧
      length (rr_extraData r) = 64%nat }.

Section plan.
Context {A : Alloy} {HA : AlloyLaws A}.

Lemma parse_address_ok v c a : parse_address v c = Ok a ↔ address_from_str v = Ok a.
Proof. apply map_err_ok. Qed.

Lemma build_route_step_encodes i step r : build_route_step i step = Ok r → encodes_step step r.
Proof.
  unfold build_route_step. cbv zeta. intros H.
  apply bind_ok in H as (hint & _ & H). apply bind_ok in H as (t & Ht & H).
  apply bind_ok in H as (ti & Hti & H). apply bind_ok in H as (to & Hto & H).
  apply parse_address_ok in Ht, Hti, Hto.
  case_bool_decide; [|case_bool_decide; [|case_bool_decide]].
  - apply bind_ok in H as (fee & Hfee & H). apply ok_or_ok in Hfee.
    apply bind_ok in H as (f & Hf & H). case_if Hf as Hle. simplify_eq.
    constructor; cbn; try done. right; left. split_and!; (done || lia).
  - simplify_eq. constructor; cbn; try done. by left.
  - apply bind_ok in H as (fs & _ & H). apply bind_ok in H as (f & Hf & H). simplify_eq.
    constructor; cbn; try done. right; right. split_and!; [done..|].
    apply parse_address_ok, address_from_str_length in Hf.
    by rewrite Hf.
  - done.
Qed.

(** The plan encodes the request step by step and in order: same targets,
    tokens and minimum outputs, a fee that fits the 24-bit field, 64 bytes of
    extra data for an Aerodrome step; funding, repayment and surplus are the
    request's, and the deadline is the clock plus the configured delay, without
    overflow. *)
Theorem plan_encodes_request config request now router plan :
  build_plan config request now = Ok (router, plan) →
  Forall2 encodes_step (rq_steps request) (rp_steps plan) ∧
  rq_flashloan_amount request = Some (rp_fundingAmount plan) ∧
  rp_minRepayAmount plan = rq_min_repay request ∧ rp_minSurplus plan = rq_min_surplus request ∧
  rp_deadline plan = now + exec_plan_deadline_secs config ∧ rp_deadline plan < 2 ^ 64 ∧
  length router = 20%nat ∧ length (rp_settlementToken plan) = 20%nat ∧
  length (rp_riskHash plan) = 32%nat.
Proof.
  unfold build_plan. intros H. do 8 (apply bind_ok in H as (? & ? & H)).
  injection H as <- <-. inv_res. inv_checked. cbn.
  repeat match goal with
  | H : parse_address _ _ = Ok _ |- _ => apply parse_address_ok, address_from_str_length in H
  | H : parse_risk_hash _ = Ok _ |- _ => apply map_err_ok, bytes32_from_str_length in H
  end.
  split_and!; try done.
  match goal with H : build_route_steps _ _ = Ok ?rs |- _ => revert rs H end.
  generalize 0. induction (rq_steps request) as [|st l IH]; intros i rs; simpl.
  - intros [= <-]. constructor.
  - intros H'. apply bind_ok in H' as (r & Hr & H'). apply bind_ok in H' as (rs' & Hrs & [= <-]).
    constructor; [by eapply build_route_step_encodes|by eapply IH].
Qed.
End plan.

(** ** No operation panics *)

Lemma mark_submitted_no_panic a h : mark_submitted a h ≠ Panic.
Proof. unfold mark_submitted, bail. by repeat case_match. Qed.

Lemma mark_dropped_no_panic a reason : mark_dropped a reason ≠ Panic.
Proof.
  unfold mark_dropped, bail. repeat case_match; try done.
  by apply bind_no_panic; [auto with engine|].
Qed.

Lemma finalize_no_panic a r rs ms : finalize_from_receipt a r rs ms ≠ Panic.
Proof.
  unfold finalize_from_receipt, bail. repeat case_match; try done;
    (apply bind_no_panic; [|intros; by repeat case_match]); unfold total_fee_paid;
    repeat case_match; try done;
    repeat (apply bind_no_panic; [auto with engine|]; intros); done.
Qed.

Lemma parse_amount_anyhow_no_panic raw : parse_amount_anyhow raw ≠ Panic.
Proof.
  unfold parse_amount_anyhow. pose proof (parse_uint_no_panic 128 raw).
  by destruct (parse_uint 128 raw).
Qed.

Lemma context_no_panic {A : Type} (r : anyhow A) c : r ≠ Panic → context r c ≠ Panic.
Proof. by destruct r. Qed.

#[export] Hint Resolve mark_submitted_no_panic mark_dropped_no_panic finalize_no_panic
  parse_amount_anyhow_no_panic context_no_panic : engine.

Lemma prepare_no_panic config request simulation daily :
  prepare_execution config request simulation daily ≠ Panic.
Proof.
  unfold prepare_execution, padded_gas_limit, parse_optional_amount, opt_traverse,
    submission_policy, parse_required_amount, bail.
  destruct (rq_steps request); [done|]. case_match; [done|].
  repeat first [apply bind_no_panic; intros | case_match | done | progress auto with engine].
Qed.

Lemma build_submission_payload_no_panic {A : Alloy} {HA : AlloyLaws A} clock config request :
  clock ≠ Panic → build_submission_payload clock config request ≠ Panic.
Proof.
  intros Hc. unfold build_submission_payload, build_submission_payload_at, build_plan.
  apply bind_no_panic; [auto with engine|]. intros now _.
  assert (∀ v c, parse_address v c ≠ Panic) as Haddr
    by (intros; apply context_no_panic, address_from_str_no_panic).
  assert (∀ i l, build_route_steps i l ≠ Panic) as Hsteps.
  { intros i l. revert i. induction l as [|st l IH]; intros i; cbn; [done|].
    apply bind_no_panic; [|intros; by apply bind_no_panic].
    unfold build_route_step, bail. cbv zeta.
    repeat first [apply bind_no_panic; intros | case_match | done | progress auto with engine]. }
  apply bind_no_panic; [|by intros []].
  repeat first [done | apply bind_no_panic; intros | progress auto with engine
               | apply context_no_panic, bytes32_from_str_no_panic].
Qed.
