(* ===== verification/Router.v ===== *)
(** The on-chain executor (contract [BaseExecutionRouter]) the engine's transactions
    call.

    A call is a function of the world, the router's storage beside the rest of the
    chain, and reverts as a whole: an error discards every change.  Tokens, swap venues
    and the Balancer vault are other contracts; they are the class [Chain], whose laws
    are those of standard ERC-20 tokens, exact-input swaps and a flash loan.  The inherited
    guards are those of OpenZeppelin's [Ownable], [Pausable] and [ReentrancyGuard]. *)

From stdpp Require Import gmap.
From S2P Require Import Prelude RustStr Types Config Decision Execution.
#[local] Open Scope Z_scope.

(** Addresses are the byte lists of the encoded plan, words are 32 bytes. *)
Abbreviation SolAddress := (list Z).
Abbreviation Bytes32 := (list Z).
Definition bytes32_zero : Bytes32 := replicate 32 0.

Inductive Revert :=
(* of the contract *)
| ExecutorNotAuthorized
| PlanExpired (deadline now_timestamp : Z)
| EmptyRoute
| UnsupportedVenue (venueKind : Z)
| InvalidRouteToken (stepIndex : Z) (expected actual : SolAddress)
| InsufficientStepOutput (stepIndex amountOut minAmountOut : Z)
| InsufficientSettlement (amountOut minimumAmountOut : Z)
| UnexpectedFlashLoanCaller (caller : SolAddress)
| UnexpectedFlashLoanFee (fee : Z)
| UnexpectedFlashLoanToken (expected actual : SolAddress)
| UnexpectedFlashLoanAmount (expected actual : Z)
| UnexpectedFlashLoanArrayLength
| LoanFingerprintMismatch (expected actual : Bytes32)
| FlashLoanContextActive
(* of the inherited guards *)
| OwnableUnauthorizedAccount (account : SolAddress)
| EnforcedPause
| ExpectedPause
| ReentrancyGuardReentrantCall
(* of the language: checked arithmetic, [abi.decode], a failed external call *)
| ArithmeticPanic
| AbiDecodeFailed
| ExternalRevert.

Inductive RouterEvent :=
| ExecutorUpdated (executor : SolAddress) (allowed : bool)
| Paused (account : SolAddress)
| Unpaused (account : SolAddress)
| PlanExecuted (caller settlementToken : SolAddress) (fundingAmount amountOut surplus : Z)
    (flashLoaned : bool) (riskHash : Bytes32)
| TokenRescued (token recipient : SolAddress) (amount : Z).

Record Router := {
  ro_owner : SolAddress;
  ro_executors : gmap SolAddress bool;
  ro_paused : bool;
  ro_entered : bool;
  ro_activeLoanFingerprint : Bytes32 }.

Record SingleSwapParams := {
  ei_tokenIn : SolAddress;
  ei_tokenOut : SolAddress;
  ei_fee : Z;
  ei_recipient : SolAddress;
  ei_deadline : Z;
  ei_amountIn : Z;
  ei_amountOutMinimum : Z;
  ei_sqrtPriceLimitX96 : Z }.

Record AerodromeRoute := {
  ae_from : SolAddress;
  ae_to : SolAddress;
  ae_stable : bool;
  ae_factory : SolAddress }.

(** The other contracts, over the state [C] of the chain: a call returns [None] when it
    reverts.  The second argument of a swap is the caller. *)
Class Chain (C : Type) := {
  block_timestamp : C → Z;
  balance_of : C → SolAddress → SolAddress → Z;          (* token, holder *)
  erc20_transfer : SolAddress → SolAddress → SolAddress → Z → C → option C;
      (* token, from, to, amount *)
  erc20_transfer_from : SolAddress → SolAddress → SolAddress → SolAddress → Z → C → option C;
      (* token, spender, from, to, amount *)
  erc20_force_approve : SolAddress → SolAddress → SolAddress → Z → C → option C;
      (* token, owner, spender, amount *)
  exactInputSingle : SolAddress → SolAddress → SingleSwapParams → C → option (Z * C);
  v2_swapExactTokensForTokens : SolAddress → SolAddress → Z → Z → list SolAddress → SolAddress → Z →
    C → option (list Z * C);
  aerodrome_swapExactTokensForTokens : SolAddress → SolAddress → Z → Z → list AerodromeRoute →
    SolAddress → Z → C → option (list Z * C);
  keccak256 : list Z → Bytes32;
  abi_encode_loan : SolAddress → RouterExecutionPlan → list Z;
  abi_decode_loan : list Z → option (SolAddress * RouterExecutionPlan) }.

(** [abi.decode(extraData, (bool, address))]. *)
Definition abi_decode_stable_factory (data : list Z) : option (bool * SolAddress) :=
  if bool_decide (length data < 64)%nat then None else
  if negb (forallb (λ b, b =? 0) (take 31 data) && forallb (λ b, b =? 0) (take 12 (drop 32 data)))
  then None else
  match data !! 31%nat with
  | Some 0 => Some (false, take 20 (drop 44 data))
  | Some 1 => Some (true, take 20 (drop 44 data))
  | _ => None
  end.

(** [wd_seen] is the history of the external calls: the storage of the router, as
    another contract finds it when it is called and may call back. *)
Record RouterWorld (C : Type) := {
  wd_router : Router;
  wd_chain : C;
  wd_events : list RouterEvent;
  wd_seen : list Router }.
Arguments wd_router {C} _.
Arguments wd_chain {C} _.
Arguments wd_events {C} _.
Arguments wd_seen {C} _.

(** A call: a result and the new world, or a revert. *)
Definition call (C A : Type) : Type := RouterWorld C → res Revert (A * RouterWorld C).
#[global] Instance call_ret (C : Type) : MRet (call C) := λ A a w, Ok (a, w).
#[global] Instance call_bind (C : Type) : MBind (call C) := λ A B f m w,
  match m w with Ok (a, w) => f a w | Err e => Err e | Panic => Panic end.

Section router.
Context {C : Type} {H : Chain C}.
(** The address of the router and its immutable vault. *)
Context (this balancerVault : SolAddress).

Definition revert {A : Type} (e : Revert) : call C A := λ _, Err e.
Definition require (b : bool) (e : Revert) : call C unit := if b then mret tt else revert e.
Definition get {A : Type} (f : RouterWorld C → A) : call C A := λ w, Ok (f w, w).
Definition emit_event (e : RouterEvent) : call C unit := λ w,
  Ok (tt, {| wd_router := wd_router w; wd_chain := wd_chain w; wd_events := wd_events w ++ [e];
             wd_seen := wd_seen w |}).
Definition set_router (f : Router → Router) : call C unit := λ w,
  Ok (tt, {| wd_router := f (wd_router w); wd_chain := wd_chain w; wd_events := wd_events w;
             wd_seen := wd_seen w |}).

(** An external call that returns a value, and one that does not.  The callee finds the
    storage as it is; it comes back unchanged, as every entry point reverts for a caller
    that is not the owner ([no_reentry]) and a callee does not act for the owner. *)
Definition extern {A : Type} (f : C → option (A * C)) : call C A := λ w,
  match f (wd_chain w) with
  | Some (a, c) => Ok (a, {| wd_router := wd_router w; wd_chain := c; wd_events := wd_events w;
                             wd_seen := wd_seen w ++ [wd_router w] |})
  | None => Err ExternalRevert
  end.
Definition extern_ (f : C → option C) : call C unit :=
  extern (λ c, (λ c', (tt, c')) <$> f c).

(** A call of a contract that is itself a call of the router's world, the vault's. *)
Definition expose {A : Type} (m : call C A) : call C A := λ w,
  m {| wd_router := wd_router w; wd_chain := wd_chain w; wd_events := wd_events w;
       wd_seen := wd_seen w ++ [wd_router w] |}.

(** Checked arithmetic on [uint256]. *)
Definition checked (n : Z) : call C Z := if (0 <=? n) && (n <? 2 ^ 256) then mret n else revert ArithmeticPanic.

Definition with_fingerprint (f : Bytes32) (r : Router) : Router :=
  {| ro_owner := ro_owner r; ro_executors := ro_executors r; ro_paused := ro_paused r;
     ro_entered := ro_entered r; ro_activeLoanFingerprint := f |}.
Definition with_entered (b : bool) (r : Router) : Router :=
  {| ro_owner := ro_owner r; ro_executors := ro_executors r; ro_paused := ro_paused r;
     ro_entered := b; ro_activeLoanFingerprint := ro_activeLoanFingerprint r |}.
Definition with_paused (b : bool) (r : Router) : Router :=
  {| ro_owner := ro_owner r; ro_executors := ro_executors r; ro_paused := b;
     ro_entered := ro_entered r; ro_activeLoanFingerprint := ro_activeLoanFingerprint r |}.
Definition with_executor (a : SolAddress) (b : bool) (r : Router) : Router :=
  {| ro_owner := ro_owner r; ro_executors := <[a := b]> (ro_executors r); ro_paused := ro_paused r;
     ro_entered := ro_entered r; ro_activeLoanFingerprint := ro_activeLoanFingerprint r |}.

(** ** Modifiers *)

Definition onlyOwner (sender : SolAddress) : call C unit :=
  r ← get wd_router;
  require (bool_decide (sender = ro_owner r)) (OwnableUnauthorizedAccount sender).

Definition is_executor (r : Router) (sender : SolAddress) : bool :=
  default false (ro_executors r !! sender) || bool_decide (sender = ro_owner r).

Definition onlyExecutor (sender : SolAddress) : call C unit :=
  r ← get wd_router; require (is_executor r sender) ExecutorNotAuthorized.

Definition whenNotPaused : call C unit :=
  r ← get wd_router; require (negb (ro_paused r)) EnforcedPause.

Definition nonReentrant {A : Type} (body : call C A) : call C A :=
  r ← get wd_router;
  _ ← require (negb (ro_entered r)) ReentrancyGuardReentrantCall;
  _ ← set_router (with_entered true);
  a ← body;
  _ ← set_router (with_entered false);
  mret a.

(** ** Admin *)

Definition setExecutor (sender executor : SolAddress) (allowed : bool) : call C unit :=
  _ ← onlyOwner sender;
  _ ← set_router (with_executor executor allowed);
  emit_event (ExecutorUpdated executor allowed).

Definition pause (sender : SolAddress) : call C unit :=
  _ ← onlyOwner sender;
  r ← get wd_router;
  _ ← require (negb (ro_paused r)) EnforcedPause;
  _ ← set_router (with_paused true);
  emit_event (Paused sender).

Definition unpause (sender : SolAddress) : call C unit :=
  _ ← onlyOwner sender;
  r ← get wd_router;
  _ ← require (ro_paused r) ExpectedPause;
  _ ← set_router (with_paused false);
  emit_event (Unpaused sender).

Definition rescueToken (sender token recipient : SolAddress) (amount : Z) : call C unit :=
  _ ← onlyOwner sender;
  _ ← extern_ (erc20_transfer token this recipient amount);
  emit_event (TokenRescued token recipient amount).

(** ** The route *)

Definition checkDeadline (deadline : Z) : call C unit :=
  now ← get (λ w, block_timestamp (wd_chain w));
  require (negb (deadline <? now)) (PlanExpired deadline now).

(** [amounts[amounts.length - 1]]. *)
Definition last_amount (amounts : list Z) : call C Z :=
  match last amounts with Some n => mret n | None => revert ArithmeticPanic end.

Definition swapUniswapV3Single (step : RouterRouteStep) (amountIn deadline : Z) : call C Z :=
  _ ← extern_ (erc20_force_approve (rr_tokenIn step) this (rr_target step) amountIn);
  extern (exactInputSingle (rr_target step) this
    {| ei_tokenIn := rr_tokenIn step; ei_tokenOut := rr_tokenOut step; ei_fee := rr_fee step;
       ei_recipient := this; ei_deadline := deadline; ei_amountIn := amountIn;
       ei_amountOutMinimum := rr_minAmountOut step; ei_sqrtPriceLimitX96 := 0 |}).

Definition swapUniswapV2 (step : RouterRouteStep) (amountIn deadline : Z) : call C Z :=
  _ ← extern_ (erc20_force_approve (rr_tokenIn step) this (rr_target step) amountIn);
  amounts ← extern (v2_swapExactTokensForTokens (rr_target step) this amountIn
    (rr_minAmountOut step) [rr_tokenIn step; rr_tokenOut step] this deadline);
  last_amount amounts.

Definition swapAerodromeV2 (step : RouterRouteStep) (amountIn deadline : Z) : call C Z :=
  match abi_decode_stable_factory (rr_extraData step) with
  | None => revert AbiDecodeFailed
  | Some (stable, factory) =>
      _ ← extern_ (erc20_force_approve (rr_tokenIn step) this (rr_target step) amountIn);
      amounts ← extern (aerodrome_swapExactTokensForTokens (rr_target step) this amountIn
        (rr_minAmountOut step)
        [{| ae_from := rr_tokenIn step; ae_to := rr_tokenOut step; ae_stable := stable;
            ae_factory := factory |}] this deadline);
      last_amount amounts
  end.

Definition executeStep (step : RouterRouteStep) (amountIn deadline : Z) : call C Z :=
  if rr_venueKind step =? venue_code UniswapV3Single then swapUniswapV3Single step amountIn deadline else
  if rr_venueKind step =? venue_code UniswapV2 then swapUniswapV2 step amountIn deadline else
  if rr_venueKind step =? venue_code AerodromeV2 then swapAerodromeV2 step amountIn deadline else
  revert (UnsupportedVenue (rr_venueKind step)).

(** The loop from step [i] on: the amount and the token it ends with. *)
Fixpoint run_steps (deadline : Z) (i : Z) (steps : list RouterRouteStep) (currentAmount : Z)
    (currentToken : SolAddress) : call C (Z * SolAddress) :=
  match steps with
  | [] => mret (currentAmount, currentToken)
  | step :: steps =>
      _ ← require (bool_decide (rr_tokenIn step = currentToken))
            (InvalidRouteToken i currentToken (rr_tokenIn step));
      nextAmount ← executeStep step currentAmount deadline;
      _ ← require (negb (nextAmount <? rr_minAmountOut step))
            (InsufficientStepOutput i nextAmount (rr_minAmountOut step));
      run_steps deadline (i + 1) steps nextAmount (rr_tokenOut step)
  end.

Definition runRoute (plan : RouterExecutionPlan) (startingAmount : Z) : call C Z :=
  _ ← require (negb (bool_decide (rp_steps plan = []))) EmptyRoute;
  '(currentAmount, currentToken) ← run_steps (rp_deadline plan) 0 (rp_steps plan) startingAmount
    (rp_settlementToken plan);
  _ ← require (bool_decide (currentToken = rp_settlementToken plan))
        (InvalidRouteToken (Z.of_nat (length (rp_steps plan))) (rp_settlementToken plan) currentToken);
  mret currentAmount.

(** ** Self-funded execution *)

Definition executePlan (sender : SolAddress) (plan : RouterExecutionPlan) : call C Z :=
  _ ← onlyExecutor sender;
  _ ← whenNotPaused;
  nonReentrant (
    _ ← checkDeadline (rp_deadline plan);
    r ← get wd_router;
    _ ← require (bool_decide (ro_activeLoanFingerprint r = bytes32_zero)) FlashLoanContextActive;
    _ ← extern_ (erc20_transfer_from (rp_settlementToken plan) this sender this (rp_fundingAmount plan));
    amountOut ← runRoute plan (rp_fundingAmount plan);
    minimumSettlement ← checked (rp_minRepayAmount plan + rp_minSurplus plan);
    _ ← require (negb (amountOut <? minimumSettlement))
          (InsufficientSettlement amountOut minimumSettlement);
    _ ← extern_ (erc20_transfer (rp_settlementToken plan) this sender amountOut);
    surplus ← checked (amountOut - rp_minRepayAmount plan);
    _ ← emit_event (PlanExecuted sender (rp_settlementToken plan) (rp_fundingAmount plan) amountOut
                      surplus false (rp_riskHash plan));
    mret amountOut).

(** ** Flash-loan-backed execution *)

Definition receiveFlashLoan (sender : SolAddress) (tokens : list SolAddress)
    (amounts feeAmounts userData : list Z) : call C unit :=
  _ ← require (bool_decide (sender = balancerVault)) (UnexpectedFlashLoanCaller sender);
  r ← get wd_router;
  let expectedFingerprint := ro_activeLoanFingerprint r in
  let fingerprint := keccak256 userData in
  _ ← require (negb (bool_decide (expectedFingerprint = bytes32_zero)) &&
               bool_decide (expectedFingerprint = fingerprint))
        (LoanFingerprintMismatch expectedFingerprint fingerprint);
  _ ← set_router (with_fingerprint bytes32_zero);
  match abi_decode_loan userData with
  | None => revert AbiDecodeFailed
  | Some (loanCaller, plan) =>
  match tokens, amounts, feeAmounts with
  | [token], [amount], [fee] =>
      _ ← require (bool_decide (token = rp_settlementToken plan))
            (UnexpectedFlashLoanToken (rp_settlementToken plan) token);
      _ ← require (amount =? rp_fundingAmount plan)
            (UnexpectedFlashLoanAmount (rp_fundingAmount plan) amount);
      _ ← require (fee =? 0) (UnexpectedFlashLoanFee fee);
      amountOut ← runRoute plan (rp_fundingAmount plan);
      minimumSettlement ← checked (rp_minRepayAmount plan + rp_minSurplus plan);
      _ ← require (negb (amountOut <? minimumSettlement))
            (InsufficientSettlement amountOut minimumSettlement);
      _ ← extern_ (erc20_transfer token this balancerVault (rp_fundingAmount plan));
      surplus ← checked (amountOut - rp_fundingAmount plan);
      _ ← (if 0 <? surplus then extern_ (erc20_transfer token this loanCaller surplus) else mret tt);
      emit_event (PlanExecuted loanCaller (rp_settlementToken plan) (rp_fundingAmount plan) amountOut
                    surplus true (rp_riskHash plan))
  | _, _, _ => revert UnexpectedFlashLoanArrayLength
  end end.

(** [vault_flashLoan] is the vault's: from the tokens, amounts and data of a loan, a call
    that may call the recipient back, whatever it does in between. *)
Context (vault_flashLoan : list SolAddress → list Z → list Z → call C unit).

Definition executePlanWithFlashLoan (sender : SolAddress) (plan : RouterExecutionPlan) : call C unit :=
  _ ← onlyExecutor sender;
  _ ← whenNotPaused;
  nonReentrant (
    _ ← checkDeadline (rp_deadline plan);
    r ← get wd_router;
    _ ← require (bool_decide (ro_activeLoanFingerprint r = bytes32_zero)) FlashLoanContextActive;
    let userData := abi_encode_loan sender plan in
    let fingerprint := keccak256 userData in
    _ ← set_router (with_fingerprint fingerprint);
    _ ← expose (vault_flashLoan [rp_settlementToken plan] [rp_fundingAmount plan] userData);
    r ← get wd_router;
    require (bool_decide (ro_activeLoanFingerprint r = bytes32_zero))
      (LoanFingerprintMismatch bytes32_zero fingerprint)).
End router.

(** ** What the other contracts promise *)

Definition flag (b : bool) (n : Z) : Z := if b then n else 0.

(** A transfer of a standard token. *)
Definition moved {C : Type} {H : Chain C} (token from to : SolAddress) (n : Z) (c c' : C) : Prop :=
  n ≤ balance_of c token from ∧
  ∀ t h, balance_of c' t h = balance_of c t h - flag (bool_decide (t = token ∧ h = from)) n
                             + flag (bool_decide (t = token ∧ h = to)) n.

(** An exact-input swap for a holder: it takes at most the input and gives the output it
    reports; no one but the holder and the venue's own accounts is touched. *)
Definition swapped {C : Type} {H : Chain C} (venue : SolAddress → Prop) (holder tokenIn tokenOut : SolAddress)
    (amountIn out : Z) (c c' : C) : Prop :=
  (∀ t, balance_of c t holder - flag (bool_decide (t = tokenIn)) amountIn
          + flag (bool_decide (t = tokenOut)) out ≤ balance_of c' t holder) ∧
  ∀ t h, h ≠ holder → ¬ venue h → balance_of c' t h = balance_of c t h.

(** [venue] holds of the accounts of swap venues. *)
Class ChainLaws (C : Type) {H : Chain C} (this : SolAddress) (venue : SolAddress → Prop) : Prop := {
  transfer_moves token from to n c c' :
    erc20_transfer token from to n c = Some c' → moved token from to n c c';
  transfer_from_moves token spender from to n c c' :
    erc20_transfer_from token spender from to n c = Some c' → moved token from to n c c';
  approve_keeps token owner spender n c c' :
    erc20_force_approve token owner spender n c = Some c' →
    ∀ t h, balance_of c' t h = balance_of c t h;
  v3_swaps target p c out c' : ei_recipient p = this →
    exactInputSingle target this p c = Some (out, c') →
    swapped venue this (ei_tokenIn p) (ei_tokenOut p) (ei_amountIn p) out c c';
  v2_swaps target amountIn m tokenIn tokenOut deadline c amounts c' :
    v2_swapExactTokensForTokens target this amountIn m [tokenIn; tokenOut] this deadline c =
      Some (amounts, c') →
    ∃ out, last amounts = Some out ∧ swapped venue this tokenIn tokenOut amountIn out c c';
  aerodrome_swaps target amountIn m route deadline c amounts c' :
    aerodrome_swapExactTokensForTokens target this amountIn m [route] this deadline c =
      Some (amounts, c') →
    ∃ out, last amounts = Some out ∧
      swapped venue this (ae_from route) (ae_to route) amountIn out c c';
  decode_encode_loan caller plan : abi_decode_loan (abi_encode_loan caller plan) = Some (caller, plan) }.

(** A Balancer flash loan of one token: the vault transfers the amount to the router and
    calls it back with the data of the loan and a fee. *)
Definition lends {C : Type} {H : Chain C} (this vault : SolAddress)
    (vault_flashLoan : list SolAddress → list Z → list Z → call C unit) : Prop :=
  ∀ token amount data w w', vault_flashLoan [token] [amount] data w = Ok (tt, w') →
  ∃ fee c1, erc20_transfer token vault this amount (wd_chain w) = Some c1 ∧
    receiveFlashLoan this vault vault [token] [amount] [fee] data
      {| wd_router := wd_router w; wd_chain := c1; wd_events := wd_events w;
         wd_seen := wd_seen w |} = Ok (tt, w').

(** ** Inversion of calls *)

Section inversion.
Context {C : Type} {H : Chain C}.
Implicit Types w : RouterWorld C.

Lemma call_bind_ok {A B : Type} (m : call C A) (f : A → call C B) w b w' :
  (m ≫= f) w = Ok (b, w') → ∃ a w1, m w = Ok (a, w1) ∧ f a w1 = Ok (b, w').
Proof. unfold mbind, call_bind. destruct (m w) as [[a w1]| |]; [|done..]. eauto. Qed.

Lemma require_ok b e w u w' : require b e w = Ok (u, w') → b = true ∧ w' = w.
Proof. unfold require. destruct b; [|done]. by intros [= _ <-]. Qed.

Lemma get_ok {A : Type} (f : RouterWorld C → A) w a w' : get f w = Ok (a, w') → a = f w ∧ w' = w.
Proof. by intros [= <- <-]. Qed.

Lemma extern_ok {A : Type} (f : C → option (A * C)) w a w' :
  extern f w = Ok (a, w') → ∃ c, f (wd_chain w) = Some (a, c) ∧
    w' = {| wd_router := wd_router w; wd_chain := c; wd_events := wd_events w;
            wd_seen := wd_seen w ++ [wd_router w] |}.
Proof. unfold extern. destruct (f _) as [[x c]|]; [|done]. intros [= <- <-]. eauto. Qed.

Lemma extern__ok (f : C → option C) w u w' :
  extern_ f w = Ok (u, w') → ∃ c, f (wd_chain w) = Some c ∧
    w' = {| wd_router := wd_router w; wd_chain := c; wd_events := wd_events w;
            wd_seen := wd_seen w ++ [wd_router w] |}.
Proof.
  unfold extern_. intros (c & Hf & ->)%extern_ok. destruct (f _) as [c'|]; [|done]. injection Hf as _ <-. eauto.
Qed.

Lemma checked_ok n w m w' : checked n w = Ok (m, w') → m = n ∧ w' = w ∧ 0 ≤ n < 2 ^ 256.
Proof.
  unfold checked. destruct ((0 <=? n) && (n <? 2 ^ 256)) eqn:Hn; [|done]. intros [= <- <-].
  split_and!; [done..|lia|lia].
Qed.

Lemma last_amount_ok amounts w n w' :
  last_amount amounts w = Ok (n, w') → last amounts = Some n ∧ w' = w.
Proof. unfold last_amount. destruct (last amounts); [|done]. by intros [= <- <-]. Qed.
End inversion.

(** Take one step of a call that returned apart. *)
Ltac call_step H :=
  let a := fresh "a" in let w := fresh "w" in let E := fresh "E" in
  apply call_bind_ok in H as (a & w & E & H);
  first
    [ apply require_ok in E as [E ->]; try destruct a
    | apply get_ok in E as [-> ->]
    | apply checked_ok in E as (-> & -> & E)
    | apply last_amount_ok in E as [E ->]
    | (let c := fresh "c" in apply extern__ok in E as (c & E & ->)); destruct a
    | (let c := fresh "c" in apply extern_ok in E as (c & E & ->))
    | (injection E as <- <-)
    | idtac ].

(** ** The route *)

Section route.
Context {C : Type} {H : Chain C} (this : SolAddress) (venue : SolAddress → Prop)
  {HL : ChainLaws C this venue}.
Implicit Types w : RouterWorld C.

(** What a step or a route does: the storage and the events stay, the router pays at
    most the input and gets the output, and the bystanders keep their balances. *)
Record traded (tokenIn tokenOut : SolAddress) (amountIn out : Z) (w w' : RouterWorld C) : Prop := {
  tr_router : wd_router w' = wd_router w;
  tr_events : wd_events w' = wd_events w;
  tr_swap : swapped venue this tokenIn tokenOut amountIn out (wd_chain w) (wd_chain w') }.

Lemma swapped_after_approve token spender n tokenIn tokenOut amountIn out c c1 c2 :
  erc20_force_approve token this spender n c = Some c1 →
  swapped venue this tokenIn tokenOut amountIn out c1 c2 →
  swapped venue this tokenIn tokenOut amountIn out c c2.
Proof.
  intros Ha [Hs Ho]. pose proof (approve_keeps (this:=this) (venue:=venue) _ _ _ _ _ _ Ha) as Hk. split.
  - intros t. specialize (Hs t). by rewrite Hk in Hs.
  - intros t h Hh Hv. by rewrite Ho, Hk.
Qed.

Lemma executeStep_traded step amountIn deadline w out w' :
  executeStep this step amountIn deadline w = Ok (out, w') →
  traded (rr_tokenIn step) (rr_tokenOut step) amountIn out w w'.
Proof.
  unfold executeStep. intros Hx.
  destruct (rr_venueKind step =? venue_code UniswapV3Single).
  { unfold swapUniswapV3Single in Hx. call_step Hx. apply extern_ok in Hx as (c2 & Hs & ->).
    constructor; [done..|]. cbn. eapply swapped_after_approve; [done|].
    by apply v3_swaps in Hs. }
  destruct (rr_venueKind step =? venue_code UniswapV2).
  { unfold swapUniswapV2 in Hx. call_step Hx. call_step Hx. apply last_amount_ok in Hx as [Hl ->].
    constructor; [done..|]. cbn in *. eapply swapped_after_approve; [done|].
    apply v2_swaps in E0 as (out' & Ho & Hs). rewrite Hl in Ho. by injection Ho as <-. }
  destruct (rr_venueKind step =? venue_code AerodromeV2); [|done].
  unfold swapAerodromeV2 in Hx. destruct (abi_decode_stable_factory _) as [[stable factory]|]; [|done].
  call_step Hx. call_step Hx. apply last_amount_ok in Hx as [Hl ->].
  constructor; [done..|]. cbn in *. eapply swapped_after_approve; [done|].
  apply aerodrome_swaps in E0 as (out' & Ho & Hs). rewrite Hl in Ho. by injection Ho as <-.
Qed.

Lemma traded_trans a b c x y z w w1 w2 :
  traded a b x y w w1 → traded b c y z w1 w2 → traded a c x z w w2.
Proof.
  intros [R1 E1 [S1 O1]] [R2 E2 [S2 O2]]. constructor; [congruence..|]. split.
  - intros t. specialize (S1 t). specialize (S2 t). lia.
  - intros t h Hh Hv. by rewrite O2, O1.
Qed.

Lemma run_steps_traded deadline i steps amount token w out token' w' :
  run_steps this deadline i steps amount token w = Ok ((out, token'), w') →
  traded token token' amount out w w' ∧
  ∀ step, last steps = Some step → rr_minAmountOut step ≤ out.
Proof.
  revert i amount token w. induction steps as [|step steps IH]; intros i amount token w Hx.
  { injection Hx as <- <- <-. split; [|done]. constructor; [done..|]. split; [|done].
    intros t. unfold flag. destruct (bool_decide _); lia. }
  cbn [run_steps] in Hx. call_step Hx. call_step Hx. apply executeStep_traded in E0.
  call_step Hx. apply bool_decide_eq_true in E. subst token.
  destruct (IH _ _ _ _ Hx) as [Ht Hmin]. split; [by eapply traded_trans|].
  intros s Hs. destruct steps as [|step' steps]; [|by apply Hmin].
  injection Hs as <-. injection Hx as <- _ _. lia.
Qed.

Lemma runRoute_traded plan amount w out w' :
  runRoute this plan amount w = Ok (out, w') →
  traded (rp_settlementToken plan) (rp_settlementToken plan) amount out w w' ∧
  ∃ step, last (rp_steps plan) = Some step ∧ rr_minAmountOut step ≤ out.
Proof.
  unfold runRoute. intros Hx. call_step Hx. apply call_bind_ok in Hx as ([out' token] & w1 & Hr & Hx).
  call_step Hx. injection Hx as <- <-. apply run_steps_traded in Hr as [Ht Hmin].
  apply bool_decide_eq_true in E0 as ->. split; [done|].
  destruct (rp_steps plan) as [|s l] using rev_ind; [by rewrite bool_decide_true in E|].
  exists s. rewrite last_snoc in *. split; [done|]. by apply Hmin.
Qed.
End route.

(** ** Settlement *)

Section settlement.
Context {C : Type} {H : Chain C} (this vault : SolAddress) (venue : SolAddress → Prop)
  {HL : ChainLaws C this venue}.
Context (vault_not_venue : ¬ venue vault) (vault_not_this : vault ≠ this).
Implicit Types w : RouterWorld C.
Abbreviation bal := (λ w t h, balance_of (wd_chain w) t h).

(** A caller the settlement is about: neither the router, nor the vault, nor a venue. *)
Definition outsider (h : SolAddress) : Prop := h ≠ this ∧ h ≠ vault ∧ ¬ venue h.

Lemma transferred token from to n w w1 :
  extern_ (erc20_transfer token from to n) w = Ok (tt, w1) →
  wd_router w1 = wd_router w ∧ wd_events w1 = wd_events w ∧
  moved token from to n (wd_chain w) (wd_chain w1).
Proof. intros (c & Ht & ->)%extern__ok. split_and!; [done..|]. by apply transfer_moves. Qed.

(** A transfer seen from an account that is not both ends. *)
Lemma moved_at token from to n c c' t h :
  moved token from to n c c' → from ≠ to →
  balance_of c' t h = balance_of c t h +
    (if decide (t = token ∧ h = to) then n else if decide (t = token ∧ h = from) then - n else 0).
Proof.
  intros [_ Hm] Hne. rewrite Hm. unfold flag.
  destruct (decide (t = token ∧ h = to)) as [[-> ->]|Ho].
  - rewrite bool_decide_false by naive_solver. rewrite bool_decide_true by done. lia.
  - destruct (decide (t = token ∧ h = from)) as [Hf|Hf].
    + rewrite bool_decide_true by done. rewrite bool_decide_false by done. lia.
    + rewrite !bool_decide_false by done. lia.
Qed.

(** What a loan does once the router accepts the callback. *)
Record settled (caller : SolAddress) (plan : RouterExecutionPlan) (out : Z) (w w' : RouterWorld C) : Prop := {
  se_min : rp_minRepayAmount plan + rp_minSurplus plan ≤ out;
  se_loan : rp_fundingAmount plan ≤ out;
  se_step : ∃ step, last (rp_steps plan) = Some step ∧ rr_minAmountOut step ≤ out;
  se_router : wd_router w' = with_fingerprint bytes32_zero (wd_router w);
  se_events : wd_events w' = wd_events w ++ [PlanExecuted caller (rp_settlementToken plan)
    (rp_fundingAmount plan) out (out - rp_fundingAmount plan) true (rp_riskHash plan)];
  se_held t : bal w t this - flag (bool_decide (t = rp_settlementToken plan)) (rp_fundingAmount plan)
                ≤ bal w' t this;
  se_vault t : bal w' t vault = bal w t vault +
    flag (bool_decide (t = rp_settlementToken plan)) (rp_fundingAmount plan);
  se_caller t : bal w' t caller = bal w t caller +
    flag (bool_decide (t = rp_settlementToken plan)) (out - rp_fundingAmount plan) }.

Lemma surplus_paid token caller surplus w w1 :
  caller ≠ this → 0 ≤ surplus →
  (if 0 <? surplus then extern_ (erc20_transfer token this caller surplus) else mret tt) w = Ok (tt, w1) →
  wd_router w1 = wd_router w ∧ wd_events w1 = wd_events w ∧
  ∀ t h, balance_of (wd_chain w1) t h = balance_of (wd_chain w) t h +
    (if decide (t = token ∧ h = caller) then surplus
     else if decide (t = token ∧ h = this) then - surplus else 0).
Proof.
  intros Hne Hs. destruct (0 <? surplus) eqn:Hpos.
  - intros (? & ? & Hm)%transferred. split_and!; [done..|]. intros t h. by apply moved_at.
  - intros [= <-]. assert (surplus = 0) as -> by lia. split_and!; [done..|]. intros t h.
    repeat case_decide; lia.
Qed.

Lemma receiveFlashLoan_settled sender token amount fee userData caller plan w w' :
  abi_decode_loan userData = Some (caller, plan) → outsider caller →
  0 ≤ rp_minRepayAmount plan → 0 ≤ rp_minSurplus plan →
  receiveFlashLoan this vault sender [token] [amount] [fee] userData w = Ok (tt, w') →
  sender = vault ∧ token = rp_settlementToken plan ∧ amount = rp_fundingAmount plan ∧ fee = 0 ∧
  ro_activeLoanFingerprint (wd_router w) = keccak256 userData ∧
  ∃ out, settled caller plan out w w'.
Proof.
  intros Hdec (Hc1 & Hc2 & Hc3) H0 H1 Hx. unfold receiveFlashLoan in Hx.
  call_step Hx. call_step Hx. cbv zeta in Hx. call_step Hx. call_step Hx. rewrite Hdec in Hx.
  call_step Hx. call_step Hx. call_step Hx.
  apply call_bind_ok in Hx as (out & w1 & Hr & Hx). apply runRoute_traded with (venue := venue) in Hr
    as [[R1 E6 [S1 O1]] Hmin]; [|done].
  call_step Hx. call_step Hx. apply call_bind_ok in Hx as ([] & w2 & Ht & Hx).
  apply transferred in Ht as (R2 & E7 & M2).
  call_step Hx. apply call_bind_ok in Hx as ([] & w3 & Hs & Hx).
  apply surplus_paid in Hs as (R3 & E9 & M3); [|done|lia]. injection Hx as <-.
  apply bool_decide_eq_true in E. apply andb_true_iff in E0 as [_ E0].
  apply bool_decide_eq_true in E0, E1. subst token. cbn in R1, E6, S1, O1.
  split_and!; [done..|lia|lia|done|]. exists out.
  pose proof (λ t h, moved_at _ _ _ _ _ _ t h M2 (not_eq_sym vault_not_this)) as M2'. cbn in M2'.
  constructor; cbn; [lia|lia|done|congruence|by rewrite E9, E7, E6|..].
  - intros t. rewrite M3, M2'. specialize (S1 t). unfold flag in *.
    repeat case_decide; repeat case_bool_decide; naive_solver lia.
  - intros t. rewrite M3, M2', O1 by done. unfold flag.
    repeat case_decide; repeat case_bool_decide; naive_solver lia.
  - intros t. rewrite M3, M2', O1 by done. unfold flag.
    repeat case_decide; repeat case_bool_decide; naive_solver lia.
Qed.

(** The guards of an execution. *)
Record admitted_by (sender : SolAddress) (plan : RouterExecutionPlan) (w : RouterWorld C) : Prop := {
  ad_executor : is_executor (wd_router w) sender = true;
  ad_unpaused : ro_paused (wd_router w) = false;
  ad_idle : ro_entered (wd_router w) = false;
  ad_no_loan : ro_activeLoanFingerprint (wd_router w) = bytes32_zero;
  ad_deadline : block_timestamp (wd_chain w) ≤ rp_deadline plan }.

(** The storage, after the guard has been taken and given back. *)
Lemma storage_restored (r r' : Router) :
  ro_entered r = false → ro_activeLoanFingerprint r = bytes32_zero →
  r' = with_fingerprint bytes32_zero (with_entered true r) ∨ r' = with_entered true r ∨
  (∃ f, r' = with_fingerprint bytes32_zero (with_fingerprint f (with_entered true r))) →
  with_entered false r' = r.
Proof. intros He Hf. destruct r. cbn in *. subst. by intros [->|[->|[f ->]]]. Qed.

Lemma flash_loan_settled vault_flashLoan sender plan w w' :
  lends this vault vault_flashLoan → outsider sender →
  0 ≤ rp_minRepayAmount plan → 0 ≤ rp_minSurplus plan →
  executePlanWithFlashLoan vault_flashLoan sender plan w = Ok (tt, w') →
  admitted_by sender plan w ∧ wd_router w' = wd_router w ∧
  ∃ out step, rp_minRepayAmount plan + rp_minSurplus plan ≤ out ∧ rp_fundingAmount plan ≤ out ∧
    last (rp_steps plan) = Some step ∧ rr_minAmountOut step ≤ out ∧
    wd_events w' = wd_events w ++ [PlanExecuted sender (rp_settlementToken plan)
      (rp_fundingAmount plan) out (out - rp_fundingAmount plan) true (rp_riskHash plan)] ∧
    (∀ t, bal w t this ≤ bal w' t this) ∧ (∀ t, bal w' t vault = bal w t vault) ∧
    ∀ t, bal w' t sender = bal w t sender +
      flag (bool_decide (t = rp_settlementToken plan)) (out - rp_fundingAmount plan).
Proof.
  intros HV Hout H0 H1 Hx. unfold executePlanWithFlashLoan, onlyExecutor, whenNotPaused, nonReentrant,
    checkDeadline in Hx.
  apply call_bind_ok in Hx as (u & w0 & Hex & Hx). call_step Hex. apply require_ok in Hex as [Hex ->].
  apply call_bind_ok in Hx as (u1 & w1 & Hp & Hx). call_step Hp. apply require_ok in Hp as [Hp ->].
  call_step Hx. call_step Hx. call_step Hx.
  apply call_bind_ok in Hx as ([] & w2 & Hb & Hx). call_step Hx. injection Hx as <-.
  apply call_bind_ok in Hb as (u2 & w3 & Hd & Hb). call_step Hd. apply require_ok in Hd as [Hd ->].
  call_step Hb. call_step Hb. cbv zeta in Hb. call_step Hb.
  apply call_bind_ok in Hb as ([] & w4 & Hl & Hb). call_step Hb. apply require_ok in Hb as [Hfp ->].
  apply HV in Hl as (fee & c1 & Htr & Hl). cbn in Htr, Hl.
  apply (receiveFlashLoan_settled _ _ _ _ _ sender plan) in Hl
    as (_ & _ & _ & _ & _ & out & [S1 S2 (step & Hstep & S3) S4 S5 S6 S7 S8]);
    [|by apply decode_encode_loan|done|done|done].
  apply bool_decide_eq_true in E0. cbn in E0, Hd, S4, S5, S6, S7, S8 |- *.
  apply negb_true_iff in Hp, E. split; [constructor; (done || lia)|]. split.
  { apply storage_restored; [done..|]. right; right. by eexists. }
  apply transfer_moves in Htr. pose proof (λ t h, moved_at _ _ _ _ _ _ t h Htr vault_not_this) as M.
  exists out, step. destruct Hout as (Ho1 & Ho2 & _). split_and!; [done..| | |].
  - intros t. specialize (S6 t). rewrite M in S6. unfold flag in S6.
    repeat case_decide; repeat case_bool_decide; naive_solver lia.
  - intros t. rewrite S7, M. unfold flag. repeat case_decide; repeat case_bool_decide; naive_solver lia.
  - intros t. rewrite S8, M. unfold flag. repeat case_decide; repeat case_bool_decide; naive_solver lia.
Qed.

(** C33. A flash loan settles: when the call returns, the sender is an executor, the plan was
    in time, the router was idle and its storage is as before; the route ended in the
    settlement token with at least the loan, the minimum repayment and surplus, and the
    minimum of its last step; the vault has its money back, the sender has gained
    exactly the rest, and the router holds no less of any token than before. *)
Theorem flash_loan_settles vault_flashLoan sender plan w w' :
  lends this vault vault_flashLoan → outsider sender →
  0 ≤ rp_minRepayAmount plan → 0 ≤ rp_minSurplus plan →
  executePlanWithFlashLoan vault_flashLoan sender plan w = Ok (tt, w') →
  admitted_by sender plan w ∧ wd_router w' = wd_router w ∧
  ∃ out step, rp_minRepayAmount plan + rp_minSurplus plan ≤ out ∧ rp_fundingAmount plan ≤ out ∧
    last (rp_steps plan) = Some step ∧ rr_minAmountOut step ≤ out ∧
    wd_events w' = wd_events w ++ [PlanExecuted sender (rp_settlementToken plan)
      (rp_fundingAmount plan) out (out - rp_fundingAmount plan) true (rp_riskHash plan)] ∧
    (∀ t, bal w t this ≤ bal w' t this) ∧ (∀ t, bal w' t vault = bal w t vault) ∧
    ∀ t, bal w' t sender = bal w t sender +
      flag (bool_decide (t = rp_settlementToken plan)) (out - rp_fundingAmount plan).
Proof. by apply flash_loan_settled. Qed.

(** A self-funded plan settles: the sender, who paid the funding in, has it back with
    the difference of the route, at least the minimum repayment and surplus in all, and
    the router holds no less of any token than before. *)
Theorem self_funded_settles sender plan w amountOut w' :
  outsider sender → 0 ≤ rp_minSurplus plan →
  executePlan this sender plan w = Ok (amountOut, w') →
  admitted_by sender plan w ∧ wd_router w' = wd_router w ∧
  rp_minRepayAmount plan + rp_minSurplus plan ≤ amountOut ∧
  (∀ t, bal w t this ≤ bal w' t this) ∧
  ∀ t, bal w' t sender = bal w t sender +
    flag (bool_decide (t = rp_settlementToken plan)) (amountOut - rp_fundingAmount plan).
Proof.
  intros (Ho1 & Ho2 & Ho3) H1 Hx. unfold executePlan, onlyExecutor, whenNotPaused, nonReentrant,
    checkDeadline in Hx.
  apply call_bind_ok in Hx as (u & w0 & Hex & Hx). call_step Hex. apply require_ok in Hex as [Hex ->].
  apply call_bind_ok in Hx as (u1 & w1 & Hp & Hx). call_step Hp. apply require_ok in Hp as [Hp ->].
  call_step Hx. call_step Hx. call_step Hx.
  apply call_bind_ok in Hx as (out & w2 & Hb & Hx). call_step Hx. injection Hx as <- <-.
  apply call_bind_ok in Hb as (u2 & w3 & Hd & Hb). call_step Hd. apply require_ok in Hd as [Hd ->].
  call_step Hb. call_step Hb. call_step Hb.
  apply call_bind_ok in Hb as (out1 & w4 & Hr & Hb).
  apply runRoute_traded with (venue := venue) in Hr as [[R1 E6 [S1 O1]] Hmin]; [|done].
  call_step Hb. call_step Hb. apply call_bind_ok in Hb as ([] & w5 & Ht & Hb).
  apply transferred in Ht as (R2 & E7 & M2). call_step Hb. call_step Hb. injection Hb as <- <-.
  apply bool_decide_eq_true in E0. cbn in *. apply negb_true_iff in Hp, E.
  split; [constructor; (done || lia)|]. split.
  { apply storage_restored; [done..|]. right; left. congruence. }
  apply transfer_from_moves in E1. pose proof (λ t h, moved_at _ _ _ _ _ _ t h E1 Ho1) as M.
  pose proof (λ t h, moved_at _ _ _ _ _ _ t h M2 (not_eq_sym Ho1)) as M'. split_and!; [lia| |].
  - intros t. rewrite M'. specialize (S1 t). rewrite M in S1. unfold flag in S1.
    repeat case_decide; repeat case_bool_decide; naive_solver lia.
  - intros t. rewrite M', O1, M by done. unfold flag.
    repeat case_decide; repeat case_bool_decide; naive_solver lia.
Qed.

(** The storage stays, and every external call on the way has found it. *)
Record exposes (r : Router) (w w' : RouterWorld C) : Prop := {
  xp_before : wd_router w = r;
  xp_after : wd_router w' = r;
  xp_seen : ∃ k, wd_seen w' = wd_seen w ++ replicate k r }.

Lemma exposes_refl w : exposes (wd_router w) w w.
Proof. constructor; [done..|]. exists 0%nat. by rewrite app_nil_r. Qed.

Lemma exposes_trans r w1 w2 w3 : exposes r w1 w2 → exposes r w2 w3 → exposes r w1 w3.
Proof.
  intros [B1 A1 (k1 & S1)] [B2 A2 (k2 & S2)]. constructor; [done..|]. exists (k1 + k2)%nat.
  by rewrite S2, S1, replicate_add, app_assoc.
Qed.

Lemma extern_exposes {X : Type} (f : C → option (X * C)) w a w' :
  extern f w = Ok (a, w') → exposes (wd_router w) w w'.
Proof. intros (c & _ & ->)%extern_ok. constructor; [done..|]. by exists 1%nat. Qed.

Lemma extern__exposes (f : C → option C) w a w' :
  extern_ f w = Ok (a, w') → exposes (wd_router w) w w'.
Proof. apply extern_exposes. Qed.

Lemma extern__seen (f : C → option C) w a w' :
  extern_ f w = Ok (a, w') →
  wd_router w' = wd_router w ∧ wd_seen w' = wd_seen w ++ [wd_router w].
Proof. by intros (c & _ & ->)%extern__ok. Qed.

Lemma exposes_then {X Y : Type} (m : call C X) (f : X → call C Y) w b w' :
  (∀ w a w1, m w = Ok (a, w1) → exposes (wd_router w) w w1) →
  (∀ a w b w1, f a w = Ok (b, w1) → exposes (wd_router w) w w1) →
  (m ≫= f) w = Ok (b, w') → exposes (wd_router w) w w'.
Proof.
  intros Hm Hf (a & w1 & H1 & H2)%call_bind_ok. apply Hm in H1. apply Hf in H2.
  eapply exposes_trans; [exact H1|]. by rewrite (xp_after _ _ _ H1) in H2.
Qed.

Ltac exposes_steps :=
  repeat first
    [ done
    | apply extern__exposes | apply extern_exposes
    | (intros [_ ->]%require_ok; apply exposes_refl)
    | (intros (_ & ->)%last_amount_ok; apply exposes_refl)
    | (intros (_ & -> & _)%checked_ok; apply exposes_refl)
    | (intros [= _ <-]; apply exposes_refl)
    | (intros [= <-]; apply exposes_refl)
    | apply exposes_then; [intros ? ? ?|intros ? ? ? ?]
    | case_match ].

Lemma executeStep_exposes step amount deadline w out w' :
  executeStep this step amount deadline w = Ok (out, w') → exposes (wd_router w) w w'.
Proof.
  unfold executeStep, swapUniswapV3Single, swapUniswapV2, swapAerodromeV2. exposes_steps.
Qed.

Lemma run_steps_exposes deadline i steps amount token w r w' :
  run_steps this deadline i steps amount token w = Ok (r, w') → exposes (wd_router w) w w'.
Proof.
  revert i amount token w r w'. induction steps as [|step steps IH]; intros i amount token w r w'.
  { intros [= _ <-]. apply exposes_refl. }
  cbn [run_steps]. apply exposes_then; [intros ? ? ?; exposes_steps|intros _ w1 b w2].
  apply exposes_then; [intros ? ? ?; apply executeStep_exposes|intros next w3 b3 w4].
  apply exposes_then; [intros ? ? ?; exposes_steps|intros _ w5 b5 w6]. apply IH.
Qed.

Lemma runRoute_exposes plan amount w out w' :
  runRoute this plan amount w = Ok (out, w') → exposes (wd_router w) w w'.
Proof.
  unfold runRoute. apply exposes_then; [intros ? ? ?; exposes_steps|intros _ w1 b w2].
  apply exposes_then; [intros ? ? ?; apply run_steps_exposes|intros [n t] w3 b3 w4]. exposes_steps.
Qed.

(** A world in which every entry point reverts for a sender, the owner's excepted. *)
Record sealed (vault_flashLoan : list SolAddress → list Z → list Z → call C unit)
    (w : RouterWorld C) (sender : SolAddress) : Prop := {
  sl_plan plan : ∃ e, executePlan this sender plan w = Err e;
  sl_loan plan : ∃ e, executePlanWithFlashLoan vault_flashLoan sender plan w = Err e;
  sl_callback tokens amounts fees data :
    ∃ e, receiveFlashLoan this vault sender tokens amounts fees data w = Err e;
  sl_admin : sender ≠ ro_owner (wd_router w) →
    (∀ executor allowed, ∃ e, setExecutor sender executor allowed w = Err e) ∧
    (∃ e, pause sender w = Err e) ∧ (∃ e, unpause sender w = Err e) ∧
    ∀ token recipient amount, ∃ e, rescueToken this sender token recipient amount w = Err e }.

Lemma entered_sealed vault_flashLoan w sender :
  ro_entered (wd_router w) = true →
  ro_activeLoanFingerprint (wd_router w) = bytes32_zero ∨ sender ≠ vault →
  sealed vault_flashLoan w sender.
Proof.
  intros He Hf.
  assert (∀ A (body : call C A), ∃ e, (_ ← onlyExecutor sender; _ ← whenNotPaused; nonReentrant body) w = Err e)
    as Hexec.
  { intros A body. unfold onlyExecutor, whenNotPaused, nonReentrant, mbind, call_bind, get, require.
    destruct (is_executor (wd_router w) sender); [|by eexists]. cbn.
    destruct (ro_paused (wd_router w)); [by eexists|]. cbn. rewrite He. by eexists. }
  constructor; [intros; apply Hexec|intros; apply Hexec| |].
  - intros. unfold receiveFlashLoan, mbind, call_bind, get, require.
    destruct Hf as [Hf|Hf]; [|rewrite bool_decide_false by done; by eexists].
    destruct (bool_decide (sender = vault)); [|by eexists]. cbn. rewrite Hf.
    rewrite bool_decide_true by done. by eexists.
  - intros Hne. unfold setExecutor, pause, unpause, rescueToken, onlyOwner, mbind, call_bind, get, require.
    rewrite bool_decide_false by done. split_and!; intros; by eexists.
Qed.

(** What the callback of a loan exposes: the storage with the context of the loan
    cleared. *)
Lemma receiveFlashLoan_exposes sender tokens amounts fees data w w' :
  receiveFlashLoan this vault sender tokens amounts fees data w = Ok (tt, w') →
  ∃ k, wd_seen w' = wd_seen w ++ replicate (S k) (with_fingerprint bytes32_zero (wd_router w)).
Proof.
  unfold receiveFlashLoan. intros Hx. call_step Hx. call_step Hx. cbv zeta in Hx. call_step Hx.
  apply call_bind_ok in Hx as ([] & w1 & [= <-] & Hx).
  destruct (abi_decode_loan data) as [[caller plan]|]; [|done].
  destruct tokens as [|token [|? ?]], amounts as [|amount [|? ?]], fees as [|fee [|? ?]]; try done.
  call_step Hx. call_step Hx. call_step Hx.
  apply call_bind_ok in Hx as (out & w2 & Hr & Hx). apply runRoute_exposes in Hr. cbn in Hr.
  call_step Hx. call_step Hx. apply call_bind_ok in Hx as ([] & w3 & Ht & Hx).
  apply extern__seen in Ht as [Ht1 Ht2]. rewrite (xp_after _ _ _ Hr) in Ht1, Ht2.
  call_step Hx. apply call_bind_ok in Hx as ([] & w4 & Hs & Hx). injection Hx as <-.
  assert (exposes (wd_router w3) w3 w4) as Hs' by (revert Hs; exposes_steps).
  destruct Hr as [_ _ (k1 & S1)], Hs' as [_ _ (k2 & S2)]. cbn in S1, S2 |- *.
  exists (k1 + k2)%nat. rewrite S2, Ht2, S1, Ht1, <- !app_assoc. f_equal.
  by rewrite replicate_add, app_comm_cons, replicate_cons_app, <- app_assoc.
Qed.

(** The guards of the two entry points that run a plan: the body runs with the router
    marked as entered. *)
Lemma entry_ok {X : Type} sender (body : call C X) w a w' :
  (_ ← onlyExecutor sender; _ ← whenNotPaused; nonReentrant body) w = Ok (a, w') →
  ∃ w1, body {| wd_router := with_entered true (wd_router w); wd_chain := wd_chain w;
                wd_events := wd_events w; wd_seen := wd_seen w |} = Ok (a, w1) ∧ wd_seen w' = wd_seen w1.
Proof.
  unfold onlyExecutor, whenNotPaused, nonReentrant. intros Hx.
  apply call_bind_ok in Hx as (u & w0 & Hex & Hx). call_step Hex. apply require_ok in Hex as [_ ->].
  apply call_bind_ok in Hx as (u1 & w1 & Hp & Hx). call_step Hp. apply require_ok in Hp as [_ ->].
  call_step Hx. call_step Hx. call_step Hx.
  apply call_bind_ok in Hx as (a1 & w2 & Hb & Hx). call_step Hx. injection Hx as <- <-. eauto.
Qed.

(** C36. While a plan runs, the router cannot be entered.  In every execution that returns,
    each contract the router calls (the token, the venues, the vault) finds a storage in
    which every entry point reverts, whoever it calls as, the owner's administration
    excepted; of a loan, the vault alone may make its callback, in the call that lends,
    and after that nobody. *)
Theorem no_reentry vault_flashLoan sender plan w :
  lends this vault vault_flashLoan →
  (∀ out w', executePlan this sender plan w = Ok (out, w') →
   ∃ seen, wd_seen w' = wd_seen w ++ seen ∧ seen ≠ [] ∧
     ∀ r caller w1, r ∈ seen → wd_router w1 = r → sealed vault_flashLoan w1 caller) ∧
  (∀ w', executePlanWithFlashLoan vault_flashLoan sender plan w = Ok (tt, w') →
   ∃ lending seen, wd_seen w' = wd_seen w ++ lending :: seen ∧ seen ≠ [] ∧
     (∀ caller w1, wd_router w1 = lending → caller ≠ vault → sealed vault_flashLoan w1 caller) ∧
     ∀ r caller w1, r ∈ seen → wd_router w1 = r → sealed vault_flashLoan w1 caller).
Proof.
  intros HV. split.
  - intros out w' (w0 & Hb & ->)%entry_ok. unfold checkDeadline in Hb.
    apply call_bind_ok in Hb as (u2 & w3 & Hd & Hb). call_step Hd. apply require_ok in Hd as [_ ->].
    call_step Hb. call_step Hb. apply bool_decide_eq_true in E. cbn in E.
    set (r := with_entered true (wd_router w)) in *.
    apply call_bind_ok in Hb as (u3 & w4 & Hf & Hb). apply extern__seen in Hf as [R1 S1]. cbn in R1, S1.
    apply call_bind_ok in Hb as (out2 & w5 & Hr & Hb). apply runRoute_exposes in Hr.
    rewrite R1 in Hr. call_step Hb. call_step Hb.
    apply call_bind_ok in Hb as (u4 & w6 & Ht & Hb). apply extern__seen in Ht as [R3 S3].
    destruct Hr as [_ R2 (k & S2)]. call_step Hb. call_step Hb. injection Hb as <- <-. cbn.
    exists (replicate (S (k + 1)) r). split_and!; [|done|].
    { by rewrite S3, R2, S2, S1, Nat.add_1_r, replicate_S, replicate_S_end, <- !app_assoc. }
    intros r' caller w1 Hin Hw. apply elem_of_replicate in Hin as [-> _].
    apply entered_sealed; rewrite Hw; [done|by left].
  - intros w' (w0 & Hb & ->)%entry_ok. unfold checkDeadline in Hb.
    apply call_bind_ok in Hb as (u2 & w3 & Hd & Hb). call_step Hd. apply require_ok in Hd as [_ ->].
    call_step Hb. call_step Hb. cbv zeta in Hb. call_step Hb.
    apply call_bind_ok in Hb as ([] & w4 & Hl & Hb). call_step Hb. apply require_ok in Hb as [_ ->].
    apply HV in Hl as (fee & c1 & _ & Hl). apply receiveFlashLoan_exposes in Hl as (k & Hl). cbn in Hl.
    eexists _, (replicate (S k) _). cbn. rewrite Hl, <- app_assoc. split_and!; [done|done| |].
    + intros caller w1 Hw Hc. apply entered_sealed; rewrite Hw; [done|by right].
    + intros r caller w1 Hin Hw. apply (elem_of_replicate (S k)) in Hin as [-> _].
      apply entered_sealed; rewrite Hw; [done|by left].
Qed.
End settlement.

(** ** The plans of the engine *)

(** The venue data the engine encodes for an Aerodrome step is what the contract
    decodes. *)
Lemma extra_data_decodes (stable : bool) factory :
  length factory = 20%nat →
  abi_decode_stable_factory (replicate 31 0 ++ [if stable then 1 else 0] ++ replicate 12 0 ++ factory) =
    Some (stable, factory).
Proof.
  intros Hl. unfold abi_decode_stable_factory. rewrite bool_decide_false
    by (rewrite !length_app, !length_replicate, Hl; cbn; lia).
  assert (take 20 factory = factory) as Ht by (apply take_ge; lia).
  transitivity (Some (stable, take 20 factory)); [by destruct stable|by rewrite Ht].
Qed.

(** A revert that is the plan's own fault. *)
Definition malformed (e : Revert) : Prop :=
  match e with
  | EmptyRoute | InvalidRouteToken _ _ _ | UnsupportedVenue _ | AbiDecodeFailed => True
  | _ => False
  end.

(** A step the contract can run: a known venue, with its data. *)
Definition step_wf (step : RouterRouteStep) : Prop :=
  rr_venueKind step = venue_code UniswapV2 ∨ rr_venueKind step = venue_code UniswapV3Single ∨
  (rr_venueKind step = venue_code AerodromeV2 ∧
   is_Some (abi_decode_stable_factory (rr_extraData step))).

Section plans.
Context {A : Alloy} {HA : AlloyLaws A} {C : Type} {H : Chain C} (this : SolAddress).

Lemma build_route_step_wf index step r :
  build_route_step index step = Ok r → step_wf r ∧ rr_minAmountOut r = st_min_amount_out step ∧
  address_from_str (st_token_in step) = Ok (rr_tokenIn r) ∧
  address_from_str (st_token_out step) = Ok (rr_tokenOut r) ∧
  address_from_str (st_target step) = Ok (rr_target r).
Proof.
  unfold build_route_step, parse_address. intros Hx. apply bind_ok in Hx as (hint & _ & Hx).
  apply bind_ok in Hx as (target & Ht & Hx). apply bind_ok in Hx as (tin & Hi & Hx).
  apply bind_ok in Hx as (tout & Ho & Hx). apply map_err_ok in Ht, Hi, Ho. cbv zeta in Hx.
  case_bool_decide; [|case_bool_decide; [|case_bool_decide; [|done]]].
  - apply bind_ok in Hx as (fee & _ & Hx). apply bind_ok in Hx as (fee24 & _ & [= <-]).
    split_and!; try done. by right; left.
  - injection Hx as <-. split_and!; try done. by left.
  - apply bind_ok in Hx as (fs & _ & Hx). apply bind_ok in Hx as (factory & Hf & [= <-]).
    apply map_err_ok in Hf. split_and!; try done. right; right. split; [done|].
    eexists. apply (extra_data_decodes (bool_decide (hint = "aerodrome_v2_stable"%string))).
    by eapply address_from_str_length.
Qed.

Lemma extern_err {X : Type} (f : C → option (X * C)) w e : extern f w = Err e → e = ExternalRevert.
Proof. unfold extern. destruct (f _) as [[? ?]|]; [done|]. by intros [= <-]. Qed.

Lemma last_amount_err amounts (w : RouterWorld C) e : last_amount amounts w = Err e → e = ArithmeticPanic.
Proof. unfold last_amount. destruct (last amounts); [done|]. by intros [= <-]. Qed.

Lemma call_bind_err {X Y : Type} (m : call C X) (f : X → call C Y) w e :
  (m ≫= f) w = Err e → m w = Err e ∨ ∃ a w1, m w = Ok (a, w1) ∧ f a w1 = Err e.
Proof.
  unfold mbind, call_bind. destruct (m w) as [[a w1]|e'|]; [|intros [= ->]; by left|done].
  intros Hx. right. by exists a, w1.
Qed.

Lemma executeStep_err step amount deadline w e :
  step_wf step → executeStep this step amount deadline w = Err e → ¬ malformed e.
Proof.
  intros Hwf Hx. cut (e = ExternalRevert ∨ e = ArithmeticPanic); [intros [-> | ->]; cbn; tauto|].
  unfold executeStep in Hx. destruct Hwf as [Hk|[Hk|[Hk [[stable factory] Hd]]]]; rewrite Hk in Hx; cbn in Hx.
  - unfold swapUniswapV2, extern_ in Hx.
    apply call_bind_err in Hx as [Hx|(a & w1 & _ & Hx)]; [left; by eapply extern_err|].
    apply call_bind_err in Hx as [Hx|(a1 & w2 & _ & Hx)]; [left; by eapply extern_err|].
    right. by eapply last_amount_err.
  - unfold swapUniswapV3Single, extern_ in Hx. left.
    apply call_bind_err in Hx as [Hx|(a & w1 & _ & Hx)]; by eapply extern_err.
  - unfold swapAerodromeV2, extern_ in Hx. rewrite Hd in Hx.
    apply call_bind_err in Hx as [Hx|(a & w1 & _ & Hx)]; [left; by eapply extern_err|].
    apply call_bind_err in Hx as [Hx|(a1 & w2 & _ & Hx)]; [left; by eapply extern_err|].
    right. by eapply last_amount_err.
Qed.

(** The steps chain from one token to another. *)
Fixpoint chained (token : SolAddress) (steps : list RouterRouteStep) (final : SolAddress) : Prop :=
  match steps with
  | [] => token = final
  | step :: steps => rr_tokenIn step = token ∧ step_wf step ∧ chained (rr_tokenOut step) steps final
  end.

Lemma run_steps_chained deadline i steps amount token final w :
  chained token steps final →
  (∀ e, run_steps this deadline i steps amount token w = Err e → ¬ malformed e) ∧
  ∀ out token' w', run_steps this deadline i steps amount token w = Ok ((out, token'), w') → token' = final.
Proof.
  revert i amount token w. induction steps as [|step steps IH]; intros i amount token w; cbn [chained run_steps].
  { intros <-. split; [done|]. by intros out token' w' [= _ <- _]. }
  intros (Ht & Hwf & Hc). rewrite bool_decide_true by done.
  unfold mbind, call_bind, require. cbn [mret call_ret].
  destruct (executeStep this step amount deadline w) as [[next w1]|e|] eqn:Hs; [| |done].
  - destruct (negb (next <? rr_minAmountOut step)); [by apply IH|]. split; [|done].
    intros e [= <-]. cbn. tauto.
  - split; [|done]. intros e' [= <-]. by eapply executeStep_err.
Qed.

Lemma runRoute_chained plan amount w e :
  rp_steps plan ≠ [] → chained (rp_settlementToken plan) (rp_steps plan) (rp_settlementToken plan) →
  runRoute this plan amount w = Err e → ¬ malformed e.
Proof.
  intros Hne Hc. destruct (run_steps_chained (rp_deadline plan) 0 _ amount _ _ w Hc) as [He Hok].
  unfold runRoute. rewrite bool_decide_false by done.
  intros [Hx|(a & w1 & [= <- <-] & Hx)]%call_bind_err; [done|].
  apply call_bind_err in Hx as [Hx|([out token] & w1 & Hr & Hx)]; [by apply He|].
  rewrite (Hok _ _ _ Hr), bool_decide_true in Hx by done. done.
Qed.

(** A request that covers its loop becomes a plan whose route the contract accepts. *)
Lemma plan_chained config token amount c rq s1 s2 now address plan :
  request_covers token amount c rq s1 s2 → build_plan config rq now = Ok (address, plan) →
  chained (rp_settlementToken plan) (rp_steps plan) (rp_settlementToken plan) ∧
  rp_fundingAmount plan = amount ∧ rp_minRepayAmount plan = amount ∧
  rp_minSurplus plan = rq_min_surplus rq ∧
  ∃ r1 r2, rp_steps plan = [r1; r2] ∧ rr_minAmountOut r2 = st_min_amount_out s2.
Proof.
  intros [Hst Hrep Hloan Hasset Hin Hch Hout _ _] Hx. unfold build_plan, parse_address in Hx.
  apply bind_ok in Hx as (? & _ & Hx). apply bind_ok in Hx as (? & _ & Hx).
  rewrite Hasset, Hloan, Hst in Hx. cbn [ok_or mbind res_bind] in Hx.
  apply bind_ok in Hx as (settle & Hsettle & Hx). apply map_err_ok in Hsettle.
  apply bind_ok in Hx as (? & _ & Hx).
  apply bind_ok in Hx as (steps & Hsteps & Hx). apply bind_ok in Hx as (? & _ & [= _ <-]). cbn.
  cbn [build_route_steps] in Hsteps. apply bind_ok in Hsteps as (r1 & H1 & Hsteps).
  apply bind_ok in Hsteps as (rs & H2 & [= <-]). apply bind_ok in H2 as (r2 & H2 & [= <-]).
  apply build_route_step_wf in H1 as (W1 & _ & I1 & O1 & _).
  apply build_route_step_wf in H2 as (W2 & M2 & I2 & O2 & _).
  rewrite Hin in I1. rewrite Hch, O1 in I2. rewrite Hout in O2. cbn.
  split_and!; try congruence; try done. by exists r1, r2.
Qed.
End plans.

Section engine_plans.
Context {A : Alloy} {HA : AlloyLaws A} {C : Type} {H : Chain C} (this vault : SolAddress)
  (venue : SolAddress → Prop) {HL : ChainLaws C this venue}.
Context (vault_not_venue : ¬ venue vault) (vault_not_this : vault ≠ this).
Context (vault_flashLoan : list SolAddress → list Z → list Z → call C unit)
  (vault_lends : lends this vault vault_flashLoan).

(** C3. From the engine to the chain: a request that covers its loop becomes a plan that the
    contract never rejects as malformed, whatever its venues answer; and when its
    flash-loan transaction succeeds, the account of the engine has gained at least the
    required surplus and the simulated costs, with nothing taken from the vault or
    the router. *)
Theorem engine_plan_earns config token amount c rq s1 s2 now address plan sender w :
  request_covers token amount c rq s1 s2 → build_plan config rq now = Ok (address, plan) →
  outsider this vault venue sender → 0 ≤ amount → 0 ≤ rq_min_surplus rq →
  (∀ w1 e, runRoute this plan (rp_fundingAmount plan) w1 = Err e → ¬ malformed e) ∧
  ∀ w', executePlanWithFlashLoan vault_flashLoan sender plan w = Ok (tt, w') →
    balance_of (wd_chain w) (rp_settlementToken plan) sender + rq_min_surplus rq +
      sc_gas_cost_wei c + sc_l1_data_fee_wei c
      ≤ balance_of (wd_chain w') (rp_settlementToken plan) sender ∧
    (∀ t, balance_of (wd_chain w') t vault = balance_of (wd_chain w) t vault) ∧
    (∀ t, balance_of (wd_chain w) t this ≤ balance_of (wd_chain w') t this).
Proof.
  intros Hcov Hplan Hout H0 H1.
  destruct (plan_chained config token amount c rq s1 s2 now address plan Hcov Hplan)
    as (Hch & Hfund & Hrep & Hsur & r1 & r2 & Hst & Hmin).
  split.
  { intros w1 e. apply runRoute_chained; [|done]. by rewrite Hst. }
  intros w' Hx. apply (flash_loan_settled this vault venue vault_not_venue vault_not_this) in Hx
    as (_ & _ & out & step & _ & _ & Hl & Hs & _ & Hthis & Hvault & Hsend); [|done..|lia|lia].
  rewrite Hst in Hl. injection Hl as <-. split_and!; [|done..].
  rewrite Hsend. rewrite bool_decide_true by done. cbn [flag].
  pose proof (cov_surplus _ _ _ _ _ _ Hcov). rewrite (cov_repay _ _ _ _ _ _ Hcov) in *. lia.
Qed.
End engine_plans.
