(* ===== verification/Submit.v ===== *)
(** The submission path (crate [execution]: [gas.rs], [nonce.rs], [signer.rs],
    [submit.rs]): fee caps, the nonce counter, the signer sources, the build and
    broadcast of a transaction and the poll for its receipt.

    The node, the clock and the task scheduler are the class [RpcNode], the signer with
    the transaction encoding the class [TxSigner].  The transport [AlloySubmitTransport]
    carries the history of its requests ([al_trace]), so that what it sends, in which order
    and after which answers, is part of the statements. *)

From S2P Require Import Prelude RustStr Types Config Decision Execution.
#[local] Open Scope Z_scope.

(** ** Gas *)

Record GasPricing := {
  gp_max_fee_per_gas : Amount;
  gp_max_priority_fee_per_gas : Amount }.

Record GasCaps := {
  gc_max_fee_cap : option Amount;
  gc_max_priority_fee_cap : option Amount }.

Definition caps_from_config (config : ExecutionConfig) : anyhow GasCaps :=
  max_fee_cap ← opt_traverse
    (λ raw, context (parse_amount_anyhow raw) "failed to parse EXECUTION_MAX_FEE_PER_GAS_WEI")
    (exec_max_fee_per_gas_wei config);
  max_priority_fee_cap ← opt_traverse
    (λ raw, context (parse_amount_anyhow raw)
              "failed to parse EXECUTION_MAX_PRIORITY_FEE_PER_GAS_WEI")
    (exec_max_priority_fee_per_gas_wei config);
  Ok {| gc_max_fee_cap := max_fee_cap; gc_max_priority_fee_cap := max_priority_fee_cap |}.

(** [if let Some(cap) = .. { if v > cap { v = cap } }]. *)
Definition clamp (v : Amount) (cap : option Amount) : Amount :=
  match cap with Some cap => if cap <? v then cap else v | None => v end.

(** [estimate] is the node's answer: the fee and the priority fee per gas. *)
Definition estimate_fees (estimate : anyhow (Amount * Amount)) (caps : GasCaps) :
    anyhow GasPricing :=
  '(fee, priority) ← context estimate "failed to estimate EIP-1559 fees from provider";
  let max_fee := clamp fee (gc_max_fee_cap caps) in
  let max_priority_fee := clamp priority (gc_max_priority_fee_cap caps) in
  let max_priority_fee := if max_fee <? max_priority_fee then max_fee else max_priority_fee in
  Ok {| gp_max_fee_per_gas := max_fee; gp_max_priority_fee_per_gas := max_priority_fee |}.

(** ** Nonces *)

Record NonceState := {
  ns_next : Z;                                (* u64 *)
  ns_initialised : bool }.

Definition nonce_new : NonceState := {| ns_next := 0; ns_initialised := false |}.

(** [pending] is the node's answer to the transaction count of the signer. *)
Definition sync_from_chain (pending : anyhow Z) (s : NonceState) : anyhow Z * NonceState :=
  match context pending "failed to fetch pending transaction count from provider" with
  | Ok n => (Ok n, {| ns_next := n; ns_initialised := true |})
  | Err e => (Err e, s)
  | Panic => (Panic, s)
  end.

Definition nonce_next (s : NonceState) : anyhow Z * NonceState :=
  if negb (ns_initialised s)
  then (bail "nonce manager has not been initialised; call sync_from_chain first", s) else
  match checked_add 64 (ns_next s) 1 with
  | Some n => (Ok (ns_next s), {| ns_next := n; ns_initialised := ns_initialised s |})
  | None => (bail "nonce counter overflow", s)
  end.

Definition nonce_release (expected : Z) (s : NonceState) : NonceState :=
  if ns_next s =? saturating_add 64 expected 1
  then {| ns_next := expected; ns_initialised := ns_initialised s |}
  else s.

(** ** Signers *)

Section signer.
(** [PrivateKeySigner::from_bytes], [LocalSigner::decrypt_keystore] and
    [Signer::set_chain_id]. *)
Context {Signer : Type} (signer_from_bytes : list Z → anyhow Signer)
  (decrypt_keystore : string → string → anyhow Signer) (set_chain_id : Signer → Z → Signer).

(** The loop over the 32 pairs; a pair that cuts a character in two panics, as
    slicing a string does. [next] is the byte after the pair. *)
Fixpoint hex_pairs (offset : Z) (l : list Z) : anyhow (list Z) :=
  match l with
  | [] => Ok []
  | a :: b :: l' =>
      if is_continuation a || match l' with c :: _ => is_continuation c | [] => false end
      then Panic else
      byte ← context (map_err (λ e, [show_parse_error e]) (from_str_radix 8 16 (str_of [a; b])))
               ("invalid hex byte at offset " +:+ show_uint offset);
      bytes ← hex_pairs (offset + 2) l';
      Ok (byte :: bytes)
  | [_] => Panic
  end.

Definition hex_decode_32 (input : string) : anyhow (list Z) :=
  if negb (str_len input =? 64)
  then bail ("expected 64 hex characters, got " +:+ show_uint (str_len input))
  else hex_pairs 0 (bytes_of input).

Definition signer_from_private_key (raw : string) : anyhow Signer :=
  let trimmed := trim_start_matches "0x" (trim raw) in
  bytes ← context (hex_decode_32 trimmed)
    "SIGNER_PRIVATE_KEY must be 32-byte hex (with or without 0x prefix)";
  context (signer_from_bytes bytes) "failed to construct signer from SIGNER_PRIVATE_KEY".

Definition signer_from_keystore (path password : string) : anyhow Signer :=
  context (decrypt_keystore path password) ("failed to decrypt keystore at " +:+ path).

Definition load_signer (config : SignerConfig) (chain_id : Z) : anyhow Signer :=
  signer ←
    match sgn_private_key config, sgn_keystore_path config, sgn_aws_kms_key_id config with
    | Some raw, _, _ => signer_from_private_key raw
    | None, Some path, _ =>
        password ← ok_or (sgn_keystore_password config)
          ["SIGNER_KEYSTORE_PATH is set but SIGNER_KEYSTORE_PASSWORD is missing"%string];
        signer_from_keystore path password
    | None, None, Some _ =>
        bail "AWS KMS signer is configured but not yet implemented; provide SIGNER_PRIVATE_KEY or SIGNER_KEYSTORE_PATH instead"
    | None, None, None => bail "no signer source configured"
    end;
  Ok (set_chain_id signer chain_id).
End signer.

(** ** Submission *)

Record TxEip1559 := {
  tx1559_chain_id : Z;
  tx1559_nonce : Z;
  tx1559_gas_limit : Z;
  tx1559_max_fee_per_gas : Amount;
  tx1559_max_priority_fee_per_gas : Amount;
  tx1559_to : list Z;
  tx1559_value : Z;
  tx1559_input : list Z }.

(** [TransactionRequest] with the fields the transport sets. *)
Record CallRequest := {
  call_from : list Z;
  call_to : list Z;
  call_input : list Z;
  call_gas_limit : option Z;
  call_value : Z }.

Record ChainReceipt := {
  cr_block_number : option BlockNumber;
  cr_status : bool;
  cr_gas_used : Z;
  cr_effective_gas_price : Amount }.

(** What a request to a service brings back. *)
Inductive Reply (E B : Type) := Answer (b : B) | Refuse (e : E).
Arguments Answer {E B} b.
Arguments Refuse {E B} e.

Definition of_reply {E B : Type} (r : Reply E B) : res E B :=
  match r with Answer b => Ok b | Refuse e => Err e end.

(** The node, the clock and the scheduler, with a state of their own.  [submit] and
    [simulate] run under a timeout of the caller, so the answer of a request they make may
    be [None]: the timeout elapses first and the future is dropped there.  Nothing limits
    the wait for a receipt from outside.  [instant] is the monotonic clock, in nanoseconds;
    [sleep] waits for a duration; [tasks_run] is how many of the spawned tasks, in the
    order they were spawned, have run when the nonce counter is locked. *)
Class RpcNode (N : Type) := {
  rpc_fees : N → option (Reply error (Amount * Amount)) * N;
  rpc_call : N → CallRequest → option (Reply string unit) * N;
  rpc_send_raw : N → list Z → option (Reply error string) * N;
  rpc_estimate_gas : N → CallRequest → option (Reply string Z) * N;
  rpc_receipt : N → list Z → Reply error (option ChainReceipt) * N;
  instant : N → Z;
  sleep : N → Z → N;
  tasks_run : N → nat * N }.

(** Documented of [Instant] and of [tokio::time::sleep]: the clock does not go back, and a
    sleep lasts at least its duration. *)
Class ClockLaws {N : Type} (R : RpcNode N) : Prop := {
  receipt_later n hash : instant n ≤ instant (rpc_receipt n hash).2;
  sleep_later n d : instant n + d ≤ instant (sleep n d) }.

(** The signer: its address, and a transaction signed and encoded. *)
Class TxSigner (S : Type) := {
  signer_address : S → list Z;
  sign_transaction : S → TxEip1559 → Reply error (list Z) }.

(** What passes between the transport and its services. *)
Inductive Wire :=
| WFees (r : option (Reply error (Amount * Amount)))
| WCall (request : CallRequest) (r : option (Reply string unit))
| WSend (raw : list Z) (r : option (Reply error string))
| WEstimate (request : CallRequest) (r : option (Reply string Z))
| WReceipt (hash : list Z) (r : Reply error (option ChainReceipt))
| WDeadline (started timeout : Z)
| WNow (now : Z)
| WSleep (d : Z).

(** The transport with the services behind it: the fields of the struct, the nonces whose
    release was spawned as a task and has not run, and the history of its requests. *)
Record AlloySubmitTransport (N S : Type) := {
  al_node : N;
  al_chain_id : Z;
  al_signer : S;
  al_nonce : NonceState;
  al_caps : GasCaps;
  al_poll_interval : Z;
  al_spawned : list Z;
  al_trace : list Wire }.
Arguments al_node {N S} _.
Arguments al_chain_id {N S} _.
Arguments al_signer {N S} _.
Arguments al_nonce {N S} _.
Arguments al_caps {N S} _.
Arguments al_poll_interval {N S} _.
Arguments al_spawned {N S} _.
Arguments al_trace {N S} _.

(** Nanoseconds. *)
Definition DEFAULT_RECEIPT_POLL_INTERVAL : Z := 750 * 10 ^ 6.

Definition alloy_new {N S : Type} (node : N) (chain_id : Z) (signer : S) (nonce : NonceState)
    (caps : GasCaps) : AlloySubmitTransport N S :=
  {| al_node := node; al_chain_id := chain_id; al_signer := signer; al_nonce := nonce;
     al_caps := caps; al_poll_interval := DEFAULT_RECEIPT_POLL_INTERVAL; al_spawned := [];
     al_trace := [] |}.

(** Why an operation is over without a result: its error, or the caller's timeout. *)
Inductive Halt := Bailed (e : error) | Elapsed.

Definition router_of `{Alloy} (payload : SubmissionPayload) : anyhow (list Z) :=
  context (address_from_str (sp_router_address payload))
    ("invalid router address `" +:+ sp_router_address payload +:+ "`").

(** The spawned releases, run in order. *)
Definition run_releases (releases : list Z) (s : NonceState) : NonceState :=
  foldl (λ s n, nonce_release n s) s releases.

Definition translate_receipt (tx_hash_hex : string) (receipt : ChainReceipt) : ExecutionReceipt :=
  {| rc_request_id := "";
     rc_tx_hash := tx_hash_hex;
     rc_block_number := cr_block_number receipt;
     rc_success := cr_status receipt;
     rc_gas_used := Some (cr_gas_used receipt mod 2 ^ 64);
     rc_effective_gas_price := Some (cr_effective_gas_price receipt);
     rc_l1_fee_paid := None;
     rc_revert_reason := if cr_status receipt then None
                         else Some "transaction reverted on-chain"%string |}.

Definition with_request_id (r : ExecutionReceipt) (id : string) : ExecutionReceipt :=
  {| rc_request_id := id; rc_tx_hash := rc_tx_hash r; rc_block_number := rc_block_number r;
     rc_success := rc_success r; rc_gas_used := rc_gas_used r;
     rc_effective_gas_price := rc_effective_gas_price r; rc_l1_fee_paid := rc_l1_fee_paid r;
     rc_revert_reason := rc_revert_reason r |}.

(** [Instant + Duration] panics when the sum is beyond the clock's 63 bits of seconds. *)
Definition INSTANT_END : Z := 2 ^ 63 * 10 ^ 9.

Section submit.
Context {A : Alloy} {N : Type} {R : RpcNode N} {S : Type} {G : TxSigner S}.
Abbreviation transport := (AlloySubmitTransport N S).
Abbreviation eff_t := (eff transport Halt).

Definition moved_to (t : transport) (node : N) (trace : list Wire) : transport :=
  {| al_node := node; al_chain_id := al_chain_id t; al_signer := al_signer t;
     al_nonce := al_nonce t; al_caps := al_caps t; al_poll_interval := al_poll_interval t;
     al_spawned := al_spawned t; al_trace := al_trace t ++ trace |}.

Definition with_nonces (t : transport) (nonce : NonceState) (spawned : list Z) : transport :=
  {| al_node := al_node t; al_chain_id := al_chain_id t; al_signer := al_signer t;
     al_nonce := nonce; al_caps := al_caps t; al_poll_interval := al_poll_interval t;
     al_spawned := spawned; al_trace := al_trace t |}.

(** A request, and its answer unless the timeout elapses. *)
Definition request {B : Type} (f : N → B * N) (wire : B → Wire) : eff_t B := λ t,
  let '(r, node) := f (al_node t) in (Ok r, moved_to t node [wire r]).

Definition answered {E B : Type} (r : option (Reply E B)) : eff_t (res E B) :=
  match r with Some r => mret (of_reply r) | None => lift (Err Elapsed) end.

Definition anyhow_t {B : Type} (r : anyhow B) : eff_t B := lift (map_err Bailed r).
Definition field {B : Type} (f : transport → B) : eff_t B := λ t, (Ok (f t), t).

(** [self.nonce.next()]: the tasks that have run have released their nonces. *)
Definition reserve_nonce : eff_t Z := λ t,
  let '(k, node) := tasks_run (al_node t) in
  let '(r, nonce) := nonce_next (run_releases (take k (al_spawned t)) (al_nonce t)) in
  (map_err Bailed (context r "failed to reserve nonce for submission"),
   with_nonces (moved_to t node []) nonce (drop k (al_spawned t))).

Definition nonce_release_async (nonce : Z) : eff_t unit := λ t,
  (Ok tt, with_nonces t (al_nonce t) (al_spawned t ++ [nonce])).

Definition preflight_call (to calldata : list Z) (gas_limit : Z) (value : Amount) : eff_t unit :=
  signer ← field al_signer;
  let call := {| call_from := signer_address signer; call_to := to; call_input := calldata;
                 call_gas_limit := Some gas_limit; call_value := value |} in
  r ← request (λ n, rpc_call n call) (WCall call);
  r ← answered r;
  match r with
  | Ok _ => mret tt
  | Err e => anyhow_t (bail ("preflight eth_call reverted: " +:+ e))
  | Panic => lift Panic
  end.

Definition submit_inner (payload : SubmissionPayload) (attempt : ExecutionAttempt) : eff_t string :=
  to ← anyhow_t (router_of payload);
  caps ← field al_caps;
  fees ← request rpc_fees WFees;
  fees ← answered fees;
  pricing ← anyhow_t (context (estimate_fees fees caps)
                        "failed to obtain gas pricing for submission");
  nonce ← reserve_nonce;
  gas_limit ← anyhow_t (ok_or (at_gas_limit attempt)
    ["execution attempt is missing gas_limit; refusing to submit"%string]);
  _ ← preflight_call to (sp_calldata payload) gas_limit (sp_value payload);
  chain_id ← field al_chain_id;
  signer ← field al_signer;
  let tx := {|
    tx1559_chain_id := chain_id;
    tx1559_nonce := nonce;
    tx1559_gas_limit := gas_limit;
    tx1559_max_fee_per_gas := gp_max_fee_per_gas pricing;
    tx1559_max_priority_fee_per_gas := gp_max_priority_fee_per_gas pricing;
    tx1559_to := to;
    tx1559_value := sp_value payload;
    tx1559_input := sp_calldata payload |} in
  raw ← anyhow_t (context (of_reply (sign_transaction signer tx))
                    "failed to sign EIP-1559 transaction hash");
  pending ← request (λ n, rpc_send_raw n raw) (WSend raw);
  pending ← answered pending;
  match pending with
  | Ok tx_hash => mret tx_hash
  | Err e =>
      _ ← nonce_release_async nonce;
      anyhow_t (Err ("failed to broadcast raw transaction"%string :: e))
  | Panic => lift Panic
  end.

Definition transport_simulate (payload : SubmissionPayload) (attempt : ExecutionAttempt) :
    eff_t EthCallSimulation :=
  to ← anyhow_t (router_of payload);
  signer ← field al_signer;
  let call := {| call_from := signer_address signer; call_to := to;
                 call_input := sp_calldata payload; call_gas_limit := at_gas_limit attempt;
                 call_value := sp_value payload |} in
  r ← request (λ n, rpc_call n call) (WCall call);
  r ← answered r;
  _ ← anyhow_t (map_err (λ err, ["eth_call simulation reverted: " +:+ err]) r);
  gas ← request (λ n, rpc_estimate_gas n call) (WEstimate call);
  gas ← answered gas;
  mret (Passed match gas with Ok gas_used => Some gas_used | _ => None end).

(** ** Receipts *)

(** Without fuel the loop returns [None], as after the deadline; [await_receipt_bounded]
    shows that the fuel it gets lasts until then. *)
Fixpoint poll_loop (tx_hash_hex : string) (tx_hash : list Z) (deadline : Z) (fuel : nat) :
    eff_t (option ExecutionReceipt) :=
  match fuel with
  | O => mret None
  | Datatypes.S fuel =>
      answer ← request (λ n, rpc_receipt n tx_hash) (WReceipt tx_hash);
      receipt ← anyhow_t (context (of_reply answer) "failed to query transaction receipt");
      match receipt with
      | Some receipt => mret (Some (translate_receipt tx_hash_hex receipt))
      | None =>
          now ← request (λ n, (instant n, n)) WNow;
          if deadline <=? now then mret None else
          interval ← field al_poll_interval;
          _ ← request (λ n, (tt, sleep n interval)) (λ _, WSleep interval);
          poll_loop tx_hash_hex tx_hash deadline fuel
      end
  end.

(** The timeout is in nanoseconds. *)
Definition poll_receipt (tx_hash_hex : string) (timeout : Z) : eff_t (option ExecutionReceipt) :=
  started ← request (λ n, (instant n, n)) (λ started, WDeadline started timeout);
  let deadline := started + timeout in
  if INSTANT_END <=? deadline then lift Panic else
  tx_hash ← anyhow_t (context (bytes32_from_str tx_hash_hex)
                        ("invalid tx hash `" +:+ tx_hash_hex +:+ "`"));
  interval ← field al_poll_interval;
  poll_loop tx_hash_hex tx_hash deadline (Z.to_nat (timeout / interval) + 2).

Definition await_receipt (attempt : ExecutionAttempt) (timeout : Z) :
    eff_t (option ExecutionReceipt) :=
  tx_hash ← anyhow_t (ok_or (at_tx_hash attempt)
                        ["execution attempt has no tx_hash to await"%string]);
  receipt ← poll_receipt tx_hash timeout;
  mret ((λ rx, with_request_id rx (at_request_id attempt)) <$> receipt).

(** The results as the caller sees them. *)
Definition timed {B : Type} (r : res Halt B) : option (anyhow B) :=
  match r with
  | Ok b => Some (Ok b)
  | Err (Bailed e) => Some (Err e)
  | Err Elapsed => None
  | Panic => Some Panic
  end.
Definition untimed {B : Type} (r : res Halt B) : anyhow B :=
  match r with
  | Ok b => Ok b
  | Err (Bailed e) => Err e
  | Err Elapsed => Err []
  | Panic => Panic
  end.

#[global] Instance alloy_transport : ExecutionTransport transport := {|
  tr_submit t payload attempt := let '(r, t) := submit_inner payload attempt t in (timed r, t);
  tr_await_receipt t _ attempt timeout_secs :=
    let '(r, t) := await_receipt attempt (timeout_secs * 10 ^ 9) t in (untimed r, t);
  tr_simulate t payload attempt :=
    let '(r, t) := transport_simulate payload attempt t in (timed r, t) |}.
End submit.

(** ** Properties *)

Lemma clamp_min v cap : clamp v cap = match cap with Some c => Z.min v c | None => v end.
Proof. unfold clamp. destruct cap as [c|]; [|done]. destruct (c <? v) eqn:?; lia. Qed.

(** The fees offered are the node's estimate cut to the configured caps,
    and the priority fee is never above the fee. *)
Theorem estimate_fees_capped fee priority caps :
  ∃ g, estimate_fees (Ok (fee, priority)) caps = Ok g ∧
    gp_max_priority_fee_per_gas g ≤ gp_max_fee_per_gas g ≤ fee ∧
    gp_max_priority_fee_per_gas g ≤ priority ∧
    (∀ cap, gc_max_fee_cap caps = Some cap → gp_max_fee_per_gas g = Z.min fee cap) ∧
    (∀ cap, gc_max_priority_fee_cap caps = Some cap → gp_max_priority_fee_per_gas g ≤ cap).
Proof.
  unfold estimate_fees. cbn [context map_err mbind res_bind]. cbv zeta. rewrite !clamp_min.
  eexists. split; [reflexivity|].
  cbn [gp_max_fee_per_gas gp_max_priority_fee_per_gas].
  destruct (gc_max_fee_cap caps) as [c|], (gc_max_priority_fee_cap caps) as [d|];
    destruct (_ <? _) eqn:?; split_and!; intros; simplify_eq; lia.
Qed.

Lemma nonce_next_ok s n s' :
  nonce_next s = (Ok n, s') →
  n = ns_next s ∧ ns_initialised s = true ∧ ns_next s' = n + 1 ∧ ns_initialised s' = true ∧
  n + 1 < 2 ^ 64.
Proof.
  unfold nonce_next. destruct (ns_initialised s) eqn:Hi; [|done]. cbn [negb].
  destruct (checked_add 64 (ns_next s) 1) eqn:Hc; [|done]. intros [= <- <-].
  apply checked_add_some in Hc as [-> Hc]. cbn. split_and!; (done || lia).
Qed.

Lemma nonce_next_err s r s' : nonce_next s = (r, s') → (∀ n, r ≠ Ok n) → s' = s.
Proof. unfold nonce_next. intros H Hr. repeat case_match; naive_solver. Qed.

Lemma nonce_release_undo s n s' : nonce_next s = (Ok n, s') → nonce_release n s' = s.
Proof.
  intros Hn. pose proof (nonce_next_ok _ _ _ Hn) as (-> & Hi & Hnext & Hi' & Hlt).
  unfold nonce_release, saturating_add. rewrite Hnext, Z.min_l by (unfold uint_max; lia).
  rewrite Z.eqb_refl, Hi'. destruct s. cbn in *. by rewrite Hi.
Qed.

Section submit_properties.
Context {A : Alloy} {HA : AlloyLaws A} {N : Type} {R : RpcNode N} {S : Type} {G : TxSigner S}.
Abbreviation transport := (AlloySubmitTransport N S).
Implicit Types t : transport.

Lemma router_of_no_panic payload : router_of payload ≠ Panic.
Proof.
  unfold router_of. pose proof (address_from_str_no_panic (sp_router_address payload)).
  by destruct (address_from_str _).
Qed.

Lemma estimate_fees_ok r caps pricing :
  estimate_fees r caps = Ok pricing → ∃ fees, r = Ok fees.
Proof. unfold estimate_fees. destruct r as [fees| |]; cbn; [by exists fees|done..]. Qed.

Lemma estimate_fees_no_panic r caps : r ≠ Panic → estimate_fees r caps ≠ Panic.
Proof. unfold estimate_fees. by destruct r as [[fee priority]| |]. Qed.

Lemma nonce_next_no_panic s : (nonce_next s).1 ≠ Panic.
Proof. unfold nonce_next. repeat case_match; done. Qed.

Lemma of_reply_no_panic {E B : Type} (r : Reply E B) : of_reply r ≠ Panic.
Proof. by destruct r. Qed.

(** The dry run and the transaction of a submission. *)
Definition dry_run (t : transport) (payload : SubmissionPayload) (to : list Z) (gas_limit : Z) :
    CallRequest :=
  {| call_from := signer_address (al_signer t); call_to := to; call_input := sp_calldata payload;
     call_gas_limit := Some gas_limit; call_value := sp_value payload |}.

Definition submitted_tx (t : transport) (pricing : GasPricing) (to : list Z) (gas_limit nonce : Z)
    (payload : SubmissionPayload) : TxEip1559 :=
  {| tx1559_chain_id := al_chain_id t; tx1559_nonce := nonce; tx1559_gas_limit := gas_limit;
     tx1559_max_fee_per_gas := gp_max_fee_per_gas pricing;
     tx1559_max_priority_fee_per_gas := gp_max_priority_fee_per_gas pricing;
     tx1559_to := to; tx1559_value := sp_value payload; tx1559_input := sp_calldata payload |}.

(** The counter once some of the spawned releases have run. *)
Definition counter (t : transport) (k : nat) : NonceState :=
  run_releases (take k (al_spawned t)) (al_nonce t).

(** A submission that reaches the broadcast of [raw] and gets the answer [sent]. *)
Record broadcast (t : transport) (payload : SubmissionPayload) (attempt : ExecutionAttempt)
    (k : nat) (raw : list Z) (sent : option (Reply error string)) (r : res Halt string)
    (t' : transport) : Prop := {
  bc_sent : ∃ to fees pricing gas_limit nonce,
    router_of payload = Ok to ∧ estimate_fees (Ok fees) (al_caps t) = Ok pricing ∧
    at_gas_limit attempt = Some gas_limit ∧
    nonce = ns_next (counter t k) ∧
    sign_transaction (al_signer t) (submitted_tx t pricing to gas_limit nonce payload) = Answer raw ∧
    al_trace t' = al_trace t ++
      [WFees (Some (Answer fees)); WCall (dry_run t payload to gas_limit) (Some (Answer tt));
       WSend raw sent] ∧
    al_spawned t' = drop k (al_spawned t) ++
      match sent with Some (Refuse _) => [nonce] | _ => [] end ∧
    nonce_release nonce (al_nonce t') = counter t k;
  bc_counter : ns_next (al_nonce t') = ns_next (counter t k) + 1 ∧ ns_initialised (al_nonce t') = true;
  bc_result : r = match sent with
                  | Some (Answer tx_hash) => Ok tx_hash
                  | Some (Refuse e) => Err (Bailed ("failed to broadcast raw transaction"%string :: e))
                  | None => Err Elapsed
                  end }.

(** Why a submission ends before, after which requests, and the counter it leaves. *)
Inductive stopped (t : transport) (payload : SubmissionPayload) (attempt : ExecutionAttempt) :
    nat → list Wire → NonceState → Halt → Prop :=
| stopped_router e : router_of payload = Err e →
    stopped t payload attempt 0 [] (al_nonce t) (Bailed e)
| stopped_fees e :
    stopped t payload attempt 0 [WFees (Some (Refuse e))] (al_nonce t)
      (Bailed ("failed to obtain gas pricing for submission"%string ::
               "failed to estimate EIP-1559 fees from provider"%string :: e))
| stopped_fees_elapsed : stopped t payload attempt 0 [WFees None] (al_nonce t) Elapsed
| stopped_nonce k fees e : nonce_next (counter t k) = (Err e, counter t k) →
    stopped t payload attempt k [WFees (Some (Answer fees))] (counter t k)
      (Bailed ("failed to reserve nonce for submission"%string :: e))
| stopped_gas k fees nonce s : nonce_next (counter t k) = (Ok nonce, s) →
    at_gas_limit attempt = None →
    stopped t payload attempt k [WFees (Some (Answer fees))] s
      (Bailed ["execution attempt is missing gas_limit; refusing to submit"%string])
| stopped_call k fees nonce s to gas_limit r h : nonce_next (counter t k) = (Ok nonce, s) →
    router_of payload = Ok to → at_gas_limit attempt = Some gas_limit →
    match r with
    | Some (Answer _) => False
    | Some (Refuse e) => h = Bailed ["preflight eth_call reverted: " +:+ e]
    | None => h = Elapsed
    end →
    stopped t payload attempt k
      [WFees (Some (Answer fees)); WCall (dry_run t payload to gas_limit) r] s h
| stopped_sign k fees pricing nonce s to gas_limit e : nonce_next (counter t k) = (Ok nonce, s) →
    router_of payload = Ok to → estimate_fees (Ok fees) (al_caps t) = Ok pricing →
    at_gas_limit attempt = Some gas_limit →
    sign_transaction (al_signer t) (submitted_tx t pricing to gas_limit nonce payload) = Refuse e →
    stopped t payload attempt k
      [WFees (Some (Answer fees)); WCall (dry_run t payload to gas_limit) (Some (Answer tt))] s
      (Bailed ("failed to sign EIP-1559 transaction hash"%string :: e)).

Lemma stopped_sends_nothing t payload attempt k l s h :
  stopped t payload attempt k l s h →
  Forall (λ w, match w with WSend _ _ => False | _ => True end) l.
Proof. intros []; by repeat constructor. Qed.

(** A submission that ends before: nothing is sent and nothing is spawned. *)
Record unsent (t : transport) (payload : SubmissionPayload) (attempt : ExecutionAttempt) (k : nat)
    (r : res Halt string) (t' : transport) : Prop := {
  us_stopped : ∃ l h, stopped t payload attempt k l (al_nonce t') h ∧ r = Err h ∧
    al_trace t' = al_trace t ++ l;
  us_spawned : al_spawned t' = drop k (al_spawned t) }.

Lemma unsent_intro payload attempt t t' k l h :
  stopped t payload attempt k l (al_nonce t') h → al_trace t' = al_trace t ++ l →
  al_spawned t' = drop k (al_spawned t) →
  (Err h : res Halt string) ≠ Panic ∧
  ∃ k, (∃ raw sent, broadcast t payload attempt k raw sent (Err h) t') ∨
       unsent t payload attempt k (Err h) t'.
Proof. intros Hst Ht Hs. split; [done|]. exists k. right. constructor; eauto. Qed.

(** The two ways a submission can go. *)
Lemma submit_inner_cases payload attempt t r t' :
  submit_inner payload attempt t = (r, t') →
  r ≠ Panic ∧
  ∃ k, (∃ raw sent, broadcast t payload attempt k raw sent r t') ∨
       unsent t payload attempt k r t'.
Proof.
  unfold submit_inner, preflight_call. pose proof (router_of_no_panic payload) as Hrp.
  unfold mbind, eff_bind, anyhow_t, lift, field, request, answered, reserve_nonce,
    nonce_release_async, mret, eff_ret.
  destruct (router_of payload) as [to|e|] eqn:Hto; cbn [map_err]; [| |done].
  2: { intros [= <- <-]. eapply unsent_intro; [by constructor|by rewrite app_nil_r|by rewrite drop_0]. }
  destruct (rpc_fees (al_node t)) as [[[fees|e]|] n1]; cbn [of_reply].
  2,3: intros [= <- <-]; eapply unsent_intro; [cbn; constructor|done|by rewrite drop_0].
  pose proof (estimate_fees_no_panic (Ok fees) (al_caps t) ltac:(done)) as Hep.
  destruct (estimate_fees (Ok fees) (al_caps t)) as [pricing|e|] eqn:Hfees; cbn [context map_err]; [| |done].
  2: { by destruct fees. }
  destruct (tasks_run _) as [k n2]. cbn [al_spawned al_nonce moved_to].
  pose proof (nonce_next_no_panic (counter t k)) as Hnp.
  destruct (nonce_next (run_releases (take k (al_spawned t)) (al_nonce t))) as [rn s1] eqn:Hn.
  fold (counter t k) in Hn. rewrite Hn in Hnp.
  destruct rn as [nonce|e|]; cbn [context map_err]; [| |done].
  2: { intros [= <- <-]. eapply unsent_intro; [|cbn; by rewrite app_nil_r|done]. cbn.
       pose proof (nonce_next_err _ _ _ Hn ltac:(done)) as ->. by apply stopped_nonce. }
  destruct (at_gas_limit attempt) as [gas_limit|] eqn:Hgas; cbn [ok_or map_err].
  2: { intros [= <- <-]. eapply unsent_intro; [by eapply stopped_gas|cbn; by rewrite app_nil_r|done]. }
  cbn [al_signer al_node al_chain_id with_nonces moved_to].
  match goal with |- context [WCall ?c] => change c with (dry_run t payload to gas_limit) end.
  destruct (rpc_call _ _) as [[[[]|e]|] n3]; cbn [of_reply].
  2,3: intros [= <- <-]; eapply unsent_intro; [|cbn; by rewrite app_nil_r, <- app_assoc|done];
         cbn [al_nonce moved_to with_nonces]; by eapply stopped_call.
  match goal with |- context [sign_transaction _ ?tx] =>
    change tx with (submitted_tx t pricing to gas_limit nonce payload) end.
  cbn [al_signer al_node with_nonces moved_to].
  destruct (sign_transaction _ _) as [raw|e] eqn:Hsign; cbn [of_reply context map_err].
  2: { intros [= <- <-]. eapply unsent_intro; [|cbn; by rewrite app_nil_r, <- app_assoc|done].
       cbn [al_nonce moved_to with_nonces]. by eapply stopped_sign. }
  pose proof (nonce_next_ok _ _ _ Hn) as (Hnonce & _ & Hnext & Hinit & _).
  pose proof (nonce_release_undo _ _ _ Hn) as Hundo.
  destruct (rpc_send_raw _ _) as [sent n4]. intros H. assert (r ≠ Panic) as Hr.
  { destruct sent as [[]|]; by injection H as <- _. }
  split; [done|]. exists k. left. exists raw, sent.
  destruct sent as [[tx_hash|e]|]; cbn [of_reply] in H; injection H as <- <-;
    (constructor; [|cbn; by rewrite <- Hnonce, Hnext|reflexivity]);
    exists to, fees, pricing, gas_limit, nonce;
    (split_and!; cbn; first [done | by rewrite app_nil_r, <- !app_assoc | by rewrite ?app_nil_r]).
Qed.


(** A submission whose dry run reverts keeps the nonce it has reserved: it is
    never released, and the next submission leaves a gap. *)
Theorem submit_leaks_nonce payload attempt t to fees pricing gas_limit n1 n2 n3 e :
  router_of payload = Ok to → rpc_fees (al_node t) = (Some (Answer fees), n1) →
  estimate_fees (Ok fees) (al_caps t) = Ok pricing → tasks_run n1 = (O, n2) →
  ns_initialised (al_nonce t) = true → ns_next (al_nonce t) + 1 < 2 ^ 64 →
  at_gas_limit attempt = Some gas_limit →
  rpc_call n2 (dry_run t payload to gas_limit) = (Some (Refuse e), n3) →
  let '(r, t') := submit_inner payload attempt t in
  r = Err (Bailed ["preflight eth_call reverted: " +:+ e]) ∧
  al_spawned t' = al_spawned t ∧ ns_next (al_nonce t') = ns_next (al_nonce t) + 1.
Proof.
  intros Hto Hfees Hprice Htasks Hi Hlt Hgas Hcall. unfold submit_inner, preflight_call.
  unfold mbind, eff_bind, anyhow_t, lift, field, request, answered, reserve_nonce, mret, eff_ret.
  rewrite Hto. cbn [map_err]. rewrite Hfees. cbn [of_reply]. rewrite Hprice. cbn [context map_err].
  cbn [al_node moved_to]. rewrite Htasks.
  match goal with |- context [nonce_next ?x] => change x with (al_nonce t) end.
  unfold nonce_next, checked_add. rewrite Hi. cbn [negb].
  replace (ns_next (al_nonce t) + 1 <? 2 ^ 64) with true by lia. cbn [context map_err].
  rewrite Hgas. cbn [ok_or map_err al_node al_signer with_nonces moved_to].
  unfold dry_run in Hcall. rewrite Hcall. done.
Qed.

(** ** Waiting *)

(** A run of the loop over the answers of the node: how many there were and the one that
    decided; [None] decides only after the deadline. *)
Inductive polled (tx_hash : list Z) (deadline interval : Z) :
    list Wire → nat → Reply error (option ChainReceipt) → Prop :=
| polled_found c :
    polled tx_hash deadline interval [WReceipt tx_hash (Answer (Some c))] 1 (Answer (Some c))
| polled_refused e :
    polled tx_hash deadline interval [WReceipt tx_hash (Refuse e)] 1 (Refuse e)
| polled_late now : deadline ≤ now →
    polled tx_hash deadline interval [WReceipt tx_hash (Answer None); WNow now] 1 (Answer None)
| polled_again now l n answer : now < deadline → polled tx_hash deadline interval l n answer →
    polled tx_hash deadline interval
      (WReceipt tx_hash (Answer None) :: WNow now :: WSleep interval :: l) (Datatypes.S n) answer.

(** Nothing but the node and the history has moved. *)
Record polls (t t' : transport) (l : list Wire) : Prop := {
  po_trace : al_trace t' = al_trace t ++ l;
  po_nonce : al_nonce t' = al_nonce t;
  po_spawned : al_spawned t' = al_spawned t;
  po_interval : al_poll_interval t' = al_poll_interval t }.

Lemma poll_loop_polled {HC : ClockLaws R} h tx_hash deadline fuel t :
  0 < al_poll_interval t → (0 < fuel)%nat →
  deadline - instant (al_node t) ≤ (Z.of_nat fuel - 1) * al_poll_interval t →
  let '(r, t') := poll_loop h tx_hash deadline fuel t in
  ∃ l n answer, polls t t' l ∧ polled tx_hash deadline (al_poll_interval t) l n answer ∧
    (n ≤ fuel)%nat ∧
    r = match answer with
        | Answer c => Ok (translate_receipt h <$> c)
        | Refuse e => Err (Bailed ("failed to query transaction receipt"%string :: e))
        end.
Proof.
  intros Hi. revert t Hi. induction fuel as [|fuel IH]; intros t Hi Hf Hd; [lia|]. cbn [poll_loop].
  unfold mbind, eff_bind, anyhow_t, lift, field, request, mret, eff_ret.
  pose proof (receipt_later (al_node t) tx_hash) as Hl.
  destruct (rpc_receipt (al_node t) tx_hash) as [[[c|]|e] n1]; cbn [of_reply context map_err];
    cbn [snd] in Hl.
  - exists [WReceipt tx_hash (Answer (Some c))], 1%nat, (Answer (Some c)).
    split_and!; [done|constructor|lia|done].
  - cbn [al_node moved_to]. destruct (deadline <=? instant n1) eqn:Hn.
    + eexists [_; WNow (instant n1)], 1%nat, (Answer None).
      split_and!; [constructor; [cbn; by rewrite <- app_assoc|done..]|constructor; lia|lia|done].
    + cbn [al_poll_interval moved_to al_node].
      pose proof (sleep_later n1 (al_poll_interval t)) as Hs.
      match goal with |- context [poll_loop _ _ _ _ ?x] => set (t1 := x) end.
      assert (0 < fuel)%nat as Hf1 by nia.
      specialize (IH t1 Hi Hf1). cbn [t1 al_node moved_to al_poll_interval] in IH.
      destruct (poll_loop h tx_hash deadline fuel t1) as [r t'].
      destruct IH as (l & n & answer & [P1 P2 P3 P4] & Hp & Hle & Hr); [lia|].
      exists (WReceipt tx_hash (Answer None) :: WNow (instant n1) :: WSleep (al_poll_interval t) :: l),
        (Datatypes.S n), answer.
      split_and!; [constructor; [rewrite P1; cbn; by rewrite <- !app_assoc|done..]
        |constructor; [lia|done]|lia|done].
  - exists [WReceipt tx_hash (Refuse e)], 1%nat, (Refuse e).
    split_and!; [done|constructor|lia|done].
Qed.

(** What is reported of the node's receipt. *)
Record reported (attempt : ExecutionAttempt) (tx_hash : string) (c : ChainReceipt)
    (receipt : ExecutionReceipt) : Prop := {
  rp_hash : rc_tx_hash receipt = tx_hash;
  rp_request : rc_request_id receipt = at_request_id attempt;
  rp_success : rc_success receipt = cr_status c;
  rp_block : rc_block_number receipt = cr_block_number c;
  rp_gas : rc_gas_used receipt = Some (cr_gas_used c mod 2 ^ 64);
  rp_price : rc_effective_gas_price receipt = Some (cr_effective_gas_price c);
  rp_l1_fee : rc_l1_fee_paid receipt = None }.

(** C21. Waiting for a receipt: when the deadline is beyond the range of the clock it
    panics; otherwise it ends, after at most [timeout / interval + 2] queries of the
    attempt's hash, with the answer that decided it.  It reports a receipt exactly when the
    node answers with one, under the attempt's own hash and request; it fails exactly when
    the node refuses a query; and it gives up only after an empty answer past the deadline,
    all queries before having been answered empty before it.  Neither the nonces nor the
    spawned tasks are touched. *)
Theorem await_receipt_bounded {HC : ClockLaws R} attempt timeout t tx_hash word :
  at_tx_hash attempt = Some tx_hash → bytes32_from_str tx_hash = Ok word →
  0 ≤ timeout → 0 < al_poll_interval t →
  let started := instant (al_node t) in
  let '(r, t') := await_receipt attempt timeout t in
  ∃ l, polls t t' (WDeadline started timeout :: l) ∧
    if INSTANT_END <=? started + timeout then r = Panic ∧ l = []
    else ∃ n answer, polled word (started + timeout) (al_poll_interval t) l n answer ∧
      Z.of_nat n ≤ timeout / al_poll_interval t + 2 ∧
      match answer with
      | Answer (Some c) => ∃ receipt, r = Ok (Some receipt) ∧ reported attempt tx_hash c receipt
      | Answer None => r = Ok None
      | Refuse e => r = Err (Bailed ("failed to query transaction receipt"%string :: e))
      end.
Proof.
  intros Hh Hw Ht Hi started. unfold await_receipt, poll_receipt.
  unfold mbind, eff_bind, anyhow_t, lift, field, request, mret, eff_ret.
  rewrite Hh. cbn [ok_or map_err]. cbv zeta. fold started.
  destruct (INSTANT_END <=? started + timeout); [by exists []|].
  rewrite Hw. cbn [context map_err al_poll_interval moved_to].
  set (t1 := moved_to t _ _). pose proof (Z.div_pos timeout _ Ht Hi) as Hq.
  pose proof (Z.div_mod timeout (al_poll_interval t) ltac:(lia)) as Hdm.
  pose proof (Z.mod_pos_bound timeout _ Hi) as Hm.
  pose proof (poll_loop_polled tx_hash word (started + timeout)
    (Z.to_nat (timeout / al_poll_interval t) + 2) t1 Hi ltac:(lia)) as Hp.
  cbn [t1 al_node moved_to al_poll_interval] in Hp. fold started in Hp.
  destruct (poll_loop _ _ _ _ t1) as [r t'].
  destruct Hp as (l & n & answer & [P1 P2 P3 P4] & Hp & Hle & ->); [nia|].
  destruct answer as [[c|]|e]; cbn [fmap option_fmap option_map];
    (exists l; split; [constructor; [rewrite P1; cbn; by rewrite <- app_assoc|done..]|]);
    (eexists n, _; split_and!; [exact Hp|lia|]); [by eexists|done|done].
Qed.

(** Without a hash, or with one that is no hash, nothing is asked. *)
Lemma await_receipt_invalid attempt timeout t :
  let '(r, t') := await_receipt attempt timeout t in
  match at_tx_hash attempt with
  | None => r = Err (Bailed ["execution attempt has no tx_hash to await"%string]) ∧ t' = t
  | Some tx_hash => ∀ e, bytes32_from_str tx_hash = Err e →
      instant (al_node t) + timeout < INSTANT_END →
      r = Err (Bailed (("invalid tx hash `" +:+ tx_hash +:+ "`") :: e)) ∧
      polls t t' [WDeadline (instant (al_node t)) timeout]
  end.
Proof.
  unfold await_receipt, poll_receipt.
  unfold mbind, eff_bind, anyhow_t, lift, field, request, mret, eff_ret.
  destruct (at_tx_hash attempt) as [tx_hash|]; cbn [ok_or map_err]; [|done]. cbv zeta.
  destruct (INSTANT_END <=? _) eqn:He; [intros e _ ?; lia|].
  destruct (bytes32_from_str tx_hash) as [w|e|]; cbn [context map_err];
    repeat case_match; intros; simplify_eq/=; done.
Qed.
End submit_properties.
