(* ===== verification/Storage.v ===== *)
(** Persistence (crate [storage]): the three tables of the Postgres schema and
    the statements the engine runs on them.

    The database is a service: each statement takes its clock reading and its
    fate from a script, so that it may be refused, or executed while its answer
    is lost.  Serialisation of the JSON columns comes from [serde_json] and is the
    class [SerdeJson].  The sums of [requested_notional_wei] are taken over the
    integers the text column prints. *)

From S2P Require Import Prelude RustStr Types Config Decision Execution.
#[local] Open Scope Z_scope.

(** ** Serialisation *)

Class SerdeJson := {
  vec_block_context : BlockContext → anyhow (list Z);
  vec_log : Log → anyhow (list Z);
  text_block_context : BlockContext → anyhow string;
  text_status : ExecutionStatus.ExecutionStatus → anyhow string;
  value_log : Log → anyhow string;
  value_opportunity : Opportunity → anyhow string;
  value_simulation : SimulationResult → anyhow string;
  value_risk : RiskDecision → anyhow string;
  value_opt_request : option ExecutionRequest → anyhow string;
  value_request : ExecutionRequest → anyhow string;
  value_attempt : ExecutionAttempt → anyhow string;
  value_receipt : ExecutionReceipt → anyhow string;
  value_outcome : ExecutionOutcome → anyhow string }.

(** Serialisation returns or fails, it does not panic. *)
Class SerdeJsonLaws (S : SerdeJson) : Prop := {
  vec_block_context_law c : vec_block_context c ≠ Panic;
  vec_log_law l : vec_log l ≠ Panic;
  text_block_context_law c : text_block_context c ≠ Panic;
  text_status_law s : text_status s ≠ Panic;
  value_log_law l : value_log l ≠ Panic;
  value_opportunity_law o : value_opportunity o ≠ Panic;
  value_simulation_law s : value_simulation s ≠ Panic;
  value_risk_law r : value_risk r ≠ Panic;
  value_opt_request_law r : value_opt_request r ≠ Panic;
  value_request_law r : value_request r ≠ Panic;
  value_attempt_law a : value_attempt a ≠ Panic;
  value_receipt_law r : value_receipt r ≠ Panic;
  value_outcome_law o : value_outcome o ≠ Panic }.

(** ** Tables

    Timestamps are microseconds since the epoch, in UTC. *)
Record ObservedLogRow := {
  ol_id : Z;
  ol_observed_at : Z;
  ol_fingerprint : string;
  ol_tx_hash : option string;
  ol_block_context : string;
  ol_chain_id : Z;
  ol_address : option string;
  ol_event_signature : option string;
  ol_log_index : option Z;
  ol_removed : option bool;
  ol_log_json : string }.

Record DecisionRunRow := {
  dr_id : Z;
  dr_observed_at : Z;
  dr_observed_log_id : option Z;
  dr_opportunity_id : string;
  dr_trigger_tx_hash : option string;
  dr_block_context : string;
  dr_settlement_token : string;
  dr_input_amount_wei : Amount;
  dr_expected_output_amount_wei : Amount;
  dr_expected_net_profit_wei : Amount;
  dr_simulated_gross_profit_wei : Amount;
  dr_simulated_net_profit_wei : Amount;
  dr_gas_estimate : Z;
  dr_gas_cost_wei : Amount;
  dr_l1_data_fee_wei : Amount;
  dr_risk_accepted : bool;
  dr_risk_hash : string;
  dr_min_surplus_wei : Amount;
  dr_opportunity_json : string;
  dr_simulation_json : string;
  dr_risk_json : string;
  dr_execution_request_json : string }.

Record AttemptRow := {
  ar_id : Z;
  ar_observed_at : Z;
  ar_decision_run_id : option Z;
  ar_request_id : string;
  ar_status : string;
  ar_execution_mode : string;
  ar_submission_allowed : bool;
  ar_blocked_reason : option string;
  ar_requested_notional_wei : Amount;
  ar_tx_hash : option string;
  ar_submitted_at : option Z;
  ar_finalized_at : option Z;
  ar_inclusion_block_number : option Z;
  ar_gas_limit : option Z;
  ar_gas_used : option Z;
  ar_max_fee_per_gas_wei : option Amount;
  ar_max_priority_fee_per_gas_wei : option Amount;
  ar_effective_gas_price_wei : option Amount;
  ar_l1_fee_paid_wei : option Amount;
  ar_total_fee_paid_wei : option Amount;
  ar_realized_surplus_wei : option Amount;
  ar_outcome_reason : option string;
  ar_last_error_stage : option string;
  ar_last_error : option string;
  ar_execution_request_json : string;
  ar_attempt_json : string;
  ar_receipt_json : option string;
  ar_outcome_json : option string }.

(** ** Statements *)

(** The fate of a statement. *)
Inductive QueryOutcome :=
| Done                        (* executed and answered *)
| Refused (message : string)  (* not executed *)
| Lost (message : string).    (* executed, the answer was lost *)

(** [db_next_*] are the sequences of the [BIGSERIAL] keys. *)
Record Db := {
  db_now : Z;
  db_script : list (Z * QueryOutcome);
  db_logs : list ObservedLogRow;
  db_next_log : Z;
  db_runs : list DecisionRunRow;
  db_next_run : Z;
  db_attempts : list AttemptRow;
  db_next_attempt : Z }.

Definition db_advance (db : Db) (now : Z) (script : list (Z * QueryOutcome)) : Db :=
  {| db_now := now; db_script := script; db_logs := db_logs db; db_next_log := db_next_log db;
     db_runs := db_runs db; db_next_run := db_next_run db;
     db_attempts := db_attempts db; db_next_attempt := db_next_attempt db |}.

Definition db_with_logs (db : Db) (logs : list ObservedLogRow) : Db :=
  {| db_now := db_now db; db_script := db_script db; db_logs := logs;
     db_next_log := db_next_log db + 1; db_runs := db_runs db; db_next_run := db_next_run db;
     db_attempts := db_attempts db; db_next_attempt := db_next_attempt db |}.

Definition db_with_run (db : Db) (run : DecisionRunRow) : Db :=
  {| db_now := db_now db; db_script := db_script db; db_logs := db_logs db;
     db_next_log := db_next_log db; db_runs := db_runs db ++ [run];
     db_next_run := db_next_run db + 1;
     db_attempts := db_attempts db; db_next_attempt := db_next_attempt db |}.

Definition db_with_attempts (db : Db) (attempts : list AttemptRow) (next : Z) : Db :=
  {| db_now := db_now db; db_script := db_script db; db_logs := db_logs db;
     db_next_log := db_next_log db; db_runs := db_runs db; db_next_run := db_next_run db;
     db_attempts := attempts; db_next_attempt := next |}.

(** Run a statement: its result and effect on the tables, under the next fate of
    the script (a script that has ended answers every statement). *)
Definition db_query {A : Type} (statement : Db → A * Db) : eff Db error A := λ db,
  match db_script db with
  | [] => let '(a, db) := statement db in (Ok a, db)
  | (now, fate) :: script =>
      let db := db_advance db now script in
      match fate with
      | Done => let '(a, db) := statement db in (Ok a, db)
      | Refused message => (Err [message], db)
      | Lost message => (Err [message], (statement db).2)
      end
  end.

Definition eff_context {S A : Type} (m : eff S error A) (c : string) : eff S error A :=
  λ s, let '(r, s) := m s in (context r c, s).

(** [i64::try_from] and [.ok()] after it. *)
Definition i64_of (n : Z) : anyhow Z :=
  if n <? 2 ^ 63 then Ok n else bail "out of range integral type conversion attempted".
Definition i64_ok (n : Z) : option Z := if n <? 2 ^ 63 then Some n else None.

(** [UPDATE execution_attempts SET ... WHERE id = $1]: the rows affected. *)
Definition update_attempts (id : Z) (set : Db → AttemptRow → AttemptRow) (db : Db) : Z * Db :=
  let hit row := ar_id row =? id in
  (Z.of_nat (length (filter (λ row, hit row = true) (db_attempts db))),
   db_with_attempts db ((λ row, if hit row then set db row else row) <$> db_attempts db)
     (db_next_attempt db)).

(** Run an update and fail when it affects no row. *)
Definition run_update (id : Z) (set : Db → AttemptRow → AttemptRow)
    (failure missing : string) : eff Db error unit :=
  rows_affected ← eff_context (db_query (update_attempts id set)) failure;
  if rows_affected =? 0 then lift (bail missing) else mret tt.

(** ** The storage handle *)

Record Storage := { storage_pool : option Db }.

Definition is_enabled (s : Storage) : bool := opt_is_some (storage_pool s).

(** The early return of each operation when the storage is disabled. *)
Definition with_pool {A : Type} (disabled : A) (m : eff Db error A) : eff Storage error A := λ s,
  match storage_pool s with
  | None => (Ok disabled, s)
  | Some db => let '(r, db) := m db in (r, {| storage_pool := Some db |})
  end.

Record DecisionRunRecord := {
  drr_observed_log_id : option Z;
  drr_trigger_tx_hash : option string;
  drr_opportunity : Opportunity;
  drr_simulation : SimulationResult;
  drr_risk : RiskDecision;
  drr_execution_request : option ExecutionRequest }.

Section operations.
Context {J : SerdeJson} (sha256_hex : list Z → string).

Definition observed_log_fingerprint (log : Log) : anyhow string :=
  let md := log_metadata log in
  context_bytes ← vec_block_context (md_block_context md);
  log_bytes ← vec_log log;
  Ok (sha256_hex (
    context_bytes ++ to_le_bytes 8 (md_chain_id md) ++ to_le_bytes 8 (md_observed_at_ms md) ++
    from_option bytes_of [] (md_tx_hash md) ++
    from_option bytes_of [] (log_address log) ++
    from_option bytes_of [] (log_event_signature log) ++
    from_option (to_le_bytes 8) [] (log_log_index log) ++
    from_option (λ removed : bool, [if removed then 1 else 0]) [] (log_removed log) ++
    log_bytes)).

(** [INSERT INTO observed_logs ... ON CONFLICT (fingerprint) DO UPDATE ...
    RETURNING id]: the row with the fingerprint is overwritten under its own key,
    else a new one is added. *)
Definition upsert_log (make : Z → ObservedLogRow) (db : Db) : Z * Db :=
  let row := make (db_next_log db) in
  let same old := bool_decide (ol_fingerprint old = ol_fingerprint row) in
  match list_find (λ old, same old = true) (db_logs db) with
  | Some (_, old) =>
      (ol_id old,
       db_with_logs db ((λ r, if same r then make (ol_id r) else r) <$> db_logs db))
  | None => (ol_id row, db_with_logs db (db_logs db ++ [row]))
  end.

Definition persist_observed_log (log : Log) : eff Storage error (option Z) :=
  with_pool None (
    fingerprint ← lift (observed_log_fingerprint log);
    log_json ← lift (context (value_log log) "failed to serialize observed log");
    block_context ← lift (text_block_context (md_block_context (log_metadata log)));
    chain_id ← lift (context (i64_of (md_chain_id (log_metadata log)))
                       "chain_id does not fit into i64");
    row_id ← eff_context (db_query (λ db, upsert_log (λ id, {|
        ol_id := id; ol_observed_at := db_now db; ol_fingerprint := fingerprint;
        ol_tx_hash := md_tx_hash (log_metadata log); ol_block_context := block_context;
        ol_chain_id := chain_id; ol_address := log_address log;
        ol_event_signature := log_event_signature log;
        ol_log_index := log_log_index log ≫= i64_ok;
        ol_removed := log_removed log; ol_log_json := log_json |}) db))
      "failed to persist observed log";
    mret (Some row_id)).

Definition persist_decision_run (record : DecisionRunRecord) : eff Storage error (option Z) :=
  let o := drr_opportunity record in
  let s := drr_simulation record in
  let r := drr_risk record in
  with_pool None (
    execution_request ← lift (context (value_opt_request (drr_execution_request record))
                                "failed to serialize execution request");
    opportunity ← lift (context (value_opportunity o) "failed to serialize opportunity");
    simulation ← lift (context (value_simulation s) "failed to serialize simulation");
    risk ← lift (context (value_risk r) "failed to serialize risk");
    block_context ← lift (text_block_context (op_block_context o));
    gas_estimate ← lift (context (i64_of (sim_gas_estimate s))
                           "gas estimate does not fit into i64");
    row_id ← eff_context (db_query (λ db,
      let id := db_next_run db in
      (id, db_with_run db {|
        dr_id := id; dr_observed_at := db_now db;
        dr_observed_log_id := drr_observed_log_id record;
        dr_opportunity_id := op_id o;
        dr_trigger_tx_hash := drr_trigger_tx_hash record;
        dr_block_context := block_context;
        dr_settlement_token := op_settlement_token o;
        dr_input_amount_wei := op_input_amount o;
        dr_expected_output_amount_wei := op_expected_output_amount o;
        dr_expected_net_profit_wei := op_expected_net_profit o;
        dr_simulated_gross_profit_wei := sim_expected_gross_profit s;
        dr_simulated_net_profit_wei := sim_expected_net_profit s;
        dr_gas_estimate := gas_estimate;
        dr_gas_cost_wei := sim_gas_cost_wei s;
        dr_l1_data_fee_wei := sim_l1_data_fee s;
        dr_risk_accepted := rd_accepted r;
        dr_risk_hash := rd_risk_hash r;
        dr_min_surplus_wei := rd_min_surplus r;
        dr_opportunity_json := opportunity;
        dr_simulation_json := simulation;
        dr_risk_json := risk;
        dr_execution_request_json := execution_request |})))
      "failed to persist decision run";
    mret (Some row_id)).

Definition persist_execution_attempt (decision_run_id : option Z) (attempt : ExecutionAttempt)
    (request : ExecutionRequest) : eff Storage error (option Z) :=
  with_pool None (
    attempt_json ← lift (context (value_attempt attempt) "failed to serialize execution attempt");
    request_json ← lift (context (value_request request) "failed to serialize execution request");
    status ← lift (text_status (at_status attempt));
    row_id ← eff_context (db_query (λ db,
      let id := db_next_attempt db in
      (id, db_with_attempts db (db_attempts db ++ [{|
        ar_id := id; ar_observed_at := db_now db;
        ar_decision_run_id := decision_run_id;
        ar_request_id := at_request_id attempt;
        ar_status := status;
        ar_execution_mode := at_execution_mode attempt;
        ar_submission_allowed := at_submission_allowed attempt;
        ar_blocked_reason := at_blocked_reason attempt;
        ar_requested_notional_wei := at_requested_notional attempt;
        ar_tx_hash := at_tx_hash attempt;
        ar_submitted_at := None; ar_finalized_at := None; ar_inclusion_block_number := None;
        ar_gas_limit := at_gas_limit attempt ≫= i64_ok;
        ar_gas_used := None;
        ar_max_fee_per_gas_wei := at_max_fee_per_gas attempt;
        ar_max_priority_fee_per_gas_wei := at_max_priority_fee_per_gas attempt;
        ar_effective_gas_price_wei := None; ar_l1_fee_paid_wei := None;
        ar_total_fee_paid_wei := None; ar_realized_surplus_wei := None;
        ar_outcome_reason := None; ar_last_error_stage := None; ar_last_error := None;
        ar_execution_request_json := request_json;
        ar_attempt_json := attempt_json;
        ar_receipt_json := None; ar_outcome_json := None |}]) (id + 1))))
      "failed to persist execution attempt";
    mret (Some row_id)).

(** The [SET] clauses of the updates. *)
Definition set_submitted (status : string) (attempt : ExecutionAttempt) (attempt_json : string)
    (db : Db) (row : AttemptRow) : AttemptRow :=
  {| ar_id := ar_id row; ar_observed_at := ar_observed_at row;
     ar_decision_run_id := ar_decision_run_id row; ar_request_id := ar_request_id row;
     ar_status := status; ar_execution_mode := ar_execution_mode row;
     ar_submission_allowed := ar_submission_allowed row;
     ar_blocked_reason := ar_blocked_reason row;
     ar_requested_notional_wei := ar_requested_notional_wei row;
     ar_tx_hash := at_tx_hash attempt; ar_submitted_at := Some (db_now db);
     ar_finalized_at := ar_finalized_at row;
     ar_inclusion_block_number := ar_inclusion_block_number row;
     ar_gas_limit := ar_gas_limit row; ar_gas_used := ar_gas_used row;
     ar_max_fee_per_gas_wei := ar_max_fee_per_gas_wei row;
     ar_max_priority_fee_per_gas_wei := ar_max_priority_fee_per_gas_wei row;
     ar_effective_gas_price_wei := ar_effective_gas_price_wei row;
     ar_l1_fee_paid_wei := ar_l1_fee_paid_wei row;
     ar_total_fee_paid_wei := ar_total_fee_paid_wei row;
     ar_realized_surplus_wei := ar_realized_surplus_wei row;
     ar_outcome_reason := ar_outcome_reason row; ar_last_error_stage := ar_last_error_stage row;
     ar_last_error := ar_last_error row;
     ar_execution_request_json := ar_execution_request_json row;
     ar_attempt_json := attempt_json; ar_receipt_json := ar_receipt_json row;
     ar_outcome_json := ar_outcome_json row |}.

Definition set_finalized (status : string) (attempt : ExecutionAttempt)
    (receipt : ExecutionReceipt) (outcome : ExecutionOutcome)
    (attempt_json receipt_json outcome_json : string) (db : Db) (row : AttemptRow) : AttemptRow :=
  {| ar_id := ar_id row; ar_observed_at := ar_observed_at row;
     ar_decision_run_id := ar_decision_run_id row; ar_request_id := ar_request_id row;
     ar_status := status; ar_execution_mode := ar_execution_mode row;
     ar_submission_allowed := ar_submission_allowed row;
     ar_blocked_reason := ar_blocked_reason row;
     ar_requested_notional_wei := ar_requested_notional_wei row;
     ar_tx_hash := at_tx_hash attempt; ar_submitted_at := ar_submitted_at row;
     ar_finalized_at := Some (db_now db);
     ar_inclusion_block_number := rc_block_number receipt ≫= i64_ok;
     ar_gas_limit := ar_gas_limit row; ar_gas_used := rc_gas_used receipt ≫= i64_ok;
     ar_max_fee_per_gas_wei := ar_max_fee_per_gas_wei row;
     ar_max_priority_fee_per_gas_wei := ar_max_priority_fee_per_gas_wei row;
     ar_effective_gas_price_wei := rc_effective_gas_price receipt;
     ar_l1_fee_paid_wei := rc_l1_fee_paid receipt;
     ar_total_fee_paid_wei := oc_total_fee_paid outcome;
     ar_realized_surplus_wei := oc_realized_surplus outcome;
     ar_outcome_reason := oc_reason outcome; ar_last_error_stage := None; ar_last_error := None;
     ar_execution_request_json := ar_execution_request_json row;
     ar_attempt_json := attempt_json; ar_receipt_json := Some receipt_json;
     ar_outcome_json := Some outcome_json |}.

Definition set_finalized_without_receipt (status : string) (attempt : ExecutionAttempt)
    (outcome : ExecutionOutcome) (attempt_json outcome_json : string)
    (db : Db) (row : AttemptRow) : AttemptRow :=
  {| ar_id := ar_id row; ar_observed_at := ar_observed_at row;
     ar_decision_run_id := ar_decision_run_id row; ar_request_id := ar_request_id row;
     ar_status := status; ar_execution_mode := ar_execution_mode row;
     ar_submission_allowed := ar_submission_allowed row;
     ar_blocked_reason := ar_blocked_reason row;
     ar_requested_notional_wei := ar_requested_notional_wei row;
     ar_tx_hash := at_tx_hash attempt; ar_submitted_at := ar_submitted_at row;
     ar_finalized_at := Some (db_now db);
     ar_inclusion_block_number := ar_inclusion_block_number row;
     ar_gas_limit := ar_gas_limit row; ar_gas_used := ar_gas_used row;
     ar_max_fee_per_gas_wei := ar_max_fee_per_gas_wei row;
     ar_max_priority_fee_per_gas_wei := ar_max_priority_fee_per_gas_wei row;
     ar_effective_gas_price_wei := ar_effective_gas_price_wei row;
     ar_l1_fee_paid_wei := ar_l1_fee_paid_wei row;
     ar_total_fee_paid_wei := oc_total_fee_paid outcome;
     ar_realized_surplus_wei := oc_realized_surplus outcome;
     ar_outcome_reason := oc_reason outcome; ar_last_error_stage := None; ar_last_error := None;
     ar_execution_request_json := ar_execution_request_json row;
     ar_attempt_json := attempt_json; ar_receipt_json := ar_receipt_json row;
     ar_outcome_json := Some outcome_json |}.

Definition set_error (stage message : string) (db : Db) (row : AttemptRow) : AttemptRow :=
  {| ar_id := ar_id row; ar_observed_at := ar_observed_at row;
     ar_decision_run_id := ar_decision_run_id row; ar_request_id := ar_request_id row;
     ar_status := ar_status row; ar_execution_mode := ar_execution_mode row;
     ar_submission_allowed := ar_submission_allowed row;
     ar_blocked_reason := ar_blocked_reason row;
     ar_requested_notional_wei := ar_requested_notional_wei row; ar_tx_hash := ar_tx_hash row;
     ar_submitted_at := ar_submitted_at row; ar_finalized_at := ar_finalized_at row;
     ar_inclusion_block_number := ar_inclusion_block_number row;
     ar_gas_limit := ar_gas_limit row; ar_gas_used := ar_gas_used row;
     ar_max_fee_per_gas_wei := ar_max_fee_per_gas_wei row;
     ar_max_priority_fee_per_gas_wei := ar_max_priority_fee_per_gas_wei row;
     ar_effective_gas_price_wei := ar_effective_gas_price_wei row;
     ar_l1_fee_paid_wei := ar_l1_fee_paid_wei row;
     ar_total_fee_paid_wei := ar_total_fee_paid_wei row;
     ar_realized_surplus_wei := ar_realized_surplus_wei row;
     ar_outcome_reason := ar_outcome_reason row; ar_last_error_stage := Some stage;
     ar_last_error := Some message; ar_execution_request_json := ar_execution_request_json row;
     ar_attempt_json := ar_attempt_json row; ar_receipt_json := ar_receipt_json row;
     ar_outcome_json := ar_outcome_json row |}.

Definition mark_execution_submitted (execution_attempt_id : Z) (attempt : ExecutionAttempt) :
    eff Storage error unit :=
  with_pool tt (
    attempt_json ← lift (context (value_attempt attempt) "failed to serialize submitted attempt");
    status ← lift (text_status (at_status attempt));
    run_update execution_attempt_id (set_submitted status attempt attempt_json)
      "failed to mark execution attempt as submitted"
      "no execution attempt row found for submission update").

Definition finalize_execution_attempt (execution_attempt_id : Z) (attempt : ExecutionAttempt)
    (receipt : ExecutionReceipt) (outcome : ExecutionOutcome) : eff Storage error unit :=
  with_pool tt (
    attempt_json ← lift (context (value_attempt attempt) "failed to serialize finalized attempt");
    receipt_json ← lift (context (value_receipt receipt) "failed to serialize execution receipt");
    outcome_json ← lift (context (value_outcome outcome) "failed to serialize execution outcome");
    status ← lift (text_status (at_status attempt));
    run_update execution_attempt_id
      (set_finalized status attempt receipt outcome attempt_json receipt_json outcome_json)
      "failed to finalize execution attempt"
      "no execution attempt row found for finalization update").

Definition finalize_execution_attempt_without_receipt (execution_attempt_id : Z)
    (attempt : ExecutionAttempt) (outcome : ExecutionOutcome) : eff Storage error unit :=
  with_pool tt (
    attempt_json ← lift (context (value_attempt attempt)
                           "failed to serialize finalized attempt without receipt");
    outcome_json ← lift (context (value_outcome outcome) "failed to serialize execution outcome");
    status ← lift (text_status (at_status attempt));
    run_update execution_attempt_id
      (set_finalized_without_receipt status attempt outcome attempt_json outcome_json)
      "failed to finalize execution attempt without receipt"
      "no execution attempt row found for finalization update without receipt").

Definition record_execution_attempt_error (execution_attempt_id : Z) (stage message : string) :
    eff Storage error unit :=
  with_pool tt (
    run_update execution_attempt_id (set_error stage message)
      "failed to record execution attempt error"
      "no execution attempt row found for error update").

(** The start of the UTC day of a timestamp. *)
Definition MICROS_PER_DAY : Z := 24 * 60 * 60 * 1000000.
Definition day_start (now : Z) : Z := now / MICROS_PER_DAY * MICROS_PER_DAY.

(** The rows of the daily sum, and the sum. *)
Definition submittable_since (start : Z) (row : AttemptRow) : bool :=
  ar_submission_allowed row && (start <=? ar_observed_at row).

Fixpoint notional_sum (start : Z) (rows : list AttemptRow) : Z :=
  match rows with
  | [] => 0
  | row :: rows =>
      (if submittable_since start row then ar_requested_notional_wei row else 0) +
      notional_sum start rows
  end.

Definition todays_submittable_notional_wei : eff Storage error Amount :=
  with_pool 0 (
    total ← eff_context (db_query (λ db, (notional_sum (day_start (db_now db)) (db_attempts db), db)))
      "failed to load current daily requested notional";
    lift (if total <? 2 ^ 128 then Ok total
          else Err ["failed to parse current daily requested notional `" +:+ show_uint total +:+
                    "` into u128"; show_parse_error PPosOverflow])).
End operations.

(** ** What the statements keep *)

(** The clock of the statements does not go back. *)
Fixpoint clock_after (now : Z) (script : list (Z * QueryOutcome)) : Prop :=
  match script with
  | [] => True
  | (now', _) :: script => now ≤ now' ∧ clock_after now' script
  end.

Record db_wf (db : Db) : Prop := {
  dw_clock : clock_after (db_now db) (db_script db);
  dw_rows : Forall (λ row, ar_observed_at row ≤ db_now db ∧ 0 ≤ ar_requested_notional_wei row)
              (db_attempts db);
  dw_ids : NoDup (ar_id <$> db_attempts db);
  dw_fresh : Forall (λ row, ar_id row < db_next_attempt db) (db_attempts db) }.

(** The columns that decide the daily exposure. *)
Definition exposure (row : AttemptRow) : Z * bool * Z * Amount :=
  (ar_id row, ar_submission_allowed row, ar_observed_at row, ar_requested_notional_wei row).

Definition exposures (db : Db) : list (Z * bool * Z * Amount) := exposure <$> db_attempts db.

(** Every statement but the insertion of an attempt keeps the exposures. *)
Record db_frame (db db' : Db) : Prop := {
  df_wf : db_wf db → db_wf db';
  df_now : db_wf db → db_now db ≤ db_now db';
  df_exposures : exposures db' = exposures db }.

#[global] Instance db_frame_refl : Reflexive db_frame.
Proof. done. Qed.
#[global] Instance db_frame_trans : Transitive db_frame.
Proof.
  intros a b c [W N X] [W' N' X']. constructor; [auto| |congruence].
  intros Ha. specialize (N Ha). specialize (N' (W Ha)). lia.
Qed.

Lemma db_advance_frame db now fate script :
  db_script db = (now, fate) :: script → db_frame db (db_advance db now script).
Proof.
  intros Hs. constructor; [|intros [Hc _ _ _]; rewrite Hs in Hc; apply Hc|done].
  intros [Hc Hr Hi Hf]. rewrite Hs in Hc. destruct Hc. constructor; cbn; try done.
  eapply Forall_impl; [exact Hr|]. cbn. lia.
Qed.

(** A statement keeps a relation that its effect and the passing of time keep. *)
Lemma db_query_keeps {A : Type} (R : Db → Db → Prop) `{!Reflexive R, !Transitive R}
    (statement : Db → A * Db) :
  (∀ db db', db_frame db db' → R db db') →
  (∀ db, R db (statement db).2) → keeps R (db_query statement).
Proof.
  intros Hframe Hst db. unfold wp, db_query.
  destruct (db_script db) as [|[now fate] script] eqn:Hs.
  - specialize (Hst db). by destruct (statement db).
  - apply db_advance_frame, Hframe in Hs. set (db1 := db_advance db now script) in *.
    pose proof (Hst db1) as H1. destruct fate; cbn; [|done|].
    + destruct (statement db1); cbn in *. split; [done|]. by transitivity db1.
    + split; [done|]. by transitivity db1.
Qed.

Lemma eff_context_keeps {S A : Type} (R : S → S → Prop) (m : eff S error A) c :
  keeps R m → keeps R (eff_context m c).
Proof.
  intros Hm s. specialize (Hm s). unfold wp, eff_context, context in *.
  destruct (m s) as [[]]; cbn in *; naive_solver.
Qed.

Lemma i64_of_no_panic n : i64_of n ≠ Panic.
Proof. unfold i64_of, bail. by case_match. Qed.

Lemma update_exposures id set db :
  (∀ row, exposure (set db row) = exposure row) →
  exposures (update_attempts id set db).2 = exposures db ∧
  ar_id <$> db_attempts (update_attempts id set db).2 = ar_id <$> db_attempts db.
Proof.
  intros Hset. cbn. unfold exposures. cbn. rewrite <- !list_fmap_compose.
  split; apply list_fmap_ext; intros i row _; cbn; case_match; try done.
  by specialize (Hset row) as [= ? ? ?].
Qed.

Lemma update_frame id set db :
  (∀ row, exposure (set db row) = exposure row) → db_frame db (update_attempts id set db).2.
Proof.
  intros Hset. destruct (update_exposures id set db Hset) as [Hx Hi].
  constructor; [|done|done]. intros [Hc Hr Hn Hf]. constructor; [done| |by rewrite Hi|].
  - cbn. apply Forall_fmap. eapply Forall_impl; [exact Hr|]. cbn. intros row.
    case_match; [|done]. by specialize (Hset row) as [= _ _ -> ->].
  - cbn. apply Forall_fmap. eapply Forall_impl; [exact Hf|]. cbn. intros row.
    case_match; [|done]. by specialize (Hset row) as [= -> _ _ _].
Qed.

Lemma run_update_keeps id set failure missing :
  (∀ db row, exposure (set db row) = exposure row) →
  keeps db_frame (run_update id set failure missing).
Proof.
  intros Hset. unfold run_update. apply keeps_bind; [apply _| |].
  - apply eff_context_keeps. apply db_query_keeps; [apply _|apply _|done|].
    intros db. by apply update_frame.
  - intros rows. case_match; (apply keeps_lift; [apply _|done]).
Qed.

#[export] Hint Resolve i64_of_no_panic vec_block_context_law vec_log_law
  text_block_context_law text_status_law value_log_law value_opportunity_law
  value_simulation_law value_risk_law value_opt_request_law value_request_law
  value_attempt_law value_receipt_law value_outcome_law : engine.

(** ** The operations *)

(** A relation of the tables, read through the handle. *)
Definition storage_rel (R : Db → Db → Prop) (s s' : Storage) : Prop :=
  match storage_pool s, storage_pool s' with
  | None, None => True
  | Some db, Some db' => R db db'
  | _, _ => False
  end.

Abbreviation storage_frame := (storage_rel db_frame).

#[global] Instance storage_rel_refl R `{!Reflexive R} : Reflexive (storage_rel R).
Proof. intros [[db|]]; [apply (reflexivity db)|done]. Qed.
#[global] Instance storage_rel_trans R `{!Transitive R} : Transitive (storage_rel R).
Proof. intros [[]] [[]] [[]]; unfold storage_rel; cbn; try done. apply (transitivity (R:=R)). Qed.

Lemma with_pool_keeps {A : Type} (R : Db → Db → Prop) (d : A) (m : eff Db error A) :
  keeps R m → keeps (storage_rel R) (with_pool d m).
Proof.
  intros Hm [[db|]]; unfold wp, with_pool, storage_rel; cbn; [|done].
  specialize (Hm db). unfold wp in Hm. by destruct (m db).
Qed.

(** Discharge a chain of serialisations before a statement. *)
Ltac keeps_steps :=
  repeat first
    [ solve [by apply run_update_keeps]
    | apply keeps_bind; [apply _| |intros ?]
    | apply keeps_lift; [apply _|solve [eauto with engine]]
    | apply eff_context_keeps ].

Section frames.
Context {J : SerdeJson} {HJ : SerdeJsonLaws J} (sha256_hex : list Z → string).

Lemma observed_log_fingerprint_no_panic log : observed_log_fingerprint sha256_hex log ≠ Panic.
Proof.
  unfold observed_log_fingerprint.
  do 2 (apply bind_no_panic; [auto with engine|intros ? _]). done.
Qed.

Lemma tables_frame db db' :
  db_now db' = db_now db → db_script db' = db_script db → db_attempts db' = db_attempts db →
  db_next_attempt db' = db_next_attempt db → db_frame db db'.
Proof.
  intros Hn Hs Ha Hx. constructor; [|lia|unfold exposures; by rewrite Ha].
  intros []. constructor; rewrite ?Hn, ?Hs, ?Ha, ?Hx; done.
Qed.

Lemma upsert_log_frame make db : db_frame db (upsert_log make db).2.
Proof. unfold upsert_log. case_match; [case_match|]; by apply tables_frame. Qed.

Lemma persist_observed_log_keeps log :
  keeps storage_frame (persist_observed_log sha256_hex log).
Proof.
  apply with_pool_keeps. apply keeps_bind; [apply _| |intros ?].
  { apply keeps_lift; [apply _|]. apply observed_log_fingerprint_no_panic. }
  keeps_steps.
  apply db_query_keeps; [apply _|apply _|done|]. intros db. apply upsert_log_frame.
Qed.

Lemma persist_decision_run_keeps record : keeps storage_frame (persist_decision_run record).
Proof.
  apply with_pool_keeps. keeps_steps.
  apply db_query_keeps; [apply _|apply _|done|]. intros db. by apply tables_frame.
Qed.

Lemma mark_execution_submitted_keeps id a : keeps storage_frame (mark_execution_submitted id a).
Proof. apply with_pool_keeps. keeps_steps. Qed.

Lemma finalize_execution_attempt_keeps id a r o :
  keeps storage_frame (finalize_execution_attempt id a r o).
Proof. apply with_pool_keeps. keeps_steps. Qed.

Lemma finalize_without_receipt_keeps id a o :
  keeps storage_frame (finalize_execution_attempt_without_receipt id a o).
Proof. apply with_pool_keeps. keeps_steps. Qed.

Lemma record_execution_attempt_error_keeps id stage m :
  keeps storage_frame (record_execution_attempt_error id stage m).
Proof. apply with_pool_keeps. by apply run_update_keeps. Qed.

Lemma todays_keeps : keeps storage_frame todays_submittable_notional_wei.
Proof.
  apply with_pool_keeps. keeps_steps.
  - apply db_query_keeps; [apply _|apply _|done|]. done.
  - apply keeps_lift; [apply _|]. by case_match.
Qed.
End frames.

(** ** The daily exposure *)

Definition day_of (t : Z) : Z := t / MICROS_PER_DAY.

(** The notional of the submittable attempts recorded on a day. *)
Fixpoint day_sum (day : Z) (xs : list (Z * bool * Z * Amount)) : Z :=
  match xs with
  | [] => 0
  | (_, allowed, observed_at, notional) :: xs =>
      (if (allowed : bool) && (day_of observed_at =? day) then notional else 0) + day_sum day xs
  end.

Lemma day_sum_app d xs ys : day_sum d (xs ++ ys) = day_sum d xs + day_sum d ys.
Proof. induction xs as [|[[[i b] t] n] xs IH]; cbn; [done|]. rewrite IH. lia. Qed.

Lemma day_start_le now t : t ≤ now → (day_start now <=? t) = (day_of t =? day_of now).
Proof.
  intros Ht. unfold day_start, day_of.
  assert (0 < MICROS_PER_DAY) as HM by (unfold MICROS_PER_DAY; lia).
  pose proof (Z.div_le_mono t now MICROS_PER_DAY HM Ht).
  pose proof (Z.mul_div_le t MICROS_PER_DAY HM).
  destruct (decide (t / MICROS_PER_DAY = now / MICROS_PER_DAY)) as [Heq|Hne].
  - rewrite Heq in *. rewrite Z.eqb_refl. lia.
  - rewrite (proj2 (Z.eqb_neq _ _) Hne). apply Z.leb_gt.
    pose proof (Z.mul_succ_div_gt t MICROS_PER_DAY HM). nia.
Qed.

(** The sum the engine reads is the exposure of the current day. *)
Lemma notional_sum_day now rows :
  Forall (λ row, ar_observed_at row ≤ now) rows →
  notional_sum (day_start now) rows = day_sum (day_of now) (exposure <$> rows).
Proof.
  induction 1 as [|row rows Hr _ IH]; cbn; [done|]. rewrite IH. unfold submittable_since.
  by rewrite day_start_le.
Qed.

(** A day after the last row has no exposure. *)
Lemma day_sum_future d rows now :
  Forall (λ row, ar_observed_at row ≤ now) rows → day_of now < d →
  day_sum d (exposure <$> rows) = 0.
Proof.
  intros Hr Hd. induction Hr as [|row rows Hr _ IH]; cbn; [done|]. rewrite IH.
  assert (day_of (ar_observed_at row) ≤ day_of now)
    by (apply Z.div_le_mono; [unfold MICROS_PER_DAY|]; lia).
  replace (day_of _ =? d) with false by lia. by rewrite andb_false_r.
Qed.

(** The insertion of an attempt, some statements after [db]. *)
Definition inserts (attempt : ExecutionAttempt) (db db' : Db) : Prop :=
  ∃ db1 row, db_frame db db1 ∧ db_now db' = db_now db1 ∧ db_script db' = db_script db1 ∧
    db_attempts db' = db_attempts db1 ++ [row] ∧ db_next_attempt db' = db_next_attempt db1 + 1 ∧
    exposure row = (db_next_attempt db1, at_submission_allowed attempt, db_now db1,
                    at_requested_notional attempt).

Lemma inserts_wf attempt db db' :
  0 ≤ at_requested_notional attempt → inserts attempt db db' → db_wf db →
  db_wf db' ∧ db_now db ≤ db_now db' ∧ ∃ id,
    exposures db' = exposures db ++
      [(id, at_submission_allowed attempt, db_now db', at_requested_notional attempt)].
Proof.
  intros Hn (db1 & row & [Hw Hnow Hx] & En & Es & Ea & Ei & Hrow) Hwf.
  specialize (Hw Hwf). specialize (Hnow Hwf). destruct Hw as [Hc Hr Hd Hf].
  injection Hrow as Hid Hal Hob Hno. split; [|split; [lia|]].
  - constructor; rewrite ?En, ?Es, ?Ea, ?Ei; [done| | |].
    + apply Forall_app. split; [done|]. apply Forall_singleton. lia.
    + rewrite fmap_app. apply NoDup_app. split; [done|]. split; [|apply NoDup_singleton].
      intros i Hi1 Hi2%list_elem_of_singleton. cbn in Hi2.
      apply list_elem_of_fmap in Hi1 as (r & -> & Hr1).
      rewrite Forall_forall in Hf. specialize (Hf r Hr1). lia.
    + apply Forall_app. split; [|apply Forall_singleton; lia].
      eapply Forall_impl; [exact Hf|]. cbn. lia.
  - exists (ar_id row). unfold exposures in *. rewrite Ea, fmap_app, Hx. cbn.
    unfold exposure at 2. by rewrite Hal, Hob, Hno, En.
Qed.

(** The cap on every day's exposure. *)
Definition days_within (cap : Z) (db : Db) : Prop := ∀ d, day_sum d (exposures db) ≤ cap.

(** An insertion checked against the sum read before it keeps every day within the
    cap, also when midnight falls between the two. *)
Lemma inserts_days_within cap attempt db db1 db' :
  db_wf db → days_within cap db → 0 ≤ at_requested_notional attempt →
  db_frame db db1 → inserts attempt db1 db' →
  (at_submission_allowed attempt = true →
   day_sum (day_of (db_now db)) (exposures db) + at_requested_notional attempt ≤ cap) →
  days_within cap db'.
Proof.
  intros Hwf Hcap Hn [Hw Hnow Hx] Hins Hok.
  specialize (Hw Hwf). specialize (Hnow Hwf).
  destruct (inserts_wf _ _ _ Hn Hins Hw) as (_ & Hle & id & Hx'). intros d.
  rewrite Hx', Hx, day_sum_app. cbn. pose proof (Hcap d) as Hd.
  destruct (at_submission_allowed attempt); cbn; [|lia].
  specialize (Hok eq_refl). destruct (day_of (db_now db') =? d) eqn:E; [|lia].
  assert (day_of (db_now db) ≤ d).
  { apply Z.eqb_eq in E as <-. apply Z.div_le_mono; [unfold MICROS_PER_DAY|]; lia. }
  destruct (decide (day_of (db_now db) = d)) as [<-|]; [lia|].
  assert (∀ d, 0 ≤ day_sum d (exposures db)) as Hpos.
  { destruct Hwf as [_ Hr _ _]. intros d'. unfold exposures.
    induction Hr as [|r rs [_ ?] _ IH]; cbn; [done|]. case_match; lia. }
  specialize (Hpos (day_of (db_now db))).
  unfold exposures. rewrite (day_sum_future _ _ (db_now db)); [lia| |lia].
  destruct Hwf as [_ Hr _ _]. eapply Forall_impl; [exact Hr|]. naive_solver.
Qed.

Lemma db_query_wp {A : Type} (statement : Db → A * Db) db :
  wp (db_query statement) (λ r db', ∃ db1, db_frame db db1 ∧
    (r = Ok (statement db1).1 ∧ db' = (statement db1).2 ∨
     (∃ m, r = Err [m]) ∧ (db' = db1 ∨ db' = (statement db1).2))) db.
Proof.
  unfold wp, db_query. destruct (db_script db) as [|[now fate] script] eqn:Hs.
  - exists db. split; [done|]. left. by destruct (statement db).
  - exists (db_advance db now script). split; [by eapply db_advance_frame|].
    destruct fate; cbn; [left; by destruct (statement _)|right; eauto..].
Qed.

Section daily.
Context {J : SerdeJson} {HJ : SerdeJsonLaws J}.

Lemma persist_execution_attempt_wp run_id attempt request s :
  wp (persist_execution_attempt run_id attempt request) (λ r s', r ≠ Panic ∧
    match storage_pool s, storage_pool s' with
    | None, None => r = Ok None
    | Some db, Some db' => db_frame db db' ∧ (∀ o, r ≠ Ok o) ∨ inserts attempt db db'
    | _, _ => False
    end) s.
Proof.
  unfold wp, persist_execution_attempt, with_pool. destruct s as [[db|]]; cbn [storage_pool]; [|done].
  unfold mbind, eff_bind, lift.
  pose proof (context_no_panic _ "failed to serialize execution attempt" (value_attempt_law attempt)).
  destruct (context (value_attempt attempt) _) as [aj|e|]; [|cbn; by split; [|left]|done].
  pose proof (context_no_panic _ "failed to serialize execution request" (value_request_law request)).
  destruct (context (value_request request) _) as [rj|e|]; [|cbn; by split; [|left]|done].
  pose proof (text_status_law (at_status attempt)).
  destruct (text_status _) as [st|e|]; [|cbn; by split; [|left]|done].
  unfold eff_context. set (q := λ db : Db, _).
  pose proof (db_query_wp q db) as Hq. unfold wp in Hq. fold q in Hq.
  destruct (db_query q db) as [r db']. destruct Hq as (db1 & Hf & Hcase). cbn in Hf, Hcase.
  assert (db' = db1 ∧ (∃ m, r = Err [m]) ∨ db' = (q db1).2) as Hdb by naive_solver.
  assert (r ≠ Panic) as Hr by naive_solver.
  destruct r as [id|e|]; [| |done]; cbn; (split; [done|]).
  - right. destruct Hdb as [[_ [m [=]]]|Hdb].
    exists db1. eexists. subst db'. split_and!; [done|cbn; reflexivity..].
  - destruct Hdb as [[-> _]|Hdb]; [by left|right].
    exists db1. eexists. subst db'. split_and!; [done|cbn; reflexivity..].
Qed.

Lemma todays_wp s :
  wp todays_submittable_notional_wei (λ r s', r ≠ Panic ∧
    match storage_pool s, storage_pool s' with
    | None, None => r = Ok 0
    | Some db, Some db' => db_frame db db' ∧
        ∀ n, r = Ok n → db_wf db → n = day_sum (day_of (db_now db')) (exposures db')
    | _, _ => False
    end) s.
Proof.
  unfold wp, todays_submittable_notional_wei, with_pool.
  destruct s as [[db|]]; cbn [storage_pool]; [|done].
  unfold mbind, eff_bind, lift, eff_context. set (q := λ db : Db, _).
  pose proof (db_query_wp q db) as Hq. unfold wp in Hq.
  destruct (db_query q db) as [r db']. destruct Hq as (db1 & Hf & Hcase). cbn in Hcase.
  assert (db' = db1) as -> by naive_solver.
  destruct Hcase as [[-> _]|[[m ->] _]]; cbn; [|naive_solver].
  split; [by case_match|]. split; [done|]. intros n Hn Hwf. case_match; [|done]. injection Hn as <-.
  apply notional_sum_day. destruct (df_wf _ _ Hf Hwf) as [_ Hr _ _].
  eapply Forall_impl; [exact Hr|]. naive_solver.
Qed.
End daily.
