(* ===== verification/Schema.v ===== *)
(** Connecting to the database (crate [storage], [Storage::connect]) and the schema
    migration it runs, [migration/00000000-00-init.sql].

    The catalog of the database is one name space of relations: the tables with their
    columns and the indexes with theirs.  Postgres runs the statements of one [raw_sql]
    in one transaction (the simple query protocol), so that a failing one leaves the
    catalog as it was; [IF NOT EXISTS] is read from each statement.  What each statement
    of [storage/src/lib.rs] needs of the schema is listed as [storage_statements]; what the
    statements do to the rows is file [Storage].  The relations Postgres names itself (the
    sequences of the keys, the indexes of the constraints) are not in the catalog. *)

From stdpp Require Import gmap strings.
From S2P Require Import Prelude RustStr Types Config Decision Execution Storage.
#[local] Open Scope Z_scope.

Inductive Constraint :=
| PrimaryKey | NotNull | Unique | DefaultNow | References (table key : string).
#[global] Instance Constraint_eq_dec : EqDecision Constraint.
Proof. solve_decision. Defined.

Record Column := column { co_name : string; co_type : string; co_constraints : list Constraint }.
#[global] Instance Column_eq_dec : EqDecision Column.
Proof. solve_decision. Defined.

Inductive Direction := Asc | Desc.
#[global] Instance Direction_eq_dec : EqDecision Direction.
Proof. solve_decision. Defined.

Inductive Ddl :=
| CreateTable (if_not_exists : bool) (name : string) (columns : list Column)
| CreateIndex (if_not_exists : bool) (name table : string) (columns : list (string * Direction)).

Definition init_schema : list Ddl := [
  CreateTable true "observed_logs" [
    column "id" "BIGSERIAL" [PrimaryKey];
    column "observed_at" "TIMESTAMPTZ" [NotNull; DefaultNow];
    column "fingerprint" "TEXT" [NotNull; Unique]; column "tx_hash" "TEXT" [];
    column "block_context" "TEXT" [NotNull]; column "chain_id" "BIGINT" [NotNull];
    column "address" "TEXT" []; column "event_signature" "TEXT" [];
    column "log_index" "BIGINT" []; column "removed" "BOOLEAN" [];
    column "log_json" "JSONB" [NotNull]];
  CreateIndex true "observed_logs_observed_at_idx" "observed_logs"
    [("observed_at", Desc)];
  CreateIndex true "observed_logs_tx_hash_idx" "observed_logs"
    [("tx_hash", Asc)];
  CreateTable true "decision_runs" [
    column "id" "BIGSERIAL" [PrimaryKey];
    column "observed_at" "TIMESTAMPTZ" [NotNull; DefaultNow];
    column "observed_log_id" "BIGINT" [References "observed_logs" "id"];
    column "opportunity_id" "TEXT" [NotNull]; column "trigger_tx_hash" "TEXT" [];
    column "block_context" "TEXT" [NotNull]; column "settlement_token" "TEXT" [NotNull];
    column "input_amount_wei" "TEXT" [NotNull];
    column "expected_output_amount_wei" "TEXT" [NotNull];
    column "expected_net_profit_wei" "TEXT" [NotNull];
    column "simulated_gross_profit_wei" "TEXT" [NotNull];
    column "simulated_net_profit_wei" "TEXT" [NotNull];
    column "gas_estimate" "BIGINT" [NotNull]; column "gas_cost_wei" "TEXT" [NotNull];
    column "l1_data_fee_wei" "TEXT" [NotNull]; column "risk_accepted" "BOOLEAN" [NotNull];
    column "risk_hash" "TEXT" [NotNull]; column "min_surplus_wei" "TEXT" [NotNull];
    column "opportunity_json" "JSONB" [NotNull]; column "simulation_json" "JSONB" [NotNull];
    column "risk_json" "JSONB" [NotNull]; column "execution_request_json" "JSONB" []];
  CreateIndex true "decision_runs_observed_at_idx" "decision_runs"
    [("observed_at", Desc)];
  CreateIndex true "decision_runs_observed_log_id_idx" "decision_runs"
    [("observed_log_id", Asc)];
  CreateIndex true "decision_runs_opportunity_id_idx" "decision_runs"
    [("opportunity_id", Asc)];
  CreateIndex true "decision_runs_risk_hash_idx" "decision_runs"
    [("risk_hash", Asc)];
  CreateTable true "execution_attempts" [
    column "id" "BIGSERIAL" [PrimaryKey];
    column "observed_at" "TIMESTAMPTZ" [NotNull; DefaultNow];
    column "decision_run_id" "BIGINT" [References "decision_runs" "id"];
    column "request_id" "TEXT" [NotNull]; column "status" "TEXT" [NotNull];
    column "execution_mode" "TEXT" [NotNull]; column "submission_allowed" "BOOLEAN" [NotNull];
    column "blocked_reason" "TEXT" []; column "requested_notional_wei" "TEXT" [NotNull];
    column "tx_hash" "TEXT" []; column "submitted_at" "TIMESTAMPTZ" [];
    column "finalized_at" "TIMESTAMPTZ" []; column "inclusion_block_number" "BIGINT" [];
    column "gas_limit" "BIGINT" []; column "gas_used" "BIGINT" [];
    column "max_fee_per_gas_wei" "TEXT" []; column "max_priority_fee_per_gas_wei" "TEXT" [];
    column "effective_gas_price_wei" "TEXT" []; column "l1_fee_paid_wei" "TEXT" [];
    column "total_fee_paid_wei" "TEXT" []; column "realized_surplus_wei" "TEXT" [];
    column "outcome_reason" "TEXT" []; column "last_error_stage" "TEXT" [];
    column "last_error" "TEXT" []; column "execution_request_json" "JSONB" [NotNull];
    column "attempt_json" "JSONB" [NotNull]; column "receipt_json" "JSONB" [];
    column "outcome_json" "JSONB" []];
  CreateIndex true "execution_attempts_observed_at_idx" "execution_attempts"
    [("observed_at", Desc)];
  CreateIndex true "execution_attempts_decision_run_id_idx" "execution_attempts"
    [("decision_run_id", Asc)];
  CreateIndex true "execution_attempts_request_id_idx" "execution_attempts"
    [("request_id", Asc)];
  CreateIndex true "execution_attempts_submission_allowed_idx" "execution_attempts"
    [("submission_allowed", Asc); ("observed_at", Desc)];
  CreateIndex true "execution_attempts_status_idx" "execution_attempts"
    [("status", Asc); ("observed_at", Desc)];
  CreateIndex true "execution_attempts_tx_hash_idx" "execution_attempts"
    [("tx_hash", Asc)] ]%string.

(** ** The catalog *)

Inductive Relation :=
| Table (columns : list Column)
| Index (table : string) (columns : list (string * Direction)).
#[global] Instance Relation_eq_dec : EqDecision Relation.
Proof. solve_decision. Defined.

Abbreviation Catalog := (gmap string Relation).

Definition is_constrained (k : Constraint) (co : Column) : bool := bool_decide (k ∈ co_constraints co).
Definition is_unique (co : Column) : bool := is_constrained PrimaryKey co || is_constrained Unique co.
Definition is_nullable (co : Column) : bool := negb (is_constrained PrimaryKey co || is_constrained NotNull co).
(** A [BIGSERIAL] is a [BIGINT] whose default is the next number of its sequence. *)
Definition has_default (co : Column) : bool :=
  is_constrained DefaultNow co || bool_decide (co_type co = "BIGSERIAL"%string).
Definition stored_type (co : Column) : string :=
  if bool_decide (co_type co = "BIGSERIAL"%string) then "BIGINT"%string else co_type co.

Definition table_columns (c : Catalog) (table : string) : option (list Column) :=
  match c !! table with Some (Table columns) => Some columns | _ => None end.
Definition find_column (columns : list Column) (name : string) : option Column :=
  find (λ co, bool_decide (co_name co = name)) columns.
Definition lookup_column (c : Catalog) (table name : string) : option Column :=
  columns ← table_columns c table; find_column columns name.

(** A foreign key refers to a unique column of a table that is there. *)
Definition references_ok (c : Catalog) (k : Constraint) : bool :=
  match k with
  | References table key =>
      match lookup_column c table key with Some co => is_unique co | None => false end
  | _ => true
  end.
Definition table_ok (c : Catalog) (columns : list Column) : bool :=
  bool_decide (NoDup (co_name <$> columns)) &&
  bool_decide (length (filter (λ co, is_constrained PrimaryKey co = true) columns) ≤ 1)%nat &&
  forallb (λ co, forallb (references_ok c) (co_constraints co)) columns.
Definition index_ok (c : Catalog) (table : string) (columns : list (string * Direction)) : bool :=
  forallb (λ name, bool_decide (is_Some (lookup_column c table name))) columns.*1.

(** One statement.  A name that is taken is an error, or with [IF NOT EXISTS] the statement
    is skipped, whatever is there; of an index, the table and the columns are looked up
    first. *)
Definition create (c : Catalog) (if_not_exists : bool) (name : string) (r : Relation) (ok : bool) :
    anyhow Catalog :=
  match c !! name with
  | Some _ => if if_not_exists then Ok c else bail ("relation already exists: " +:+ name)
  | None => if ok then Ok (<[name := r]> c) else bail "relation or column does not exist"
  end.

Definition run_ddl (c : Catalog) (d : Ddl) : anyhow Catalog :=
  match d with
  | CreateTable if_not_exists name columns =>
      create c if_not_exists name (Table columns) (table_ok c columns)
  | CreateIndex if_not_exists name table columns =>
      if index_ok c table columns then create c if_not_exists name (Index table columns) true
      else bail "relation or column does not exist"
  end.

Fixpoint run_ddls (c : Catalog) (ds : list Ddl) : anyhow Catalog :=
  match ds with [] => Ok c | d :: ds => c ← run_ddl c d; run_ddls c ds end.

(** [sqlx::raw_sql(..).execute(&pool)] under a fate of the statement. *)
Definition raw_sql (fate : QueryOutcome) (ds : list Ddl) : eff Catalog error unit := λ c,
  match fate with
  | Refused message => (Err [message], c)
  | Done | Lost _ =>
      match run_ddls c ds with
      | Ok c' => (match fate with Lost message => Err [message] | _ => Ok tt end, c')
      | Err e => (Err e, c)
      | Panic => (Panic, c)
      end
  end.

(** [pool_connect] is the driver's: what is behind a URL, with the size of the pool and
    the timeout. *)
Definition storage_connect (pool_connect : Z → Z → string → anyhow Db) (migration : QueryOutcome)
    (config : StorageConfig) : eff Catalog error Storage :=
  match sto_database_url config with
  | None => mret {| storage_pool := None |}
  | Some database_url =>
      pool ← lift (context (pool_connect (sto_max_connections config)
                              (sto_connect_timeout_secs config) database_url)
                     "failed to connect to postgres");
      _ ← (if sto_auto_migrate config
           then eff_context (raw_sql migration init_schema) "failed to apply 00000000-00-init.sql"
           else mret tt);
      mret {| storage_pool := Some pool |}
  end.

(** ** What the statements of the storage need *)

(** A value written to a column: of a type, an [Option] of it, or the literal [NULL]. *)
Inductive Binding :=
| Bind (name type : string)
| BindOption (name type : string)
| BindNull (name : string).
Definition bind_name (b : Binding) : string :=
  match b with Bind name _ | BindOption name _ | BindNull name => name end.

Inductive Verb := SqlInsert | SqlUpdate | SqlSelect.

(** A statement: the columns it writes with what it binds to them, those it reads with the
    types it reads them at, and the column of its [ON CONFLICT]. *)
Record Query := {
  qu_verb : Verb;
  qu_table : string;
  qu_binds : list Binding;
  qu_uses : list (string * string);
  qu_conflict : option string }.

Definition query_persist_observed_log : Query :=
  {| qu_verb := SqlInsert; qu_table := "observed_logs"; qu_binds := [
      Bind "fingerprint" "TEXT"; BindOption "tx_hash" "TEXT"; Bind "block_context" "TEXT";
      Bind "chain_id" "BIGINT"; BindOption "address" "TEXT";
      BindOption "event_signature" "TEXT"; BindOption "log_index" "BIGINT";
      BindOption "removed" "BOOLEAN"; Bind "log_json" "JSONB"];
     qu_uses := [("id", "BIGINT"); ("observed_at", "TIMESTAMPTZ")]; qu_conflict := Some "fingerprint" |}%string.

Definition query_persist_decision_run : Query :=
  {| qu_verb := SqlInsert; qu_table := "decision_runs"; qu_binds := [
      BindOption "observed_log_id" "BIGINT"; Bind "opportunity_id" "TEXT";
      BindOption "trigger_tx_hash" "TEXT"; Bind "block_context" "TEXT";
      Bind "settlement_token" "TEXT"; Bind "input_amount_wei" "TEXT";
      Bind "expected_output_amount_wei" "TEXT"; Bind "expected_net_profit_wei" "TEXT";
      Bind "simulated_gross_profit_wei" "TEXT"; Bind "simulated_net_profit_wei" "TEXT";
      Bind "gas_estimate" "BIGINT"; Bind "gas_cost_wei" "TEXT"; Bind "l1_data_fee_wei" "TEXT";
      Bind "risk_accepted" "BOOLEAN"; Bind "risk_hash" "TEXT"; Bind "min_surplus_wei" "TEXT";
      Bind "opportunity_json" "JSONB"; Bind "simulation_json" "JSONB"; Bind "risk_json" "JSONB";
      Bind "execution_request_json" "JSONB"];
     qu_uses := [("id", "BIGINT")]; qu_conflict := None |}%string.

Definition query_persist_execution_attempt : Query :=
  {| qu_verb := SqlInsert; qu_table := "execution_attempts"; qu_binds := [
      BindOption "decision_run_id" "BIGINT"; Bind "request_id" "TEXT"; Bind "status" "TEXT";
      Bind "execution_mode" "TEXT"; Bind "submission_allowed" "BOOLEAN";
      BindOption "blocked_reason" "TEXT"; Bind "requested_notional_wei" "TEXT";
      BindOption "tx_hash" "TEXT"; BindNull "submitted_at"; BindNull "finalized_at";
      BindNull "inclusion_block_number"; BindOption "gas_limit" "BIGINT"; BindNull "gas_used";
      BindOption "max_fee_per_gas_wei" "TEXT"; BindOption "max_priority_fee_per_gas_wei" "TEXT";
      BindNull "effective_gas_price_wei"; BindNull "l1_fee_paid_wei";
      BindNull "total_fee_paid_wei"; BindNull "realized_surplus_wei"; BindNull "outcome_reason";
      BindNull "last_error_stage"; BindNull "last_error"; Bind "execution_request_json" "JSONB";
      Bind "attempt_json" "JSONB"; BindNull "receipt_json"; BindNull "outcome_json"];
     qu_uses := [("id", "BIGINT")]; qu_conflict := None |}%string.

Definition query_mark_execution_submitted : Query :=
  {| qu_verb := SqlUpdate; qu_table := "execution_attempts"; qu_binds := [
      Bind "status" "TEXT"; BindOption "tx_hash" "TEXT"; Bind "submitted_at" "TIMESTAMPTZ";
      Bind "attempt_json" "JSONB"];
     qu_uses := [("id", "BIGINT")]; qu_conflict := None |}%string.

Definition query_finalize_execution_attempt : Query :=
  {| qu_verb := SqlUpdate; qu_table := "execution_attempts"; qu_binds := [
      Bind "status" "TEXT"; BindOption "tx_hash" "TEXT"; Bind "finalized_at" "TIMESTAMPTZ";
      BindOption "inclusion_block_number" "BIGINT"; BindOption "gas_used" "BIGINT";
      BindOption "effective_gas_price_wei" "TEXT"; BindOption "l1_fee_paid_wei" "TEXT";
      BindOption "total_fee_paid_wei" "TEXT"; BindOption "realized_surplus_wei" "TEXT";
      BindOption "outcome_reason" "TEXT"; BindNull "last_error_stage"; BindNull "last_error";
      Bind "attempt_json" "JSONB"; Bind "receipt_json" "JSONB"; Bind "outcome_json" "JSONB"];
     qu_uses := [("id", "BIGINT")]; qu_conflict := None |}%string.

Definition query_finalize_execution_attempt_without_receipt : Query :=
  {| qu_verb := SqlUpdate; qu_table := "execution_attempts"; qu_binds := [
      Bind "status" "TEXT"; BindOption "tx_hash" "TEXT"; Bind "finalized_at" "TIMESTAMPTZ";
      BindOption "total_fee_paid_wei" "TEXT"; BindOption "realized_surplus_wei" "TEXT";
      BindOption "outcome_reason" "TEXT"; BindNull "last_error_stage"; BindNull "last_error";
      Bind "attempt_json" "JSONB"; Bind "outcome_json" "JSONB"];
     qu_uses := [("id", "BIGINT")]; qu_conflict := None |}%string.

Definition query_record_execution_attempt_error : Query :=
  {| qu_verb := SqlUpdate; qu_table := "execution_attempts"; qu_binds := [
      Bind "last_error_stage" "TEXT"; Bind "last_error" "TEXT"];
     qu_uses := [("id", "BIGINT")]; qu_conflict := None |}%string.

Definition query_todays_submittable_notional_wei : Query :=
  {| qu_verb := SqlSelect; qu_table := "execution_attempts"; qu_binds := [
      ];
     qu_uses := [("requested_notional_wei", "TEXT"); ("submission_allowed", "BOOLEAN");
        ("observed_at", "TIMESTAMPTZ")]; qu_conflict := None |}%string.

Definition storage_statements : list Query := [
  query_persist_observed_log; query_persist_decision_run; query_persist_execution_attempt;
  query_mark_execution_submitted; query_finalize_execution_attempt;
  query_finalize_execution_attempt_without_receipt; query_record_execution_attempt_error;
  query_todays_submittable_notional_wei].

Definition binds (columns : list Column) (b : Binding) : bool :=
  match find_column columns (bind_name b) with
  | None => false
  | Some co =>
      match b with
      | Bind _ type => bool_decide (stored_type co = type)
      | BindOption _ type => bool_decide (stored_type co = type) && is_nullable co
      | BindNull _ => is_nullable co
      end
  end.

(** The database can run the statement: its columns are there with their types, a null goes
    only to a column that takes it, an insertion leaves out only what is nullable or has a
    default, and the column of a conflict is unique. *)
Definition supports (c : Catalog) (q : Query) : bool :=
  match table_columns c (qu_table q) with
  | None => false
  | Some columns =>
      forallb (binds columns) (qu_binds q) &&
      forallb (λ use, match find_column columns use.1 with
                      | Some co => bool_decide (stored_type co = use.2)
                      | None => false
                      end) (qu_uses q) &&
      match qu_verb q with
      | SqlInsert =>
          forallb (λ co, bool_decide (co_name co ∈ bind_name <$> qu_binds q)
                         || is_nullable co || has_default co) columns
      | _ => true
      end &&
      match qu_conflict q with
      | Some name => match find_column columns name with Some co => is_unique co | None => false end
      | None => true
      end
  end.

(** ** Properties *)

Definition ddl_name (d : Ddl) : string :=
  match d with CreateTable _ name _ | CreateIndex _ name _ _ => name end.
Definition ddl_relation (d : Ddl) : Relation :=
  match d with
  | CreateTable _ _ columns => Table columns
  | CreateIndex _ _ table columns => Index table columns
  end.

(** The relations a script declares. *)
Definition declared (ds : list Ddl) : Catalog :=
  list_to_map ((λ d, (ddl_name d, ddl_relation d)) <$> ds).

(** What the database has under a name of the script is what the script declares: a fresh
    database, one that was migrated before, or one migrated in part. *)
Definition conforming (c : Catalog) (ds : list Ddl) : Prop :=
  Forall (λ d, c !! ddl_name d = None ∨ c !! ddl_name d = Some (ddl_relation d)) ds.

(** A script that can run anywhere: each statement is guarded, and what it refers to is
    declared before it. *)
Definition well_placed (c : Catalog) (d : Ddl) : bool :=
  match d with
  | CreateTable if_not_exists _ columns => if_not_exists && table_ok c columns
  | CreateIndex if_not_exists _ table columns => if_not_exists && index_ok c table columns
  end.
Fixpoint well_ordered (c : Catalog) (ds : list Ddl) : bool :=
  match ds with
  | [] => true
  | d :: ds => well_placed c d && well_ordered (<[ddl_name d := ddl_relation d]> c) ds
  end.

Lemma table_columns_mono c c' table columns :
  c ⊆ c' → table_columns c table = Some columns → table_columns c' table = Some columns.
Proof.
  intros Hs. unfold table_columns. destruct (c !! table) eqn:H; [|done].
  by rewrite (lookup_weaken _ _ _ _ H Hs).
Qed.

Lemma lookup_column_mono c c' table name co :
  c ⊆ c' → lookup_column c table name = Some co → lookup_column c' table name = Some co.
Proof.
  intros Hs. unfold lookup_column. destruct (table_columns c table) eqn:H; [|done].
  by rewrite (table_columns_mono _ _ _ _ Hs H).
Qed.

Lemma references_ok_mono c c' k : c ⊆ c' → references_ok c k = true → references_ok c' k = true.
Proof.
  intros Hs. destruct k; cbn; try done. destruct (lookup_column c _ _) eqn:H; [|done].
  by rewrite (lookup_column_mono _ _ _ _ _ Hs H).
Qed.

Lemma table_ok_mono c c' columns : c ⊆ c' → table_ok c columns = true → table_ok c' columns = true.
Proof.
  intros Hs. unfold table_ok. rewrite !andb_true_iff, !forallb_forall. intros [? Hk]. split; [done|].
  intros co Hco. apply Hk in Hco. rewrite !forallb_forall in *. eauto using references_ok_mono.
Qed.

Lemma index_ok_mono c c' table columns :
  c ⊆ c' → index_ok c table columns = true → index_ok c' table columns = true.
Proof.
  intros Hs. unfold index_ok. rewrite !forallb_forall. intros Hk name Hn. apply Hk in Hn.
  apply bool_decide_eq_true in Hn as [co Hco]. apply bool_decide_eq_true. exists co.
  by eapply lookup_column_mono.
Qed.

Lemma supports_mono c c' q : c ⊆ c' → supports c q = true → supports c' q = true.
Proof.
  intros Hs. unfold supports. destruct (table_columns c (qu_table q)) eqn:H; [|done].
  by rewrite (table_columns_mono _ _ _ _ Hs H).
Qed.

(** The right part of a union, where the left one does not say otherwise. *)
Lemma declared_union c ds : conforming c ds → NoDup (ddl_name <$> ds) → declared ds ⊆ c ∪ declared ds.
Proof.
  intros Hc Hd. apply map_subseteq_spec. intros name r Hr. apply lookup_union_Some_raw.
  assert (c !! name = None ∨ c !! name = Some r) as [Hn|Hn]; [|by right|by left].
  unfold declared in Hr. apply elem_of_list_to_map_2, list_elem_of_fmap in Hr as (d & [= -> ->] & Hin).
  unfold conforming in Hc. rewrite Forall_forall in Hc. by apply Hc.
Qed.

Lemma run_ddl_placed c c0 d :
  c0 ⊆ c → well_placed c0 d = true →
  c !! ddl_name d = None ∨ c !! ddl_name d = Some (ddl_relation d) →
  run_ddl c d = Ok (c ∪ {[ddl_name d := ddl_relation d]}).
Proof.
  intros Hs Hw Hc.
  assert (c ∪ {[ddl_name d := ddl_relation d]} = match c !! ddl_name d with
            | Some _ => c | None => <[ddl_name d := ddl_relation d]> c end) as ->.
  { destruct (c !! ddl_name d) eqn:Hn.
    - apply map_eq. intros i. rewrite lookup_union.
      destruct (decide (i = ddl_name d)) as [->|Hne].
      + rewrite Hn, lookup_singleton_eq. done.
      + rewrite lookup_singleton_ne by done. by destruct (c !! i).
    - by rewrite insert_union_singleton_r. }
  destruct d as [b name columns|b name table columns]; cbn in *; apply andb_true_iff in Hw as [-> Hw].
  - unfold create. destruct (c !! name); [done|]. by rewrite (table_ok_mono c0).
  - rewrite (index_ok_mono c0) by done. unfold create. by destruct (c !! name).
Qed.

Lemma run_ddls_placed ds c c0 :
  c0 ⊆ c → well_ordered c0 ds = true → NoDup (ddl_name <$> ds) → conforming c ds →
  run_ddls c ds = Ok (c ∪ declared ds).
Proof.
  revert c c0. induction ds as [|d ds IH]; intros c c0 Hs Hw Hd Hc; cbn.
  { unfold declared. cbn. by rewrite map_union_empty. }
  cbn in Hw. apply andb_true_iff in Hw as [Hp Hw]. apply NoDup_cons in Hd as [Hn Hd].
  apply Forall_cons in Hc as [Hc Hcs]. rewrite (run_ddl_placed c c0 d) by done. cbn.
  rewrite (IH _ (<[ddl_name d := ddl_relation d]> c0)); [| |done|done|].
  - rewrite <- map_union_assoc. f_equal. unfold declared. cbn. by rewrite insert_union_singleton_l.
  - apply insert_subseteq_l; [|etransitivity; [done|apply map_union_subseteq_l]].
    apply lookup_union_Some_raw. destruct Hc as [Hc|Hc]; [right|by left].
    split; [done|apply lookup_singleton_eq].
  - apply Forall_forall. intros d' Hd'. rewrite lookup_union_l.
    + rewrite Forall_forall in Hcs. by apply Hcs.
    + apply lookup_singleton_ne. intros He. apply Hn. rewrite He. by apply list_elem_of_fmap_2.
Qed.

Lemma declared_lookup ds d :
  NoDup (ddl_name <$> ds) → d ∈ ds → declared ds !! ddl_name d = Some (ddl_relation d).
Proof.
  intros Hd Hin. apply elem_of_list_to_map_1.
  - rewrite <- list_fmap_compose. exact Hd.
  - apply list_elem_of_fmap. by exists d.
Qed.

(** Once a script has run, running it again finds everything in place. *)
Lemma conforming_union c ds : conforming c ds → NoDup (ddl_name <$> ds) →
  conforming (c ∪ declared ds) ds.
Proof.
  intros Hc Hd. apply Forall_forall. intros d Hin. right.
  eapply lookup_weaken; [by apply declared_lookup|by apply declared_union].
Qed.

Lemma init_schema_ordered : well_ordered ∅ init_schema = true.
Proof. by vm_compute. Qed.
Lemma init_schema_distinct : NoDup (ddl_name <$> init_schema).
Proof. by apply (bool_decide_unpack _); vm_compute. Qed.
Lemma init_schema_supports : forallb (supports (declared init_schema)) storage_statements = true.
Proof. by vm_compute. Qed.

Lemma init_schema_runs c :
  conforming c init_schema → run_ddls c init_schema = Ok (c ∪ declared init_schema).
Proof.
  intros Hc. apply (run_ddls_placed _ _ ∅); [apply map_empty_subseteq|apply init_schema_ordered|
    apply init_schema_distinct|done].
Qed.

Lemma init_schema_again c : conforming c init_schema →
  run_ddls (c ∪ declared init_schema) init_schema = Ok (c ∪ declared init_schema).
Proof.
  intros Hc. rewrite init_schema_runs by (apply conforming_union; [done|apply init_schema_distinct]).
  by rewrite <- map_union_assoc, map_union_idemp.
Qed.

(** The three tables and twelve indexes of the schema from an empty database. *)
Definition empty_catalog : Catalog := ∅.
Example init_schema_fresh :
  ∃ c, run_ddls empty_catalog init_schema = Ok c ∧
    {["observed_logs"; "decision_runs"; "execution_attempts"]}%string ⊆ dom c ∧ size c = 15%nat.
Proof.
  exists (empty_catalog ∪ declared init_schema). split_and!; [|by apply (bool_decide_unpack _); vm_compute|by vm_compute].
  apply init_schema_runs. apply Forall_forall. intros d _. by left.
Qed.

(** C38. The migration makes the database the one the code is written for.  On a database
    that has nothing else under the names of the schema, connecting succeeds, adds what is
    missing of the schema and nothing more, keeps every relation as it was, and then every
    statement of the storage can run: its columns exist with the types it binds, no null or
    omitted value meets a [NOT NULL] column, and the column of [ON CONFLICT] is unique.
    Connecting again changes nothing; under any fate of the script the schema is applied
    whole or not at all.  Without a URL, without a connection and without the migration the
    database is not touched. *)
Theorem connect_migrates pool_connect config c :
  conforming c init_schema →
  ∃ c1, c ⊆ c1 ∧ (∀ name, name ∉ ddl_name <$> init_schema → c1 !! name = c !! name) ∧
    Forall (λ d, c1 !! ddl_name d = Some (ddl_relation d)) init_schema ∧
    Forall (λ q, supports c1 q = true) storage_statements ∧
    (sto_database_url config = None → ∀ fate,
       storage_connect pool_connect fate config c = (Ok {| storage_pool := None |}, c)) ∧
    ∀ url, sto_database_url config = Some url →
      match pool_connect (sto_max_connections config) (sto_connect_timeout_secs config) url with
      | Panic => True
      | Err e => ∀ fate, storage_connect pool_connect fate config c =
                   (Err ("failed to connect to postgres"%string :: e), c)
      | Ok db =>
          if sto_auto_migrate config then
            storage_connect pool_connect Done config c = (Ok {| storage_pool := Some db |}, c1) ∧
            storage_connect pool_connect Done config c1 = (Ok {| storage_pool := Some db |}, c1) ∧
            ∀ message,
              storage_connect pool_connect (Refused message) config c =
                (Err ["failed to apply 00000000-00-init.sql"%string; message], c) ∧
              storage_connect pool_connect (Lost message) config c =
                (Err ["failed to apply 00000000-00-init.sql"%string; message], c1)
          else ∀ fate, storage_connect pool_connect fate config c = (Ok {| storage_pool := Some db |}, c)
      end.
Proof.
  intros Hc. pose proof (init_schema_runs c Hc) as Hr. pose proof (init_schema_again c Hc) as Ha.
  pose proof (declared_union c init_schema Hc init_schema_distinct) as Hd.
  exists (c ∪ declared init_schema). split_and!.
  - apply map_union_subseteq_l.
  - intros name Hn. apply lookup_union_l. apply not_elem_of_list_to_map_1.
    rewrite <- list_fmap_compose. exact Hn.
  - apply Forall_forall. intros d Hin. eapply lookup_weaken; [|exact Hd].
    apply declared_lookup; [apply init_schema_distinct|exact Hin].
  - apply Forall_forall. intros q Hq. eapply supports_mono; [done|].
    pose proof init_schema_supports as Hs. rewrite forallb_forall in Hs. apply Hs.
    by apply list_elem_of_In.
  - intros Hu fate. unfold storage_connect. by rewrite Hu.
  - intros url Hu. unfold storage_connect. rewrite Hu. unfold mbind, eff_bind, lift.
    destruct (pool_connect _ _ url) as [db|e|]; [|done|done].
    destruct (sto_auto_migrate config); [|done]. unfold eff_context, raw_sql. cbn [context map_err].
    rewrite Hr, Ha. split_and!; [reflexivity..|]. intros message. split; reflexivity.
Qed.
