(* ===== verification/App.v ===== *)
(** The application (crate [app], [main.rs]): the event handler, the decision
    pipeline, the slow-path simulation, the drive of an execution attempt and the
    main loop over the events of the ingest channel.

    The engine's state is the book, the state of the risk engine, the storage and
    the world behind the execution transport.  What an event reads from outside
    (clocks, the kill-switch file, the iteration order of the book's map) is the
    record [EventEnv].  Logging and metrics are left out, except for the negation
    of the fee, which can overflow. *)

From S2P Require Import Prelude RustStr Types MarketsV2 U256 MarketsV3 PoolBook Config.
From S2P Require Import Risk Decision Execution Storage.
#[local] Open Scope Z_scope.

Record BootstrapV2Pool := {
  bp_address : string;
  bp_protocol : Protocol.Protocol;
  bp_exchange : option Exchange.Exchange;
  bp_token0 : string;
  bp_token1 : string;
  bp_reserve0 : Amount;
  bp_reserve1 : Amount;
  bp_fee_bps : Z }.                           (* u32 *)

Record RuntimeScanConfig := {
  scan_settlement_token : string;
  scan_amount_in : Amount;
  scan_simulation : SimulationConfig }.

Record DecisionPipelineOutput := {
  out_observed_log_id : option Z;
  out_opportunity : Opportunity;
  out_simulation : SimulationResult }.

(** The text of a [MarketError]. *)
Definition show_market_error (e : MarketError) : string :=
  match e with
  | InvalidPool reason => "invalid pool: " +:+ reason
  | UnknownToken pool_address token =>
      "token `" +:+ token +:+ "` is not part of pool `" +:+ pool_address +:+ "`"
  | InsufficientInput => "input amount must be greater than zero"
  | InsufficientLiquidity => "pool cannot produce a non-zero output for the requested input"
  | ArithmeticOverflow => "arithmetic overflow while quoting pool"
  | MissingDecodedField field =>
      "decoded log event missing required field `" +:+ field +:+ "`"
  | MissingLogIdentity =>
      "log is missing tx hash or log index required for deterministic state application"
  | MissingRevertSnapshot tx_hash log_index =>
      "no revert snapshot found for removed log " +:+ tx_hash +:+ ":" +:+ show_uint log_index
  end.

(** [anyhow::Error::to_string]: the outermost message. *)
Definition display_error (e : error) : string := default "" (head e).

(** ** Bootstrap *)

Fixpoint insert_bootstrap (book : PoolBook) (entries : list BootstrapV2Pool) : anyhow PoolBook :=
  match entries with
  | [] => Ok book
  | entry :: entries =>
      pool ← map_err (λ e, [show_market_error e])
        (v2_new (bp_address entry) (bp_protocol entry) (bp_exchange entry) (bp_token0 entry)
           (bp_token1 entry) (bp_reserve0 entry) (bp_reserve1 entry) (bp_fee_bps entry));
      insert_bootstrap (insert_v2_pool book pool) entries
  end.

(** [read_to_string] is the file system's, [from_str] the parser of [serde_json]. *)
Definition load_pool_book (read_to_string : string → anyhow string)
    (from_str : string → anyhow (list BootstrapV2Pool)) (config : DecisionConfig) :
    anyhow PoolBook :=
  match dec_v2_bootstrap_path config with
  | None => Ok book_new
  | Some path =>
      contents ← context (read_to_string path)
                   ("failed to read bootstrap pool file `" +:+ path +:+ "`");
      entries ← context (from_str contents)
                  ("failed to parse bootstrap pool file `" +:+ path +:+ "`");
      insert_bootstrap book_new entries
  end.

Definition runtime_scan_config (config : DecisionConfig) : anyhow (option RuntimeScanConfig) :=
  match dec_settlement_token config, dec_scan_trade_amount_wei config with
  | Some settlement_token, Some amount =>
      amount_in ← context (parse_amount_anyhow amount)
                    "failed to parse DECISION_SCAN_TRADE_AMOUNT_WEI";
      simulation ← map_err (λ e, [e]) (simulation_from_config config);
      Ok (Some {| scan_settlement_token := settlement_token; scan_amount_in := amount_in;
                  scan_simulation := simulation |})
  | _, _ => Ok None
  end.

(** ** The engine *)

Record Engine (T : Type) := {
  en_book : PoolBook;
  en_risk : RiskState;
  en_storage : Storage;
  en_transport : T }.
Arguments en_book {T} _.
Arguments en_risk {T} _.
Arguments en_storage {T} _.
Arguments en_transport {T} _.

Record EventEnv := {
  env_values : PoolBook → list PoolState;
  env_path_exists : string → bool;
  env_risk_now : Z;
  env_clock_simulation : anyhow Z;
  env_clock_submission : anyhow Z }.

Section parts.
Context {T : Type}.

Definition on_storage {A : Type} (m : eff Storage error A) : eff (Engine T) error A := λ s,
  let '(r, storage) := m (en_storage s) in
  (r, {| en_book := en_book s; en_risk := en_risk s; en_storage := storage;
         en_transport := en_transport s |}).

Definition on_book {A : Type} (f : PoolBook → res MarketError A * PoolBook) :
    eff (Engine T) error A := λ s,
  let '(r, book) := f (en_book s) in
  (map_err (λ e, [show_market_error e]) r,
   {| en_book := book; en_risk := en_risk s; en_storage := en_storage s;
      en_transport := en_transport s |}).

Definition on_risk {A : Type} (f : RiskState → A * RiskState) : eff (Engine T) error A := λ s,
  let '(a, risk) := f (en_risk s) in
  (Ok a, {| en_book := en_book s; en_risk := risk; en_storage := en_storage s;
            en_transport := en_transport s |}).

Definition on_transport {A : Type} (f : T → A * T) : eff (Engine T) error A := λ s,
  let '(a, t) := f (en_transport s) in
  (Ok a, {| en_book := en_book s; en_risk := en_risk s; en_storage := en_storage s;
            en_transport := t |}).

Definition read_book : eff (Engine T) error PoolBook := λ s, (Ok (en_book s), s).

(** A computation that can only return or panic, among the fallible ones. *)
Definition lift_outcome {A : Type} (r : outcome A) : eff (Engine T) error A :=
  lift (map_err (λ e : Empty_set, match e with end) r).

(** [if let Some(id) = execution_attempt_id { storage.op(id).await? }] *)
Definition when_some (id : option Z) (op : Z → eff Storage error unit) :
    eff (Engine T) error unit :=
  match id with Some id => on_storage (op id) | None => mret tt end.

Definition record (success : bool) : eff (Engine T) error unit :=
  on_risk (λ s, (tt, record_outcome s success)).
End parts.

Section engine.
Context {U : U256} {A : Alloy} {J : SerdeJson} {T : Type} {X : ExecutionTransport T}.
Context (sha256_hex : list Z → string).

(** The scan after an applied or reverted log. *)
Definition scan_after_update (env : EventEnv) (scan : RuntimeScanConfig) (log : Log)
    (observed_log_id : option Z) : eff (Engine T) error (option DecisionPipelineOutput) :=
  book ← read_book;
  opportunities ← lift_outcome (detect_two_leg_loops_from_book
    (md_block_context (log_metadata log)) (scan_settlement_token scan)
    (scan_amount_in scan) (md_tx_hash (log_metadata log)) (env_values env book));
  match head opportunities with
  | None => mret None
  | Some best =>
      match simulate_two_leg_opportunity best (scan_simulation scan) with
      | None => mret None
      | Some simulation =>
          mret (Some {| out_observed_log_id := observed_log_id;
                        out_opportunity := best; out_simulation := simulation |})
      end
  end.

Definition handle_event (env : EventEnv) (runtime_scan : option RuntimeScanConfig)
    (event : Event) : eff (Engine T) error (option DecisionPipelineOutput) :=
  match event with
  | EvLog log =>
      observed_log_id ← eff_context (on_storage (persist_observed_log sha256_hex log))
                          "failed to persist observed log";
      outcome ← on_book (λ book, book_apply_log book log);
      match outcome, runtime_scan with
      | (Applied | Reverted), Some scan => scan_after_update env scan log observed_log_id
      | _, _ => mret None
      end
  | _ => mret None
  end.

(** The result of the simulation is a value: its errors are handled by the
    caller. *)
Definition run_ethcall_simulation (config : ExecutionConfig) (payload : SubmissionPayload)
    (attempt : ExecutionAttempt) : eff (Engine T) error (anyhow EthCallSimulation) :=
  result ← on_transport (λ t, tr_simulate t payload attempt);
  match result with
  | Some Panic => lift Panic
  | Some r => mret r
  | None => mret (bail ("eth_call simulation timed out after " +:+
                        show_uint (exec_ethcall_timeout_secs config) +:+ "s"))
  end.

(** The realised profit reported to the metrics, [-(fee as i128)]: a fee of [2^127]
    casts to [i128::MIN], whose negation overflows. *)
Definition report_pnl (outcome : ExecutionOutcome) : anyhow unit :=
  match oc_realized_surplus outcome with
  | Some _ => Ok tt
  | None => if default 0 (oc_total_fee_paid outcome) =? 2 ^ 127 then Panic else Ok tt
  end.

Definition outcome_success (status : ExecutionStatus.ExecutionStatus) : bool :=
  match status with
  | ExecutionStatus.Included | ExecutionStatus.ProfitRealized => true
  | _ => false
  end.

Definition drive_execution_attempt (env : EventEnv) (config : ExecutionConfig)
    (request : ExecutionRequest) (built_attempt : ExecutionAttempt)
    (execution_attempt_id : option Z) : eff (Engine T) error unit :=
  match build_submission_payload (env_clock_submission env) config request with
  | Panic => lift Panic
  | Err e => when_some execution_attempt_id (λ id,
               record_execution_attempt_error id "build" (display_error e))
  | Ok submission_payload =>
  submission ← on_transport (λ t, tr_submit t submission_payload built_attempt);
  match submission with
  | Some Panic => lift Panic
  | Some (Err e) =>
      _ ← record false;
      when_some execution_attempt_id (λ id,
        record_execution_attempt_error id "submit" (display_error e))
  | None =>
      _ ← record false;
      when_some execution_attempt_id (λ id,
        record_execution_attempt_error id "submit_timeout" "deadline has elapsed")
  | Some (Ok submitted_tx_hash) =>
  submitted_attempt ← lift (context (mark_submitted built_attempt submitted_tx_hash)
                              "invalid submitted attempt");
  _ ← when_some execution_attempt_id (λ id, mark_execution_submitted id submitted_attempt);
  maybe_receipt ← on_transport (λ t, tr_await_receipt t request submitted_attempt
                                       (exec_receipt_timeout_secs config));
  match maybe_receipt with
  | Panic => lift Panic
  | Ok (Some receipt) =>
      finalized ← lift (context
        (finalize_from_receipt submitted_attempt receipt None (rq_min_surplus request))
        "failed to finalize execution receipt");
      _ ← lift (report_pnl (fe_outcome finalized));
      _ ← record (outcome_success (oc_final_status (fe_outcome finalized)));
      when_some execution_attempt_id (λ id,
        finalize_execution_attempt id (fe_attempt finalized) receipt (fe_outcome finalized))
  | Ok None =>
      dropped ← lift (context
        (mark_dropped submitted_attempt "timed out while waiting for execution receipt")
        "failed to mark execution attempt as dropped");
      _ ← record false;
      when_some execution_attempt_id (λ id,
        finalize_execution_attempt_without_receipt id (fe_attempt dropped) (fe_outcome dropped))
  | Err e =>
      when_some execution_attempt_id (λ id,
        record_execution_attempt_error id "receipt_wait" (display_error e))
  end end end.

(** The part after the attempt has been persisted and may be submitted. *)
Definition submit_prepared (env : EventEnv) (config : ExecutionConfig)
    (request : ExecutionRequest) (prepared : PreparedExecution)
    (execution_attempt_id : option Z) : eff (Engine T) error unit :=
  payload_for_sim ← lift (context
    (build_submission_payload (env_clock_simulation env) config request)
    "failed to build submission payload for eth_call simulation");
  sim_outcome ← run_ethcall_simulation config payload_for_sim (pe_attempt prepared);
  let drive := eff_context
    (drive_execution_attempt env config request (pe_attempt prepared) execution_attempt_id)
    "failed to drive execution attempt lifecycle" in
  match sim_outcome with
  | Err e =>
      if exec_ethcall_preflight_required config then
        _ ← record false;
        when_some execution_attempt_id (λ id,
          record_execution_attempt_error id "ethcall_simulate" (display_error e))
      else drive
  | _ => drive
  end.

Definition maybe_log_decision_output (env : EventEnv) (policy : RiskPolicy)
    (config : ExecutionConfig) (output : option DecisionPipelineOutput) :
    eff (Engine T) error unit :=
  match output with
  | None => mret tt
  | Some output =>
  let opportunity := out_opportunity output in
  let simulation := out_simulation output in
  risk ← on_risk (λ state, assess sha256_hex (env_path_exists env) (env_risk_now env) policy
                             state opportunity simulation);
  let execution_request := build_execution_request opportunity risk in
  prepared_execution ← match execution_request with
    | Some request =>
        current_daily_requested_wei ← eff_context (on_storage todays_submittable_notional_wei)
          "failed to load current daily execution exposure";
        prepared ← lift (context
          (prepare_execution config request simulation current_daily_requested_wei)
          "failed to prepare execution attempt");
        mret (Some prepared)
    | None => mret None
    end;
  decision_run_id ← on_storage (persist_decision_run {|
    drr_observed_log_id := out_observed_log_id output;
    drr_trigger_tx_hash := op_trigger_tx_hash opportunity;
    drr_opportunity := opportunity; drr_simulation := simulation; drr_risk := risk;
    drr_execution_request := execution_request |});
  match execution_request, prepared_execution with
  | Some request, Some prepared =>
      execution_attempt_id ← on_storage
        (persist_execution_attempt decision_run_id (pe_attempt prepared) request);
      if pe_should_submit prepared
      then submit_prepared env config request prepared execution_attempt_id
      else mret tt
  | _, _ => mret tt
  end
  end.

(** One turn of the main loop, and the loop over the events received: an error
    ends it. *)
Definition engine_turn (policy : RiskPolicy) (config : ExecutionConfig)
    (scan : option RuntimeScanConfig) (env : EventEnv) (event : Event) :
    eff (Engine T) error unit :=
  decision_output ← eff_context (handle_event env scan event) "failed to handle ingest event";
  eff_context (maybe_log_decision_output env policy config decision_output)
    "failed to persist decision output".

Fixpoint engine_run (policy : RiskPolicy) (config : ExecutionConfig)
    (scan : option RuntimeScanConfig) (events : list (EventEnv * Event)) :
    eff (Engine T) error unit :=
  match events with
  | [] => mret tt
  | (env, event) :: events =>
      _ ← engine_turn policy config scan env event;
      engine_run policy config scan events
  end.
End engine.

(** ** What a turn changes *)

(** What the drive of an attempt may change: never the book; the storage but for
    its exposures; the risk engine by recorded outcomes only. *)
Record drive_rel {T : Type} (s s' : Engine T) : Prop := {
  dr_book : en_book s' = en_book s;
  dr_storage : storage_frame (en_storage s) (en_storage s');
  dr_risk : ∃ outcomes, en_risk s' = foldl record_outcome (en_risk s) outcomes }.

#[global] Instance drive_rel_refl {T : Type} : Reflexive (@drive_rel T).
Proof. intros s. constructor; [done|reflexivity|by exists []]. Qed.
#[global] Instance drive_rel_trans {T : Type} : Transitive (@drive_rel T).
Proof.
  intros a b c [B S (o & R)] [B' S' (o' & R')]. constructor; [congruence|by etransitivity|].
  exists (o ++ o'). by rewrite foldl_app, <- R.
Qed.

(** The transport is left alone. *)
Definition same_transport {T : Type} (s s' : Engine T) : Prop := en_transport s' = en_transport s.

#[global] Instance same_transport_refl {T : Type} : Reflexive (@same_transport T).
Proof. done. Qed.
#[global] Instance same_transport_trans {T : Type} : Transitive (@same_transport T).
Proof. intros a b c. unfold same_transport. congruence. Qed.

Lemma eff_context_evolves {S A : Type} (R : S → S → Prop) (m : eff S error A) c :
  evolves R m → evolves R (eff_context m c).
Proof. intros Hm s. specialize (Hm s). unfold eff_context. by destruct (m s). Qed.

(** The engine with another risk state and storage. *)
Definition with_parts {T : Type} (s : Engine T) (risk : RiskState) (storage : Storage) : Engine T :=
  {| en_book := en_book s; en_risk := risk; en_storage := storage;
     en_transport := en_transport s |}.

Lemma eff_context_inv {S A : Type} (m : eff S error A) c s r s' :
  eff_context m c s = (r, s') → ∃ r1, m s = (r1, s') ∧ r = context r1 c.
Proof. unfold eff_context. destruct (m s) as [r1 s1]. intros [= <- <-]. by exists r1. Qed.

Lemma on_storage_inv {T A : Type} (m : eff Storage error A) (s : Engine T) r s' :
  on_storage m s = (r, s') → ∃ st, m (en_storage s) = (r, st) ∧ s' = with_parts s (en_risk s) st.
Proof.
  unfold on_storage. destruct (m (en_storage s)) as [r1 st]. intros [= <- <-]. by exists st.
Qed.

Section moves.
Context {J : SerdeJson} {HJ : SerdeJsonLaws J} {T : Type}.
Abbreviation drive := (@drive_rel T).
Abbreviation same := (@same_transport T).

Lemma on_storage_drive {A : Type} (m : eff Storage error A) :
  evolves storage_frame m → evolves drive (on_storage m).
Proof.
  intros Hm s. specialize (Hm (en_storage s)). unfold on_storage.
  destruct (m (en_storage s)). constructor; [done|done|by exists []].
Qed.

Lemma on_storage_same {A : Type} (m : eff Storage error A) : evolves same (on_storage m).
Proof. intros s. unfold on_storage. by destruct (m (en_storage s)). Qed.

Lemma record_drive b : evolves drive (record b).
Proof. intros s. constructor; [done|reflexivity|]. by exists [b]. Qed.

Lemma record_same b : evolves same (record b).
Proof. by intros s. Qed.

Lemma on_transport_drive {A : Type} (f : T → A * T) : evolves drive (on_transport f).
Proof.
  intros s. unfold on_transport. destruct (f _). constructor; [done|reflexivity|by exists []].
Qed.

Lemma when_some_drive id (op : Z → eff Storage error unit) :
  (∀ id, keeps storage_frame (op id)) → evolves drive (when_some id op).
Proof.
  intros Hop. destruct id; [|by intros s]. by apply on_storage_drive, keeps_evolves.
Qed.

Lemma when_some_same id (op : Z → eff Storage error unit) : evolves same (when_some id op).
Proof. destruct id; [apply on_storage_same|by intros s]. Qed.
End moves.

(** Walk through a computation with the rules above. *)
Ltac evolves_steps :=
  repeat first
    [ progress intros
    | apply eff_context_evolves
    | apply when_some_same | apply record_same | apply on_storage_same
    | apply when_some_drive | apply record_drive | apply on_transport_drive
    | apply on_storage_drive, keeps_evolves
    | apply record_execution_attempt_error_keeps | apply mark_execution_submitted_keeps
    | apply finalize_execution_attempt_keeps | apply finalize_without_receipt_keeps
    | apply evolves_lift, _
    | apply evolves_bind; [apply _| |]
    | case_match ].

Section drive.
Context {A : Alloy} {J : SerdeJson} {HJ : SerdeJsonLaws J} {T : Type} {X : ExecutionTransport T}.

Lemma submit_prepared_drive env config request prepared id :
  evolves drive_rel (submit_prepared (T:=T) env config request prepared id).
Proof.
  unfold submit_prepared, run_ethcall_simulation, drive_execution_attempt. cbv zeta.
  evolves_steps.
Qed.
End drive.

(** ** What reaches the transport *)

Abbreviation Call := (SubmissionPayload * ExecutionAttempt)%type.

(** A transport whose submissions can be observed: [submit] adds a call, the two
    other methods add none. *)
Class ObservedTransport (T : Type) {X : ExecutionTransport T} := {
  calls : T → list Call;
  calls_submit t p a : calls (tr_submit t p a).2 = calls t ++ [(p, a)];
  calls_await t r a n : calls (tr_await_receipt t r a n).2 = calls t;
  calls_simulate t p a : calls (tr_simulate t p a).2 = calls t }.

(** Any transport beside the record of its submissions. *)
Record Logged (T : Type) := { lg_state : T; lg_calls : list Call }.
Arguments lg_state {T} _.
Arguments lg_calls {T} _.

#[global] Instance logged_transport {T : Type} `{ExecutionTransport T} :
    ExecutionTransport (Logged T) := {|
  tr_submit l p a := let '(r, t) := tr_submit (lg_state l) p a in
    (r, {| lg_state := t; lg_calls := lg_calls l ++ [(p, a)] |});
  tr_await_receipt l r a n := let '(res, t) := tr_await_receipt (lg_state l) r a n in
    (res, {| lg_state := t; lg_calls := lg_calls l |});
  tr_simulate l p a := let '(r, t) := tr_simulate (lg_state l) p a in
    (r, {| lg_state := t; lg_calls := lg_calls l |}) |}.

#[global] Instance logged_observed {T : Type} `{ExecutionTransport T} :
  ObservedTransport (Logged T).
Proof.
  refine {| calls := lg_calls |}; intros t; intros; cbn.
  - by destruct (tr_submit (lg_state t) p a).
  - by destruct (tr_await_receipt (lg_state t) r a n).
  - by destruct (tr_simulate (lg_state t) p a).
Defined.

Section calls.
Context {A : Alloy} {J : SerdeJson} {T : Type} {X : ExecutionTransport T}
  {O : ObservedTransport T}.

Definition same_calls (s s' : Engine T) : Prop :=
  calls (en_transport s') = calls (en_transport s).

#[global] Instance same_calls_refl : Reflexive same_calls.
Proof. done. Qed.
#[global] Instance same_calls_trans : Transitive same_calls.
Proof. intros a b c. unfold same_calls. congruence. Qed.

Lemma same_transport_calls {B : Type} (m : eff (Engine T) error B) :
  evolves same_transport m → evolves same_calls m.
Proof. intros Hm s. specialize (Hm s). unfold same_calls. by rewrite Hm. Qed.

Lemma on_transport_calls {B : Type} (f : T → B * T) :
  (∀ t, calls (f t).2 = calls t) → evolves same_calls (on_transport f).
Proof.
  intros Hf s. specialize (Hf (en_transport s)). unfold on_transport.
  by destruct (f (en_transport s)).
Qed.

(** The drive of an attempt makes at most one call: the payload of the request
    under the prepared attempt. *)
Definition one_call (env : EventEnv) (config : ExecutionConfig) (request : ExecutionRequest)
    (attempt : ExecutionAttempt) (s s' : Engine T) : Prop :=
  same_calls s s' ∨ ∃ payload,
    build_submission_payload (env_clock_submission env) config request = Ok payload ∧
    calls (en_transport s') = calls (en_transport s) ++ [(payload, attempt)].

Ltac calls_steps :=
  repeat first
    [ progress intros
    | apply eff_context_evolves
    | apply same_transport_calls; first
        [apply when_some_same | apply record_same | apply on_storage_same | apply evolves_lift, _]
    | apply on_transport_calls; intros; first [apply calls_await | apply calls_simulate]
    | apply evolves_bind; [apply _| |]
    | case_match ].

Lemma drive_one_call env config request attempt id s :
  one_call env config request attempt s
    (drive_execution_attempt (T:=T) env config request attempt id s).2.
Proof.
  unfold drive_execution_attempt.
  destruct (build_submission_payload _ _ _) as [payload|e|] eqn:Hp; [|left..].
  2:{ revert s. change (evolves same_calls (when_some (T:=T) id (λ id,
        record_execution_attempt_error id "build" (display_error e)))). calls_steps. }
  2:{ done. }
  right. exists payload. split; [done|].
  unfold mbind at 1, eff_bind at 1, on_transport at 1.
  pose proof (calls_submit (en_transport s) payload attempt) as Hc.
  destruct (tr_submit (en_transport s) payload attempt) as [r t]. cbn [snd] in Hc.
  set (s1 := {| en_book := _; en_risk := _; en_storage := _; en_transport := t |}).
  rewrite <- Hc. change t with (en_transport s1).
  match goal with |- calls (en_transport (?m s1).2) = _ => enough (evolves same_calls m) as Hm by apply (Hm s1) end.
  calls_steps.
Qed.

Lemma submit_prepared_one_call env config request prepared id s :
  one_call env config request (pe_attempt prepared) s
    (submit_prepared (T:=T) env config request prepared id s).2.
Proof.
  unfold submit_prepared. cbv zeta. unfold mbind at 1, eff_bind at 1, lift at 1.
  destruct (context _ _) as [payload|e|]; [|by left..].
  unfold mbind at 1, eff_bind at 1.
  assert (evolves same_calls (run_ethcall_simulation (T:=T) config payload (pe_attempt prepared)))
    as Hsim by (unfold run_ethcall_simulation; calls_steps).
  specialize (Hsim s). destruct (run_ethcall_simulation _ _ _ s) as [[sim|e|] s1]; [|by left..].
  cbn [snd] in Hsim. unfold one_call, same_calls in *. rewrite <- Hsim.
  set (drive := eff_context _ _).
  assert (one_call env config request (pe_attempt prepared) s1 (drive s1).2) as Hd.
  { pose proof (drive_one_call env config request (pe_attempt prepared) id s1) as Hd.
    unfold drive, eff_context. by destruct (drive_execution_attempt _ _ _ _ _ s1). }
  destruct sim as [o|e|]; [exact Hd| |exact Hd].
  destruct (exec_ethcall_preflight_required config); [left|exact Hd].
  match goal with |- calls (en_transport (?m s1).2) = _ => enough (evolves same_calls m) as Hm by apply (Hm s1) end.
  calls_steps.
Qed.
End calls.

(** ** The event handler *)

(** The handler changes the book and the table of logs only. *)
Record handle_rel {T : Type} (s s' : Engine T) : Prop := {
  hr_risk : en_risk s' = en_risk s;
  hr_transport : en_transport s' = en_transport s;
  hr_storage : storage_frame (en_storage s) (en_storage s') }.

#[global] Instance handle_rel_refl {T : Type} : Reflexive (@handle_rel T).
Proof. intros s. constructor; [done|done|reflexivity]. Qed.
#[global] Instance handle_rel_trans {T : Type} : Transitive (@handle_rel T).
Proof. intros a b c [] []. constructor; [congruence|congruence|by etransitivity]. Qed.

(** The events and the environment of a turn are typed: decoded amounts are
    [u128], the map's values are enumerated in some order and the clocks return. *)
Definition event_typed (event : Event) : Prop :=
  match event with EvLog log => log_typed log | _ => True end.

Record env_wf (env : EventEnv) : Prop := {
  ew_values b : iteration_order b (env_values env b);
  ew_clock_simulation : env_clock_simulation env ≠ Panic;
  ew_clock_submission : env_clock_submission env ≠ Panic }.

Definition scan_typed (scan : option RuntimeScanConfig) : Prop :=
  match scan with
  | Some scan => uint 128 (scan_amount_in scan) ∧ uint 64 (sc_gas_estimate (scan_simulation scan))
  | None => True
  end.

(** What the handler hands to the decision pipeline: a profitable loop over two
    valid pools and its simulation; the loop is the first of the scan of the book after
    the log was applied or reverted, over two of its pools. *)
Record found_loop {U : U256} (env : EventEnv) (event : Event) (b : PoolBook) (scan : option RuntimeScanConfig)
    (out : DecisionPipelineOutput) (c : RuntimeScanConfig) (input : TwoLegLoopInput) : Prop := {
  fl_origin : ∃ log outcome book os, event = EvLog log ∧
    book_apply_log b log = (Ok outcome, book) ∧ outcome ∈ [Applied; Reverted] ∧
    detect_two_leg_loops_from_book (md_block_context (log_metadata log))
      (scan_settlement_token c) (scan_amount_in c) (md_tx_hash (log_metadata log))
      (env_values env book) = Ok os ∧ head os = Some (out_opportunity out) ∧
    tl_first_pool input ∈ v2_pools (env_values env book) ∧
    tl_second_pool input ∈ v2_pools (env_values env book) ∧
    eq_ignore_ascii_case (v2_address (tl_first_pool input)) (v2_address (tl_second_pool input)) = false;
  fl_scan : scan = Some c;
  fl_first : v2_wf (tl_first_pool input);
  fl_second : v2_wf (tl_second_pool input);
  fl_token : tl_settlement_token input = scan_settlement_token c;
  fl_amount : tl_amount_in input = scan_amount_in c;
  fl_detected : detect_two_leg_loop input = Ok (Some (out_opportunity out));
  fl_simulated : simulate_two_leg_opportunity (out_opportunity out) (scan_simulation c) =
                   Some (out_simulation out) }.

Lemma book_values_wf b values : book_wf b → iteration_order b values → Forall pool_wf values.
Proof.
  intros [Hp _] ->. apply Forall_fmap, Forall_forall. intros [k p] Hk.
  apply elem_of_map_to_list in Hk. by apply Hp in Hk as [_ Hk].
Qed.

Section handler.
Context {U : U256} {HU : U256Laws U} {J : SerdeJson} {HJ : SerdeJsonLaws J} {T : Type}.
Context (sha256_hex : list Z → string).

Lemma handle_event_evolves env scan event :
  evolves handle_rel (handle_event (T:=T) sha256_hex env scan event).
Proof.
  assert (∀ log, evolves handle_rel (on_storage (T:=T) (persist_observed_log sha256_hex log)))
    as Hpersist.
  { intros log s. pose proof (persist_observed_log_keeps sha256_hex log (en_storage s)) as [_ H].
    unfold on_storage. by destruct (persist_observed_log _ _ _). }
  assert (∀ log, evolves handle_rel (on_book (T:=T) (λ book, book_apply_log book log))) as Hbook.
  { intros log s. unfold on_book. destruct (book_apply_log _ _). by constructor. }
  unfold handle_event, scan_after_update, lift_outcome. destruct event; try apply evolves_lift, _.
  apply evolves_bind; [apply _|by apply eff_context_evolves|]. intros id.
  apply evolves_bind; [apply _|done|]. intros outcome.
  repeat first [progress intros | apply evolves_lift, _ | by intros s
               | apply evolves_bind; [apply _| |] | case_match].
Qed.

(** The result of the handler. *)
Definition handled (env : EventEnv) (event : Event) (b : PoolBook) (scan : option RuntimeScanConfig)
    (r : res error (option DecisionPipelineOutput)) (s' : Engine T) : Prop :=
  r ≠ Panic ∧ book_wf (en_book s') ∧
  ∀ out, r = Ok (Some out) → ∃ c input, found_loop env event b scan out c input.

Lemma scan_after_update_wp env c log id s b outcome :
  book_wf (en_book s) → env_wf env → scan_typed (Some c) →
  book_apply_log b log = (Ok outcome, en_book s) → outcome ∈ [Applied; Reverted] →
  wp (scan_after_update (T:=T) env c log id) (handled env (EvLog log) b (Some c)) s.
Proof.
  intros Hb Henv [Hamt _] Happ Hout. unfold scan_after_update.
  apply wp_bind. unfold wp at 1, read_book. cbn [fst snd]. apply wp_bind.
  pose proof (book_values_wf _ _ Hb (ew_values env Henv (en_book s))) as Hvals.
  destruct (detect_loops_elem (md_block_context (log_metadata log)) (scan_settlement_token c)
    (scan_amount_in c) (md_tx_hash (log_metadata log)) Hamt _ Hvals) as (os & Hos & _).
  unfold wp at 1, lift_outcome, lift. rewrite Hos. cbn [map_err fst snd].
  destruct os as [|best os]; [by split_and!|]. cbn [head].
  destruct (simulate_two_leg_opportunity best _) as [sim|] eqn:Hsim; [|by split_and!].
  split_and!; [done|done|]. intros out [= <-].
  destruct (scanned_loop _ _ _ _ _ _ best Hamt Hvals Hos) as (f & sd & Hf & Hsd & Hd & Hvf & Hvs & Hne);
    [left|].
  exists c, (loop_input (md_block_context (log_metadata log)) (scan_settlement_token c)
    (scan_amount_in c) (md_tx_hash (log_metadata log)) f sd).
  constructor; [|done..].
  exists log, outcome, (en_book s), (best :: os). by split_and!.
Qed.

Lemma handle_event_wp env scan event s :
  book_wf (en_book s) → event_typed event → env_wf env → scan_typed scan →
  wp (handle_event (T:=T) sha256_hex env scan event) (handled env event (en_book s) scan) s.
Proof.
  intros Hb Hty Henv Hscan. unfold handle_event. destruct event as [|log| |]; try by split_and!.
  apply wp_bind. unfold wp at 1, eff_context, on_storage.
  pose proof (persist_observed_log_keeps sha256_hex log (en_storage s)) as [Hnp _].
  destruct (persist_observed_log sha256_hex log (en_storage s)) as [r1 st1].
  cbn [fst snd] in *. destruct r1 as [id|e|]; cbn [context map_err]; [|by split_and!|done].
  apply wp_bind. unfold wp at 1, on_book. cbn [en_book].
  destruct (book_apply_log (en_book s) log) as [r2 b2] eqn:Ha.
  destruct (book_apply_log_wf _ _ _ _ Hb Hty Ha) as [Hb2 Hnp2]. cbn [fst snd].
  destruct r2 as [outcome|e|]; cbn [map_err]; [|by split_and!|done].
  destruct scan as [c|]; [|destruct outcome; by split_and!].
  destruct outcome; [|by split_and!|]; (eapply scan_after_update_wp; [done..|exact Ha|set_solver]).
Qed.
End handler.

(** ** The decision pipeline *)

Section pipeline.
Context {A : Alloy} {J : SerdeJson} {HJ : SerdeJsonLaws J} {T : Type} {X : ExecutionTransport T}.
Context (sha256_hex : list Z → string).

(** The request that was accepted, read against the day's total and persisted. *)
Record persisted (config : ExecutionConfig) (out : DecisionPipelineOutput) (d : RiskDecision)
    (st st2 : Storage) (request : ExecutionRequest) (daily : Amount) (prepared : PreparedExecution)
    (rid : anyhow (option Z)) : Prop := {
  ps_request : build_execution_request (out_opportunity out) d = Some request;
  ps_prepared : prepare_execution config request (out_simulation out) daily = Ok prepared;
  ps_storage : ∃ st0 st1 run, todays_submittable_notional_wei st = (Ok daily, st0) ∧
    storage_frame st0 st1 ∧
    persist_execution_attempt run (pe_attempt prepared) request st1 = (rid, st2) }.

(** Either nothing is persisted but the run, or an attempt is; and only an
    attempt that was persisted and is allowed is driven. *)
Lemma maybe_log_cases env policy config out (s : Engine T) r s' d risk1 :
  maybe_log_decision_output sha256_hex env policy config (Some out) s = (r, s') →
  assess sha256_hex (env_path_exists env) (env_risk_now env) policy (en_risk s)
    (out_opportunity out) (out_simulation out) = (d, risk1) →
  (∃ st', s' = with_parts s risk1 st' ∧ storage_frame (en_storage s) st') ∨
  ∃ st2 request daily prepared rid,
    persisted config out d (en_storage s) st2 request daily prepared rid ∧
    (s' = with_parts s risk1 st2 ∨
     ∃ id, rid = Ok id ∧ pe_should_submit prepared = true ∧
       submit_prepared env config request prepared id (with_parts s risk1 st2) = (r, s')).
Proof.
  intros H Hassess. unfold maybe_log_decision_output in H. cbv zeta in H.
  apply eff_bind_inv in H as (r1 & s1 & Hr & H). unfold on_risk in Hr. rewrite Hassess in Hr.
  injection Hr as <- <-. apply eff_bind_inv in H as (r2 & s2 & Hprep & H).
  assert (∀ st2, s2 = with_parts s risk1 st2 → storage_frame (en_storage s) st2 →
    ∀ r3 s3 rec, on_storage (persist_decision_run rec) s2 = (r3, s3) →
    ∃ st3, s3 = with_parts s risk1 st3 ∧ storage_frame (en_storage s) st3 ∧
      storage_frame st2 st3) as Hrun.
  { intros st2 -> Hf r3 s3 rec Hs.
    apply on_storage_inv in Hs as (st3 & Hp & ->). exists st3.
    pose proof (keeps_evolves _ _ (persist_decision_run_keeps rec) st2) as Hk. cbn in Hp.
    rewrite Hp in Hk. split_and!; [done|by etransitivity|done]. }
  destruct (build_execution_request _ d) as [request|] eqn:Hreq.
  2:{ injection Hprep as <- <-. left. apply eff_bind_inv in H as (r3 & s3 & Hs & H).
      destruct (Hrun (en_storage s) eq_refl ltac:(reflexivity) _ _ _ Hs) as (st3 & -> & Hf & _).
      exists st3. split; [|done].
      destruct r3; [by injection H|by destruct H as [_ ->]..]. }
  apply eff_bind_inv in Hprep as (r3 & s3 & Ht & Hprep).
  apply eff_context_inv in Ht as (r4 & Ht & ->).
  apply on_storage_inv in Ht as (st0 & Ht & ->). cbn [en_storage] in Ht.
  pose proof (keeps_evolves _ _ todays_keeps (en_storage s)) as Hframe. rewrite Ht in Hframe.
  destruct r4 as [daily|e|]; cbn [context map_err] in Hprep;
    [|destruct Hprep as [-> ->], H as [_ ->]; left; by exists st0..].
  apply eff_bind_inv in Hprep as (r5 & s5 & Hp & Hprep). injection Hp as <- <-.
  destruct (prepare_execution config request _ daily) as [prepared|e|] eqn:Hpr;
    cbn [context map_err] in Hprep;
    [|destruct Hprep as [-> ->], H as [_ ->]; left; by exists st0..].
  injection Hprep as <- <-. apply eff_bind_inv in H as (r6 & s6 & Hs & H).
  destruct (Hrun st0 eq_refl Hframe _ _ _ Hs) as (st1 & -> & Hf & Hf').
  destruct r6 as [run|e|]; [|destruct H as [_ ->]; left; by exists st1..].
  apply eff_bind_inv in H as (rid & s7 & Hp & H).
  apply on_storage_inv in Hp as (st2 & Hp & ->). cbn [en_storage with_parts] in Hp.
  right. exists st2, request, daily, prepared, rid.
  split; [constructor; [done|done|by exists st0, st1, run]|].
  destruct rid as [id|e|]; [|destruct H as [_ ->]; by left..].
  destruct (pe_should_submit prepared) eqn:Hsub; [right; by exists id|].
  injection H as <- <-. by left.
Qed.
End pipeline.

(** ** Where the engine can panic *)

(** What has gone wrong with a transport so far: the requests and answers on which the
    program panics. *)
Class TransportFaults (T : Type) := fault : T → Prop.

(** What the engine relies on from a transport: a fault stays; submitting and simulating
    return or fail; a wait for a receipt panics only with a fault, and a receipt whose
    total fee is exactly [2^127] wei, which the report of the profit negates out of range,
    is one.  File [Transports] shows it of the transports the program builds. *)
Class TransportLaws (T : Type) {X : ExecutionTransport T} {F : TransportFaults T} : Prop := {
  submit_no_panic t p a : (tr_submit t p a).1 ≠ Some Panic;
  simulate_no_panic t p a : (tr_simulate t p a).1 ≠ Some Panic;
  submit_faults t p a : fault t → fault (tr_submit t p a).2;
  simulate_faults t p a : fault t → fault (tr_simulate t p a).2;
  await_faults t r a n : fault t → fault (tr_await_receipt t r a n).2;
  await_panic t r a n : (tr_await_receipt t r a n).1 = Panic → fault (tr_await_receipt t r a n).2;
  await_fee t r a n receipt : (tr_await_receipt t r a n).1 = Ok (Some receipt) →
    total_fee_paid receipt = Ok (Some (2 ^ 127)) → fault (tr_await_receipt t r a n).2 }.

#[global] Instance logged_faults {T : Type} `{TransportFaults T} : TransportFaults (Logged T) :=
  λ l, fault (lg_state l).

#[global] Instance logged_laws `{HT : TransportLaws T} : TransportLaws (Logged T).
Proof.
  constructor; intros [t l]; intros; unfold fault, logged_faults in *; cbn in *.
  - pose proof (submit_no_panic t p a). by destruct (tr_submit t p a).
  - pose proof (simulate_no_panic t p a). by destruct (tr_simulate t p a).
  - pose proof (submit_faults t p a). destruct (tr_submit t p a). auto.
  - pose proof (simulate_faults t p a). destruct (tr_simulate t p a). auto.
  - pose proof (await_faults t r a n). destruct (tr_await_receipt t r a n). auto.
  - pose proof (await_panic t r a n). destruct (tr_await_receipt t r a n). auto.
  - pose proof (await_fee t r a n receipt). destruct (tr_await_receipt t r a n). auto.
Qed.

Section safety.
Context {U : U256} {HU : U256Laws U} {A : Alloy} {HA : AlloyLaws A}.
Context {J : SerdeJson} {HJ : SerdeJsonLaws J}.
Context {T : Type} {X : ExecutionTransport T} {F : TransportFaults T} {HT : TransportLaws T}.
Context (sha256_hex : list Z → string).

(** Faults stay, and a panic comes with one. *)
Definition guards {B : Type} (s : Engine T) (r : res error B) (s' : Engine T) : Prop :=
  (fault (en_transport s) → fault (en_transport s')) ∧ (r = Panic → fault (en_transport s')).
Definition guarded {B : Type} (m : eff (Engine T) error B) : Prop := ∀ s, wp m (guards s) s.

Lemma guarded_bind {B C : Type} (m : eff (Engine T) error B) (f : B → eff (Engine T) error C) :
  guarded m → (∀ b, guarded (f b)) → guarded (m ≫= f).
Proof.
  intros Hm Hf s. apply wp_bind. eapply wp_mono; [|apply Hm]. intros [b|e|] s1 [H1 H2];
    [|by split|by split; [|intros _; apply H2]].
  eapply wp_mono; [|apply Hf]. intros r s2 [H3 H4]. split; auto.
Qed.

(** A computation that leaves the transport alone and does not panic. *)
Lemma guarded_same {B : Type} (m : eff (Engine T) error B) :
  (∀ s, wp m (λ r s', r ≠ Panic ∧ en_transport s' = en_transport s) s) → guarded m.
Proof. intros Hm s. eapply wp_mono; [|apply Hm]. intros r s' [H1 H2]. unfold guards. rewrite H2. by split; [|intros ->]. Qed.

Lemma guarded_lift {B : Type} (r : res error B) : r ≠ Panic → guarded (lift r).
Proof. intros Hr. by apply guarded_same. Qed.

Lemma guarded_context {B : Type} (m : eff (Engine T) error B) c : guarded m → guarded (eff_context m c).
Proof.
  intros Hm s. specialize (Hm s). unfold wp, eff_context in *. destruct (m s) as [r s1]. cbn in *.
  destruct Hm as [H1 H2]. split; [done|]. destruct r; [done|done|by intros _; apply H2].
Qed.

Lemma on_storage_guarded {B : Type} (m : eff Storage error B) :
  (∀ st, (m st).1 ≠ Panic) → guarded (on_storage (T:=T) m).
Proof.
  intros Hm. apply guarded_same. intros s. specialize (Hm (en_storage s)). unfold wp, on_storage.
  by destruct (m (en_storage s)).
Qed.

Lemma keeps_no_panic {B : Type} (Q : Storage → Storage → Prop) (m : eff Storage error B) :
  keeps Q m → ∀ st, (m st).1 ≠ Panic.
Proof. intros Hm st. apply Hm. Qed.

Lemma when_some_guarded id (op : Z → eff Storage error unit) :
  (∀ id, keeps storage_frame (op id)) → guarded (when_some (T:=T) id op).
Proof. intros Hop. destruct id; [by eapply on_storage_guarded, keeps_no_panic|by apply guarded_lift]. Qed.

Lemma record_guarded b : guarded (record (T:=T) b).
Proof. by apply guarded_same. Qed.

Lemma on_risk_guarded {B : Type} (f : RiskState → B * RiskState) : guarded (on_risk (T:=T) f).
Proof. apply guarded_same. intros s. unfold wp, on_risk. by destruct (f _). Qed.

(** A step of the transport, with what is known of its answer. *)
Lemma on_transport_guarded {B C : Type} (f : T → B * T) (k : B → eff (Engine T) error C) :
  (∀ t, fault t → fault (f t).2) →
  (∀ t, guarded (k (f t).1) ∨ ∀ s, en_transport s = (f t).2 → wp (k (f t).1) (guards s) s) →
  guarded (on_transport f ≫= k).
Proof.
  intros Hf Hk s. apply wp_bind. unfold wp at 1, on_transport.
  specialize (Hf (en_transport s)). specialize (Hk (en_transport s)).
  destruct (f (en_transport s)) as [b t]. cbn [fst snd] in *.
  set (s1 := {| en_book := _; en_risk := _; en_storage := _; en_transport := t |}).
  eapply wp_mono; [|destruct Hk as [Hk|Hk]; [apply Hk|by apply (Hk s1)]].
  intros r s' [H1 H2]. split; [|done]. intros H. by apply H1, Hf.
Qed.

Ltac safe_steps :=
  repeat first
    [ progress intros
    | apply guarded_context
    | apply when_some_guarded | apply record_guarded | apply on_risk_guarded
    | eapply on_storage_guarded, keeps_no_panic
    | apply record_execution_attempt_error_keeps | apply mark_execution_submitted_keeps
    | apply finalize_execution_attempt_keeps | apply finalize_without_receipt_keeps
    | apply todays_keeps | apply persist_decision_run_keeps
    | apply guarded_lift; solve [auto with engine]
    | apply guarded_bind ].

Lemma report_pnl_panic a receipt rs ms f :
  finalize_from_receipt a receipt rs ms = Ok f →
  report_pnl (fe_outcome f) = Panic → total_fee_paid receipt = Ok (Some (2 ^ 127)).
Proof.
  intros (_ & _ & status & reason & fee & Hfee & _ & ->)%finalize_inv. unfold report_pnl. cbn.
  case_match; [done|]. destruct (default 0 fee =? 2 ^ 127) eqn:E; [|done]. intros _.
  destruct fee as [fee|]; cbn in E; [|done]. apply Z.eqb_eq in E. congruence.
Qed.

(** After a receipt: the fee is reported, the outcome recorded and persisted. *)
Lemma settle_guarded request submitted receipt id s :
  (total_fee_paid receipt = Ok (Some (2 ^ 127)) → fault (en_transport s)) →
  wp (finalized ← lift (context
        (finalize_from_receipt submitted receipt None (rq_min_surplus request))
        "failed to finalize execution receipt");
      _ ← lift (report_pnl (fe_outcome finalized));
      _ ← record (outcome_success (oc_final_status (fe_outcome finalized)));
      when_some id (λ id,
        finalize_execution_attempt id (fe_attempt finalized) receipt (fe_outcome finalized)))
    (guards s) s.
Proof.
  intros Hfee. apply wp_bind. unfold wp at 1, lift. cbn [fst snd].
  pose proof (finalize_no_panic submitted receipt None (rq_min_surplus request)).
  destruct (finalize_from_receipt _ _ _ _) as [f|e|] eqn:Hf; cbn [context map_err]; [|done..].
  apply wp_bind. unfold wp at 1. cbn [fst snd].
  destruct (report_pnl (fe_outcome f)) as [[]|e|] eqn:Hr; [|done|].
  2: { split; [done|]. intros _. by apply Hfee, (report_pnl_panic _ _ _ _ _ Hf). }
  revert s Hfee. intros s _. revert s. change (guarded (
    _ ← record (outcome_success (oc_final_status (fe_outcome f)));
    when_some (T:=T) id (λ id,
      finalize_execution_attempt id (fe_attempt f) receipt (fe_outcome f)))). safe_steps.
Qed.

Lemma drive_guarded env config request attempt id :
  env_wf env → guarded (drive_execution_attempt (T:=T) env config request attempt id).
Proof.
  intros Henv. unfold drive_execution_attempt.
  pose proof (build_submission_payload_no_panic (env_clock_submission env) config request
    (ew_clock_submission env Henv)) as Hpay.
  destruct (build_submission_payload _ _ _) as [payload|e|]; [|safe_steps|done].
  apply on_transport_guarded; [intros t; apply submit_faults|]. intros t. left.
  pose proof (submit_no_panic t payload attempt) as Hsub.
  destruct (tr_submit t payload attempt).1 as [[tx_hash|e|]|]; [|safe_steps|done|safe_steps].
  apply guarded_bind; [safe_steps|]. intros submitted.
  apply guarded_bind; [safe_steps|]. intros [].
  apply on_transport_guarded; [intros t'; apply await_faults|]. intros t'.
  pose proof (await_panic t' request submitted (exec_receipt_timeout_secs config)) as Haw.
  pose proof (await_fee t' request submitted (exec_receipt_timeout_secs config)) as Hfee.
  destruct (tr_await_receipt _ _ _ _).1 as [[receipt|]|e|]; [right|left; safe_steps|left; safe_steps|right].
  - intros s Hs. apply settle_guarded. rewrite Hs. by apply Hfee.
  - intros s Hs. split; [done|]. intros _. cbn. rewrite Hs. by apply Haw.
Qed.

Lemma submit_prepared_guarded env config request prepared id :
  env_wf env → guarded (submit_prepared (T:=T) env config request prepared id).
Proof.
  intros Henv. unfold submit_prepared, run_ethcall_simulation. cbv zeta.
  pose proof (build_submission_payload_no_panic (env_clock_simulation env) config request
    (ew_clock_simulation env Henv)).
  pose proof (drive_guarded env config request (pe_attempt prepared) id Henv) as Hdrive.
  apply guarded_bind; [safe_steps|]. intros payload. apply guarded_bind.
  - apply on_transport_guarded; [intros t; apply simulate_faults|]. intros t. left.
    pose proof (simulate_no_panic t payload (pe_attempt prepared)).
    destruct (tr_simulate _ _ _).1 as [[]|]; try done; by apply guarded_lift.
  - intros [o|e|]; [by apply guarded_context| |by apply guarded_context].
    case_match; [safe_steps|by apply guarded_context].
Qed.

Lemma maybe_log_guarded env policy config output :
  env_wf env →
  guarded (maybe_log_decision_output (T:=T) sha256_hex env policy config output).
Proof.
  intros Henv. destruct output as [out|]; [|by apply guarded_lift].
  unfold maybe_log_decision_output. cbv zeta.
  apply guarded_bind; [apply on_risk_guarded|]. intros d. apply guarded_bind.
  { case_match; [|by apply guarded_lift]. apply guarded_bind; [safe_steps|]. intros daily.
    apply guarded_bind; [|intros; by apply guarded_lift].
    apply guarded_lift. apply context_no_panic, prepare_no_panic. }
  intros prepared. apply guarded_bind; [safe_steps|]. intros run.
  destruct (build_execution_request _ d) as [request|]; [|by apply guarded_lift].
  destruct prepared as [prepared|]; [|by apply guarded_lift]. apply guarded_bind.
  - apply on_storage_guarded. intros st. by apply persist_execution_attempt_wp.
  - intros id. case_match; [by apply submit_prepared_guarded|by apply guarded_lift].
Qed.
End safety.

(** ** A turn as a step relation *)

Section turns.
Context {U : U256} {HU : U256Laws U} {A : Alloy} {HA : AlloyLaws A}.
Context {J : SerdeJson} {HJ : SerdeJsonLaws J}.
Context {T : Type} {X : ExecutionTransport T} {O : ObservedTransport T}.
Context (sha256_hex : list Z → string) (policy : RiskPolicy) (config : ExecutionConfig)
  (scan : option RuntimeScanConfig).

(** The assessment a turn makes of what the handler found. *)
Definition assessed (env : EventEnv) (event : Event) (out : DecisionPipelineOutput) (s : Engine T)
    (d : RiskDecision) (risk1 : RiskState) : Prop :=
  (∃ c input, found_loop env event (en_book s) scan out c input) ∧
  assess sha256_hex (env_path_exists env) (env_risk_now env) policy (en_risk s)
    (out_opportunity out) (out_simulation out) = (d, risk1).

(** What a turn does to everything but the book: nothing, an assessment that
    leads to no attempt, an attempt that is persisted only, or an attempt that is
    driven. *)
Inductive turn_effect (env : EventEnv) (event : Event) (s s' : Engine T) : Prop :=
| turn_idle :
    en_risk s' = en_risk s → en_transport s' = en_transport s →
    storage_frame (en_storage s) (en_storage s') → turn_effect env event s s'
| turn_assessed out d :
    assessed env event out s d (en_risk s') → en_transport s' = en_transport s →
    storage_frame (en_storage s) (en_storage s') → turn_effect env event s s'
| turn_persisted out d st request daily prepared rid :
    assessed env event out s d (en_risk s') → en_transport s' = en_transport s →
    storage_frame (en_storage s) st →
    persisted config out d st (en_storage s') request daily prepared rid → turn_effect env event s s'
| turn_driven out d risk1 outcomes st st2 request daily prepared id :
    assessed env event out s d risk1 → en_risk s' = foldl record_outcome risk1 outcomes →
    storage_frame (en_storage s) st →
    persisted config out d st st2 request daily prepared (Ok id) →
    storage_frame st2 (en_storage s') → pe_should_submit prepared = true →
    one_call env config request (pe_attempt prepared) s s' → turn_effect env event s s'.

Lemma engine_turn_effect env event (s : Engine T) :
  book_wf (en_book s) → event_typed event → env_wf env → scan_typed scan →
  let s' := (engine_turn sha256_hex policy config scan env event s).2 in
  turn_effect env event s s' ∧ book_wf (en_book s').
Proof.
  intros Hb Hty Henv Hscan s'. subst s'.
  destruct (engine_turn _ _ _ _ _ _ s) as [r s'] eqn:H. cbn [snd]. unfold engine_turn in H.
  apply eff_bind_inv in H as (r1 & s1 & Hh & H). apply eff_context_inv in Hh as (r1' & Hh & ->).
  pose proof (handle_event_wp sha256_hex env scan event s Hb Hty Henv Hscan) as Hw.
  pose proof (handle_event_evolves (T:=T) sha256_hex env scan event s) as He.
  unfold wp, handled in Hw. rewrite Hh in Hw, He. cbn [fst snd] in Hw, He.
  destruct Hw as (_ & Hb1 & Hfound), He as [Hrisk Htr Hst].
  destruct r1' as [[out|]|e|]; cbn [context map_err] in H;
    [|injection H as _ <-; by split; [apply turn_idle|]
     |destruct H as [_ ->]; by split; [apply turn_idle|]..].
  apply eff_context_inv in H as (r2 & H & _).
  destruct (assess sha256_hex (env_path_exists env) (env_risk_now env) policy (en_risk s1)
    (out_opportunity out) (out_simulation out)) as [d risk1] eqn:Ha.
  specialize (Hfound out eq_refl).
  assert (assessed env event out s d risk1) as Has by (split; [done|by rewrite <- Hrisk]).
  destruct (maybe_log_cases sha256_hex _ _ _ _ _ _ _ _ _ H Ha)
    as [(st' & -> & Hf)|(st2 & request & daily & prepared & rid & Hp & [->|Hsub])].
  - split; [|done]. eapply turn_assessed; [exact Has|done|by etransitivity].
  - split; [|done]. by eapply turn_persisted.
  - destruct Hsub as (id & -> & Hshould & Hrun).
    pose proof (submit_prepared_drive env config request prepared id (with_parts s1 risk1 st2))
      as [Hbook Hst' (outcomes & Hr')].
    pose proof (submit_prepared_one_call env config request prepared id (with_parts s1 risk1 st2))
      as Hcall. rewrite Hrun in *. cbn [snd with_parts en_book en_risk en_storage] in *.
    split; [|by rewrite Hbook]. eapply turn_driven; try done.
    unfold one_call, same_calls in *. cbn [with_parts en_transport] in Hcall. by rewrite Htr in Hcall.
Qed.

(** An invariant of every turn is an invariant of the run. *)
Lemma engine_run_invariant (I : Engine T → Prop) events (s : Engine T) :
  (∀ env event s, (env, event) ∈ events → I s →
     I (engine_turn sha256_hex policy config scan env event s).2) →
  I s → I (engine_run sha256_hex policy config scan events s).2.
Proof.
  revert s. induction events as [|[env event] events IH]; intros s Hturn Hs; [done|].
  cbn [engine_run]. unfold mbind, eff_bind.
  pose proof (Hturn env event s ltac:(left) Hs) as H1.
  destruct (engine_turn _ _ _ _ env event s) as [[u|e|] s1]; [|done..].
  apply IH; [|done]. intros. apply Hturn; [by right|done].
Qed.
End turns.

(** ** Properties of the engine *)

(** The inputs of a run are typed. *)
Definition run_typed (scan : option RuntimeScanConfig) (events : list (EventEnv * Event)) : Prop :=
  scan_typed scan ∧ Forall (λ e, env_wf e.1 ∧ event_typed e.2) events.

Section properties.
Context {U : U256} {HU : U256Laws U} {A : Alloy} {HA : AlloyLaws A}.
Context {J : SerdeJson} {HJ : SerdeJsonLaws J}.
Context {T : Type} {X : ExecutionTransport T} {O : ObservedTransport T}.
Context (sha256_hex : list Z → string) (policy : RiskPolicy) (config : ExecutionConfig)
  (scan : option RuntimeScanConfig).
Abbreviation run := (engine_run (T:=T) sha256_hex policy config scan).

(** The request of a driven or persisted attempt was accepted. *)
Lemma persisted_accepted out d st st2 request daily prepared rid :
  persisted config out d st st2 request daily prepared rid → rd_accepted d = true.
Proof.
  intros [Hreq _ _]. unfold build_execution_request in Hreq.
  by destruct (rd_accepted d).
Qed.

Lemma persisted_request env event out (s : Engine T) d risk1 st st2 request daily prepared rid :
  scan_typed scan →
  assessed sha256_hex policy scan env event out s d risk1 →
  persisted config out d st st2 request daily prepared rid →
  ∃ c input s1 s2, found_loop env event (en_book s) scan out c input ∧ scan = Some c ∧
    op_input_amount (out_opportunity out) = scan_amount_in c ∧
    request_covers (scan_settlement_token c) (scan_amount_in c) (scan_simulation c) request s1 s2 ∧
    st_target s1 = v2_address (tl_first_pool input) ∧
    st_target s2 = v2_address (tl_second_pool input) ∧
    at_requested_notional (pe_attempt prepared) = scan_amount_in c ∧
    (∀ cap, pol_max_trade_notional_wei policy = Some cap → scan_amount_in c ≤ cap).
Proof.
  intros Hscan [(c & input & Hf) Ha] Hp. pose proof (persisted_accepted _ _ _ _ _ _ _ _ Hp) as Hacc.
  destruct Hf as [Ho Hsc H1 H2 Htok Hamt Hdet Hsim], Hp as [Hreq Hprep _].
  rewrite Hsc in Hscan. destruct Hscan as [Hu _]. rewrite <- Hamt in Hu.
  destruct (accepted_request _ _ _ _ _ _ _ _ _ _ _ H1 H2 Hu Hdet Hsim Ha Hacc)
    as (Hin & rq & s1 & s2 & Hrq & Hcov & Ht1 & Ht2). rewrite Hreq in Hrq. injection Hrq as <-.
  rewrite Htok, Hamt in Hcov. exists c, input, s1, s2. split_and!; [done|done|congruence|done..| |].
  - apply prepare_inv in Hprep as (gas & _ & _ & _ & _ & _ & _ & -> & _).
    by rewrite (cov_loan _ _ _ _ _ _ Hcov).
  - intros cap Hcap.
    destruct (assess_accepted _ _ _ _ _ _ _ _ _ Ha Hacc) as (Hgate & _).
    apply stateless_reject_gates in Hgate. rewrite <- Hamt, <- Hin.
    by apply (go_trade_cap _ _ _ _ Hgate).
Qed.

(** Every turn keeps the book valid and panics only on a fault of the transport, so every
    run does. *)
Lemma engine_run_wf {F : TransportFaults T} {HT : TransportLaws T} events (s : Engine T) :
  run_typed scan events → book_wf (en_book s) →
  wp (run events) (λ r s', (r = Panic → fault (en_transport s')) ∧ book_wf (en_book s')) s.
Proof.
  intros [Hscan Hev]. revert s. induction Hev as [|[env event] events [Henv Hty] _ IH];
    intros s Hb; [done|]. cbn [engine_run]. apply wp_bind. unfold wp at 1.
  pose proof (engine_turn_effect sha256_hex policy config scan env event s Hb Hty Henv Hscan)
    as [_ Hb1].
  assert (wp (engine_turn sha256_hex policy config scan env event)
    (λ r s', r = Panic → fault (en_transport s')) s) as Hp.
  { unfold engine_turn.
    apply wp_bind. pose proof (handle_event_wp sha256_hex env scan event s Hb Hty Henv Hscan)
      as [Hh _]. unfold wp at 1, eff_context at 1.
    destruct (handle_event _ _ _ _ s) as [[out|e|] s1]; cbn [fst snd context map_err] in *; try done.
    eapply wp_mono; [|apply guarded_context, maybe_log_guarded, Henv]. by intros r s' [_ ?]. }
  unfold wp in Hp. cbn zeta in Hb1. destruct (engine_turn _ _ _ _ env event s) as [[u|e|] s1];
    cbn [fst snd] in *; [by apply IH|done|by split].
Qed.

(** *** Where the calls come from *)

(** A call that a turn makes: the event is a log that was applied or reverted; of the loops
    the scan of the book then finds, the first, simulated, is accepted by the risk engine as
    it was at the turn; the call carries the payload of the request built from the loop and
    the decision, and the attempt prepared for it. *)
Record turn_call (env : EventEnv) (event : Event) (s : Engine T) (call : Call)
    (c : RuntimeScanConfig) (best : Opportunity) (simulation : SimulationResult)
    (d : RiskDecision) (first second : V2PoolState) (request : ExecutionRequest)
    (prepared : PreparedExecution) : Prop := {
  tc_scan : scan = Some c;
  tc_log : ∃ log outcome book os, event = EvLog log ∧
    book_apply_log (en_book s) log = (Ok outcome, book) ∧ outcome ∈ [Applied; Reverted] ∧
    detect_two_leg_loops_from_book (md_block_context (log_metadata log))
      (scan_settlement_token c) (scan_amount_in c) (md_tx_hash (log_metadata log))
      (env_values env book) = Ok os ∧ head os = Some best ∧
    first ∈ v2_pools (env_values env book) ∧ second ∈ v2_pools (env_values env book);
  tc_pools : eq_ignore_ascii_case (v2_address first) (v2_address second) = false;
  tc_simulation : simulate_two_leg_opportunity best (scan_simulation c) = Some simulation;
  tc_decision : (assess sha256_hex (env_path_exists env) (env_risk_now env) policy (en_risk s)
                   best simulation).1 = d;
  tc_accepted : rd_accepted d = true;
  tc_request : build_execution_request best d = Some request;
  tc_prepared : ∃ daily, prepare_execution config request simulation daily = Ok prepared;
  tc_submit : pe_should_submit prepared = true;
  tc_payload : build_submission_payload (env_clock_submission env) config request = Ok call.1;
  tc_attempt : call.2 = pe_attempt prepared }.

(** What such a call guarantees: it is made outside shadow mode, for an allowed attempt of
    the scanned amount within the per-trade cap; the two steps of the request go to the two
    pools, and the last one must return the loan, the surplus and the costs. *)
Record covered_call (call : Call) (c : RuntimeScanConfig) (first second : V2PoolState)
    (request : ExecutionRequest) : Prop := {
  cc_mode : exec_mode config ≠ Shadow;
  cc_allowed : at_submission_allowed call.2 = true;
  cc_built : at_status call.2 = ExecutionStatus.Built;
  cc_request : at_request_id call.2 = rq_opportunity_id request;
  cc_notional : at_requested_notional call.2 = scan_amount_in c;
  cc_cap : ∀ cap, pol_max_trade_notional_wei policy = Some cap → scan_amount_in c ≤ cap;
  cc_covers : ∃ s1 s2,
    request_covers (scan_settlement_token c) (scan_amount_in c) (scan_simulation c) request s1 s2 ∧
    st_target s1 = v2_address first ∧ st_target s2 = v2_address second }.

(** A call of a run: some turn makes it, from the state the events before it lead to. *)
Definition sound_call (events : list (EventEnv * Event)) (s : Engine T) (call : Call) : Prop :=
  ∃ before env event after c best simulation d first second request prepared,
    events = before ++ (env, event) :: after ∧ (run before s).1 = Ok tt ∧
    turn_call env event (run before s).2 call c best simulation d first second request prepared ∧
    covered_call call c first second request.

Lemma sound_call_cons env event events s s1 call :
  engine_turn sha256_hex policy config scan env event s = (Ok tt, s1) →
  sound_call events s1 call → sound_call ((env, event) :: events) s call.
Proof.
  intros Ht (before & env' & event' & after & c & best & sim & d & f & g & rq & pr & -> & Hok & Hc & Hv).
  exists ((env, event) :: before), env', event', after, c, best, sim, d, f, g, rq, pr.
  cbn [engine_run]. unfold mbind, eff_bind. rewrite Ht. by split_and!.
Qed.

(** A turn adds at most one call, which is sound. *)
Lemma turn_calls_sound env event s s' :
  scan_typed scan → turn_effect sha256_hex policy config scan env event s s' →
  ∃ new, calls (en_transport s') = calls (en_transport s) ++ new ∧
    ∀ events, Forall (sound_call ((env, event) :: events) s) new.
Proof.
  intros Hscan He.
  destruct He as [_ Ht _|out d _ Ht _|out d st rq daily prep rid _ Ht _ _
    |out d risk1 os st st2 rq daily prep id Has _ _ Hp _ Hsub [Hsame|(payload & Hpay & Hcall)]];
    [exists []; by rewrite Ht, app_nil_r..|exists []; by rewrite Hsame, app_nil_r|].
  exists [(payload, pe_attempt prep)]. split; [done|]. intros events. apply Forall_singleton.
  destruct (persisted_request _ _ _ _ _ _ _ _ _ _ _ _ Hscan Has Hp)
    as (c & input & st1 & st3 & Hf & Hc & _ & Hcov & Ht1 & Ht2 & Hnot & Hcap).
  pose proof (persisted_accepted _ _ _ _ _ _ _ _ Hp) as Hacc.
  destruct Hp as [Hreq Hprep _]. pose proof Hprep as Hprep'. apply prepare_inv in Hprep'
    as (gas & _ & _ & Hid & Hst & _ & _ & _ & _ & Hallow & Hpol).
  apply submission_policy_ok in Hpol as [_ Hmode]. rewrite Hsub in Hallow.
  exists [], env, event, events, c, (out_opportunity out), (out_simulation out), d,
    (tl_first_pool input), (tl_second_pool input), rq, prep.
  destruct Hf as [(log & outcome & book & ops & He & Hb & Ho & Hd & Hh & Hv1 & Hv2 & Hne) _ _ _ _ _ _ Hsim].
  split_and!; [done|done| |].
  - constructor; try done; [|exact (f_equal fst (proj2 Has))|by exists daily].
    exists log, outcome, book, ops. by split_and!.
  - constructor; try done; [|by exists st1, st3]. intros Hsh. rewrite Hsh in Hmode. congruence.
Qed.

(** Every call the transport receives over a run is sound. *)
Lemma engine_calls_sound events (s : Engine T) :
  run_typed scan events → book_wf (en_book s) →
  ∃ new, calls (en_transport (run events s).2) = calls (en_transport s) ++ new ∧
    Forall (sound_call events s) new.
Proof.
  intros [Hscan Hev]. revert s. induction Hev as [|[env event] events [Henv Hty] _ IH]; intros s Hb.
  { exists []. by rewrite app_nil_r. }
  destruct (engine_turn_effect sha256_hex policy config scan env event s Hb Hty Henv Hscan)
    as [He Hb1]. destruct (turn_calls_sound _ _ _ _ Hscan He) as (new & Hnew & Hs).
  specialize (Hs events). cbn [engine_run]. unfold mbind, eff_bind. cbn zeta in Hb1.
  destruct (engine_turn _ _ _ _ env event s) as [[[]|e|] s1] eqn:Ht; cbn [fst snd] in *;
    [|by exists new..].
  destruct (IH s1 Hb1) as (new' & Hnew' & Hs'). exists (new ++ new').
  split; [by rewrite Hnew', Hnew, app_assoc|]. apply Forall_app. split; [done|].
  eapply Forall_impl; [exact Hs'|]. intros call. by apply sound_call_cons.
Qed.

(** C1. Every call of the transport, over every run, comes from an accepted decision on a
    loop found in the scan.  Each one is made in the turn of a log: the log was applied to
    the book or reverted, the loop is the first the scan of the book then finds over two of
    its pools, and the risk engine, in the state it had, accepted its simulation.  The
    payload encodes the request built from that loop and decision, whose two steps go to
    the two pools and whose last step must return the loan, the required surplus and the
    simulated costs; the attempt is allowed, outside shadow mode, for the scanned amount
    and within the per-trade cap. *)
Theorem engine_submissions_sound events (s : Engine T) :
  run_typed scan events → book_wf (en_book s) →
  ∃ new, calls (en_transport (run events s).2) = calls (en_transport s) ++ new ∧
    Forall (sound_call events s) new.
Proof. apply engine_calls_sound. Qed.

(** A stopped engine leaves the transport alone. *)
Lemma halted_transport events (s : Engine T) :
  run_typed scan events → book_wf (en_book s) →
  exec_mode config = Shadow ∨ rs_operator_killed (en_risk s) = true ∨
    tripped policy (en_risk s) →
  en_transport (run events s).2 = en_transport s.
Proof.
  intros [Hscan Hev] Hb Hhalt. rewrite Forall_forall in Hev.
  apply (engine_run_invariant sha256_hex policy config scan (λ s', book_wf (en_book s') ∧
    en_transport s' = en_transport s ∧
    (exec_mode config = Shadow ∨ en_risk s' = en_risk s))); [|by auto].
  intros env event s1 Hin (Hb1 & Ht1 & Hr1). destruct (Hev _ Hin) as [Henv Hty].
  destruct (engine_turn_effect sha256_hex policy config scan env event s1 Hb1 Hty Henv Hscan)
    as [He Hb2]. split; [done|].
  assert (∀ out d risk1, assessed sha256_hex policy scan env event out s1 d risk1 →
    exec_mode config = Shadow ∨ rd_accepted d = false ∧ risk1 = en_risk s) as Hdenied.
  { intros out d risk1 [_ Ha]. destruct Hhalt as [?|Hh]; [by left|].
    destruct Hr1 as [?|Hr1]; [by left|right]. rewrite Hr1 in Ha.
    destruct (assess_halted sha256_hex (env_path_exists env) (env_risk_now env) policy
      (en_risk s) (out_opportunity out) (out_simulation out) Hh) as [H1 H2].
    by rewrite Ha in H1, H2. }
  destruct He as [Hr Ht _|out d Ha Ht _|out d st rq daily prep rid Ha Ht _ _
    |out d risk1 os st st2 rq daily prep id Ha _ _ Hp _ Hsub _].
  - rewrite Ht, Hr. auto.
  - rewrite Ht. destruct (Hdenied _ _ _ Ha) as [?|[_ ?]]; auto.
  - rewrite Ht. destruct (Hdenied _ _ _ Ha) as [?|[_ ?]]; auto.
  - exfalso. destruct (Hdenied _ _ _ Ha) as [Hsh|[Hd _]].
    + destruct Hp as [_ Hprep _]. apply prepare_inv in Hprep
        as (gas & _ & _ & _ & _ & _ & _ & _ & _ & Hallow & Hpol).
      apply submission_policy_ok in Hpol as [_ Hmode]. rewrite Hsh in Hmode. congruence.
    + apply persisted_accepted in Hp. congruence.
Qed.

(** C7. A stopped engine sends nothing: in shadow mode, after the operator's kill
    switch or once the breaker has tripped, no run touches the transport. In
    particular a tripped breaker never resets: only a success closes it and no
    further attempt is made. *)
Theorem engine_halted events (s : Engine T) :
  run_typed scan events → book_wf (en_book s) →
  exec_mode config = Shadow ∨ rs_operator_killed (en_risk s) = true ∨
    tripped policy (en_risk s) →
  en_transport (run events s).2 = en_transport s.
Proof. apply halted_transport. Qed.

(** ** The daily limit of canary mode *)

Definition notional (calls : list Call) : Z :=
  foldr (λ c acc, at_requested_notional c.2 + acc) 0 calls.

Lemma notional_app cs ds : notional (cs ++ ds) = notional cs + notional ds.
Proof. unfold notional. induction cs as [|c cs IH]; cbn; lia. Qed.

(** The notional of every submittable attempt on record. *)
Fixpoint allowed_sum (xs : list (Z * bool * Z * Amount)) : Z :=
  match xs with
  | [] => 0
  | (_, allowed, _, n) :: xs => (if (allowed : bool) then n else 0) + allowed_sum xs
  end.

Lemma allowed_sum_app xs ys : allowed_sum (xs ++ ys) = allowed_sum xs + allowed_sum ys.
Proof. induction xs as [|[[[i b] t] n] xs IH]; cbn; [done|]. rewrite IH. lia. Qed.

(** The record covers what has been sent, and each of its days is within the cap. *)
Record within_daily (cap sent : Z) (s : Engine T) (db : Db) : Prop := {
  wd_pool : storage_pool (en_storage s) = Some db;
  wd_wf : db_wf db;
  wd_days : days_within cap db;
  wd_sent : notional (calls (en_transport s)) ≤ sent + allowed_sum (exposures db) }.

Lemma storage_frame_some st db st' :
  storage_frame st st' → storage_pool st = Some db →
  ∃ db', storage_pool st' = Some db' ∧ db_frame db db'.
Proof.
  unfold storage_rel. intros Hf Hp. rewrite Hp in Hf.
  destruct (storage_pool st') as [db'|]; [|done]. by exists db'.
Qed.

Lemma frame_days_within cap db db' : db_frame db db' → days_within cap db → days_within cap db'.
Proof. intros [_ _ Hx] Hd d. rewrite Hx. apply Hd. Qed.

Lemma quiet_within_daily cap sent s1 s2 db :
  within_daily cap sent s1 db → storage_frame (en_storage s1) (en_storage s2) →
  en_transport s2 = en_transport s1 → ∃ db', within_daily cap sent s2 db'.
Proof.
  intros [Hp Hw Hd Hs] Hf Ht. destruct (storage_frame_some _ _ _ Hf Hp) as (db2 & Hp2 & Hf2).
  exists db2. constructor; [done|by apply Hf2|by eapply frame_days_within|].
  by rewrite Ht, (df_exposures _ _ Hf2).
Qed.

Section canary.
Context (cap : Z) (raw : string).
Hypothesis Hscan : scan_typed scan.
Hypothesis Hmode : exec_mode config = Canary.
Hypothesis Hraw : exec_canary_max_daily_wei config = Some raw.
Hypothesis Hcap : parse_uint 128 raw = Ok cap.

(** An attempt that was persisted keeps the days within the cap: the day's total was
    read before it, under the same clock. *)
Lemma persisted_days out d st st2 request daily prepared rid db :
  persisted config out d st st2 request daily prepared rid →
  0 ≤ at_requested_notional (pe_attempt prepared) →
  storage_pool st = Some db → db_wf db → days_within cap db →
  ∃ db2, storage_pool st2 = Some db2 ∧ db_wf db2 ∧ days_within cap db2 ∧
    (exposures db2 = exposures db ∧ (∀ o, rid ≠ Ok o) ∨ ∃ id t,
     exposures db2 = exposures db ++ [(id, at_submission_allowed (pe_attempt prepared), t,
                                       at_requested_notional (pe_attempt prepared))]).
Proof.
  intros [_ Hprep (st0 & st1 & rn & Ht & Hf & Hp)] Hn Hpool Hwf Hdays.
  pose proof (todays_wp st) as [_ H0]. rewrite Ht, Hpool in H0. cbn [fst snd] in H0.
  destruct (storage_pool st0) as [db0|] eqn:Hst0; [|done]. destruct H0 as [Hf0 Hsum].
  specialize (Hsum daily eq_refl Hwf).
  destruct (storage_frame_some _ _ _ Hf Hst0) as (db1 & Hst1 & Hf1).
  pose proof (df_wf _ _ Hf0 Hwf) as Hwf0. pose proof (df_wf _ _ Hf1 Hwf0) as Hwf1.
  pose proof (frame_days_within _ _ _ Hf0 Hdays) as Hdays0.
  pose proof (persist_execution_attempt_wp rn (pe_attempt prepared) request st1) as [_ H2].
  rewrite Hp, Hst1 in H2. cbn [fst snd] in H2.
  destruct (storage_pool st2) as [db2|] eqn:Hst2; [|done]. exists db2.
  assert (exposures db1 = exposures db) as Hx1
    by (rewrite (df_exposures _ _ Hf1); apply (df_exposures _ _ Hf0)).
  destruct H2 as [[Hf2 Hno]|Hins].
  - split_and!; [done|by apply Hf2| |].
    + eapply frame_days_within; [exact Hf2|]. by eapply frame_days_within.
    + left. split; [|done]. by rewrite (df_exposures _ _ Hf2).
  - destruct (inserts_wf _ _ _ Hn Hins Hwf1) as (Hwf2 & _ & id & Hx2).
    split_and!; [done|done| |right; exists id, (db_now db2); by rewrite Hx2, Hx1].
    eapply (inserts_days_within cap _ db0 db1); try done. intros Hallow. rewrite <- Hsum.
    apply prepare_inv in Hprep as (gas & _ & _ & _ & _ & _ & _ & _ & _ & _ & Hpol).
    apply submission_policy_ok in Hpol as [_ Hpol]. rewrite Hmode in Hpol.
    destruct (Hpol Hallow) as (rt & rd & mt & md & _ & _ & Hrd & Hpd & _ & Hle).
    assert (md = cap) as -> by congruence. done.
Qed.

(** The same from the start of the turn. *)
Lemma persisted_within env event out s1 d risk1 st st2 rq daily prep rid sent db1 :
  within_daily cap sent s1 db1 → storage_frame (en_storage s1) st →
  assessed sha256_hex policy scan env event out s1 d risk1 →
  persisted config out d st st2 rq daily prep rid →
  0 ≤ at_requested_notional (pe_attempt prep) ∧
  ∃ db2, storage_pool st2 = Some db2 ∧ db_wf db2 ∧ days_within cap db2 ∧
    (exposures db2 = exposures db1 ∧ (∀ o, rid ≠ Ok o) ∨ ∃ id t,
     exposures db2 = exposures db1 ++ [(id, at_submission_allowed (pe_attempt prep), t,
                                        at_requested_notional (pe_attempt prep))]).
Proof.
  intros [Hp1 Hw1 Hd1 _] Hf Ha Hp.
  destruct (persisted_request _ _ _ _ _ _ _ _ _ _ _ _ Hscan Ha Hp)
    as (c & ? & ? & ? & _ & Hc & _ & _ & _ & _ & Hn & _).
  rewrite Hc in Hscan. destruct Hscan as [[Hu _] _]. split; [lia|].
  destruct (storage_frame_some _ _ _ Hf Hp1) as (db2 & Hp2 & Hf2).
  rewrite <- (df_exposures _ _ Hf2).
  eapply persisted_days; try done; [lia|by apply Hf2|by eapply frame_days_within].
Qed.

Lemma turn_within_daily env event s1 s2 sent db1 :
  within_daily cap sent s1 db1 → turn_effect sha256_hex policy config scan env event s1 s2 →
  ∃ db', within_daily cap sent s2 db'.
Proof.
  intros Hw He. pose proof (wd_sent _ _ _ _ Hw) as Hs.
  destruct He as [_ Ht Hf|out d _ Ht Hf|out d st rq daily prep rid Ha Ht Hf Hp
    |out d risk1 os st st2 rq daily prep id Ha _ Hf Hp Hf2 Hsub Hcall];
    [by eapply quiet_within_daily..| |];
    destruct (persisted_within _ _ _ _ _ _ _ _ _ _ _ _ _ _ Hw Hf Ha Hp)
      as (Hn & db2 & Hp2 & Hw2 & Hd2 & Hx).
  - exists db2. constructor; [done..|]. rewrite Ht.
    destruct Hx as [[-> _]|(i & t & ->)]; [done|]. rewrite allowed_sum_app. cbn. case_match; lia.
  - destruct (storage_frame_some _ _ _ Hf2 Hp2) as (db3 & Hp3 & Hf3).
    destruct Hx as [[_ Hno]|(i & t & Hx)]; [by destruct (Hno id)|].
    destruct Hp as [_ Hprep _]. apply prepare_inv in Hprep
      as (gas & _ & _ & _ & _ & _ & _ & _ & _ & Hallow & _). rewrite Hsub in Hallow.
    exists db3. constructor; [done|by apply Hf3|by eapply frame_days_within|].
    rewrite (df_exposures _ _ Hf3), Hx, allowed_sum_app, <- Hallow. cbn.
    destruct Hcall as [Hsame|(payload & _ & Hcall)].
    + rewrite Hsame. lia.
    + rewrite Hcall, notional_app. cbn. lia.
Qed.
End canary.

(** C5. The daily limit of canary mode, with a database: over every run, whatever
    statements fail or lose their answer and also across midnight, the attempts
    recorded as submittable on any day stay within the limit, and the record
    covers every call of the transport. *)
Theorem canary_daily_cap events (s : Engine T) cap raw db :
  run_typed scan events → book_wf (en_book s) →
  exec_mode config = Canary → exec_canary_max_daily_wei config = Some raw →
  parse_uint 128 raw = Ok cap →
  storage_pool (en_storage s) = Some db → db_wf db → days_within cap db →
  let s' := (run events s).2 in
  ∃ db', storage_pool (en_storage s') = Some db' ∧ days_within cap db' ∧
    notional (calls (en_transport s')) - notional (calls (en_transport s)) ≤
      allowed_sum (exposures db') - allowed_sum (exposures db).
Proof.
  intros [Hscan Hev] Hb Hmode Hraw Hcap Hpool Hwf Hdays s'. rewrite Forall_forall in Hev.
  set (sent := notional (calls (en_transport s)) - allowed_sum (exposures db)).
  assert (book_wf (en_book s') ∧ ∃ db', within_daily cap sent s' db') as [_ (db' & [H1 _ H2 H3])].
  2:{ exists db'. split_and!; [done|done|]. subst sent. lia. }
  apply (engine_run_invariant sha256_hex policy config scan
    (λ s, book_wf (en_book s) ∧ ∃ db', within_daily cap sent s db')).
  2:{ split; [done|]. exists db. constructor; [done..|]. subst sent. lia. }
  intros env event s1 Hin (Hb1 & db1 & Hw1). destruct (Hev _ Hin) as [Henv Hty].
  destruct (engine_turn_effect sha256_hex policy config scan env event s1 Hb1 Hty Henv Hscan)
    as [He Hb2]. split; [done|]. by eapply turn_within_daily.
Qed.

(** ** The engine as a run of the risk engine *)

(** The operations of the risk engine in a turn, and the clocks they read. *)
Definition op_clock (op : RiskOp) : option Z :=
  match op with Assess _ now _ _ => Some now | _ => None end.

Lemma risk_run_app st ops ops' :
  risk_run sha256_hex policy st (ops ++ ops') =
    let '(st1, cs) := risk_run sha256_hex policy st ops in
    let '(st2, cs') := risk_run sha256_hex policy st1 ops' in (st2, cs ++ cs').
Proof.
  revert st. induction ops as [|op ops IH]; intros st; cbn [app risk_run].
  { by destruct (risk_run sha256_hex policy st ops'). }
  destruct (risk_step sha256_hex policy st op) as [st1 c]. rewrite IH.
  destruct (risk_run sha256_hex policy st1 ops) as [st2 cs].
  destruct (risk_run sha256_hex policy st2 ops'). by rewrite app_assoc.
Qed.

Lemma risk_run_outcomes st os :
  risk_run sha256_hex policy st (RecordOutcome <$> os) = (foldl record_outcome st os, []).
Proof.
  revert st. induction os as [|b os IH]; intros st; [done|]. cbn [fmap list_fmap risk_run risk_step].
  by rewrite IH.
Qed.

(** The state of the risk engine moves by its own operations, at the clock of the
    turn and for the amount of the scan, and each call commits its notional. *)
Record refines (clocks : list Z) (s s' : Engine T) (ops : list RiskOp) (cs : list Commitment)
    (new : list Call) : Prop := {
  rf_run : risk_run sha256_hex policy (en_risk s) ops = (en_risk s', cs);
  rf_calls : calls (en_transport s') = calls (en_transport s) ++ new;
  rf_notional : sublist ((λ c, at_requested_notional c.2) <$> new) (cm_amount <$> cs);
  rf_clocks : sublist (omap op_clock ops) clocks;
  rf_amounts : Forall (λ op, match op with
                 | Assess _ _ o _ => uint 128 (op_input_amount o) | _ => True end) ops }.

Lemma refines_refl clocks s s' :
  en_risk s' = en_risk s → en_transport s' = en_transport s → refines clocks s s' [] [] [].
Proof.
  intros Hr Ht. constructor; cbn; [by rewrite Hr|by rewrite Ht, app_nil_r|done| |done].
  apply sublist_nil_l.
Qed.

Lemma refines_app k1 k2 s1 s2 s3 ops1 cs1 new1 ops2 cs2 new2 :
  refines k1 s1 s2 ops1 cs1 new1 → refines k2 s2 s3 ops2 cs2 new2 →
  refines (k1 ++ k2) s1 s3 (ops1 ++ ops2) (cs1 ++ cs2) (new1 ++ new2).
Proof.
  intros [R1 C1 N1 K1 A1] [R2 C2 N2 K2 A2]. constructor.
  - by rewrite risk_run_app, R1, R2.
  - by rewrite C2, C1, app_assoc.
  - rewrite !fmap_app. by apply sublist_app.
  - rewrite omap_app. by apply sublist_app.
  - by apply Forall_app.
Qed.

Lemma turn_refines env event s s' :
  scan_typed scan → turn_effect sha256_hex policy config scan env event s s' →
  ∃ ops cs new, refines [env_risk_now env] s s' ops cs new.
Proof.
  intros Hscan He.
  assert (∀ out d risk1 os, assessed sha256_hex policy scan env event out s d risk1 →
    ∃ ops cs, risk_run sha256_hex policy (en_risk s) ops = (foldl record_outcome risk1 os, cs) ∧
      omap op_clock ops = [env_risk_now env] ∧
      cm_amount <$> cs = (if rd_accepted d then [op_input_amount (out_opportunity out)] else []) ∧
      Forall (λ op, match op with
        | Assess _ _ o _ => uint 128 (op_input_amount o) | _ => True end) ops) as Hops.
  { intros out d risk1 os [(c & input & [_ Hc H1 H2 _ Hamt Hdet _]) Ha].
    exists (Assess (env_path_exists env) (env_risk_now env) (out_opportunity out)
             (out_simulation out) :: (RecordOutcome <$> os)).
    eexists. cbn [risk_run risk_step]. rewrite Ha, risk_run_outcomes.
    split; [reflexivity|]. split_and!.
    - cbn. f_equal. induction os; done.
    - rewrite app_nil_r. by destruct (rd_accepted d).
    - rewrite Hc in Hscan. destruct Hscan as [Hu _]. rewrite <- Hamt in Hu.
      destruct (detect_inv input H1 H2 Hu) as (r & Hr & Hspec). rewrite Hdet in Hr. simplify_eq.
      constructor; [naive_solver congruence|]. apply Forall_fmap, Forall_forall. done. }
  destruct He as [Hr Ht _|out d Ha Ht _|out d st rq daily prep rid Ha Ht _ _
    |out d risk1 os st st2 rq daily prep id Ha Hr _ Hp _ _ Hcall].
  - exists [], [], []. by apply refines_refl.
  - destruct (Hops _ _ _ [] Ha) as (ops & cs & Hrun & Hk & _ & Hamt). exists ops, cs, [].
    constructor; [done|by rewrite Ht, app_nil_r|apply sublist_nil_l|by rewrite Hk|done].
  - destruct (Hops _ _ _ [] Ha) as (ops & cs & Hrun & Hk & _ & Hamt). exists ops, cs, [].
    constructor; [done|by rewrite Ht, app_nil_r|apply sublist_nil_l|by rewrite Hk|done].
  - destruct (Hops _ _ _ os Ha) as (ops & cs & Hrun & Hk & Hcs & Hamt). rewrite <- Hr in Hrun.
    destruct (persisted_request _ _ _ _ _ _ _ _ _ _ _ _ Hscan Ha Hp)
      as (c & ? & ? & ? & _ & _ & Hin & _ & _ & _ & Hn & _).
    apply persisted_accepted in Hp. rewrite Hp, Hin in Hcs. exists ops, cs.
    destruct Hcall as [Hsame|(payload & _ & Hcall)].
    + exists []. constructor; [done|by rewrite Hsame, app_nil_r|apply sublist_nil_l|by rewrite Hk|done].
    + eexists. constructor; [done|exact Hcall|by rewrite Hcs; cbn; rewrite Hn|by rewrite Hk|done].
Qed.
Lemma refines_more clocks extra s s' ops cs new :
  refines clocks s s' ops cs new → refines (clocks ++ extra) s s' ops cs new.
Proof. intros []. constructor; try done. by apply sublist_inserts_r. Qed.

Lemma engine_run_refines events s :
  run_typed scan events → book_wf (en_book s) →
  ∃ ops cs new, refines (env_risk_now <$> events.*1) s (run events s).2 ops cs new.
Proof.
  intros [Hscan Hev]. revert s. induction Hev as [|[env event] events [Henv Hty] _ IH]; intros s Hb.
  { exists [], [], []. by apply refines_refl. }
  destruct (engine_turn_effect sha256_hex policy config scan env event s Hb Hty Henv Hscan)
    as [He Hb1]. destruct (turn_refines _ _ _ _ Hscan He) as (ops & cs & new & Hr).
  cbn [engine_run]. unfold mbind, eff_bind. cbn zeta in Hb1.
  destruct (engine_turn _ _ _ _ env event s) as [[u|e|] s1]; cbn [snd] in *;
    [|exists ops, cs, new; by apply (refines_more [env_risk_now env])..].
  destruct (IH s1 Hb1) as (ops' & cs' & new' & Hr'). do 3 eexists.
  by eapply (refines_app [env_risk_now env]).
Qed.

Lemma clock_monotone_sorted t0 ops :
  StronglySorted Z.le (omap op_clock ops) → Forall (Z.le t0) (omap op_clock ops) →
  Forall (λ op, match op with
    | Assess _ _ o _ => uint 128 (op_input_amount o) | _ => True end) ops →
  clock_monotone t0 ops.
Proof.
  revert t0. induction ops as [|[pe now o sm|b|] ops IH]; intros t0; cbn; [done|..];
    intros Hs Hf [Ha Hops]%Forall_cons; [|by apply IH..].
  apply StronglySorted_inv in Hs as [Hs Hnow]. apply Forall_cons in Hf as [? _]. auto.
Qed.

Lemma commitment_clocks st ops st' cs :
  risk_run sha256_hex policy st ops = (st', cs) →
  Forall (λ op, match op with
    | Assess _ _ o _ => uint 128 (op_input_amount o) | _ => True end) ops →
  Forall (λ c, cm_now c ∈ omap op_clock ops ∧ 0 ≤ cm_amount c) cs.
Proof.
  revert st cs. induction ops as [|op ops IH]; intros st cs; cbn [risk_run]; [by intros [= <- <-]|].
  intros H [Ha Hops]%Forall_cons. destruct (risk_step sha256_hex policy st op) as [st1 c] eqn:Hst.
  destruct (risk_run sha256_hex policy st1 ops) as [st2 cs'] eqn:Hr. injection H as <- <-.
  specialize (IH _ _ Hr Hops). apply Forall_app. split.
  - destruct op as [pe now o sm|b|]; cbn in Hst; [|injection Hst as <- <-; constructor..].
    destruct (assess sha256_hex pe now policy st o sm) as [d st3]. injection Hst as <- <-.
    destruct (rd_accepted d); [|constructor]. apply Forall_singleton. cbn.
    split; [by left|apply Ha].
  - eapply Forall_impl; [exact IH|]. intros c' [Hin ?]. split; [|done].
    destruct op; cbn; [by right|done..].
Qed.

Lemma sublist_notional new cs :
  sublist ((λ c : Call, at_requested_notional c.2) <$> new) (cm_amount <$> cs) →
  Forall (λ c, 0 ≤ cm_amount c) cs → notional new ≤ amounts_sum cs.
Proof.
  intros Hs Hf. remember (_ <$> new) as ns eqn:Hn. remember (cm_amount <$> cs) as ms eqn:Hm.
  revert new cs Hn Hm Hf. induction Hs as [|x l k _ IH|x l k _ IH]; intros new cs Hn Hm Hf.
  - by destruct new, cs.
  - destruct new as [|c new], cs as [|m cs]; try done. injection Hn as Hx Hn. injection Hm as Hx' Hm.
    apply Forall_cons in Hf as [? Hf]. specialize (IH new cs Hn Hm Hf). unfold notional, amounts_sum in *. cbn in *. lia.
  - destruct cs as [|m cs]; [done|]. injection Hm as Hx Hm. apply Forall_cons in Hf as [? Hf].
    specialize (IH new cs Hn Hm Hf). unfold notional, amounts_sum in *. cbn in *. lia.
Qed.

Lemma engine_run_book events (s : Engine T) :
  run_typed scan events → book_wf (en_book s) → book_wf (en_book (run events s).2).
Proof.
  intros [Hscan Hev] Hb. rewrite Forall_forall in Hev.
  apply (engine_run_invariant sha256_hex policy config scan (λ s, book_wf (en_book s))); [|done].
  intros env event s1 Hin Hb1. destruct (Hev _ Hin) as [Henv Hty].
  by apply (engine_turn_effect sha256_hex policy config scan env event s1).
Qed.

(** The commitments made within a day are in the window of the last of them. *)
Lemma window_of_day cap t cs0 cs :
  (∀ pre c post, cs0 ++ cs = pre ++ c :: post → window_sum (cm_now c) (pre ++ [c]) ≤ cap) →
  0 ≤ cap → Forall (λ c, 0 ≤ cm_amount c) cs0 →
  Forall (λ c, t ≤ cm_now c ≤ t + SECONDS_PER_DAY ∧ 0 ≤ cm_now c) cs → amounts_sum cs ≤ cap.
Proof.
  intros Hw Hc Ha Hin. destruct (decide (cs = [])) as [->|Hne]; [done|].
  destruct (List.exists_last Hne) as (pre & c & ->).
  specialize (Hw (cs0 ++ pre) c [] ltac:(by rewrite app_assoc)).
  rewrite <- app_assoc, window_sum_app in Hw. rewrite Forall_forall in Hin.
  rewrite (window_sum_all _ (pre ++ [c])) in Hw.
  - assert (0 ≤ window_sum (cm_now c) cs0); [|lia]. apply amounts_sum_nonneg.
    rewrite Forall_forall in Ha |- *. intros x Hx. apply list_elem_of_filter in Hx as [_ Hx]. by apply Ha.
  - apply Forall_forall. intros c' Hc'. pose proof (Hin c' Hc'). pose proof (Hin c ltac:(set_solver)).
    unfold saturating_sub. lia.
Qed.

(** C6. The daily cap of the risk policy bounds what is sent in any day of a run.  The whole
    run, however long, is a run of the risk engine: its state moves by assessments, at the
    clocks of the turns, and recorded outcomes only, and the calls of the transport are
    among the commitments it makes, in their order.  So when the clock does not go back, the
    notional of the calls made during any stretch of events that spans at most 24 hours,
    anywhere in a run that started with a fresh risk engine, is within the cap. *)
Theorem engine_daily_cap before during (s s1 s2 : Engine T) cap t r new :
  run_typed scan (before ++ during) → book_wf (en_book s) → en_risk s = RiskState_default →
  run before s = (Ok tt, s1) → run during s1 = (r, s2) →
  calls (en_transport s2) = calls (en_transport s1) ++ new →
  pol_max_daily_notional_wei policy = Some cap → 0 ≤ cap < uint_max 128 →
  StronglySorted Z.le (env_risk_now <$> (before ++ during).*1) →
  Forall (Z.le 0) (env_risk_now <$> (before ++ during).*1) →
  Forall (λ now, t ≤ now ≤ t + SECONDS_PER_DAY) (env_risk_now <$> during.*1) →
  (∃ ops cs sent, refines (env_risk_now <$> (before ++ during).*1) s s2 ops cs sent) ∧
  notional new ≤ cap.
Proof.
  intros [Hscan Hev] Hb Hdef Hbefore Hduring Hnew Hcap Hbound Hsort Hpos Hwin.
  apply Forall_app in Hev as [Hev1 Hev2].
  destruct (engine_run_refines before s (conj Hscan Hev1) Hb) as (ops1 & cs1 & new1 & R1).
  pose proof (engine_run_book before s (conj Hscan Hev1) Hb) as Hb1.
  rewrite Hbefore in R1, Hb1. cbn [snd] in R1, Hb1.
  destruct (engine_run_refines during s1 (conj Hscan Hev2) Hb1) as (ops2 & cs2 & new2 & R2).
  rewrite Hduring in R2. cbn [snd] in R2. pose proof (refines_app _ _ _ _ _ _ _ _ _ _ _ R1 R2) as R.
  rewrite !fmap_app in Hsort, Hpos |- *. split; [by do 3 eexists|].
  destruct R as [Hrun _ _ Hk Hamt], R2 as [Hrun2 Hcalls Hsub Hk2 Hamt2].
  rewrite Hcalls in Hnew. apply app_inv_head in Hnew as ->. rewrite Hdef in Hrun.
  pose proof (commitment_clocks _ _ _ _ Hrun2 Hamt2) as Hcs2.
  pose proof (commitment_clocks _ _ _ _ Hrun Hamt) as Hcs.
  assert (Forall (Z.le 0) (omap op_clock (ops1 ++ ops2))) as Hk0
    by (rewrite Forall_forall in Hpos |- *; intros; eapply Hpos, elem_of_sublist; done).
  transitivity (amounts_sum cs2).
  { apply sublist_notional; [done|]. eapply Forall_impl; [exact Hcs2|]. naive_solver. }
  apply (window_of_day cap t cs1); [|lia| |].
  - apply (daily_run sha256_hex policy cap Hcap (proj2 Hbound) (ops1 ++ ops2) RiskState_default [] 0 _ _
      ltac:(constructor; [by exists [], []|cbn; lia|done])
      (clock_monotone_sorted 0 _ (StronglySorted_sublist _ _ _ Hk Hsort) Hk0 Hamt) Hrun).
  - apply Forall_app in Hcs as [Hcs _]. eapply Forall_impl; [exact Hcs|]. naive_solver.
  - apply Forall_forall. rewrite Forall_forall in Hcs2. rewrite Forall_forall in Hwin.
    rewrite Forall_forall in Hpos. intros c Hc. destruct (Hcs2 c Hc) as [Hin _].
    eapply elem_of_sublist in Hin; [|exact Hk2]. split; [by apply Hwin|apply Hpos; set_solver].
Qed.
End properties.

(** ** Bootstrap *)

(** The fields of a bootstrap entry are in the range of their types. *)
Definition entry_typed (e : BootstrapV2Pool) : Prop :=
  uint 128 (bp_reserve0 e) ∧ uint 128 (bp_reserve1 e) ∧ uint 32 (bp_fee_bps e).

Lemma insert_v2_pool_wf b pool : book_wf b → v2_wf pool → book_wf (insert_v2_pool b pool).
Proof. intros [Hp Hh] Hwf. constructor; [|done]. by apply map_Forall_insert_2. Qed.

Lemma insert_bootstrap_wf b entries b' :
  Forall entry_typed entries → book_wf b → insert_bootstrap b entries = Ok b' → book_wf b'.
Proof.
  intros He. revert b. induction He as [|e entries (H0 & H1 & Hf) _ IH]; intros b Hb; cbn.
  { by intros [= <-]. }
  intros H. apply bind_ok in H as (pool & Hp & H). apply map_err_ok in Hp.
  eapply IH; [|exact H]. apply insert_v2_pool_wf; [done|].
  unfold v2_new in Hp. apply bind_ok in Hp as ([] & Hv & [= <-]). by apply v2_validate_ok in Hv.
Qed.

Lemma load_pool_book_wf read_to_string from_str config book :
  (∀ text entries, from_str text = Ok entries → Forall entry_typed entries) →
  load_pool_book read_to_string from_str config = Ok book → book_wf book.
Proof.
  intros Hparse. unfold load_pool_book. destruct (dec_v2_bootstrap_path config) as [path|].
  - intros H. apply bind_ok in H as (text & _ & H).
    apply bind_ok in H as (entries & He & H). apply map_err_ok in He.
    eapply insert_bootstrap_wf; [by eapply Hparse| |exact H]. by constructor.
  - intros [= <-]. by constructor.
Qed.

Lemma scan_config_ready config :
  decision_validate config = Ok tt → uint 64 (dec_simulation_gas_estimate config) →
  ∃ scan, runtime_scan_config config = Ok scan ∧ scan_typed scan ∧
    (is_Some scan ↔ is_Some (dec_settlement_token config)).
Proof.
  intros Hv Hgas.
  destruct (simulation_from_validated _ Hv) as (sc & Hsc & _ & _ & _).
  apply decision_validate_valid in Hv as [_ _ _ _ Hiff Hraw]. unfold runtime_scan_config.
  destruct (dec_settlement_token config) as [token|], (dec_scan_trade_amount_wei config) as [raw|];
    [|exists None; split_and!; try done..].
  - destruct (Hraw raw eq_refl) as (n & Hn & Hu). unfold parse_amount_anyhow. rewrite Hn.
    cbn [map_err context mbind res_bind]. rewrite Hsc. cbn [map_err mbind res_bind].
    eexists. split; [done|]. split; [|split; by eexists]. split; [done|]. cbn.
    revert Hsc. unfold simulation_from_config. intros Hsc. inv_res. done.
  - split; [by intros []|]. intros _. destruct Hiff as [Hi _].
    destruct (Hi ltac:(by eexists)) as [? [=]].
Qed.

(** A validated configuration starts the engine in a valid state: the scan
    settings parse, with an amount and a gas estimate in range, and a bootstrap file
    that loads yields a book that satisfies the invariant. *)
Theorem bootstrap_ready read_to_string from_str config book :
  decision_validate config = Ok tt → uint 64 (dec_simulation_gas_estimate config) →
  (∀ text entries, from_str text = Ok entries → Forall entry_typed entries) →
  load_pool_book read_to_string from_str config = Ok book →
  book_wf book ∧ ∃ scan, runtime_scan_config config = Ok scan ∧ scan_typed scan ∧
    (is_Some scan ↔ is_Some (dec_settlement_token config)).
Proof.
  intros Hv Hgas Hparse Hbook. split; [by eapply load_pool_book_wf|by apply scan_config_ready].
Qed.
