(* ===== verification/Observability.v ===== *)
(** Tracing, metrics and health checks (crate [observability]).

    The helpers of [metrics.rs] call the facade of the [metrics] crate; what they ask
    of it is a list of [Emission]s, in order.  Floating point is IEEE 754 binary64, with
    the executable operations of the Standard Library's [SpecFloat].  The tracing filter,
    the Prometheus recorder and the socket of the health server are outside the
    repository and are parameters or inputs. *)

From Stdlib Require Import Floats.SpecFloat.
From S2P Require Import Prelude RustStr Types Registry MarketsV2 U256 MarketsV3 PoolBook Config.
From S2P Require Import Risk Decision Execution Storage App.
#[local] Open Scope Z_scope.

(** ** [f64] *)

Definition f64 : Type := spec_float.

(** An integer [as f64]: rounded to nearest, ties to even. *)
Definition f64_of_int (n : Z) : f64 := binary_normalize 53 1024 n 0 false.

Definition f64_is_finite (x : f64) : bool :=
  match x with S754_zero _ | S754_finite _ _ _ => true | _ => false end.

Definition f64_div : f64 → f64 → f64 := SFdiv 53 1024.

(** ** Metric names *)

Definition INGEST_EVENTS_TOTAL : string := "ingest_events_total".
Definition INGEST_DECISION_LAG_SECONDS : string := "ingest_decision_lag_seconds".
Definition DECISION_OPPORTUNITIES_TOTAL : string := "decision_opportunities_total".
Definition SIMULATOR_LOCAL_SECONDS : string := "simulator_local_seconds".
Definition SIMULATOR_ETHCALL_SECONDS : string := "simulator_ethcall_seconds".
Definition SIMULATOR_OUTCOMES_TOTAL : string := "simulator_outcomes_total".
Definition EXECUTION_SUBMIT_SECONDS : string := "execution_submit_seconds".
Definition EXECUTION_RECEIPT_SECONDS : string := "execution_receipt_seconds".
Definition EXECUTION_OUTCOMES_TOTAL : string := "execution_outcomes_total".
Definition EXECUTION_REALIZED_SURPLUS_WEI : string := "execution_realized_surplus_wei".
Definition EXECUTION_REALIZED_SURPLUS_TOTAL_WEI : string := "execution_realized_surplus_total_wei".
Definition EXECUTION_FEE_PAID_TOTAL_WEI : string := "execution_fee_paid_total_wei".

(** ** What the program asks of the metrics facade *)

Inductive MetricKind := CounterKind | GaugeKind | HistogramKind.
Inductive MetricUnit := Seconds | Count.

#[global] Instance metric_kind_eq_dec : EqDecision MetricKind.
Proof. solve_decision. Defined.

Abbreviation Labels := (list (string * string)).

Inductive Emission :=
| Described (kind : MetricKind) (name : string) (unit : option MetricUnit) (description : string)
| Incremented (name : string) (labels : Labels) (by_ : Z)      (* counter, u64 *)
| Moved (name : string) (labels : Labels) (by_ : f64)          (* gauge *)
| Recorded (name : string) (labels : Labels) (value : f64).    (* histogram *)

Definition register_business_metrics : list Emission := [
  Described CounterKind INGEST_EVENTS_TOTAL None
    "Normalised ingest events delivered to the main loop, partitioned by stream/channel/decode status.";
  Described HistogramKind INGEST_DECISION_LAG_SECONDS (Some Seconds)
    "Seconds between an event being observed at the connector and being consumed by the decision loop.";
  Described CounterKind DECISION_OPPORTUNITIES_TOTAL None
    "Two-leg arbitrage opportunities observed during the decision pipeline.";
  Described HistogramKind SIMULATOR_LOCAL_SECONDS (Some Seconds)
    "Wall-clock seconds spent in the local quote-math simulator.";
  Described HistogramKind SIMULATOR_ETHCALL_SECONDS (Some Seconds)
    "Wall-clock seconds spent in the slow-path eth_call simulation.";
  Described CounterKind SIMULATOR_OUTCOMES_TOTAL None "Simulator passes by kind and outcome.";
  Described HistogramKind EXECUTION_SUBMIT_SECONDS (Some Seconds)
    "Seconds from submit_inner start to eth_sendRawTransaction acceptance.";
  Described HistogramKind EXECUTION_RECEIPT_SECONDS (Some Seconds)
    "Seconds from submission acceptance to on-chain receipt observation.";
  Described CounterKind EXECUTION_OUTCOMES_TOTAL None "Final execution outcomes by status.";
  Described HistogramKind EXECUTION_REALIZED_SURPLUS_WEI (Some Count)
    "Realized surplus per settled attempt, in wei.";
  Described GaugeKind EXECUTION_REALIZED_SURPLUS_TOTAL_WEI (Some Count)
    "Cumulative realized surplus across the process lifetime, in wei.";
  Described CounterKind EXECUTION_FEE_PAID_TOTAL_WEI (Some Count)
    "Cumulative gas + L1 fee paid by execution attempts, in wei." ]%string.

(** ** The emit helpers *)

Definition record_ingest_event (stream channel decode_status : string) : list Emission :=
  [Incremented INGEST_EVENTS_TOTAL
     [("stream", stream); ("channel", channel); ("decode_status", decode_status)]%string 1].

Definition record_decision_lag (stream : string) (lag_secs : f64) : list Emission :=
  if negb (f64_is_finite lag_secs) || SFltb lag_secs (S754_zero false) then []
  else [Recorded INGEST_DECISION_LAG_SECONDS [("stream", stream)]%string lag_secs].

Definition record_opportunity_outcome (outcome : string) : list Emission :=
  [Incremented DECISION_OPPORTUNITIES_TOTAL [("outcome", outcome)]%string 1].

Definition record_simulator_local (duration_secs : f64) (outcome : string) : list Emission :=
  [Recorded SIMULATOR_LOCAL_SECONDS [] duration_secs;
   Incremented SIMULATOR_OUTCOMES_TOTAL [("kind", "local"); ("outcome", outcome)]%string 1].

Definition record_simulator_ethcall (duration_secs : f64) (outcome : string) : list Emission :=
  [Recorded SIMULATOR_ETHCALL_SECONDS [] duration_secs;
   Incremented SIMULATOR_OUTCOMES_TOTAL [("kind", "ethcall"); ("outcome", outcome)]%string 1].

Definition record_submit_latency (duration_secs : f64) : list Emission :=
  [Recorded EXECUTION_SUBMIT_SECONDS [] duration_secs].

Definition record_receipt_latency (duration_secs : f64) : list Emission :=
  [Recorded EXECUTION_RECEIPT_SECONDS [] duration_secs].

Definition record_execution_outcome (status : string) : list Emission :=
  [Incremented EXECUTION_OUTCOMES_TOTAL [("status", status)]%string 1].

Definition record_realized_pnl (surplus_wei : Z) (fee_paid_wei : Z) : list Emission :=
  let surplus_f64 := f64_of_int surplus_wei in
  let fee_u64 := if fee_paid_wei <? 2 ^ 64 then fee_paid_wei else 2 ^ 64 - 1 in
  [Recorded EXECUTION_REALIZED_SURPLUS_WEI [] surplus_f64;
   Moved EXECUTION_REALIZED_SURPLUS_TOTAL_WEI [] surplus_f64;
   Incremented EXECUTION_FEE_PAID_TOTAL_WEI [] fee_u64].

(** The labels of the call sites. *)
Definition channel_label (channel : Channel) : string :=
  match channel with Ipc => "ipc" | Ws => "ws" | FlashblocksWs => "flashblocks_ws" end.

Definition decode_status_label (status : DecodeStatus) : string :=
  match status with
  | Decoded => "decoded"
  | Partial => "partial"
  | Unsupported => "unsupported"
  | Failed => "failed"
  end.

Definition execution_status_label (status : ExecutionStatus.ExecutionStatus) : string :=
  match status with
  | ExecutionStatus.Built => "built"
  | ExecutionStatus.Submitted => "submitted"
  | ExecutionStatus.Included => "included"
  | ExecutionStatus.Reverted => "reverted"
  | ExecutionStatus.Dropped => "dropped"
  | ExecutionStatus.Replaced => "replaced"
  | ExecutionStatus.ProfitRealized => "profit_realized"
  end.

(** ** The emissions of the engine

    What the functions of [main.rs] emit on the way, as functions of the state they
    start from and of the readings of the clocks. *)

(** [u128 as i128]. *)
Definition i128_of_u128 (n : Z) : Z := if n <? 2 ^ 127 then n else n - 2 ^ 128.

(** The lag of an event: [now_ms] is the clock since the epoch, if it is past it. *)
Definition decision_lag (now_ms : option Z) (observed_at_ms : Z) : f64 :=
  let now_ms := default observed_at_ms now_ms in
  f64_div (f64_of_int (saturating_sub now_ms observed_at_ms)) (f64_of_int 1000).

Section call_sites.
Context {U : U256} {A : Alloy} {J : SerdeJson} {T : Type} {X : ExecutionTransport T}.
Context (sha256_hex : list Z → string).

Definition scan_metrics (sim_secs : f64) (env : EventEnv) (scan : RuntimeScanConfig) (log : Log)
    (book : PoolBook) : list Emission :=
  match detect_two_leg_loops_from_book (md_block_context (log_metadata log))
          (scan_settlement_token scan) (scan_amount_in scan) (md_tx_hash (log_metadata log))
          (env_values env book) with
  | Ok opportunities =>
      match head opportunities with
      | None => []
      | Some best =>
          record_opportunity_outcome "detected" ++
          match simulate_two_leg_opportunity best (scan_simulation scan) with
          | None => record_simulator_local sim_secs "rejected" ++
                    record_opportunity_outcome "skipped"
          | Some _ => record_simulator_local sim_secs "ok" ++
                      record_opportunity_outcome "simulated"
          end
      end
  | _ => []
  end.

Definition handle_event_metrics (now_ms : option Z) (sim_secs : f64) (env : EventEnv)
    (runtime_scan : option RuntimeScanConfig) (event : Event) (s : Engine T) : list Emission :=
  match event with
  | EvLog log =>
      record_decision_lag "log_stream" (decision_lag now_ms (md_observed_at_ms (log_metadata log))) ++
      match (persist_observed_log sha256_hex log (en_storage s)).1 with
      | Ok _ =>
          match book_apply_log (en_book s) log, runtime_scan with
          | (Ok (Applied | Reverted), book), Some scan => scan_metrics sim_secs env scan log book
          | _, _ => []
          end
      | _ => []
      end
  | _ => []
  end.

Definition ethcall_metrics (elapsed : f64) (payload : SubmissionPayload)
    (attempt : ExecutionAttempt) (t : T) : list Emission :=
  match (tr_simulate t payload attempt).1 with
  | Some (Ok _) => record_simulator_ethcall elapsed "ok"
  | Some (Err _) => record_simulator_ethcall elapsed "reverted"
  | Some Panic => []
  | None => record_simulator_ethcall elapsed "timeout"
  end.

(** The profit and loss of a settled attempt; the negation of the fee may overflow, and
    then nothing is emitted. *)
Definition settled_metrics (outcome : ExecutionOutcome) : list Emission :=
  let fee_paid_wei := default 0 (oc_total_fee_paid outcome) in
  record_execution_outcome (execution_status_label (oc_final_status outcome)) ++
  match report_pnl outcome with
  | Ok _ =>
      record_realized_pnl
        match oc_realized_surplus outcome with
        | Some value => i128_of_u128 value
        | None => - i128_of_u128 fee_paid_wei
        end fee_paid_wei
  | _ => []
  end.

Definition drive_metrics (env : EventEnv) (config : ExecutionConfig) (request : ExecutionRequest)
    (built_attempt : ExecutionAttempt) (execution_attempt_id : option Z) (s : Engine T) :
    list Emission :=
  match build_submission_payload (env_clock_submission env) config request with
  | Ok submission_payload =>
  match tr_submit (en_transport s) submission_payload built_attempt with
  | (Some (Err _), _) => record_execution_outcome "submit_failed"
  | (Some Panic, _) => []
  | (None, _) => record_execution_outcome "submit_timeout"
  | (Some (Ok submitted_tx_hash), t) =>
  match mark_submitted built_attempt submitted_tx_hash with
  | Ok submitted_attempt =>
      record_execution_outcome "submitted" ++
      match (when_some (T:=T) execution_attempt_id
               (λ id, mark_execution_submitted id submitted_attempt) s).1 with
      | Ok _ =>
          match (tr_await_receipt t request submitted_attempt
                   (exec_receipt_timeout_secs config)).1 with
          | Ok (Some receipt) =>
              match finalize_from_receipt submitted_attempt receipt None
                      (rq_min_surplus request) with
              | Ok finalized => settled_metrics (fe_outcome finalized)
              | _ => []
              end
          | Ok None =>
              match mark_dropped submitted_attempt
                      "timed out while waiting for execution receipt" with
              | Ok _ => record_execution_outcome "dropped"
              | _ => []
              end
          | Err _ => record_execution_outcome "receipt_unknown"
          | Panic => []
          end
      | _ => []
      end
  | _ => []
  end end
  | _ => []
  end.
End call_sites.

(** ** Process state *)

(** The process-wide state [init] touches: whether tracing has been set up, whether a
    metrics recorder is installed, and what the facade has been told. *)
Record Observed := {
  ob_tracing_init : bool;
  ob_recorder : bool;
  ob_emissions : list Emission }.

Record ObservabilityRuntime (SocketAddr : Type) := {
  or_healthz_bind_addr : SocketAddr;
  or_shutdown_healthz : bool }.
Arguments or_healthz_bind_addr {SocketAddr} _.
Arguments or_shutdown_healthz {SocketAddr} _.

Section init.
(** The filter of [RUST_LOG] and of a level, and the installation of the Prometheus
    recorder, from whether one is there already. *)
Context {SocketAddr Filter : Type} (try_from_default_env : anyhow Filter)
  (try_new : string → anyhow Filter) (install_recorder : SocketAddr → bool → anyhow unit).

Definition init_tracing (log_level : string) : eff Observed error unit := λ s,
  if ob_tracing_init s then (Ok tt, s) else
  match context (match try_from_default_env with Err _ => try_new log_level | r => r end)
          "failed to construct tracing filter" with
  | Ok _ => (Ok tt, {| ob_tracing_init := true; ob_recorder := ob_recorder s;
                       ob_emissions := ob_emissions s |})
  | Err e => (Err e, s)
  | Panic => (Panic, s)
  end.

Definition install_prometheus (addr : SocketAddr) : eff Observed error unit := λ s,
  match install_recorder addr (ob_recorder s) with
  | Ok _ => (Ok tt, {| ob_tracing_init := ob_tracing_init s; ob_recorder := true;
                       ob_emissions := ob_emissions s |})
  | r => (context r "failed to install prometheus recorder", s)
  end.

Definition emit (l : list Emission) : eff Observed error unit := λ s,
  (Ok tt, {| ob_tracing_init := ob_tracing_init s; ob_recorder := ob_recorder s;
             ob_emissions := ob_emissions s ++ l |}).

Definition observability_init (config : MetricsConfig SocketAddr) :
    eff Observed error (ObservabilityRuntime SocketAddr) :=
  _ ← init_tracing (met_log_level config);
  _ ← (if met_enabled config then
         _ ← match met_prometheus_bind_addr config with
             | Some addr => install_prometheus addr
             | None => mret tt
             end;
         emit register_business_metrics
       else mret tt);
  mret {| or_healthz_bind_addr := met_healthz_bind_addr config; or_shutdown_healthz := true |}.
End init.

(** ** The health server *)

Definition healthz_response : list string :=
  ["HTTP/1.1 200 OK"; "content-type: text/plain"; "content-length: 2"; "connection: close"; "";
   "ok"]%string.

(** What the loop of the server waits for: the signal, or the next connection. *)
Inductive HealthzInput :=
| HzShutdown
| HzAccepted (socket : Z)
| HzAcceptFailed (message : string).

(** How the server stands after its inputs: still listening, or ended with the result
    of its task. *)
Inductive HealthzState := HzListening | HzEnded (r : res string unit).

(** The loop, with the sockets it has handed to tasks that answer them. *)
Fixpoint healthz_loop (inputs : list HealthzInput) (answered : list Z) : HealthzState * list Z :=
  match inputs with
  | [] => (HzListening, answered)
  | HzShutdown :: _ => (HzEnded (Ok tt), answered)
  | HzAccepted socket :: inputs => healthz_loop inputs (answered ++ [socket])
  | HzAcceptFailed message :: _ => (HzEnded (Err message), answered)
  end.

Definition run_healthz_server {SocketAddr : Type} (bind : SocketAddr → res string unit)
    (bind_addr : SocketAddr) (inputs : list HealthzInput) : HealthzState * list Z :=
  match bind bind_addr with
  | Ok _ => healthz_loop inputs []
  | Err e => (HzEnded (Err e), [])
  | Panic => (HzEnded Panic, [])
  end.

(** [shutdown]: send the signal and join the task.  [before] is what the server saw
    before it took the signal up.  A task that panicked fails the join. *)
Definition observability_shutdown {SocketAddr : Type} (bind : SocketAddr → res string unit)
    (before : list HealthzInput) (runtime : ObservabilityRuntime SocketAddr) :
    option (anyhow unit) :=
  let inputs := if or_shutdown_healthz runtime then before ++ [HzShutdown] else before in
  match (run_healthz_server bind (or_healthz_bind_addr runtime) inputs).1 with
  | HzListening => None
  | HzEnded (Ok _) => Some (Ok tt)
  | HzEnded (Err e) => Some (context (bail e) "healthz server failed")
  | HzEnded Panic => Some (context (bail "task panicked") "healthz task join failed")
  end.

(** ** Properties of the conversions *)

(** The integer a float denotes, when it denotes one. *)
Definition f64_int (x : f64) : option Z :=
  match x with
  | S754_zero _ => Some 0
  | S754_finite s m e =>
      let v := if s then Zneg m else Zpos m in
      if 0 <=? e then Some (v * 2 ^ e)
      else if v mod 2 ^ (- e) =? 0 then Some (v / 2 ^ (- e)) else None
  | _ => None
  end.

Lemma digits2_pos_bounds p :
  2 ^ (Zpos (digits2_pos p) - 1) ≤ Zpos p < 2 ^ Zpos (digits2_pos p).
Proof.
  induction p as [p IH|p IH|]; cbn [digits2_pos]; [| |cbn; lia];
    rewrite Pos2Z.inj_succ; replace (Z.succ (Zpos (digits2_pos p)) - 1)
      with (Z.succ (Zpos (digits2_pos p) - 1)) by lia;
    rewrite !Z.pow_succ_r by lia; lia.
Qed.

Lemma iter_xO_value p n : Zpos (Pos.iter xO p n) = Zpos p * 2 ^ Zpos n.
Proof.
  induction n as [|n IH] using Pos.peano_ind; [cbn; lia|].
  rewrite Pos.iter_succ, Pos2Z.inj_succ, Z.pow_succ_r by lia.
  rewrite Pos2Z.inj_xO, IH. ring.
Qed.

Lemma digits2_pos_iter p n : digits2_pos (Pos.iter xO p n) = (digits2_pos p + n)%positive.
Proof.
  induction n as [|n IH] using Pos.peano_ind; [cbn; lia|].
  rewrite Pos.iter_succ. cbn [digits2_pos]. rewrite IH. lia.
Qed.

(** A mantissa of 53 digits at its own exponent is kept as it is. *)
Lemma binary_round_aux_canonical s m e :
  Zpos (digits2_pos m) = 53 → -1074 ≤ e ≤ 971 →
  binary_round_aux 53 1024 s (Zpos m) e loc_Exact = S754_finite s m e.
Proof.
  intros Hd He. unfold binary_round_aux.
  assert (∀ l, shr_fexp 53 1024 (Zpos m) e l = (shr_record_of_loc (Zpos m) l, e)) as Hs.
  { intros l. unfold shr_fexp, fexp, emin. cbn [Zdigits2]. rewrite Hd.
    replace (Z.max (53 + e - 53) (3 - 1024 - 53) - e) with 0 by lia. done. }
  rewrite Hs. cbn -[Z.leb]. rewrite Hs. cbn -[Z.leb]. rewrite (proj2 (Z.leb_le e (1024 - 53))) by lia. done.
Qed.

Lemma binary_round_small s p :
  Zpos p < 2 ^ 53 → ∃ m e, binary_round 53 1024 s p 0 = S754_finite s m e ∧ e ≤ 0 ∧
    Zpos m = Zpos p * 2 ^ (- e).
Proof.
  intros Hp. pose proof (digits2_pos_bounds p) as Hb.
  assert (Zpos (digits2_pos p) ≤ 53) as Hd.
  { apply Z.nlt_ge. intros H. assert (2 ^ 53 ≤ 2 ^ (Zpos (digits2_pos p) - 1)) by
      (apply Z.pow_le_mono_r; lia). lia. }
  unfold binary_round, fexp, emin. rewrite Z.add_0_r.
  replace (Z.max (Zpos (digits2_pos p) - 53) (3 - 1024 - 53)) with (Zpos (digits2_pos p) - 53) by lia.
  unfold shl_align. rewrite Z.sub_0_r.
  destruct (Zpos (digits2_pos p) - 53) as [|d|d] eqn:Hz; [|lia|].
  - rewrite binary_round_aux_canonical by lia. exists p, 0. split_and!; [done|lia|cbn; lia].
  - rewrite binary_round_aux_canonical by (rewrite ?digits2_pos_iter; lia).
    exists (Pos.iter xO p d), (Zneg d). split_and!; [done|lia|]. apply iter_xO_value.
Qed.

Lemma f64_int_scaled s p m e :
  e ≤ 0 → Zpos m = Zpos p * 2 ^ (- e) →
  f64_int (S754_finite s m e) = Some (if s then Zneg p else Zpos p).
Proof.
  intros He Hm. unfold f64_int. cbv zeta. assert (0 < 2 ^ (- e)) by (apply Z.pow_pos_nonneg; lia).
  assert ((if s then Zneg m else Zpos m) = (if s then Zneg p else Zpos p) * 2 ^ (- e)) as ->
    by (destruct s; lia).
  destruct (0 <=? e) eqn:H0.
  { assert (e = 0) as -> by lia. cbn. f_equal. lia. }
  rewrite Z.mod_mul, Z.div_mul by lia. done.
Qed.

(** Up to [2^53] an amount in wei reaches the recorder exactly, and [2^53 + 1] no longer
    does. *)
Theorem f64_of_int_exact n :
  - 2 ^ 53 ≤ n ≤ 2 ^ 53 → f64_int (f64_of_int n) = Some n.
Proof.
  intros Hn. destruct (decide (Z.abs n = 2 ^ 53)) as [He|He].
  { assert (n = 2 ^ 53 ∨ n = - 2 ^ 53) as [-> | ->] by lia; by vm_compute. }
  unfold f64_of_int, binary_normalize. destruct n as [|p|p]; [done|..];
    (assert (Zpos p < 2 ^ 53) as Hp by lia).
  - destruct (binary_round_small false p Hp) as (m & e & -> & H0 & Hm).
    exact (f64_int_scaled false p m e H0 Hm).
  - destruct (binary_round_small true p Hp) as (m & e & -> & H0 & Hm).
    exact (f64_int_scaled true p m e H0 Hm).
Qed.

Example f64_of_int_rounds : f64_of_int (2 ^ 53 + 1) = f64_of_int (2 ^ 53).
Proof. by vm_compute. Qed.

(** Rounding keeps a mantissa that is not negative in bounds. *)
Lemma iter_shr_bounds p mrs : 0 ≤ shr_m mrs → 0 ≤ shr_m (SpecFloat.iter_pos shr_1 p mrs) ≤ shr_m mrs.
Proof.
  assert (∀ mrs, 0 ≤ shr_m mrs → 0 ≤ shr_m (shr_1 mrs) ≤ shr_m mrs) as H1.
  { intros [[|[q|q|]|q] r s]; cbn; lia. }
  revert mrs. induction p as [p IH|p IH|]; intros mrs H; cbn [SpecFloat.iter_pos]; [| |by apply H1].
  - pose proof (H1 mrs H). pose proof (IH (shr_1 mrs)). pose proof (IH (SpecFloat.iter_pos shr_1 p (shr_1 mrs))).
    lia.
  - pose proof (IH mrs). pose proof (IH (SpecFloat.iter_pos shr_1 p mrs)). lia.
Qed.

Lemma Zdigits2_bound m D : 0 ≤ m < 2 ^ D → 0 ≤ D → 0 ≤ Zdigits2 m ≤ D.
Proof.
  intros Hm HD. destruct m as [|p|p]; cbn [Zdigits2]; [lia| |lia].
  pose proof (digits2_pos_bounds p) as Hb. split; [lia|]. apply Z.nlt_ge. intros H.
  assert (2 ^ D ≤ 2 ^ (Zpos (digits2_pos p) - 1)) by (apply Z.pow_le_mono_r; lia). lia.
Qed.

Lemma shr_fexp_bounds m e l D mrs e' :
  0 ≤ m < 2 ^ D → 53 ≤ D → -1074 ≤ e → shr_fexp 53 1024 m e l = (mrs, e') →
  0 ≤ shr_m mrs ≤ m ∧ e ≤ e' ≤ e + D - 53.
Proof.
  intros Hm HD He. pose proof (Zdigits2_bound m D Hm ltac:(lia)) as Hd.
  assert (shr_m (shr_record_of_loc m l) = m) as Hr by (by destruct l as [|[]]).
  unfold shr_fexp, shr. set (n := fexp _ _ _ - e). assert (n ≤ D - 53) as Hn
    by (subst n; unfold fexp, emin; lia).
  destruct n as [|p|p]; intros [= <- <-]; rewrite ?Hr; try lia.
  pose proof (iter_shr_bounds p (shr_record_of_loc m l)). lia.
Qed.

Lemma binary_round_aux_finite m e l D :
  0 ≤ m < 2 ^ D → 53 ≤ D → -1074 ≤ e → e + 2 * D - 105 ≤ 971 →
  (binary_round_aux 53 1024 false m e l = S754_zero false) ∨
  ∃ m' e', binary_round_aux 53 1024 false m e l = S754_finite false m' e' ∧
    Zpos m' ≤ m + 1 ∧ e ≤ e' ≤ e + 2 * D - 105.
Proof.
  intros Hm HD He Hmax. unfold binary_round_aux.
  destruct (shr_fexp 53 1024 m e l) as [mrs e1] eqn:H1.
  destruct (shr_fexp_bounds m e l D mrs e1 Hm HD He H1) as [Hm1 He1].
  set (m1 := round_nearest_even _ _). assert (shr_m mrs ≤ m1 ≤ shr_m mrs + 1) as Hr.
  { subst m1. unfold round_nearest_even. destruct (loc_of_shr_record mrs) as [|[]]; try lia.
    destruct (Z.even _); lia. }
  destruct (shr_fexp 53 1024 m1 e1 loc_Exact) as [mrs2 e2] eqn:H2.
  assert (m1 < 2 ^ (D + 1)) as Hm1' by (rewrite Z.pow_add_r by lia; lia).
  destruct (shr_fexp_bounds m1 e1 loc_Exact (D + 1) mrs2 e2) as [Hm2 He2]; [lia..|done|].
  destruct (shr_m mrs2) as [|p|p]; [by left| |lia]. right.
  rewrite (proj2 (Z.leb_le e2 (1024 - 53))) by lia. exists p, e2. split_and!; [done|lia..].
Qed.

Lemma f64_of_u64 n :
  uint 64 n → f64_of_int n = S754_zero false ∨
  ∃ m e, f64_of_int n = S754_finite false m e ∧ Zpos m ≤ 2 ^ 64 ∧ -53 ≤ e ≤ 23.
Proof.
  intros Hn. unfold uint in Hn. unfold f64_of_int, binary_normalize.
  destruct n as [|p|p]; [by left| |lia]. unfold binary_round.
  destruct (shl_align _ _ _) as [mz ez] eqn:Ha.
  pose proof (digits2_pos_bounds p) as Hb. pose proof (Zdigits2_bound (Zpos p) 64) as Hd.
  cbn [Zdigits2] in Hd. rewrite Z.add_0_r in Ha.
  assert (Zpos mz < 2 ^ 64 ∧ -52 ≤ ez ≤ 0) as [Hmz Hez].
  { unfold shl_align, fexp, emin in Ha. rewrite Z.sub_0_r in Ha.
    destruct (Z.max _ _) as [|d|d] eqn:Hz; injection Ha as <- <-; try lia.
    rewrite iter_xO_value. assert (Zpos (digits2_pos p) - 53 = Zneg d) as Hz' by lia.
    assert (2 ^ Zpos (digits2_pos p) * 2 ^ Zpos d = 2 ^ 53) as Hp
      by (rewrite <- Z.pow_add_r by lia; f_equal; lia).
    assert (0 < 2 ^ Zpos d) by (apply Z.pow_pos_nonneg; lia). nia. }
  destruct (binary_round_aux_finite (Zpos mz) ez loc_Exact 64) as [->|(m & e & -> & Hm & He)];
    [lia..|by left|]. right. exists m, e. split_and!; [done|lia..].
Qed.

Definition thousand : f64 := S754_finite false 8796093022208000 (-43).
Lemma thousand_eq : f64_of_int 1000 = thousand.
Proof. by vm_compute. Qed.

Lemma f64_div_thousand m e :
  Zpos m ≤ 2 ^ 64 → -53 ≤ e ≤ 23 →
  let x := f64_div (S754_finite false m e) thousand in
  x = S754_zero false ∨ ∃ m' e', x = S754_finite false m' e'.
Proof.
  intros Hm He. cbv zeta. unfold f64_div, SFdiv, thousand.
  destruct (SFdiv_core_binary _ _ _ _ _ _) as [[q e'] l] eqn:Hc.
  cut (0 ≤ q < 2 ^ 171 ∧ -1074 ≤ e' ≤ 66).
  { intros [Hq He']. change (xorb false false) with false.
    destruct (binary_round_aux_finite q e' l 171) as [->|(m' & e2 & -> & _)];
      [lia..|by left|right; eauto]. }
  pose proof (Zdigits2_bound (Zpos m) 65 ltac:(lia) ltac:(lia)) as Hd.
  unfold SFdiv_core_binary in Hc.
  replace (Zdigits2 8796093022208000) with 53 in Hc by (by vm_compute).
  set (e0 := Z.min _ _) in Hc. assert (-116 ≤ e0 ≤ 66) as He0
    by (subst e0; unfold fexp, emin; lia).
  set (s := e - -43 - e0) in Hc. assert (0 ≤ s ≤ 106) as Hs by (subst s e0; unfold fexp, emin; lia).
  set (m0 := match s with Z0 => _ | _ => _ end) in Hc.
  assert (0 ≤ m0 < 2 ^ 171) as Hm0.
  { assert (m0 = Zpos m * 2 ^ s) as ->.
    { subst m0. destruct s as [|d|d]; [lia| |lia]. by rewrite Z.shiftl_mul_pow2 by lia. }
    assert (2 ^ s ≤ 2 ^ 106) by (apply Z.pow_le_mono_r; lia).
    assert (0 < 2 ^ s) by (apply Z.pow_pos_nonneg; lia). nia. }
  pose proof (Z_div_mod m0 8796093022208000 ltac:(lia)) as Hdm.
  destruct (Z.div_eucl _ _) as [q' r]. injection Hc as <- <- _. split; [|lia]. nia.
Qed.

(** The lag of every event with a timestamp is recorded, whatever the clock says: the
    guard of the helper never drops one of the engine's own readings, as
    [saturating_sub] keeps it from going below zero. *)
Theorem decision_lag_recorded stream now_ms observed_at_ms :
  uint 64 observed_at_ms → (∀ n, now_ms = Some n → uint 64 n) →
  record_decision_lag stream (decision_lag now_ms observed_at_ms) =
    [Recorded INGEST_DECISION_LAG_SECONDS [("stream"%string, stream)]
       (decision_lag now_ms observed_at_ms)].
Proof.
  intros Ho Hn. unfold record_decision_lag, decision_lag. cbv zeta. rewrite thousand_eq.
  assert (uint 64 (saturating_sub (default observed_at_ms now_ms) observed_at_ms)) as Hl.
  { unfold saturating_sub, uint in *. destruct now_ms as [n|]; cbn; [specialize (Hn n eq_refl)|]; lia. }
  destruct (f64_of_u64 _ Hl) as [-> | (m & e & -> & Hm & He)]; [done|].
  destruct (f64_div_thousand m e Hm He) as [-> | (m' & e' & ->)]; done.
Qed.

(** ** Properties of the emissions *)

(** The label keys a metric is documented with. *)
Definition documented_labels (name : string) : list string :=
  if bool_decide (name = INGEST_EVENTS_TOTAL) then ["stream"; "channel"; "decode_status"] else
  if bool_decide (name = INGEST_DECISION_LAG_SECONDS) then ["stream"] else
  if bool_decide (name = DECISION_OPPORTUNITIES_TOTAL) then ["outcome"] else
  if bool_decide (name = SIMULATOR_OUTCOMES_TOTAL) then ["kind"; "outcome"] else
  if bool_decide (name = EXECUTION_OUTCOMES_TOTAL) then ["status"] else [].

(** The kind [register_business_metrics] describes a name with. *)
Definition described_kind (name : string) : option MetricKind :=
  head (omap (λ e, match e with
                   | Described kind name' _ _ => if bool_decide (name' = name) then Some kind else None
                   | _ => None
                   end) register_business_metrics).

(** An emission on a described metric of its kind, with the documented label keys. *)
Definition conforms (e : Emission) : Prop :=
  match e with
  | Described _ _ _ _ => True
  | Incremented name labels n =>
      described_kind name = Some CounterKind ∧ labels.*1 = documented_labels name ∧ n < 2 ^ 64
  | Moved name labels _ =>
      described_kind name = Some GaugeKind ∧ labels.*1 = documented_labels name
  | Recorded name labels _ =>
      described_kind name = Some HistogramKind ∧ labels.*1 = documented_labels name
  end.

(** The labels of [execution_outcomes_total] and of [decision_opportunities_total] in a
    run of emissions. *)
Definition counted (name : string) (l : list Emission) : list string :=
  omap (λ e, match e with
             | Incremented name' [(_, label)] _ => if bool_decide (name' = name) then Some label else None
             | _ => None
             end) l.
Abbreviation execution_outcomes := (counted EXECUTION_OUTCOMES_TOTAL).
Abbreviation opportunity_outcomes := (counted DECISION_OPPORTUNITIES_TOTAL).

(** What a label tells the circuit breaker. *)
Definition breaker_outcome (label : string) : option bool :=
  if bool_decide (label ∈ ["submit_failed"; "submit_timeout"; "dropped"; "reverted"; "built";
                           "replaced"]%string) then Some false else
  if bool_decide (label ∈ ["included"; "profit_realized"]%string) then Some true else None.

(** Each emission conforms by evaluation, but for the range of an increment. *)
Ltac conforms_done :=
  repeat (apply Forall_cons_2; [cbn [conforms]; split_and?; try reflexivity|]); try apply Forall_nil_2.

Create HintDb metrics.

Section emission_properties.
Context {U : U256} {A : Alloy} {J : SerdeJson} {T : Type} {X : ExecutionTransport T}.
Context (sha256_hex : list Z → string).
Implicit Types s : Engine T.

Lemma opportunity_conforms o : Forall conforms (record_opportunity_outcome o).
Proof. conforms_done; lia. Qed.
Lemma local_conforms d o : Forall conforms (record_simulator_local d o).
Proof. conforms_done; lia. Qed.
Lemma ethcall_conforms d o : Forall conforms (record_simulator_ethcall d o).
Proof. conforms_done; lia. Qed.
Lemma outcome_conforms o : Forall conforms (record_execution_outcome o).
Proof. conforms_done; lia. Qed.
Lemma lag_conforms stream lag : Forall conforms (record_decision_lag stream lag).
Proof. unfold record_decision_lag. destruct (_ || _); conforms_done. Qed.
Lemma ingest_conforms stream channel status :
  Forall conforms (record_ingest_event stream channel status).
Proof. conforms_done; lia. Qed.
Lemma pnl_conforms surplus fee : Forall conforms (record_realized_pnl surplus fee).
Proof.
  unfold record_realized_pnl. cbv zeta. conforms_done;
  destruct (fee <? 2 ^ 64) eqn:H; lia.
Qed.

#[local] Hint Resolve opportunity_conforms local_conforms ethcall_conforms outcome_conforms
  lag_conforms ingest_conforms pnl_conforms : metrics.
#[local] Hint Resolve Forall_app_2 Forall_nil_2 : metrics.

Lemma settled_conforms outcome : Forall conforms (settled_metrics outcome).
Proof. unfold settled_metrics. cbv zeta. destruct (report_pnl outcome); auto with metrics. Qed.
#[local] Hint Resolve settled_conforms : metrics.

(** The emissions of a drive, branch by branch; [P] holds of the outcome of a settled one. *)
Inductive drive_emissions (P : ExecutionOutcome → Prop) : list Emission → Prop :=
| de_none : drive_emissions P []
| de_refused label : label ∈ ["submit_failed"; "submit_timeout"]%string →
    drive_emissions P (record_execution_outcome label)
| de_submitted : drive_emissions P (record_execution_outcome "submitted")
| de_unsettled label : label ∈ ["dropped"; "receipt_unknown"]%string →
    drive_emissions P (record_execution_outcome "submitted" ++ record_execution_outcome label)
| de_settled outcome : P outcome → oc_realized_surplus outcome = None →
    oc_final_status outcome ∈ [ExecutionStatus.Included; ExecutionStatus.Reverted] →
    drive_emissions P (record_execution_outcome "submitted" ++ settled_metrics outcome).

(** A drive that settles: the payload is submitted, the transport returns a receipt for the
    hash, and the receipt finalizes the attempt. *)
Record settled_drive (env : EventEnv) (config : ExecutionConfig) (request : ExecutionRequest)
    (attempt : ExecutionAttempt) (id : option Z) (s : Engine T) (receipt : ExecutionReceipt)
    (outcome : ExecutionOutcome) : Prop := {
  sd_calls : ∃ payload hash t submitted,
    build_submission_payload (env_clock_submission env) config request = Ok payload ∧
    tr_submit (en_transport s) payload attempt = (Some (Ok hash), t) ∧
    mark_submitted attempt hash = Ok submitted ∧
    (when_some id (λ id, mark_execution_submitted id submitted) s).1 = Ok tt ∧
    (tr_await_receipt t request submitted (exec_receipt_timeout_secs config)).1 = Ok (Some receipt) ∧
    ∃ f, finalize_from_receipt submitted receipt None (rq_min_surplus request) = Ok f ∧
      fe_outcome f = outcome;
  sd_fee : total_fee_paid receipt = Ok (oc_total_fee_paid outcome) }.

Lemma finalized_without_surplus a receipt min_surplus f :
  finalize_from_receipt a receipt None min_surplus = Ok f →
  total_fee_paid receipt = Ok (oc_total_fee_paid (fe_outcome f)) ∧
  oc_realized_surplus (fe_outcome f) = None ∧
  oc_final_status (fe_outcome f) ∈ [ExecutionStatus.Included; ExecutionStatus.Reverted].
Proof.
  unfold finalize_from_receipt. intros H. case_if H as Hs. case_if H as Hh.
  apply bind_ok in H as (fee & Hfee & H). unfold classify_success in H.
  destruct (rc_success receipt); injection H as <-; cbn; split_and!; try done; set_solver.
Qed.

Lemma drive_metrics_shape env config request attempt id s :
  drive_emissions (λ outcome, ∃ receipt, settled_drive env config request attempt id s receipt outcome)
    (drive_metrics env config request attempt id s).
Proof.
  set (P := λ outcome, _). pose proof (de_none P). pose proof (de_submitted P).
  unfold drive_metrics. destruct (build_submission_payload _ _ _) as [payload| |] eqn:Hp; [|done..].
  destruct (tr_submit _ _ _) as [[[hash|e|]|] t] eqn:Ht; [|apply de_refused; set_solver|done
    |apply de_refused; set_solver].
  destruct (mark_submitted _ _) as [submitted| |] eqn:Hm; [|done..].
  destruct (when_some _ _ _).1 as [[]| |] eqn:Hw; rewrite ?app_nil_r; [|done..].
  destruct (tr_await_receipt _ _ _ _).1 as [[receipt|]|err|] eqn:Ha; rewrite ?app_nil_r;
    [| |apply de_unsettled; set_solver|done].
  - destruct (finalize_from_receipt _ _ _ _) as [f| |] eqn:Hf; rewrite ?app_nil_r; [|done..].
    destruct (finalized_without_surplus _ _ _ _ Hf) as (? & ? & ?). apply de_settled; [|done..].
    exists receipt. constructor; [|done]. exists payload, hash, t, submitted. split_and!; try done. by exists f.
  - destruct (mark_dropped _ _); rewrite ?app_nil_r; [apply de_unsettled; set_solver|done..].
Qed.

Lemma settled_drive_metrics env config request attempt id s receipt outcome :
  settled_drive env config request attempt id s receipt outcome →
  oc_realized_surplus outcome = None ∧
  drive_metrics env config request attempt id s =
    record_execution_outcome "submitted" ++ settled_metrics outcome.
Proof.
  intros [(payload & hash & t & submitted & Hp & Ht & Hm & Hw & Ha & f & Hf & <-) _].
  split; [by apply (finalized_without_surplus _ _ _ _ Hf)|].
  unfold drive_metrics. by rewrite Hp, Ht, Hm, Hw, Ha, Hf.
Qed.

(** C40. What the engine reports as its result is the fee of the receipt, never a surplus.
    No attempt is ever counted as [profit_realized]; whatever a drive adds to the histogram
    or to the cumulative gauge is, as a 128-bit signed number, the negated total fee of the
    receipt the transport returned for this attempt; and every attempt that settles adds it
    to both, the fee itself to the counter, unless the fee is exactly [2^127] wei. *)
Theorem pnl_is_the_fee env config request attempt id s :
  let l := drive_metrics env config request attempt id s in
  ("profit_realized"%string ∉ execution_outcomes l) ∧
  (∀ name labels x, Recorded name labels x ∈ l ∨ Moved name labels x ∈ l →
   ∃ receipt outcome, settled_drive env config request attempt id s receipt outcome ∧
     x = f64_of_int (- i128_of_u128 (default 0 (oc_total_fee_paid outcome)))) ∧
  ∀ receipt outcome, settled_drive env config request attempt id s receipt outcome →
    let fee := default 0 (oc_total_fee_paid outcome) in
    if fee =? 2 ^ 127 then ∀ name labels x, (Recorded name labels x ∉ l) ∧ (Moved name labels x ∉ l)
    else Recorded EXECUTION_REALIZED_SURPLUS_WEI [] (f64_of_int (- i128_of_u128 fee)) ∈ l ∧
      Moved EXECUTION_REALIZED_SURPLUS_TOTAL_WEI [] (f64_of_int (- i128_of_u128 fee)) ∈ l ∧
      Incremented EXECUTION_FEE_PAID_TOTAL_WEI [] (Z.min fee (2 ^ 64 - 1)) ∈ l.
Proof.
  cbv zeta. split_and!.
  - destruct (drive_metrics_shape env config request attempt id s)
      as [|label Hl| |label Hl|outcome _ Hs Hf].
    1-4: cbn; set_solver.
    unfold settled_metrics. cbv zeta. rewrite Hs.
    assert (∀ l, execution_outcomes (record_execution_outcome "submitted" ++
      record_execution_outcome (execution_status_label (oc_final_status outcome)) ++ l) =
      "submitted"%string :: execution_status_label (oc_final_status outcome) ::
      execution_outcomes l) as -> by done.
    assert (execution_outcomes match report_pnl outcome with Ok _ => _ | _ => _ end = []) as ->
      by (by destruct (report_pnl outcome)).
    rewrite !not_elem_of_cons. split_and!; [done| |set_solver].
    destruct (oc_final_status outcome); try done; set_solver.
  - intros name labels x H. destruct (drive_metrics_shape env config request attempt id s)
      as [|label Hl| |label Hl|outcome [receipt Hd] Hs Hf]; [set_solver..|].
    exists receipt, outcome. split; [done|]. unfold settled_metrics in H. cbv zeta in H. rewrite Hs in H.
    destruct (report_pnl outcome); unfold record_realized_pnl in H; cbv zeta in H; set_solver.
  - intros receipt outcome Hd. apply settled_drive_metrics in Hd as [Hs ->].
    unfold settled_metrics, report_pnl. cbv zeta. rewrite Hs.
    destruct (_ =? 2 ^ 127) eqn:He; [set_solver|]. unfold record_realized_pnl. cbv zeta.
    split_and!; [set_solver..|].
    assert (∀ fee, (if fee <? 2 ^ 64 then fee else 2 ^ 64 - 1) = Z.min fee (2 ^ 64 - 1)) as ->
      by (intros fee; destruct (Z.ltb_spec fee (2 ^ 64)); lia).
    set_solver.
Qed.

Lemma when_some_keeps_risk id (op : Z → eff Storage error unit) s :
  en_risk (when_some id op s).2 = en_risk s.
Proof. destruct id; [|done]. cbn. unfold on_storage. by destruct (op _ _). Qed.

Lemma when_some_inv id (op : Z → eff Storage error unit) s r s' :
  when_some id op s = (r, s') →
  en_risk s' = en_risk s ∧ en_transport s' = en_transport s ∧
  ∀ s0, en_storage s0 = en_storage s → (when_some id op s0).1 = r.
Proof.
  destruct id; [|by intros [= <- <-]]. cbn. unfold on_storage. destruct (op _ _) as [r0 st] eqn:Ho.
  intros [= <- <-]. split_and!; [done..|]. intros s0 ->. by rewrite Ho.
Qed.

(** C37. The metrics and the circuit breaker tell the same story: unless it panics, a drive
    moves the state of the risk engine by exactly the outcomes its labels stand for, in
    their order. *)
Theorem drive_metrics_breaker env config request attempt id s r s' :
  drive_execution_attempt env config request attempt id s = (r, s') → r ≠ Panic →
  en_risk s' = foldl record_outcome (en_risk s)
    (omap breaker_outcome (execution_outcomes (drive_metrics env config request attempt id s))).
Proof.
  intros H Hr. assert (s' = (drive_execution_attempt env config request attempt id s).2) as -> by (by rewrite H).
  assert ((drive_execution_attempt env config request attempt id s).1 ≠ Panic) as Hp by (by rewrite H).
  clear H Hr. revert Hp. unfold drive_execution_attempt, drive_metrics.
  destruct (build_submission_payload _ _ _) as [payload| |]; [|intros _; by rewrite when_some_keeps_risk|done].
  unfold mbind, eff_bind, on_transport.
  destruct (tr_submit _ _ _) as [[[hash|err|]|] t]; cbn [fst snd];
    [|intros _; cbn [record on_risk]; by rewrite when_some_keeps_risk|done
     |intros _; cbn [record on_risk]; by rewrite when_some_keeps_risk].
  set (s1 := {| en_book := _ |}). unfold lift. cbn [context].
  destruct (mark_submitted _ _) as [submitted| |]; cbn [context map_err fst snd]; [|done..].
  destruct (when_some id _ s1) as [r2 s2] eqn:H2. apply when_some_inv in H2 as (R2 & T2 & H2).
  rewrite (H2 s eq_refl).
  destruct r2 as [[]| |]; [|intros _; exact R2|done].
  rewrite T2. cbn [en_transport s1]. destruct (tr_await_receipt _ _ _ _) as [[[receipt|]|err|] t2]; cbn [fst snd].
  - destruct (finalize_from_receipt _ _ _ _) as [f| |] eqn:Hf; cbn [context map_err fst snd];
      [|intros _; exact R2|done].
    destruct (finalized_without_surplus _ _ _ _ Hf) as [_ Hst]. unfold settled_metrics. cbv zeta. destruct (report_pnl (fe_outcome f)) as [[]|e|] eqn:Hpnl;
      cbn [fst snd]; [|by unfold report_pnl in Hpnl; repeat case_match|done].
    intros _. cbn [record on_risk]. rewrite when_some_keeps_risk. cbn [en_risk]. rewrite R2.
    destruct (oc_final_status (fe_outcome f)); first [done|set_solver].
  - destruct (mark_dropped _ _) as [f| |]; cbn [context map_err fst snd]; [|intros _; exact R2|done].
    intros _. cbn [record on_risk]. rewrite when_some_keeps_risk. cbn [en_risk]. by rewrite R2.
  - intros _. rewrite when_some_keeps_risk. exact R2.
  - done.
Qed.

(** Every opportunity is counted once on each side of the local simulator: the labels
    of a turn are none, [detected; skipped] when the simulator rejects the best loop, or
    [detected; simulated], and the last exactly when the turn hands an output on to the
    decision stage. *)
Theorem opportunity_funnel now_ms sim_secs env scan event s :
  let labels := opportunity_outcomes (handle_event_metrics sha256_hex now_ms sim_secs env scan event s) in
  match (handle_event sha256_hex env scan event s).1 with
  | Ok (Some _) => labels = ["detected"; "simulated"]%string
  | Ok None => labels = [] ∨ labels = ["detected"; "skipped"]%string
  | _ => labels = []
  end.
Proof.
  cbv zeta. unfold handle_event, handle_event_metrics. destruct event as [|log| |]; try (by left).
  unfold mbind, eff_bind, eff_context, on_storage, on_book.
  set (lag := record_decision_lag _ _).
  assert (opportunity_outcomes lag = []) as Hlag
    by (subst lag; unfold record_decision_lag; by destruct (_ || _)).
  unfold counted in *. rewrite omap_app, Hlag. cbn [app].
  destruct (persist_observed_log _ _ _) as [[id|e|] st]; cbn [context map_err fst snd]; try done.
  cbn [en_book]. destruct (book_apply_log _ _) as [[outcome|e|] book]; cbn [map_err fst snd]; try done.
  destruct outcome, scan as [scan|]; try (by left).
  all: unfold scan_after_update, scan_metrics, read_book, lift_outcome, mbind, eff_bind, lift;
    cbn [fst snd en_book]; destruct (detect_two_leg_loops_from_book _ _ _ _ _) as [os|[]|];
    cbn [map_err fst snd]; try done; destruct (head os) as [best|]; try (by left);
    destruct (simulate_two_leg_opportunity _ _); cbn; [done|by right].
Qed.

(** C39. No metric of the engine is undescribed: whatever happens in a turn, a simulation, a
    drive or a stream, every emission is on a metric that [register_business_metrics]
    describes with the same kind, carries exactly its documented label keys, and an
    increment fits the 64 bits of a counter, the saturated fee included. *)
Theorem emissions_conform now_ms secs env scan event config request payload attempt id stream
    channel status s :
  Forall conforms (handle_event_metrics sha256_hex now_ms secs env scan event s) ∧
  Forall conforms (ethcall_metrics secs payload attempt (en_transport s)) ∧
  Forall conforms (drive_metrics env config request attempt id s) ∧
  Forall conforms (record_ingest_event stream (channel_label channel) (decode_status_label status)) ∧
  Forall conforms (record_submit_latency secs ++ record_receipt_latency secs).
Proof.
  split_and!; [| | |auto with metrics|conforms_done].
  - unfold handle_event_metrics, scan_metrics. repeat case_match; auto with metrics.
  - unfold ethcall_metrics. repeat case_match; auto with metrics.
  - destruct (drive_metrics_shape env config request attempt id s); auto with metrics.
Qed.
End emission_properties.

(** ** Properties of the runtime *)

Section runtime_properties.
Context {SocketAddr Filter : Type} (try_from_default_env : anyhow Filter)
  (try_new : string → anyhow Filter) (install_recorder : SocketAddr → bool → anyhow unit).
Abbreviation init := (observability_init try_from_default_env try_new install_recorder).

(** A second [init] in a process leaves tracing alone, whatever its level is. *)
Lemma init_tracing_once level level' s :
  (init_tracing try_from_default_env try_new level s).1 = Ok tt →
  let s' := (init_tracing try_from_default_env try_new level s).2 in
  init_tracing try_from_default_env try_new level' s' = (Ok tt, s').
Proof.
  unfold init_tracing. destruct (ob_tracing_init s) eqn:Hi; cbn; [by rewrite Hi|].
  destruct (context _ _); cbn; [done..].
Qed.

(** What [init] asks of the facade: every metric described, once, when metrics are
    enabled, and nothing else. *)
Lemma observability_init_described config s runtime s' :
  init config s = (Ok runtime, s') →
  ob_emissions s' = ob_emissions s ++ (if met_enabled config then register_business_metrics else []) ∧
  or_shutdown_healthz runtime = true ∧ or_healthz_bind_addr runtime = met_healthz_bind_addr config.
Proof.
  unfold observability_init, mbind, eff_bind, init_tracing, install_prometheus, emit.
  destruct (ob_tracing_init s); [|destruct (context _ _); try done];
    (destruct (met_enabled config); [destruct (met_prometheus_bind_addr config) as [addr|];
      [destruct (install_recorder _ _) as [[]| |]|]|]); cbn;
    intros [= <- <-]; cbn; by rewrite ?app_nil_r.
Qed.
End runtime_properties.

Lemma healthz_loop_ended inputs answered :
  ∃ r answered', healthz_loop (inputs ++ [HzShutdown]) answered = (HzEnded r, answered') ∧ r ≠ Panic.
Proof.
  revert answered. induction inputs as [|[|socket|message] inputs IH]; intros answered; cbn; eauto.
Qed.

(** The join of [shutdown] always ends once the signal is taken up, and reports the
    failure of the health server, if there was one: a health endpoint whose address
    could not be bound is silent until the engine stops, and then turns a clean stop
    into an error. *)
Theorem healthz_shutdown {SocketAddr : Type} (bind : SocketAddr → res string unit) before runtime :
  or_shutdown_healthz runtime = true →
  match bind (or_healthz_bind_addr runtime) with
  | Ok _ => ∃ r, observability_shutdown bind before runtime = Some r ∧ r ≠ Panic ∧
      (Forall (λ i, match i with HzAccepted _ => True | _ => False end) before → r = Ok tt)
  | Err e => observability_shutdown bind before runtime = Some (Err ["healthz server failed"%string; e])
  | Panic => observability_shutdown bind before runtime =
      Some (Err ["healthz task join failed"; "task panicked"]%string)
  end.
Proof.
  intros Hs. unfold observability_shutdown, run_healthz_server. rewrite Hs.
  destruct (bind _) as [[]|e|]; [|done..].
  destruct (healthz_loop_ended before []) as (r & answered & Hl & Hr). rewrite Hl. cbn [fst].
  destruct r as [[]|e|]; [by eexists| |done]. eexists. split_and!; [done..|].
  intros Hb. exfalso. cut (∀ acc, (healthz_loop (before ++ [HzShutdown]) acc).1 = HzEnded (Ok tt));
    [intros H; specialize (H []); by rewrite Hl in H|].
  clear Hl. induction Hb as [|[|socket|message] before Hi _ IH]; intros acc; cbn; done.
Qed.

(** The body of the answer has the length its header announces. *)
Example healthz_response_length :
  ∃ body, last healthz_response = Some body ∧
    ("content-length: " +:+ show_uint (Z.of_nat (String.length body)))%string ∈ healthz_response.
Proof. eexists. split; [done|]. apply (bool_decide_unpack _). by vm_compute. Qed.
