(* ===== verification/RawLog.v ===== *)
(** The decoding of raw messages, first part (crate [ingest], [raw/mod.rs],
    [raw/log.rs] and [raw/block.rs]): the fields of a JSON object, a log message
    and the structured events, a block message.

    The values of [serde_json] are the class [Json]; the ABI decoder, the number
    conversions and the formatting of alloy are the class [AlloyEvents], with the
    record of each event declared by the source's [sol!] block. *)

From S2P Require Import Prelude RustStr Types Registry MarketsV2 U256 MarketsV3 PoolBook.
#[local] Open Scope Z_scope.

(** ** JSON values *)

(** The variants of [serde_json::Value]. *)
Inductive Variant (V M N : Type) :=
| JNull
| JBool (b : bool)
| JNumber (n : N)
| JString (s : string)
| JArray (l : list V)
| JObject (m : M).
Arguments JNull {V M N}.
Arguments JBool {V M N} b.
Arguments JNumber {V M N} n.
Arguments JString {V M N} s.
Arguments JArray {V M N} l.
Arguments JObject {V M N} m.

Class Json := {
  Value : Type;
  Map : Type;
  Number : Type;
  variant : Value → Variant Value Map Number;
  value_of : Variant Value Map Number → Value;
  number_as_u64 : Number → option Z;
  map_iter : Map → list (string * Value);
  map_get : Map → string → option Value;
  map_or_insert : Map → string → Value → Map;  (* [entry(k).or_insert_with(v)] *)
  to_vec : Value → res string (list Z) }.

Class JsonLaws (J : Json) : Prop := {
  variant_value_of v : variant (value_of v) = v;
  number_as_u64_range n z : number_as_u64 n = Some z → uint 64 z;
  map_get_iter m k v : map_get m k = Some v → (k, v) ∈ map_iter m;
  map_or_insert_get m k v : map_get (map_or_insert m k v) k = Some (default v (map_get m k));
  map_or_insert_get_ne m k k' v : k ≠ k' → map_get (map_or_insert m k v) k' = map_get m k';
  to_vec_no_panic v : to_vec v ≠ Panic }.

Section fields.
Context {J : Json}.

Definition as_object (value : Value) : option Map :=
  match variant value with JObject m => Some m | _ => None end.
Definition as_str (value : Value) : option string :=
  match variant value with JString s => Some s | _ => None end.
Definition as_bool (value : Value) : option bool :=
  match variant value with JBool b => Some b | _ => None end.
Definition as_array (value : Value) : option (list Value) :=
  match variant value with JArray l => Some l | _ => None end.

Definition string_field (object : Map) (key : string) : option string :=
  map_get object key ≫= as_str.

Definition bool_field (object : Map) (key : string) : option bool :=
  map_get object key ≫= as_bool.

Definition result_ok {E A : Type} (r : res E A) : option A :=
  match r with Ok a => Some a | _ => None end.

Definition parse_u64 (raw : string) : option Z :=
  match strip_prefix "0x" raw with
  | Some hex => result_ok (from_str_radix 64 16 hex)
  | None => result_ok (parse_uint 64 raw)
  end.

Definition u64_field (object : Map) (key : string) : option Z :=
  value ← map_get object key;
  match variant value with
  | JString raw => parse_u64 raw
  | JNumber number => number_as_u64 number
  | _ => None
  end.
End fields.

(** ** The events of the [sol!] block *)

Abbreviation AlloyAddress := (list Z) (only parsing).

Record V2SwapEvent := {
  v2sw_sender : AlloyAddress;
  v2sw_amount0In : Z;                         (* uint256 *)
  v2sw_amount1In : Z;                         (* uint256 *)
  v2sw_amount0Out : Z;                        (* uint256 *)
  v2sw_amount1Out : Z;                        (* uint256 *)
  v2sw_to : AlloyAddress }.

Record V2SyncEvent := {
  v2sy_reserve0 : Z;                          (* uint112 *)
  v2sy_reserve1 : Z }.                        (* uint112 *)

Record V2MintEvent := {
  v2mi_sender : AlloyAddress;
  v2mi_amount0 : Z;                           (* uint256 *)
  v2mi_amount1 : Z }.                         (* uint256 *)

Record V2BurnEvent := {
  v2bu_sender : AlloyAddress;
  v2bu_amount0 : Z;                           (* uint256 *)
  v2bu_amount1 : Z;                           (* uint256 *)
  v2bu_to : AlloyAddress }.

Record V3SwapEvent := {
  v3sw_sender : AlloyAddress;
  v3sw_recipient : AlloyAddress;
  v3sw_amount0 : Z;                           (* int256 *)
  v3sw_amount1 : Z;                           (* int256 *)
  v3sw_sqrtPriceX96 : Z;                      (* uint160 *)
  v3sw_liquidity : Z;                         (* uint128 *)
  v3sw_tick : Z }.                            (* int24 *)

Record V3MintEvent := {
  v3mi_sender : AlloyAddress;
  v3mi_owner : AlloyAddress;
  v3mi_tickLower : Z;                         (* int24 *)
  v3mi_tickUpper : Z;                         (* int24 *)
  v3mi_amount : Z;                            (* uint128 *)
  v3mi_amount0 : Z;                           (* uint256 *)
  v3mi_amount1 : Z }.                         (* uint256 *)

Record V3BurnEvent := {
  v3bu_owner : AlloyAddress;
  v3bu_tickLower : Z;                         (* int24 *)
  v3bu_tickUpper : Z;                         (* int24 *)
  v3bu_amount : Z;                            (* uint128 *)
  v3bu_amount0 : Z;                           (* uint256 *)
  v3bu_amount1 : Z }.                         (* uint256 *)

(** [decode_raw_log(topics, data, true).ok()] for each event, the parsers and the
    conversions of [alloy_primitives]. *)
Class AlloyEvents := {
  b256_from_str : string → option (list Z);
  hex_decode : string → option (list Z);
  lower_hex : AlloyAddress → string;          (* [format!("{:#x}")] *)
  uint_to_string : Z → string;
  int_to_string : Z → string;
  uint_try_into_u128 : Z → option Z;
  int_try_into_i32 : Z → option Z;
  decode_v2_swap : list (list Z) → list Z → option V2SwapEvent;
  decode_v2_sync : list (list Z) → list Z → option V2SyncEvent;
  decode_v2_mint : list (list Z) → list Z → option V2MintEvent;
  decode_v2_burn : list (list Z) → list Z → option V2BurnEvent;
  decode_v3_swap : list (list Z) → list Z → option V3SwapEvent;
  decode_v3_mint : list (list Z) → list Z → option V3MintEvent;
  decode_v3_burn : list (list Z) → list Z → option V3BurnEvent;
  v3_mint_signature : string;                 (* [format!("{:#x}", SIGNATURE_HASH)] *)
  v3_burn_signature : string }.

Definition int24 (z : Z) : Prop := - 2 ^ 23 ≤ z < 2 ^ 23.

(** The decoder returns values of the declared types, and the conversions are
    those of the numbers. *)
Class AlloyEventsLaws (A : AlloyEvents) : Prop := {
  hex_decode_bytes s bytes : hex_decode s = Some bytes → Forall (uint 8) bytes;
  uint_to_string_law n : uint 256 n → uint_to_string n = show_uint n;
  uint_try_into_u128_law n : uint 256 n →
    uint_try_into_u128 n = if n <? 2 ^ 128 then Some n else None;
  uint_try_into_u128_range n m : uint_try_into_u128 n = Some m → uint 128 m;
  int_try_into_i32_law n : int24 n → int_try_into_i32 n = Some n;
  decode_v2_swap_range t d e : decode_v2_swap t d = Some e →
    uint 256 (v2sw_amount0In e) ∧ uint 256 (v2sw_amount1In e) ∧
    uint 256 (v2sw_amount0Out e) ∧ uint 256 (v2sw_amount1Out e);
  decode_v2_sync_range t d e : decode_v2_sync t d = Some e →
    uint 112 (v2sy_reserve0 e) ∧ uint 112 (v2sy_reserve1 e);
  decode_v3_swap_range t d e : decode_v3_swap t d = Some e →
    uint 160 (v3sw_sqrtPriceX96 e) ∧ uint 128 (v3sw_liquidity e) ∧ int24 (v3sw_tick e);
  decode_v3_mint_range t d e : decode_v3_mint t d = Some e →
    uint 128 (v3mi_amount e) ∧ int24 (v3mi_tickLower e) ∧ int24 (v3mi_tickUpper e);
  decode_v3_burn_range t d e : decode_v3_burn t d = Some e →
    uint 128 (v3bu_amount e) ∧ int24 (v3bu_tickLower e) ∧ int24 (v3bu_tickUpper e) }.

(** ** Log messages *)

Record RawLogMessage := {
  rl_address : option Address;
  rl_topics : list Topic;
  rl_data : option string;
  rl_tx_hash : option TxHash;
  rl_block_hash : option BlockHash;
  rl_block_number : option Z;                 (* u64 *)
  rl_event_signature : option string;
  rl_protocol : option Protocol.Protocol;
  rl_exchange : option Exchange.Exchange;
  rl_log_index : option Z;                    (* u64 *)
  rl_removed : option bool }.

Record DecodedLogFields := {
  dlf_event_signature : option string;
  dlf_protocol : option Protocol.Protocol;
  dlf_exchange : option Exchange.Exchange;
  dlf_decoded_event : option DecodedLogEvent }.

Definition log_from_value `{Json} (value : Value) : option RawLogMessage :=
  object ← as_object value;
  let topics := match map_get object "topics" ≫= as_array with
                | Some entries => omap as_str entries
                | None => []
                end in
  Some {| rl_address := string_field object "address";
          rl_topics := topics;
          rl_data := string_field object "data";
          rl_tx_hash := string_field object "transactionHash";
          rl_block_hash := string_field object "blockHash";
          rl_block_number := u64_field object "blockNumber";
          rl_event_signature := string_field object "eventSignature";
          rl_protocol := None;
          rl_exchange := None;
          rl_log_index := u64_field object "logIndex";
          rl_removed := bool_field object "removed" |}.

Definition log_block_context (self : RawLogMessage) : BlockContext :=
  match rl_block_number self with
  | Some number => Block_ number (rl_block_hash self)
  | None => Pending
  end.

Definition event_signature (self : RawLogMessage) : option string :=
  opt_or (rl_event_signature self) (head (rl_topics self)).

(** A function that returns an [Option] and may panic: [None] is the error, [?] the
    bind. *)
Abbreviation try_opt o := (ok_or o tt).

Section decode.
Context {A : AlloyEvents}.

Definition decode_topics (topics : list string) : option (list (list Z)) :=
  mapM b256_from_str topics.

Definition decode_data (data : string) : option (list Z) :=
  hex_decode (default data (strip_prefix "0x" data)).

Definition u112_to_u128 {E : Type} (value : Z) : res E Z :=
  match uint_try_into_u128 value with Some n => Ok n | None => Panic end.

Definition format_address (address : AlloyAddress) : Address := lower_hex address.

(** The arms of [decode_structured_event], one per event. *)
Definition v2_swap_event (pool : option Address) (protocol : option Protocol.Protocol)
    (exchange : option Exchange.Exchange) (topics : list (list Z)) (data : list Z) :
    res unit DecodedLogEvent :=
  event ← try_opt (decode_v2_swap topics data);
  amount0_in ← try_opt (uint_try_into_u128 (v2sw_amount0In event));
  amount1_in ← try_opt (uint_try_into_u128 (v2sw_amount1In event));
  amount0_out ← try_opt (uint_try_into_u128 (v2sw_amount0Out event));
  amount1_out ← try_opt (uint_try_into_u128 (v2sw_amount1Out event));
  Ok {| dl_kind := V2Swap; dl_pool := pool;
        dl_sender := Some (format_address (v2sw_sender event));
        dl_recipient := Some (format_address (v2sw_to event)); dl_owner := None;
        dl_reserve0 := None; dl_reserve1 := None; dl_amount0_in := Some amount0_in;
        dl_amount1_in := Some amount1_in; dl_amount0_out := Some amount0_out;
        dl_amount1_out := Some amount1_out; dl_amount0 := None; dl_amount1 := None;
        dl_liquidity := None; dl_sqrt_price_x96 := None; dl_tick := None; dl_tick_lower := None;
        dl_tick_upper := None; dl_protocol := protocol; dl_exchange := exchange |}.

Definition v2_sync_event (pool : option Address) (protocol : option Protocol.Protocol)
    (exchange : option Exchange.Exchange) (topics : list (list Z)) (data : list Z) :
    res unit DecodedLogEvent :=
  event ← try_opt (decode_v2_sync topics data);
  reserve0 ← u112_to_u128 (v2sy_reserve0 event);
  reserve1 ← u112_to_u128 (v2sy_reserve1 event);
  Ok {| dl_kind := V2Sync; dl_pool := pool; dl_sender := None; dl_recipient := None;
        dl_owner := None; dl_reserve0 := Some reserve0; dl_reserve1 := Some reserve1;
        dl_amount0_in := None; dl_amount1_in := None; dl_amount0_out := None;
        dl_amount1_out := None; dl_amount0 := None; dl_amount1 := None; dl_liquidity := None;
        dl_sqrt_price_x96 := None; dl_tick := None; dl_tick_lower := None; dl_tick_upper := None;
        dl_protocol := protocol; dl_exchange := exchange |}.

Definition v2_mint_event (pool : option Address) (protocol : option Protocol.Protocol)
    (exchange : option Exchange.Exchange) (topics : list (list Z)) (data : list Z) :
    res unit DecodedLogEvent :=
  event ← try_opt (decode_v2_mint topics data);
  Ok {| dl_kind := V2Mint; dl_pool := pool;
        dl_sender := Some (format_address (v2mi_sender event)); dl_recipient := None;
        dl_owner := None; dl_reserve0 := None; dl_reserve1 := None; dl_amount0_in := None;
        dl_amount1_in := None; dl_amount0_out := None; dl_amount1_out := None;
        dl_amount0 := Some (uint_to_string (v2mi_amount0 event));
        dl_amount1 := Some (uint_to_string (v2mi_amount1 event)); dl_liquidity := None;
        dl_sqrt_price_x96 := None; dl_tick := None; dl_tick_lower := None; dl_tick_upper := None;
        dl_protocol := protocol; dl_exchange := exchange |}.

Definition v2_burn_event (pool : option Address) (protocol : option Protocol.Protocol)
    (exchange : option Exchange.Exchange) (topics : list (list Z)) (data : list Z) :
    res unit DecodedLogEvent :=
  event ← try_opt (decode_v2_burn topics data);
  Ok {| dl_kind := V2Burn; dl_pool := pool;
        dl_sender := Some (format_address (v2bu_sender event));
        dl_recipient := Some (format_address (v2bu_to event)); dl_owner := None;
        dl_reserve0 := None; dl_reserve1 := None; dl_amount0_in := None; dl_amount1_in := None;
        dl_amount0_out := None; dl_amount1_out := None;
        dl_amount0 := Some (uint_to_string (v2bu_amount0 event));
        dl_amount1 := Some (uint_to_string (v2bu_amount1 event)); dl_liquidity := None;
        dl_sqrt_price_x96 := None; dl_tick := None; dl_tick_lower := None; dl_tick_upper := None;
        dl_protocol := protocol; dl_exchange := exchange |}.

Definition v3_swap_event (pool : option Address) (protocol : option Protocol.Protocol)
    (exchange : option Exchange.Exchange) (topics : list (list Z)) (data : list Z) :
    res unit DecodedLogEvent :=
  event ← try_opt (decode_v3_swap topics data);
  tick ← try_opt (int_try_into_i32 (v3sw_tick event));
  Ok {| dl_kind := V3Swap; dl_pool := pool;
        dl_sender := Some (format_address (v3sw_sender event));
        dl_recipient := Some (format_address (v3sw_recipient event)); dl_owner := None;
        dl_reserve0 := None; dl_reserve1 := None; dl_amount0_in := None; dl_amount1_in := None;
        dl_amount0_out := None; dl_amount1_out := None;
        dl_amount0 := Some (int_to_string (v3sw_amount0 event));
        dl_amount1 := Some (int_to_string (v3sw_amount1 event));
        dl_liquidity := Some (v3sw_liquidity event);
        dl_sqrt_price_x96 := Some (uint_to_string (v3sw_sqrtPriceX96 event));
        dl_tick := Some tick; dl_tick_lower := None; dl_tick_upper := None;
        dl_protocol := protocol; dl_exchange := exchange |}.

Definition v3_mint_event (pool : option Address) (protocol : option Protocol.Protocol)
    (exchange : option Exchange.Exchange) (topics : list (list Z)) (data : list Z) :
    res unit DecodedLogEvent :=
  event ← try_opt (decode_v3_mint topics data);
  tick_lower ← try_opt (int_try_into_i32 (v3mi_tickLower event));
  tick_upper ← try_opt (int_try_into_i32 (v3mi_tickUpper event));
  Ok {| dl_kind := V3Mint; dl_pool := pool;
        dl_sender := Some (format_address (v3mi_sender event)); dl_recipient := None;
        dl_owner := Some (format_address (v3mi_owner event)); dl_reserve0 := None;
        dl_reserve1 := None; dl_amount0_in := None; dl_amount1_in := None;
        dl_amount0_out := None; dl_amount1_out := None;
        dl_amount0 := Some (uint_to_string (v3mi_amount0 event));
        dl_amount1 := Some (uint_to_string (v3mi_amount1 event));
        dl_liquidity := Some (v3mi_amount event); dl_sqrt_price_x96 := None; dl_tick := None;
        dl_tick_lower := Some tick_lower; dl_tick_upper := Some tick_upper;
        dl_protocol := protocol; dl_exchange := exchange |}.

Definition v3_burn_event (pool : option Address) (protocol : option Protocol.Protocol)
    (exchange : option Exchange.Exchange) (topics : list (list Z)) (data : list Z) :
    res unit DecodedLogEvent :=
  event ← try_opt (decode_v3_burn topics data);
  tick_lower ← try_opt (int_try_into_i32 (v3bu_tickLower event));
  tick_upper ← try_opt (int_try_into_i32 (v3bu_tickUpper event));
  Ok {| dl_kind := V3Burn; dl_pool := pool; dl_sender := None; dl_recipient := None;
        dl_owner := Some (format_address (v3bu_owner event)); dl_reserve0 := None;
        dl_reserve1 := None; dl_amount0_in := None; dl_amount1_in := None;
        dl_amount0_out := None; dl_amount1_out := None;
        dl_amount0 := Some (uint_to_string (v3bu_amount0 event));
        dl_amount1 := Some (uint_to_string (v3bu_amount1 event));
        dl_liquidity := Some (v3bu_amount event); dl_sqrt_price_x96 := None; dl_tick := None;
        dl_tick_lower := Some tick_lower; dl_tick_upper := Some tick_upper;
        dl_protocol := protocol; dl_exchange := exchange |}.

Definition decode_structured_event (self : RawLogMessage) (event_signature : option string)
    (protocol : option Protocol.Protocol) (exchange : option Exchange.Exchange) :
    outcome (option DecodedLogEvent) :=
  ok (
    event_signature ← try_opt event_signature;
    topics ← try_opt (decode_topics (rl_topics self));
    data ← try_opt (decode_data (default "0x" (rl_data self)));
    let pool := rl_address self in
    if bool_decide (event_signature =
      "0xd78ad95fa46c994b6551d0da85fc275fe613ce37657fb8d5e3d130840159d822")
    then v2_swap_event pool protocol exchange topics data else
    if bool_decide (event_signature =
      "0x1c411e9a96e071241c2f21f7726b17ae89e3cab4c78be50e062b03a9fffbbad1")
    then v2_sync_event pool protocol exchange topics data else
    if bool_decide (event_signature =
      "0x4c209b5fc8ad50758f13e2e108bdbdff36c9b4a5d2f30f6a7c2a25d13f0f5e6d")
    then v2_mint_event pool protocol exchange topics data else
    if bool_decide (event_signature =
      "0xdccd412f0b1252819a70d2cd3248e4723d18f7e41ee2b5f7f8ef4e3d5be2f4d8")
    then v2_burn_event pool protocol exchange topics data else
    if bool_decide (event_signature =
      "0xc42079f94a6350d7e6235f29174924f928cc2ac818eb64fed8004e115fbcca67")
    then v3_swap_event pool protocol exchange topics data else
    if bool_decide (event_signature = v3_mint_signature)
    then v3_mint_event pool protocol exchange topics data else
    if bool_decide (event_signature = v3_burn_signature)
    then v3_burn_event pool protocol exchange topics data else
    Err tt).

Definition log_decode (self : RawLogMessage) : outcome DecodedLogFields :=
  let event_signature := event_signature self in
  let resolution := resolve_log event_signature (rl_address self) in
  decoded_event ← decode_structured_event self event_signature (rm_protocol resolution)
                    (rm_exchange resolution);
  Ok {| dlf_protocol := opt_or (rm_protocol resolution) (rl_protocol self);
        dlf_exchange := opt_or (rm_exchange resolution) (rl_exchange self);
        dlf_event_signature := event_signature;
        dlf_decoded_event := decoded_event |}.

Definition to_log (self : RawLogMessage) (metadata : Metadata) : outcome Log :=
  decoded ← log_decode self;
  Ok {| log_metadata := metadata;
        log_address := rl_address self;
        log_topics := rl_topics self;
        log_data := rl_data self;
        log_event_signature := dlf_event_signature decoded;
        log_decoded_event := dlf_decoded_event decoded;
        log_protocol := dlf_protocol decoded;
        log_exchange := dlf_exchange decoded;
        log_log_index := rl_log_index self;
        log_removed := rl_removed self |}.
End decode.

(** ** Block messages *)

Record RawBlockMessage := {
  rb_block_hash : option BlockHash;
  rb_parent_hash : option BlockHash;
  rb_block_number : option Z;                 (* u64 *)
  rb_timestamp_secs : option Z }.             (* u64 *)

Definition block_from_value `{Json} (value : Value) : option RawBlockMessage :=
  object ← as_object value;
  Some {| rb_block_hash := string_field object "hash";
          rb_parent_hash := string_field object "parentHash";
          rb_block_number := u64_field object "number";
          rb_timestamp_secs := u64_field object "timestamp" |}.

Definition block_block_context (self : RawBlockMessage) : BlockContext :=
  Block_ (default 0 (rb_block_number self)) (rb_block_hash self).

Definition to_block (self : RawBlockMessage) (metadata : Metadata) : Block :=
  {| block_metadata := metadata;
     block_block_hash := rb_block_hash self;
     block_parent_hash := rb_parent_hash self;
     block_timestamp_secs := rb_timestamp_secs self |}.

(** ** Properties of the fields *)

Lemma parse_u64_range raw n : parse_u64 raw = Some n → uint 64 n.
Proof.
  unfold parse_u64. destruct (strip_prefix _ _); unfold result_ok;
    case_match eqn:He; intros [= <-]; eapply from_str_radix_range in He; done.
Qed.

Lemma u64_field_range `{J : Json, !JsonLaws J} object key n :
  u64_field object key = Some n → uint 64 n.
Proof.
  unfold u64_field. destruct (map_get object key) as [v|]; cbn; [|done].
  destruct (variant v); try done; [apply number_as_u64_range|apply parse_u64_range].
Qed.

(** ** Properties of the decoded events *)

(** An event has the fields its kind promises to the book, in range, and no
    others of those. *)
Definition event_complete (d : DecodedLogEvent) : Prop :=
  match dl_kind d with
  | V2Sync => ∃ r0 r1, dl_reserve0 d = Some r0 ∧ dl_reserve1 d = Some r1 ∧
      uint 112 r0 ∧ uint 112 r1 ∧ dl_liquidity d = None
  | V3Swap => dl_reserve0 d = None ∧ dl_reserve1 d = None ∧
      ∃ price liquidity tick, dl_sqrt_price_x96 d = Some (show_uint price) ∧
        dl_liquidity d = Some liquidity ∧ dl_tick d = Some tick ∧
        uint 160 price ∧ uint 128 liquidity ∧ int24 tick
  | V2Swap => dl_reserve0 d = None ∧ dl_reserve1 d = None ∧ dl_liquidity d = None ∧
      ∃ i0 i1 o0 o1, dl_amount0_in d = Some i0 ∧ dl_amount1_in d = Some i1 ∧
        dl_amount0_out d = Some o0 ∧ dl_amount1_out d = Some o1 ∧
        uint 128 i0 ∧ uint 128 i1 ∧ uint 128 o0 ∧ uint 128 o1
  | V2Mint | V2Burn => dl_reserve0 d = None ∧ dl_reserve1 d = None ∧ dl_liquidity d = None
  | V3Mint | V3Burn => dl_reserve0 d = None ∧ dl_reserve1 d = None ∧
      ∃ liquidity lower upper, dl_liquidity d = Some liquidity ∧
        dl_tick_lower d = Some lower ∧ dl_tick_upper d = Some upper ∧
        uint 128 liquidity ∧ int24 lower ∧ int24 upper
  end.

Lemma event_complete_typed log :
  (∀ d, log_decoded_event log = Some d → event_complete d) → log_typed log.
Proof.
  intros Hc d Hd. specialize (Hc d Hd). revert Hc. unfold event_complete.
  assert (∀ n, uint 112 n → uint 128 n) by (unfold uint; intros; lia).
  destruct (dl_kind d); intros; destruct_and?; naive_solver.
Qed.

#[local] Arguments show_uint _ : simpl never.

Section events.
Context {A : AlloyEvents} {HA : AlloyEventsLaws A}.

Lemma try_opt_ok {B : Type} (o : option B) b : try_opt o = Ok b → o = Some b.
Proof. by destruct o; intros [= <-]. Qed.

Lemma u128_of_u256 n m : uint 256 n → uint_try_into_u128 n = Some m → m = n ∧ uint 128 m.
Proof.
  intros Hn. rewrite uint_try_into_u128_law by done. case_match; [|done]. intros [= <-].
  split; [done|]. unfold uint in *. lia.
Qed.

Lemma u112_to_u128_ok {E : Type} n : uint 112 n → u112_to_u128 (E:=E) n = Ok n.
Proof.
  intros Hn. unfold u112_to_u128. rewrite uint_try_into_u128_law by (unfold uint in *; lia).
  by rewrite (proj2 (Z.ltb_lt n (2 ^ 128))) by (unfold uint in *; lia).
Qed.

Lemma int24_i32 n m : int24 n → int_try_into_i32 n = Some m → m = n ∧ int24 m.
Proof. intros Hn. rewrite int_try_into_i32_law by done. by intros [= <-]. Qed.

(** What each arm returns. *)
Definition arm_spec (kind : DecodedLogKind) (pool : option Address) (r : res unit DecodedLogEvent) :
    Prop :=
  r ≠ Panic ∧ ∀ d, r = Ok d → dl_kind d = kind ∧ dl_pool d = pool ∧ event_complete d.

Lemma v2_swap_event_spec pool p x t d : arm_spec V2Swap pool (v2_swap_event pool p x t d).
Proof.
  split; [unfold v2_swap_event; by repeat (apply bind_no_panic; [auto with engine|]; intros)|].
  intros e H. unfold v2_swap_event in H. inv_res. cbn.
  destruct (decode_v2_swap_range _ _ _ Hr) as (? & ? & ? & ?).
  apply u128_of_u256 in Hr0 as [_ ?], Hr1 as [_ ?], Hr2 as [_ ?], Hr3 as [_ ?]; [|done..].
  unfold event_complete. cbn. split_and!; [done..|]. by eexists _, _, _, _.
Qed.

Lemma v2_sync_event_eq pool p x t d e :
  decode_v2_sync t d = Some e →
  ∃ ev, v2_sync_event pool p x t d = Ok ev ∧ dl_kind ev = V2Sync ∧ dl_pool ev = pool ∧
    dl_reserve0 ev = Some (v2sy_reserve0 e) ∧ dl_reserve1 ev = Some (v2sy_reserve1 e) ∧
    event_complete ev.
Proof.
  intros He. destruct (decode_v2_sync_range _ _ _ He) as [H0 H1]. unfold v2_sync_event.
  rewrite He. cbn [ok_or mbind res_bind].
  rewrite (u112_to_u128_ok (v2sy_reserve0 e)), (u112_to_u128_ok (v2sy_reserve1 e)) by done.
  cbn [mbind res_bind]. eexists. split; [done|]. unfold event_complete. cbn.
  split_and!; [done..|]. by eexists _, _.
Qed.

Lemma v2_sync_event_spec pool p x t d : arm_spec V2Sync pool (v2_sync_event pool p x t d).
Proof.
  destruct (decode_v2_sync t d) as [e|] eqn:He.
  - destruct (v2_sync_event_eq pool p x t d e He) as (ev & -> & ?). split; [done|].
    intros ? [= <-]. by destruct_and!.
  - unfold v2_sync_event. by rewrite He.
Qed.

Lemma v2_mint_event_spec pool p x t d : arm_spec V2Mint pool (v2_mint_event pool p x t d).
Proof. unfold v2_mint_event. by destruct (decode_v2_mint t d); split; intros; simplify_eq/=. Qed.

Lemma v2_burn_event_spec pool p x t d : arm_spec V2Burn pool (v2_burn_event pool p x t d).
Proof. unfold v2_burn_event. by destruct (decode_v2_burn t d); split; intros; simplify_eq/=. Qed.

Lemma v3_swap_event_eq pool p x t d e :
  decode_v3_swap t d = Some e →
  ∃ ev, v3_swap_event pool p x t d = Ok ev ∧ dl_kind ev = V3Swap ∧ dl_pool ev = pool ∧
    dl_sqrt_price_x96 ev = Some (show_uint (v3sw_sqrtPriceX96 e)) ∧
    dl_liquidity ev = Some (v3sw_liquidity e) ∧ dl_tick ev = Some (v3sw_tick e) ∧
    event_complete ev.
Proof.
  intros He. destruct (decode_v3_swap_range _ _ _ He) as (Hp & Hl & Ht). unfold v3_swap_event.
  rewrite He. cbn [ok_or mbind res_bind]. rewrite int_try_into_i32_law by done.
  cbn [ok_or mbind res_bind]. eexists. split; [done|]. unfold event_complete. cbn.
  rewrite uint_to_string_law by (unfold uint in *; lia).
  split_and!; [done..|]. by eexists _, _, _.
Qed.

Lemma v3_swap_event_spec pool p x t d : arm_spec V3Swap pool (v3_swap_event pool p x t d).
Proof.
  destruct (decode_v3_swap t d) as [e|] eqn:He.
  - destruct (v3_swap_event_eq pool p x t d e He) as (ev & -> & ?). split; [done|].
    intros ? [= <-]. by destruct_and!.
  - unfold v3_swap_event. by rewrite He.
Qed.

Lemma v3_mint_event_spec pool p x t d : arm_spec V3Mint pool (v3_mint_event pool p x t d).
Proof.
  split; [unfold v3_mint_event; by repeat (apply bind_no_panic; [auto with engine|]; intros)|].
  intros e H. unfold v3_mint_event in H. inv_res. cbn.
  destruct (decode_v3_mint_range _ _ _ Hr) as (? & ? & ?).
  apply int24_i32 in Hr0 as [_ ?], Hr1 as [_ ?]; [|done..].
  unfold event_complete. cbn. split_and!; [done..|]. by eexists _, _, _.
Qed.

Lemma v3_burn_event_spec pool p x t d : arm_spec V3Burn pool (v3_burn_event pool p x t d).
Proof.
  split; [unfold v3_burn_event; by repeat (apply bind_no_panic; [auto with engine|]; intros)|].
  intros e H. unfold v3_burn_event in H. inv_res. cbn.
  destruct (decode_v3_burn_range _ _ _ Hr) as (? & ? & ?).
  apply int24_i32 in Hr0 as [_ ?], Hr1 as [_ ?]; [|done..].
  unfold event_complete. cbn. split_and!; [done..|]. by eexists _, _, _.
Qed.

Lemma arm_spec_err kind pool : arm_spec kind pool (Err tt).
Proof. by split. Qed.

Create HintDb arms.
#[local] Hint Resolve v2_swap_event_spec v2_sync_event_spec v2_mint_event_spec
  v2_burn_event_spec v3_swap_event_spec v3_mint_event_spec v3_burn_event_spec : arms.

Lemma decode_structured_event_ok raw sig p x :
  ∃ o, decode_structured_event raw sig p x = Ok o ∧
    ∀ d, o = Some d → dl_pool d = rl_address raw ∧ event_complete d.
Proof.
  assert (∀ r : res unit DecodedLogEvent, (∃ kind, arm_spec kind (rl_address raw) r) →
    ∃ o, ok r = Ok o ∧ ∀ d, o = Some d → dl_pool d = rl_address raw ∧ event_complete d) as Harm.
  { intros r (kind & Hp & Hd). destruct r as [d| |]; [|by eexists|done].
    exists (Some d). split; [done|]. intros ? [= <-]. by apply Hd. }
  unfold decode_structured_event. apply Harm.
  destruct sig as [sig|]; [|exists V2Swap; apply arm_spec_err].
  destruct (decode_topics _) as [t|]; [|exists V2Swap; apply arm_spec_err].
  destruct (decode_data _) as [d|]; [|exists V2Swap; apply arm_spec_err].
  cbn [ok_or mbind res_bind]. cbv zeta. repeat (case_bool_decide; [by eauto with arms|]).
  exists V2Swap. apply arm_spec_err.
Qed.

Lemma to_log_ok raw metadata :
  ∃ log, to_log raw metadata = Ok log ∧ log_metadata log = metadata ∧
    log_address log = rl_address raw ∧ log_log_index log = rl_log_index raw ∧
    log_removed log = rl_removed raw ∧ log_event_signature log = event_signature raw ∧
    decode_structured_event raw (event_signature raw)
      (rm_protocol (resolve_log (event_signature raw) (rl_address raw)))
      (rm_exchange (resolve_log (event_signature raw) (rl_address raw))) =
      Ok (log_decoded_event log) ∧
    ∀ d, log_decoded_event log = Some d → dl_pool d = rl_address raw ∧ event_complete d.
Proof.
  unfold to_log, log_decode.
  destruct (decode_structured_event_ok raw (event_signature raw)
    (rm_protocol (resolve_log (event_signature raw) (rl_address raw)))
    (rm_exchange (resolve_log (event_signature raw) (rl_address raw)))) as (o & Ho & Hd).
  rewrite Ho. cbn [mbind res_bind]. eexists. by split_and!.
Qed.

(** Decoding a raw log never panics, whatever its topics and data, and an event
    it decodes carries the fields of its kind in the ranges the book relies on: both
    reserves of a Sync as 112-bit integers, the price of a V3 swap as the decimal
    text of a 160-bit integer with its liquidity and tick. *)
Theorem log_decode_complete raw metadata :
  ∃ log, to_log raw metadata = Ok log ∧ log_typed log ∧
    ∀ d, log_decoded_event log = Some d → dl_pool d = log_address log ∧ event_complete d.
Proof.
  destruct (to_log_ok raw metadata) as (log & Hlog & _ & Ha & _ & _ & _ & _ & Hd).
  exists log. rewrite Ha. split_and!; [done| |done].
  apply event_complete_typed. intros d He. by apply Hd.
Qed.
End events.

(** ** Decoded logs and the book *)

Section book.
Context {U : U256} {HU : U256Laws U} {A : AlloyEvents} {HA : AlloyEventsLaws A}.

Lemma u256_of_decimal n : uint 256 n → u256_from_str_radix (show_uint n) 10 = Some n.
Proof.
  intros Hn. apply u256_from_str_radix_digits; [by left| |].
  - unfold show_uint. destruct (dec_digits_head 78 n) as (d & s & -> & _); [apply Hn|lia|done].
  - apply parse_dec_digits; [exact Hn| |lia]. unfold uint in Hn. lia.
Qed.

(** A serialised pool has its price back, whatever 256-bit integer it is. *)
Lemma u256_decimal_roundtrip n :
  uint 256 n → u256_decimal_deserialize (u256_decimal_serialize n) = Some n.
Proof. apply u256_of_decimal. Qed.

(** The text of the price is read back as the price. *)
Lemma apply_v3_swap_complete p d :
  dl_kind d = V3Swap → event_complete d →
  ∃ price liquidity tick, dl_sqrt_price_x96 d = Some (show_uint price) ∧
    dl_liquidity d = Some liquidity ∧ dl_tick d = Some tick ∧
    apply_v3_swap_event p d =
      if bool_decide (min_sqrt_price ≤ price ≤ MAX_SQRT_PRICE)
      then Ok (v3_with_price p price liquidity tick (v3_last_updated_block p))
      else Err (InvalidPool "v3 swap event sqrt_price_x96 outside the protocol-defined range").
Proof.
  intros Hk. unfold event_complete. rewrite Hk.
  intros (_ & _ & price & l & t & Hp & Hl & Ht & Hprice & _). exists price, l, t.
  split_and!; [done..|]. unfold apply_v3_swap_event. rewrite Hp, Hl, Ht. cbn [ok_or mbind res_bind].
  rewrite u256_of_decimal by (unfold uint in *; lia). cbn [ok_or mbind res_bind].
  rewrite outside_price_range_eq. cbn [mbind res_bind]. by case_bool_decide.
Qed.

Lemma v2_apply_complete p log :
  (∀ d, log_decoded_event log = Some d → event_complete d) →
  match v2_apply_log p log with Err e => ∃ reason, e = InvalidPool reason | _ => True end.
Proof.
  intros Hc. unfold v2_apply_log. destruct (log_address log); [|done]. destruct (negb _); [done|].
  destruct (log_decoded_event log) as [d|] eqn:Hd; [|done]. specialize (Hc d eq_refl).
  unfold event_complete in Hc. destruct (dl_kind d); try done.
  destruct Hc as (r0 & r1 & H0 & H1 & _). rewrite H0, H1. cbn [ok_or mbind res_bind].
  unfold v2_apply_sync. destruct (_ || _); cbn; eauto.
Qed.

(** The book refuses a decoded log for three reasons only: it lacks a
    transaction hash or an index, it is the removal of a log never applied, or it
    reports reserves or a price no pool can have. The decoder never leaves out a field
    the book needs. *)
Theorem ingested_log_errors raw metadata log b e b' :
  to_log raw metadata = Ok log → book_apply_log b log = (Err e, b') →
  e = MissingLogIdentity ∨ (∃ hash index, e = MissingRevertSnapshot hash index) ∨
  ∃ reason, e = InvalidPool reason.
Proof.
  intros Hlog. destruct (to_log_ok raw metadata) as (log' & Hlog' & _ & _ & _ & _ & _ & _ & Hd).
  rewrite Hlog in Hlog'. injection Hlog' as <-. unfold book_apply_log.
  destruct (log_address log); [|done]. cbv zeta. destruct (pools b !! _) as [[p|p]|]; [| |done].
  - unfold apply_v2_log, applied_log_key. destruct (log_decoded_event log) as [d|] eqn:He; [|done].
    pose proof (v2_apply_complete p log) as Hv2. rewrite He in Hv2.
    specialize (Hv2 ltac:(intros; by apply Hd)).
    destruct (dl_kind d); try done. destruct (md_tx_hash _) as [h|]; cbn [ok_or mbind res_bind];
      [|intros [= <- _]; by left].
    destruct (log_log_index log) as [i|]; cbn [ok_or mbind res_bind mret res_ret];
      [|intros [= <- _]; by left].
    destruct (default false _); [destruct (_ !! (h, i)); [done|]; intros [= <- _]; eauto|].
    destruct (v2_apply_log p log) as [[o p']| |]; [done| |done]. intros [= <- _]. eauto.
  - unfold v3_apply_log. destruct (log_address log) as [a'|]; [|done].
    destruct (negb _); [done|].
    destruct (log_decoded_event log) as [d|] eqn:He; [|done].
    destruct (dl_kind d) eqn:Hk; try done.
    destruct (apply_v3_swap_complete p d Hk (proj2 (Hd d eq_refl))) as (? & ? & ? & _ & _ & _ & ->).
    case_bool_decide; [done|]. intros [= <- _]. eauto.
Qed.
End book.
