(* ===== verification/RawTx.v ===== *)
(** The decoding of raw messages, second part (crate [ingest],
    [raw/transaction.rs]): a transaction message, its selector and the swap it calls.

    The ABI decoder of alloy is the class [SolCall], one instance for each call
    declared by the source's [sol!] block; the source's traits over the calls are
    classes with the same instances. *)

From S2P Require Import Prelude RustStr Types Registry RawLog.
#[local] Open Scope Z_scope.

(** ** The calls of the [sol!] block *)

Record swapExactTokensForTokensCall := {
  seTT_amountIn : Z;
  seTT_amountOutMin : Z;
  seTT_path : list AlloyAddress;
  seTT_to : AlloyAddress;
  seTT_deadline : Z }.

Record swapTokensForExactTokensCall := {
  sTeT_amountOut : Z;
  sTeT_amountInMax : Z;
  sTeT_path : list AlloyAddress;
  sTeT_to : AlloyAddress;
  sTeT_deadline : Z }.

Record swapExactETHForTokensCall := {
  seET_amountOutMin : Z;
  seET_path : list AlloyAddress;
  seET_to : AlloyAddress;
  seET_deadline : Z }.

Record swapETHForExactTokensCall := {
  sEeT_amountOut : Z;
  sEeT_path : list AlloyAddress;
  sEeT_to : AlloyAddress;
  sEeT_deadline : Z }.

Record swapExactTokensForETHCall := {
  seTE_amountIn : Z;
  seTE_amountOutMin : Z;
  seTE_path : list AlloyAddress;
  seTE_to : AlloyAddress;
  seTE_deadline : Z }.

Record swapTokensForExactETHCall := {
  sTeE_amountOut : Z;
  sTeE_amountInMax : Z;
  sTeE_path : list AlloyAddress;
  sTeE_to : AlloyAddress;
  sTeE_deadline : Z }.

Record swapExactTokensForTokensSupportingFeeOnTransferTokensCall := {
  seTTf_amountIn : Z;
  seTTf_amountOutMin : Z;
  seTTf_path : list AlloyAddress;
  seTTf_to : AlloyAddress;
  seTTf_deadline : Z }.

Record swapExactETHForTokensSupportingFeeOnTransferTokensCall := {
  seETf_amountOutMin : Z;
  seETf_path : list AlloyAddress;
  seETf_to : AlloyAddress;
  seETf_deadline : Z }.

Record swapExactTokensForETHSupportingFeeOnTransferTokensCall := {
  seTEf_amountIn : Z;
  seTEf_amountOutMin : Z;
  seTEf_path : list AlloyAddress;
  seTEf_to : AlloyAddress;
  seTEf_deadline : Z }.

Record ExactInputSingleParams := {
  eis_tokenIn : AlloyAddress;
  eis_tokenOut : AlloyAddress;
  eis_fee : Z;
  eis_recipient : AlloyAddress;
  eis_deadline : Z;
  eis_amountIn : Z;
  eis_amountOutMinimum : Z;
  eis_sqrtPriceLimitX96 : Z }.

Record ExactInputParams := {
  ei_path : list Z;
  ei_recipient : AlloyAddress;
  ei_deadline : Z;
  ei_amountIn : Z;
  ei_amountOutMinimum : Z }.

Record ExactOutputSingleParams := {
  eos_tokenIn : AlloyAddress;
  eos_tokenOut : AlloyAddress;
  eos_fee : Z;
  eos_recipient : AlloyAddress;
  eos_deadline : Z;
  eos_amountOut : Z;
  eos_amountInMaximum : Z;
  eos_sqrtPriceLimitX96 : Z }.

Record ExactOutputParams := {
  eo_path : list Z;
  eo_recipient : AlloyAddress;
  eo_deadline : Z;
  eo_amountOut : Z;
  eo_amountInMaximum : Z }.

Record exactInputSingleCall := { eis_params : ExactInputSingleParams }.
Record exactInputCall := { ei_params : ExactInputParams }.
Record exactOutputSingleCall := { eos_params : ExactOutputSingleParams }.
Record exactOutputCall := { eo_params : ExactOutputParams }.

(** [T::abi_decode(data, true).ok()]. *)
Class SolCall (T : Type) := { abi_decode : list Z → option T }.

Class AlloyCalls := {
  sol_swapExactTokensForTokens :: SolCall swapExactTokensForTokensCall;
  sol_swapTokensForExactTokens :: SolCall swapTokensForExactTokensCall;
  sol_swapExactETHForTokens :: SolCall swapExactETHForTokensCall;
  sol_swapETHForExactTokens :: SolCall swapETHForExactTokensCall;
  sol_swapExactTokensForETH :: SolCall swapExactTokensForETHCall;
  sol_swapTokensForExactETH :: SolCall swapTokensForExactETHCall;
  sol_swapExactTokensForTokensSupportingFeeOnTransferTokens :: SolCall swapExactTokensForTokensSupportingFeeOnTransferTokensCall;
  sol_swapExactETHForTokensSupportingFeeOnTransferTokens :: SolCall swapExactETHForTokensSupportingFeeOnTransferTokensCall;
  sol_swapExactTokensForETHSupportingFeeOnTransferTokens :: SolCall swapExactTokensForETHSupportingFeeOnTransferTokensCall;
  sol_exactInputSingle :: SolCall exactInputSingleCall;
  sol_exactInput :: SolCall exactInputCall;
  sol_exactOutputSingle :: SolCall exactOutputSingleCall;
  sol_exactOutput :: SolCall exactOutputCall;
  address_from_slice : list Z → option AlloyAddress }.  (* [None] is a panic *)

(** [Address::from_slice] takes slices of twenty bytes. *)
Class AlloyCallsLaws (A : AlloyCalls) : Prop := {
  address_from_slice_law bytes : length bytes = 20%nat → address_from_slice bytes = Some bytes }.

(** ** The transaction message *)

Record RawTransactionMessage := {
  rt_tx_hash : option TxHash;
  rt_from : option Address;
  rt_to : option Address;
  rt_value : option string;
  rt_input : option string;
  rt_block_hash : option BlockHash;
  rt_block_number : option Z }.               (* u64 *)

Record TransactionDecode := {
  td_selector : option Selector;
  td_protocol : option Protocol.Protocol;
  td_exchange : option Exchange.Exchange;
  td_decoded_swap : option DecodedSwap }.

Definition tx_from_value `{Json} (value : Value) : option RawTransactionMessage :=
  object ← as_object value;
  Some {| rt_tx_hash := string_field object "hash";
          rt_from := string_field object "from";
          rt_to := string_field object "to";
          rt_value := string_field object "value";
          rt_input := string_field object "input";
          rt_block_hash := string_field object "blockHash";
          rt_block_number := u64_field object "blockNumber" |}.

Definition tx_block_context (self : RawTransactionMessage) : BlockContext :=
  match rt_block_number self with
  | Some number => Block_ number (rt_block_hash self)
  | None => Pending
  end.

(** The first eight digits; slicing a string inside a character panics. *)
Definition selector (self : RawTransactionMessage) : outcome (option Selector) :=
  ok (
    input ← try_opt (rt_input self);
    let hex := strip_0x_or_self (trim input) in
    if str_len hex <? 8 then Err tt else
    selector ← str_slice_to 8 hex;
    if negb (str_all is_ascii_hexdigit selector) then Err tt
    else Ok ("0x" +:+ to_ascii_lowercase selector)).

Definition parse_amount_string (raw : string) : option Z :=
  match strip_prefix "0x" raw with
  | Some hex => result_ok (from_str_radix 128 16 hex)
  | None => result_ok (parse_uint 128 raw)
  end.

Definition slice_get (l : list Z) (a b : nat) : option (list Z) :=
  if (a <=? b)%nat && (b <=? length l)%nat then Some (take (b - a) (drop a l)) else None.

Section decode.
Context {A : AlloyEvents} {C : AlloyCalls}.

Definition decode_calldata (input : string) : option (list Z) :=
  hex_decode (default (trim input) (strip_prefix "0x" (trim input))).

Definition decode_v2_path (path : list AlloyAddress) : option (Address * Address) :=
  first ← head path;
  last ← last path;
  Some (format_address first, format_address last).

Definition from_slice {E : Type} (bytes : list Z) : res E AlloyAddress :=
  match address_from_slice bytes with Some a => Ok a | None => Panic end.

Definition decode_v3_path (path : list Z) (reverse : bool) : res unit (Address * Address) :=
  if (length path <? 43)%nat || negb ((length path - 20) mod 23 =? 0)%nat then Err tt else
  first_slice ← try_opt (slice_get path 0 20);
  first ← from_slice first_slice;
  let last_start := (length path - 20)%nat in
  last_slice ← try_opt (slice_get path last_start (length path));
  last ← from_slice last_slice;
  if reverse then Ok (format_address last, format_address first)
  else Ok (format_address first, format_address last).

(** *** The traits over the V2 calls *)

Class V2ExactInputCall (T : Type) := {
  abi_decode_exact_input : list Z → option (Z * Z * list AlloyAddress * AlloyAddress) }.

Class V2ExactEthInputCall (T : Type) := {
  abi_decode_exact_eth_input : list Z → option (Z * list AlloyAddress * AlloyAddress) }.

Class V2ExactOutputCall (T : Type) := {
  abi_decode_exact_output : list Z → option (Z * Z * list AlloyAddress * AlloyAddress) }.

Class V2ExactEthOutputCall (T : Type) := {
  abi_decode_exact_eth_output : list Z → option (Z * list AlloyAddress * AlloyAddress) }.

#[export] Instance swapExactTokensForTokens_V2ExactInputCall : V2ExactInputCall swapExactTokensForTokensCall := {|
  abi_decode_exact_input data :=
    call ← abi_decode (T:=swapExactTokensForTokensCall) data;
    amountIn ← uint_try_into_u128 (seTT_amountIn call);
    amountOutMin ← uint_try_into_u128 (seTT_amountOutMin call);
    Some (amountIn, amountOutMin, seTT_path call, seTT_to call) |}.

#[export] Instance swapExactTokensForTokensSupportingFeeOnTransferTokens_V2ExactInputCall : V2ExactInputCall swapExactTokensForTokensSupportingFeeOnTransferTokensCall := {|
  abi_decode_exact_input data :=
    call ← abi_decode (T:=swapExactTokensForTokensSupportingFeeOnTransferTokensCall) data;
    amountIn ← uint_try_into_u128 (seTTf_amountIn call);
    amountOutMin ← uint_try_into_u128 (seTTf_amountOutMin call);
    Some (amountIn, amountOutMin, seTTf_path call, seTTf_to call) |}.

#[export] Instance swapExactTokensForETH_V2ExactInputCall : V2ExactInputCall swapExactTokensForETHCall := {|
  abi_decode_exact_input data :=
    call ← abi_decode (T:=swapExactTokensForETHCall) data;
    amountIn ← uint_try_into_u128 (seTE_amountIn call);
    amountOutMin ← uint_try_into_u128 (seTE_amountOutMin call);
    Some (amountIn, amountOutMin, seTE_path call, seTE_to call) |}.

#[export] Instance swapExactTokensForETHSupportingFeeOnTransferTokens_V2ExactInputCall : V2ExactInputCall swapExactTokensForETHSupportingFeeOnTransferTokensCall := {|
  abi_decode_exact_input data :=
    call ← abi_decode (T:=swapExactTokensForETHSupportingFeeOnTransferTokensCall) data;
    amountIn ← uint_try_into_u128 (seTEf_amountIn call);
    amountOutMin ← uint_try_into_u128 (seTEf_amountOutMin call);
    Some (amountIn, amountOutMin, seTEf_path call, seTEf_to call) |}.

#[export] Instance swapExactETHForTokens_V2ExactEthInputCall : V2ExactEthInputCall swapExactETHForTokensCall := {|
  abi_decode_exact_eth_input data :=
    call ← abi_decode (T:=swapExactETHForTokensCall) data;
    amountOutMin ← uint_try_into_u128 (seET_amountOutMin call);
    Some (amountOutMin, seET_path call, seET_to call) |}.

#[export] Instance swapExactETHForTokensSupportingFeeOnTransferTokens_V2ExactEthInputCall : V2ExactEthInputCall swapExactETHForTokensSupportingFeeOnTransferTokensCall := {|
  abi_decode_exact_eth_input data :=
    call ← abi_decode (T:=swapExactETHForTokensSupportingFeeOnTransferTokensCall) data;
    amountOutMin ← uint_try_into_u128 (seETf_amountOutMin call);
    Some (amountOutMin, seETf_path call, seETf_to call) |}.

#[export] Instance swapTokensForExactTokens_V2ExactOutputCall : V2ExactOutputCall swapTokensForExactTokensCall := {|
  abi_decode_exact_output data :=
    call ← abi_decode (T:=swapTokensForExactTokensCall) data;
    amountOut ← uint_try_into_u128 (sTeT_amountOut call);
    amountInMax ← uint_try_into_u128 (sTeT_amountInMax call);
    Some (amountOut, amountInMax, sTeT_path call, sTeT_to call) |}.

#[export] Instance swapTokensForExactETH_V2ExactOutputCall : V2ExactOutputCall swapTokensForExactETHCall := {|
  abi_decode_exact_output data :=
    call ← abi_decode (T:=swapTokensForExactETHCall) data;
    amountOut ← uint_try_into_u128 (sTeE_amountOut call);
    amountInMax ← uint_try_into_u128 (sTeE_amountInMax call);
    Some (amountOut, amountInMax, sTeE_path call, sTeE_to call) |}.

#[export] Instance swapETHForExactTokens_V2ExactEthOutputCall : V2ExactEthOutputCall swapETHForExactTokensCall := {|
  abi_decode_exact_eth_output data :=
    call ← abi_decode (T:=swapETHForExactTokensCall) data;
    amountOut ← uint_try_into_u128 (sEeT_amountOut call);
    Some (amountOut, sEeT_path call, sEeT_to call) |}.

Definition decode_v2_exact_input (T : Type) `{!V2ExactInputCall T} (calldata : list Z)
    (router : option Address) (protocol : option Protocol.Protocol)
    (exchange : option Exchange.Exchange) : option DecodedSwap :=
  '(amount_in, amount_out_minimum, path, recipient) ← abi_decode_exact_input (T:=T) calldata;
  '(token_in, token_out) ← decode_v2_path path;
  Some {| ds_pool := None; ds_router := router; ds_token_in := Some token_in;
          ds_token_out := Some token_out; ds_amount_in := Some amount_in;
          ds_amount_out := None; ds_amount_in_maximum := None;
          ds_amount_out_minimum := Some amount_out_minimum; ds_exact_input := Some true;
          ds_recipient := Some (format_address recipient); ds_protocol := protocol;
          ds_exchange := exchange |}.

Definition decode_v2_exact_eth_input (T : Type) `{!V2ExactEthInputCall T} (calldata : list Z) (tx_value : option Z)
    (router : option Address) (protocol : option Protocol.Protocol)
    (exchange : option Exchange.Exchange) : option DecodedSwap :=
  '(amount_out_minimum, path, recipient) ← abi_decode_exact_eth_input (T:=T) calldata;
  '(token_in, token_out) ← decode_v2_path path;
  Some {| ds_pool := None; ds_router := router; ds_token_in := Some token_in;
          ds_token_out := Some token_out; ds_amount_in := tx_value; ds_amount_out := None;
          ds_amount_in_maximum := None; ds_amount_out_minimum := Some amount_out_minimum;
          ds_exact_input := Some true; ds_recipient := Some (format_address recipient);
          ds_protocol := protocol; ds_exchange := exchange |}.

Definition decode_v2_exact_output (T : Type) `{!V2ExactOutputCall T} (calldata : list Z)
    (router : option Address) (protocol : option Protocol.Protocol)
    (exchange : option Exchange.Exchange) : option DecodedSwap :=
  '(amount_out, amount_in_maximum, path, recipient) ← abi_decode_exact_output (T:=T) calldata;
  '(token_in, token_out) ← decode_v2_path path;
  Some {| ds_pool := None; ds_router := router; ds_token_in := Some token_in;
          ds_token_out := Some token_out; ds_amount_in := None;
          ds_amount_out := Some amount_out; ds_amount_in_maximum := Some amount_in_maximum;
          ds_amount_out_minimum := None; ds_exact_input := Some false;
          ds_recipient := Some (format_address recipient); ds_protocol := protocol;
          ds_exchange := exchange |}.

Definition decode_v2_exact_eth_output (T : Type) `{!V2ExactEthOutputCall T} (calldata : list Z) (tx_value : option Z)
    (router : option Address) (protocol : option Protocol.Protocol)
    (exchange : option Exchange.Exchange) : option DecodedSwap :=
  '(amount_out, path, recipient) ← abi_decode_exact_eth_output (T:=T) calldata;
  '(token_in, token_out) ← decode_v2_path path;
  Some {| ds_pool := None; ds_router := router; ds_token_in := Some token_in;
          ds_token_out := Some token_out; ds_amount_in := None;
          ds_amount_out := Some amount_out; ds_amount_in_maximum := tx_value;
          ds_amount_out_minimum := None; ds_exact_input := Some false;
          ds_recipient := Some (format_address recipient); ds_protocol := protocol;
          ds_exchange := exchange |}.

Definition decode_v3_exact_input_single (calldata : list Z)
    (router : option Address) (protocol : option Protocol.Protocol)
    (exchange : option Exchange.Exchange) : res unit DecodedSwap :=
  call ← try_opt (abi_decode (T:=exactInputSingleCall) calldata);
  let params := eis_params call in
  amount_in ← try_opt (uint_try_into_u128 (eis_amountIn params));
  amount_out_minimum ← try_opt (uint_try_into_u128 (eis_amountOutMinimum params));
  Ok {| ds_pool := None; ds_router := router;
        ds_token_in := Some (format_address (eis_tokenIn params));
        ds_token_out := Some (format_address (eis_tokenOut params));
        ds_amount_in := Some amount_in; ds_amount_out := None; ds_amount_in_maximum := None;
        ds_amount_out_minimum := Some amount_out_minimum; ds_exact_input := Some true;
        ds_recipient := Some (format_address (eis_recipient params));
        ds_protocol := protocol; ds_exchange := exchange |}.

Definition decode_v3_exact_input (calldata : list Z)
    (router : option Address) (protocol : option Protocol.Protocol)
    (exchange : option Exchange.Exchange) : res unit DecodedSwap :=
  call ← try_opt (abi_decode (T:=exactInputCall) calldata);
  let params := ei_params call in
  '(token_in, token_out) ← decode_v3_path (ei_path params) false;
  amount_in ← try_opt (uint_try_into_u128 (ei_amountIn params));
  amount_out_minimum ← try_opt (uint_try_into_u128 (ei_amountOutMinimum params));
  Ok {| ds_pool := None; ds_router := router; ds_token_in := Some token_in;
        ds_token_out := Some token_out; ds_amount_in := Some amount_in;
        ds_amount_out := None; ds_amount_in_maximum := None;
        ds_amount_out_minimum := Some amount_out_minimum; ds_exact_input := Some true;
        ds_recipient := Some (format_address (ei_recipient params)); ds_protocol := protocol;
        ds_exchange := exchange |}.

Definition decode_v3_exact_output_single (calldata : list Z)
    (router : option Address) (protocol : option Protocol.Protocol)
    (exchange : option Exchange.Exchange) : res unit DecodedSwap :=
  call ← try_opt (abi_decode (T:=exactOutputSingleCall) calldata);
  let params := eos_params call in
  amount_out ← try_opt (uint_try_into_u128 (eos_amountOut params));
  amount_in_maximum ← try_opt (uint_try_into_u128 (eos_amountInMaximum params));
  Ok {| ds_pool := None; ds_router := router;
        ds_token_in := Some (format_address (eos_tokenIn params));
        ds_token_out := Some (format_address (eos_tokenOut params)); ds_amount_in := None;
        ds_amount_out := Some amount_out; ds_amount_in_maximum := Some amount_in_maximum;
        ds_amount_out_minimum := None; ds_exact_input := Some false;
        ds_recipient := Some (format_address (eos_recipient params));
        ds_protocol := protocol; ds_exchange := exchange |}.

Definition decode_v3_exact_output (calldata : list Z)
    (router : option Address) (protocol : option Protocol.Protocol)
    (exchange : option Exchange.Exchange) : res unit DecodedSwap :=
  call ← try_opt (abi_decode (T:=exactOutputCall) calldata);
  let params := eo_params call in
  '(token_in, token_out) ← decode_v3_path (eo_path params) true;
  amount_out ← try_opt (uint_try_into_u128 (eo_amountOut params));
  amount_in_maximum ← try_opt (uint_try_into_u128 (eo_amountInMaximum params));
  Ok {| ds_pool := None; ds_router := router; ds_token_in := Some token_in;
        ds_token_out := Some token_out; ds_amount_in := None;
        ds_amount_out := Some amount_out; ds_amount_in_maximum := Some amount_in_maximum;
        ds_amount_out_minimum := None; ds_exact_input := Some false;
        ds_recipient := Some (format_address (eo_recipient params)); ds_protocol := protocol;
        ds_exchange := exchange |}.

Definition decode_swap (self : RawTransactionMessage) (selector : option string)
    (protocol : option Protocol.Protocol) (exchange : option Exchange.Exchange) :
    outcome (option DecodedSwap) :=
  ok (
    selector ← try_opt selector;
    input ← try_opt (rt_input self);
    calldata ← try_opt (decode_calldata input);
    let router := rt_to self in
    let tx_value := rt_value self ≫= parse_amount_string in
    if bool_decide (selector = "0x38ed1739") then
      try_opt (decode_v2_exact_input swapExactTokensForTokensCall
        calldata router protocol exchange) else
    if bool_decide (selector = "0x5c11d795") then
      try_opt (decode_v2_exact_input swapExactTokensForTokensSupportingFeeOnTransferTokensCall
        calldata router protocol exchange) else
    if bool_decide (selector = "0x18cbafe5") then
      try_opt (decode_v2_exact_input swapExactTokensForETHCall
        calldata router protocol exchange) else
    if bool_decide (selector = "0x791ac947") then
      try_opt (decode_v2_exact_input swapExactTokensForETHSupportingFeeOnTransferTokensCall
        calldata router protocol exchange) else
    if bool_decide (selector = "0x7ff36ab5") then
      try_opt (decode_v2_exact_eth_input swapExactETHForTokensCall
        calldata tx_value router protocol exchange) else
    if bool_decide (selector = "0xb6f9de95") then
      try_opt (decode_v2_exact_eth_input swapExactETHForTokensSupportingFeeOnTransferTokensCall
        calldata tx_value router protocol exchange) else
    if bool_decide (selector = "0x8803dbee") then
      try_opt (decode_v2_exact_output swapTokensForExactTokensCall
        calldata router protocol exchange) else
    if bool_decide (selector = "0x4a25d94a") then
      try_opt (decode_v2_exact_output swapTokensForExactETHCall
        calldata router protocol exchange) else
    if bool_decide (selector = "0xfb3bdb41") then
      try_opt (decode_v2_exact_eth_output swapETHForExactTokensCall
        calldata tx_value router protocol exchange) else
    if bool_decide (selector = "0x414bf389") then
      decode_v3_exact_input_single calldata router protocol exchange else
    if bool_decide (selector = "0xc04b8d59") then
      decode_v3_exact_input calldata router protocol exchange else
    if bool_decide (selector = "0xdb3e2198") then
      decode_v3_exact_output_single calldata router protocol exchange else
    if bool_decide (selector = "0xf28c0498") then
      decode_v3_exact_output calldata router protocol exchange else
    Err tt).

Definition tx_decode (self : RawTransactionMessage) : outcome TransactionDecode :=
  selector ← selector self;
  let resolution := resolve_transaction selector (rt_to self) in
  decoded_swap ← decode_swap self selector (rm_protocol resolution) (rm_exchange resolution);
  Ok {| td_protocol := rm_protocol resolution;
        td_exchange := rm_exchange resolution;
        td_selector := selector;
        td_decoded_swap := decoded_swap |}.

Definition to_transaction (self : RawTransactionMessage) (metadata : Metadata) :
    outcome Transaction :=
  decoded ← tx_decode self;
  Ok {| tx_metadata := metadata;
        tx_from := rt_from self;
        tx_to := rt_to self;
        tx_value := rt_value self;
        tx_input := rt_input self;
        tx_selector := td_selector decoded;
        tx_decoded_swap := td_decoded_swap decoded;
        tx_protocol := td_protocol decoded;
        tx_exchange := td_exchange decoded |}.
End decode.

(** ** V3 paths *)

(** The encoding of a V3 path: a token, then a fee of three bytes and a token for
    each hop. *)
Fixpoint encode_hops (hops : list (list Z * AlloyAddress)) : list Z :=
  match hops with
  | [] => []
  | (fee, token) :: hops => fee ++ token ++ encode_hops hops
  end.

Definition encode_v3_path (first : AlloyAddress) (hops : list (list Z * AlloyAddress)) : list Z :=
  first ++ encode_hops hops.

Definition hop_wf (hop : list Z * AlloyAddress) : Prop :=
  length hop.1 = 3%nat ∧ length hop.2 = 20%nat.

Lemma encode_hops_length hops : Forall hop_wf hops →
  length (encode_hops hops) = (23 * length hops)%nat.
Proof.
  induction 1 as [|[fee token] hops [Hf Ht] _ IH]; cbn in *; [done|].
  rewrite !length_app, IH, Hf, Ht. lia.
Qed.

(** Any list of the right length is the encoding of hops. *)
Lemma encode_hops_complete n l : length l = (23 * n)%nat →
  ∃ hops, l = encode_hops hops ∧ Forall hop_wf hops ∧ length hops = n.
Proof.
  revert l. induction n as [|n IH]; intros l Hl.
  { exists []. split_and!; [by apply nil_length_inv; lia|constructor|done]. }
  destruct (IH (drop 23 l)) as (hops & Hd & Hwf & Hn); [rewrite length_drop; lia|].
  exists ((take 3 l, take 20 (drop 3 l)) :: hops). cbn. rewrite <- Hd. split_and!; [| |lia].
  - replace (drop 23 l) with (drop 20 (drop 3 l)) by (by rewrite drop_drop).
    by rewrite !take_drop.
  - constructor; [|done]. split; cbn; rewrite length_take, ?length_drop; lia.
Qed.

Section properties.
Context {A : AlloyEvents} {HA : AlloyEventsLaws A} {C : AlloyCalls} {HC : AlloyCallsLaws C}.

Lemma last_hop_suffix hops fee token :
  ∃ pre, encode_hops (hops ++ [(fee, token)]) = pre ++ token.
Proof.
  induction hops as [|[f t] hops [pre IH]]; cbn.
  - exists fee. by rewrite app_nil_r.
  - exists (f ++ t ++ pre). by rewrite IH, !app_assoc.
Qed.

Lemma decode_v3_path_encode first hops fee last reverse :
  length first = 20%nat → Forall hop_wf (hops ++ [(fee, last)]) →
  decode_v3_path (encode_v3_path first (hops ++ [(fee, last)])) reverse =
    Ok (if reverse then (format_address last, format_address first)
        else (format_address first, format_address last)).
Proof.
  intros Hf Hwf. unfold encode_v3_path.
  pose proof (encode_hops_length _ Hwf) as Hlen. rewrite length_app in Hlen. cbn in Hlen.
  assert (length last = 20%nat) as Hlast by (apply Forall_app in Hwf as [_ Hwf]; by inv Hwf as [|?? []]).
  destruct (last_hop_suffix hops fee last) as [pre Hpre].
  assert (length (first ++ encode_hops (hops ++ [(fee, last)])) = 20 + 23 * (length hops + 1))%nat
    as Hpl by (by rewrite length_app, Hlen, Hf).
  unfold decode_v3_path. cbv zeta. rewrite Hpl.
  replace ((20 + 23 * (length hops + 1) <? 43)%nat) with false
    by (symmetry; apply Nat.ltb_ge; lia).
  replace (20 + 23 * (length hops + 1) - 20)%nat with ((length hops + 1) * 23)%nat by lia.
  rewrite Nat.Div0.mod_mul. cbn [Nat.eqb negb orb].
  assert (slice_get (first ++ encode_hops (hops ++ [(fee, last)])) 0 20 = Some first) as ->.
  { unfold slice_get. rewrite Hpl.
    replace (20 <=? 20 + 23 * (length hops + 1))%nat with true by (symmetry; apply Nat.leb_le; lia).
    rewrite drop_0, Nat.sub_0_r, take_app_length' by done. done. }
  assert (slice_get (first ++ encode_hops (hops ++ [(fee, last)])) ((length hops + 1) * 23)
    (20 + 23 * (length hops + 1)) = Some last) as ->.
  { unfold slice_get. rewrite Hpl, Nat.leb_refl.
    replace ((length hops + 1) * 23 <=? 20 + 23 * (length hops + 1))%nat with true
      by (symmetry; apply Nat.leb_le; lia).
    cbn [andb]. rewrite Hpre, app_assoc.
    assert (length pre + 20 = 23 * (length hops + 1))%nat as Hprel
      by (rewrite Hpre, length_app in Hlen; lia).
    rewrite drop_app_length' by (rewrite length_app; lia). rewrite take_ge by lia. done. }
  cbn [ok_or mbind res_bind]. unfold from_slice.
  rewrite (address_from_slice_law first), (address_from_slice_law last) by done.
  cbn [mbind res_bind]. by destruct reverse.
Qed.

(** Either the length is not that of a path, or the bytes encode one. *)
Lemma decode_v3_path_cases path reverse :
  decode_v3_path path reverse = Err tt ∨
  ∃ first hops fee last, length first = 20%nat ∧ Forall hop_wf (hops ++ [(fee, last)]) ∧
    path = encode_v3_path first (hops ++ [(fee, last)]).
Proof.
  unfold decode_v3_path. destruct ((length path <? 43)%nat) eqn:Hlen; [by left|].
  destruct ((length path - 20) mod 23 =? 0)%nat eqn:Hmod; cbn [negb orb]; [right|by left].
  apply Nat.ltb_ge in Hlen. apply Nat.eqb_eq, Nat.Div0.div_exact in Hmod.
  destruct (encode_hops_complete _ (drop 20 path)
    ltac:(rewrite length_drop; exact Hmod)) as (hops & Hd & Hwf & Hn).
  destruct hops as [|hop hops] using rev_ind.
  { rewrite length_nil in Hn. rewrite <- Hn in Hmod. lia. }
  destruct hop as [fee last]. exists (take 20 path), hops, fee, last. split_and!; [|done|].
  - rewrite length_take. lia.
  - unfold encode_v3_path. by rewrite <- Hd, take_drop.
Qed.

Lemma decode_v3_path_no_panic path reverse : decode_v3_path path reverse ≠ Panic.
Proof.
  destruct (decode_v3_path_cases path reverse) as [->|(first & hops & fee & last & Hf & Hw & ->)];
    [done|]. by rewrite decode_v3_path_encode.
Qed.

(** C29. A V3 path is decoded exactly when it is the encoding of a token followed by
    one or more hops, and then to its two end tokens, exchanged for an exact-output
    path, which lists the hops from the last; the decoder never panics. *)
Theorem decode_v3_path_exact path reverse tokens :
  decode_v3_path path reverse ≠ Panic ∧
  (decode_v3_path path reverse = Ok tokens ↔
   ∃ first hops fee last, length first = 20%nat ∧ Forall hop_wf (hops ++ [(fee, last)]) ∧
     path = encode_v3_path first (hops ++ [(fee, last)]) ∧
     tokens = if reverse then (format_address last, format_address first)
              else (format_address first, format_address last)).
Proof.
  split.
  - apply decode_v3_path_no_panic.
  - split.
    + intros Hok. destruct (decode_v3_path_cases path reverse)
        as [He|(first & hops & fee & last & Hf & Hw & ->)]; [by rewrite He in Hok|].
      exists first, hops, fee, last. split_and!; [done..|].
      rewrite decode_v3_path_encode in Hok by done. by injection Hok.
    + intros (first & hops & fee & last & Hf & Hw & -> & ->). by apply decode_v3_path_encode.
Qed.

(** ** Decoded swaps *)

(** An exact-input swap gives the input and the least output, an exact-output swap
    the output and the most input; a payable call takes the input from the value of the
    transaction, which may be absent. *)
Record swap_wf (raw : RawTransactionMessage) (s : DecodedSwap) : Prop := {
  sw_router : ds_router s = rt_to raw;
  sw_tokens : is_Some (ds_token_in s) ∧ is_Some (ds_token_out s) ∧ is_Some (ds_recipient s);
  sw_amounts : ∃ exact limit, uint 128 limit ∧ (∀ n, exact = Some n → uint 128 n) ∧
    ((ds_exact_input s = Some true ∧ ds_amount_in s = exact ∧ ds_amount_out s = None ∧
      ds_amount_in_maximum s = None ∧ ds_amount_out_minimum s = Some limit) ∨
     (ds_exact_input s = Some false ∧ ds_amount_in s = None ∧ ds_amount_out s = Some limit ∧
      ds_amount_in_maximum s = exact ∧ ds_amount_out_minimum s = None)) }.

Definition swap_spec (raw : RawTransactionMessage) (protocol : option Protocol.Protocol)
    (exchange : option Exchange.Exchange) (r : res unit DecodedSwap) : Prop :=
  r ≠ Panic ∧ ∀ s, r = Ok s → swap_wf raw s ∧ ds_protocol s = protocol ∧ ds_exchange s = exchange.

Lemma parse_amount_string_range s n : parse_amount_string s = Some n → uint 128 n.
Proof.
  unfold parse_amount_string, result_ok. destruct (strip_prefix _ _);
    case_match eqn:He; intros [= <-]; eapply from_str_radix_range in He; done.
Qed.

Lemma tx_value_range raw n : rt_value raw ≫= parse_amount_string = Some n → uint 128 n.
Proof. destruct (rt_value raw); cbn; [apply parse_amount_string_range|done]. Qed.

(** Opens the binds of an [Option] and keeps the range of each converted amount. *)
Ltac inv_opt :=
  repeat match goal with
  | H : mbind _ _ = Some _ |- _ => apply bind_Some in H as (? & ? & H)
  | H : Some _ = Some _ |- _ => injection H as H; subst
  | H : (_, _) = (_, _) |- _ => injection H as ?; subst
  | x : _ * _ |- _ => destruct x
  | H : uint_try_into_u128 _ = Some _ |- _ => apply uint_try_into_u128_range in H
  end.

Ltac swap_fields :=
  split; [constructor; cbn; [done|by split_and!; eexists|]|done].

(** The four V2 shapes, for any call that implements the trait. *)
Lemma decode_v2_exact_input_spec T `{!V2ExactInputCall T} raw p x data :
  (∀ a b path r, abi_decode_exact_input (T:=T) data = Some (a, b, path, r) →
     uint 128 a ∧ uint 128 b) →
  swap_spec raw p x (try_opt (decode_v2_exact_input T data (rt_to raw) p x)).
Proof.
  intros Hu. split; [apply ok_or_no_panic|]. intros s Hs. apply ok_or_ok in Hs.
  unfold decode_v2_exact_input in Hs. inv_opt. edestruct Hu as [Ha Hb]; [done|]. swap_fields.
  eexists _, _. split; [exact Hb|]. split; [|left; by split_and!]. by intros ? [= <-].
Qed.

Lemma decode_v2_exact_eth_input_spec T `{!V2ExactEthInputCall T} raw p x data value :
  (∀ a path r, abi_decode_exact_eth_input (T:=T) data = Some (a, path, r) → uint 128 a) →
  (∀ n, value = Some n → uint 128 n) →
  swap_spec raw p x (try_opt (decode_v2_exact_eth_input T data value (rt_to raw) p x)).
Proof.
  intros Hu Hv. split; [apply ok_or_no_panic|]. intros s Hs. apply ok_or_ok in Hs.
  unfold decode_v2_exact_eth_input in Hs. inv_opt.
  eassert (uint 128 _) as Ha by (eapply Hu; done). swap_fields.
  eexists value, _. split; [exact Ha|]. split; [done|]. left; by split_and!.
Qed.

Lemma decode_v2_exact_output_spec T `{!V2ExactOutputCall T} raw p x data :
  (∀ a b path r, abi_decode_exact_output (T:=T) data = Some (a, b, path, r) →
     uint 128 a ∧ uint 128 b) →
  swap_spec raw p x (try_opt (decode_v2_exact_output T data (rt_to raw) p x)).
Proof.
  intros Hu. split; [apply ok_or_no_panic|]. intros s Hs. apply ok_or_ok in Hs.
  unfold decode_v2_exact_output in Hs. inv_opt. edestruct Hu as [Ha Hb]; [done|]. swap_fields.
  eexists _, _. split; [exact Ha|]. split; [|right; by split_and!]. by intros ? [= <-].
Qed.

Lemma decode_v2_exact_eth_output_spec T `{!V2ExactEthOutputCall T} raw p x data value :
  (∀ a path r, abi_decode_exact_eth_output (T:=T) data = Some (a, path, r) → uint 128 a) →
  (∀ n, value = Some n → uint 128 n) →
  swap_spec raw p x (try_opt (decode_v2_exact_eth_output T data value (rt_to raw) p x)).
Proof.
  intros Hu Hv. split; [apply ok_or_no_panic|]. intros s Hs. apply ok_or_ok in Hs.
  unfold decode_v2_exact_eth_output in Hs. inv_opt.
  eassert (uint 128 _) as Ha by (eapply Hu; done). swap_fields.
  eexists value, _. split; [exact Ha|]. split; [done|]. right; by split_and!.
Qed.

Lemma decode_v3_exact_input_single_spec raw p x data :
  swap_spec raw p x (decode_v3_exact_input_single data (rt_to raw) p x).
Proof.
  unfold decode_v3_exact_input_single. split; [by repeat (apply bind_no_panic; [auto with engine|]; intros)|].
  intros s Hs. inv_res. inv_opt. swap_fields.
  eexists _, _. split; [|split; [|left; by split_and!]; by intros ? [= <-]]. done.
Qed.

Lemma decode_v3_exact_output_single_spec raw p x data :
  swap_spec raw p x (decode_v3_exact_output_single data (rt_to raw) p x).
Proof.
  unfold decode_v3_exact_output_single. split; [by repeat (apply bind_no_panic; [auto with engine|]; intros)|].
  intros s Hs. inv_res. inv_opt. swap_fields.
  eexists _, _. split; [|split; [|right; by split_and!]; by intros ? [= <-]]. done.
Qed.

Lemma decode_v3_exact_input_spec raw p x data :
  swap_spec raw p x (decode_v3_exact_input data (rt_to raw) p x).
Proof.
  unfold decode_v3_exact_input. split.
  { repeat (apply bind_no_panic; [auto using decode_v3_path_no_panic with engine|]; intros).
    case_match. by repeat (apply bind_no_panic; [auto with engine|]; intros). }
  intros s Hs. repeat (inv_res; inv_opt). swap_fields.
  eexists _, _. split; [|split; [|left; by split_and!]; by intros ? [= <-]]. done.
Qed.

Lemma decode_v3_exact_output_spec raw p x data :
  swap_spec raw p x (decode_v3_exact_output data (rt_to raw) p x).
Proof.
  unfold decode_v3_exact_output. split.
  { repeat (apply bind_no_panic; [auto using decode_v3_path_no_panic with engine|]; intros).
    case_match. by repeat (apply bind_no_panic; [auto with engine|]; intros). }
  intros s Hs. repeat (inv_res; inv_opt). swap_fields.
  eexists _, _. split; [|split; [|right; by split_and!]; by intros ? [= <-]]. done.
Qed.

(** The selectors [decode_swap] knows, all in the table of the registry. *)
Definition swap_selectors : list string :=
  ["0x38ed1739"; "0x5c11d795"; "0x18cbafe5"; "0x791ac947"; "0x7ff36ab5"; "0xb6f9de95";
   "0x8803dbee"; "0x4a25d94a"; "0xfb3bdb41"; "0x414bf389"; "0xc04b8d59"; "0xdb3e2198";
   "0xf28c0498"]%string.

Lemma swap_selectors_registered :
  Forall (λ sel, is_Some (protocol_from_selector sel)) swap_selectors.
Proof. repeat (constructor; [vm_compute; by eexists|]). constructor. Qed.

(** The range of the amounts a call decodes, for each instance of the traits. *)
Ltac call_range := intros; cbn in *; inv_opt; by split.
Ltac call_range1 := intros; cbn in *; inv_opt; done.

Create HintDb swaps.
#[local] Hint Resolve decode_v3_exact_input_single_spec decode_v3_exact_input_spec
  decode_v3_exact_output_single_spec decode_v3_exact_output_spec : swaps.
#[local] Hint Extern 1 (swap_spec _ _ _ (try_opt (decode_v2_exact_input _ _ _ _ _))) =>
  apply decode_v2_exact_input_spec; call_range : swaps.
#[local] Hint Extern 1 (swap_spec _ _ _ (try_opt (decode_v2_exact_output _ _ _ _ _))) =>
  apply decode_v2_exact_output_spec; call_range : swaps.
#[local] Hint Extern 1 (swap_spec _ _ _ (try_opt (decode_v2_exact_eth_input _ _ _ _ _ _))) =>
  apply decode_v2_exact_eth_input_spec; [call_range1|apply tx_value_range] : swaps.
#[local] Hint Extern 1 (swap_spec _ _ _ (try_opt (decode_v2_exact_eth_output _ _ _ _ _ _))) =>
  apply decode_v2_exact_eth_output_spec; [call_range1|apply tx_value_range] : swaps.

Lemma decode_swap_ok raw sel p x :
  ∃ o, decode_swap raw sel p x = Ok o ∧
    ∀ s, o = Some s → swap_wf raw s ∧ ds_protocol s = p ∧ ds_exchange s = x ∧
      ∃ sel', sel = Some sel' ∧ sel' ∈ swap_selectors.
Proof.
  assert (∀ r : res unit DecodedSwap, swap_spec raw p x r →
    (r = Err tt ∨ ∃ sel', sel = Some sel' ∧ sel' ∈ swap_selectors) →
    ∃ o, ok r = Ok o ∧ ∀ s, o = Some s → swap_wf raw s ∧ ds_protocol s = p ∧ ds_exchange s = x ∧
      ∃ sel', sel = Some sel' ∧ sel' ∈ swap_selectors) as Harm.
  { intros r [Hp Hs] Hsel. destruct r as [s| |]; [|by eexists|done].
    destruct Hsel as [[=]|Hsel]. exists (Some s). split; [done|]. intros ? [= <-].
    destruct (Hs s eq_refl) as (? & ? & ?). by split_and!. }
  assert (swap_spec raw p x (Err tt)) as Herr by (by split).
  unfold decode_swap. apply Harm.
  - destruct sel as [sel|]; [|done]. destruct (rt_input raw) as [input|]; [|done].
    cbn [ok_or mbind res_bind option_bind]. destruct (decode_calldata input) as [data|]; [|done].
    cbn [ok_or mbind res_bind]. cbv zeta. repeat (case_bool_decide; [by auto with swaps|]). done.
  - destruct sel as [sel|]; [|by left]. destruct (rt_input raw) as [input|]; [|by left].
    cbn [ok_or mbind res_bind]. destruct (decode_calldata input) as [data|]; [|by left].
    cbn [ok_or mbind res_bind]. cbv zeta.
    repeat (case_bool_decide; [right; eexists; split; [done|]; subst;
      by apply (bool_decide_unpack _); vm_compute|]).
    by left.
Qed.

(** The ninth byte of the hexadecimal text continues a character. *)
Definition cuts_character (raw : RawTransactionMessage) : Prop :=
  ∃ input b, rt_input raw = Some input ∧
    bytes_of (strip_0x_or_self (trim input)) !! 8%nat = Some b ∧ is_continuation b = true.

Lemma bytes_of_length s : Z.of_nat (length (bytes_of s)) = str_len s.
Proof.
  unfold bytes_of, str_len. rewrite length_fmap. f_equal.
  induction s as [|c s IH]; cbn; congruence.
Qed.

Lemma selector_panics raw : selector raw = Panic ↔ cuts_character raw.
Proof.
  unfold selector, cuts_character. destruct (rt_input raw) as [input|]; cbn [ok_or mbind res_bind];
    [|naive_solver]. cbv zeta.
  set (hex := strip_0x_or_self (trim input)). pose proof (bytes_of_length hex) as Hlen.
  destruct (str_len hex <? 8) eqn:H8.
  - split; [done|]. intros (_ & b & [= <-] & Hb & _). fold hex in Hb.
    apply lookup_lt_Some in Hb. lia.
  - unfold str_slice_to. cbv zeta. rewrite Hlen.
    change (Z.of_nat 8) with 8. rewrite H8.
    destruct (bytes_of hex !! 8%nat) as [b|] eqn:Hb.
    + destruct (is_continuation b) eqn:Hc; cbn [mbind res_bind].
      * split; [|done]. intros _. by eexists _, b.
      * split; [by case_match|]. intros (_ & b' & [= <-] & Hb' & Hc').
        unfold hex in *. rewrite Hb in Hb'. simplify_eq. congruence.
    + cbn [mbind res_bind]. split; [by case_match|]. intros (_ & b' & [= <-] & Hb' & _).
      unfold hex in *. congruence.
Qed.

Lemma tx_decode_swap raw td s :
  tx_decode raw = Ok td → td_decoded_swap td = Some s →
  swap_wf raw s ∧ ds_protocol s = td_protocol td ∧ ds_exchange s = td_exchange td ∧
  is_Some (td_protocol td).
Proof.
  unfold tx_decode. destruct (selector raw) as [sel|[]|]; cbn [mbind res_bind]; [|done].
  destruct (decode_swap_ok raw sel (rm_protocol (resolve_transaction sel (rt_to raw)))
    (rm_exchange (resolve_transaction sel (rt_to raw)))) as (o & -> & Hs). cbn [mbind res_bind].
  intros [= <-] Ho. cbn [td_decoded_swap td_protocol td_exchange] in *.
  destruct (Hs s Ho) as (Hwf & Hp & Hx & sel' & -> & Hin). split_and!; [done..|].
  pose proof (proj1 (Forall_forall _ _) swap_selectors_registered sel' Hin) as [q Hq].
  unfold resolve_transaction, merge. cbn. rewrite Hq. destruct (rt_to raw ≫= _); by eexists.
Qed.

Lemma tx_decode_panics raw : tx_decode raw = Panic ↔ cuts_character raw.
Proof.
  rewrite <- selector_panics. unfold tx_decode.
  destruct (selector raw) as [sel|[]|]; cbn [mbind res_bind]; [|done].
  destruct (decode_swap_ok raw sel (rm_protocol (resolve_transaction sel (rt_to raw)))
    (rm_exchange (resolve_transaction sel (rt_to raw)))) as (o & -> & _). done.
Qed.

End properties.
