(* ===== verification/Stream.v ===== *)
(** The subscription streams (crate [ingest]: [channel], [stream], [error.rs] and
    [pipeline.rs]): the status of a stream and its events, the payload loop of a
    session, the reconnection loop with its backoff, the three streams of the node
    and the pipeline built from the configuration.

    The world behind a stream (the node, the clock, the receivers of the two
    channels) is the class [StreamIo].  A stream runs forever: each loop has a number
    of turns as fuel, and a run out of fuel is [Suspended], a prefix of the longer
    runs.  The counters of the metrics are left out. *)

From S2P Require Import Prelude RustStr Types Registry Config PoolBook RawLog RawTx.
#[local] Open Scope Z_scope.

(** ** Endpoints and errors *)

Inductive IngestEndpoint :=
| IpcEndpoint (file_path : string)
| WsEndpoint (url : string).

Definition endpoint_channel (e : IngestEndpoint) : Channel :=
  match e with IpcEndpoint _ => Ipc | WsEndpoint _ => Ws end.

(** The errors of other crates are kept as their text. *)
Inductive IngestError :=
| MissingChannelConfig (c : Channel)
| StreamFailure (stream_name message : string)
| EventDeliveryClosed
| RuntimeEventDeliveryClosed
| InvalidStreamState (stream_name message : string)
| TransportIo (e : string)
| JsonError (e : string)
| AlloyTransport (e : string)
| JsonRpc (stream_name message : string)
| InvalidPayload (stream_name message : string).

#[global] Instance IngestError_eq_dec : EqDecision IngestError.
Proof. solve_decision. Defined.

Definition debug_channel (c : Channel) : string :=
  match c with Ipc => "Ipc" | Ws => "Ws" | FlashblocksWs => "FlashblocksWs" end.

Definition show_ingest_error (e : IngestError) : string :=
  match e with
  | MissingChannelConfig c => "missing channel configuration for " +:+ debug_channel c
  | StreamFailure stream_name message => "stream `" +:+ stream_name +:+ "` failed: " +:+ message
  | EventDeliveryClosed => "failed to send normalized event to downstream consumer"
  | RuntimeEventDeliveryClosed => "failed to send runtime event to downstream consumer"
  | InvalidStreamState stream_name message =>
      "invalid stream state for `" +:+ stream_name +:+ "`: " +:+ message
  | TransportIo e => "transport io error: " +:+ e
  | JsonError e => "json decode error: " +:+ e
  | AlloyTransport e => "alloy transport error: " +:+ e
  | JsonRpc stream_name message => "json-rpc error for `" +:+ stream_name +:+ "`: " +:+ message
  | InvalidPayload stream_name message =>
      "invalid payload for `" +:+ stream_name +:+ "`: " +:+ message
  end.

Inductive StreamSubscription := Transactions | Logs | Blocks.

Definition subscription_label (subscription : StreamSubscription) : string :=
  match subscription with
  | Transactions => "new_pending_transactions"
  | Logs => "logs"
  | Blocks => "new_heads"
  end.

Record IngestStreamContext := {
  ctx_chain_id : ChainId;
  ctx_endpoint : IngestEndpoint;
  ctx_reconnect_initial_ms : Z;               (* u64 *)
  ctx_reconnect_max_ms : Z;                   (* u64 *)
  ctx_heartbeat_timeout_secs : Z }.           (* u64 *)

(** ** The state of a stream *)

(** Why a run of a stream is over: an error, or its fuel. *)
Inductive Stop := Failed (e : IngestError) | Suspended.

(** The status, the delivered events, the time slept; a receiver that is gone does
    not come back. *)
Record Stream (W : Type) := {
  sm_status : StreamStatus.StreamStatus;
  sm_events : list Event;
  sm_events_closed : bool;
  sm_runtime : list RuntimeEvent;
  sm_runtime_closed : bool;
  sm_sleeps : list Z;
  sm_world : W }.
Arguments sm_status {W} _.
Arguments sm_events {W} _.
Arguments sm_events_closed {W} _.
Arguments sm_runtime {W} _.
Arguments sm_runtime_closed {W} _.
Arguments sm_sleeps {W} _.
Arguments sm_world {W} _.

(** The world: the clock, whether the receiver of a channel is still there, the
    connection, the subscription with its identifier, the next item of the
    subscription within a timeout ([None] is the timeout, [Some None] the end of the
    stream) and an RPC request within a timeout. *)
Class StreamIo {J : Json} (W : Type) := {
  io_clock : W → Z * W;
  io_events_open : W → bool * W;
  io_runtime_open : W → bool * W;
  io_connect : W → IngestEndpoint → res string unit * W;
  io_subscribe : W → StreamSubscription → res string string * W;
  io_next : W → Z → option (option (res string Value)) * W;
  io_request : W → Z → string → string → option (res string Value) * W }.

(** The calls to the world return or fail, they do not panic. *)
Class StreamIoLaws {J : Json} {W : Type} (IO : StreamIo W) : Prop := {
  io_connect_no_panic w e : (io_connect w e).1 ≠ Panic;
  io_subscribe_no_panic w s : (io_subscribe w s).1 ≠ Panic;
  io_next_no_panic w t : (io_next w t).1 ≠ Some (Some Panic);
  io_request_no_panic w t method param : (io_request w t method param).1 ≠ Some Panic }.

Section state.
Context {W : Type}.
Abbreviation eff_stream := (eff (Stream W) Stop).

Definition fail {A : Type} (e : IngestError) : eff_stream A := lift (Err (Failed e)).

Definition with_world (s : Stream W) (w : W) : Stream W :=
  {| sm_status := sm_status s; sm_events := sm_events s; sm_events_closed := sm_events_closed s;
     sm_runtime := sm_runtime s; sm_runtime_closed := sm_runtime_closed s;
     sm_sleeps := sm_sleeps s; sm_world := w |}.

Definition on_world {A : Type} (f : W → A * W) : eff_stream A := λ s,
  let '(a, w) := f (sm_world s) in (Ok a, with_world s w).

Definition set_status (next : StreamStatus.StreamStatus) :
    eff_stream StreamStatus.StreamStatus := λ s,
  (Ok (sm_status s),
   {| sm_status := next; sm_events := sm_events s; sm_events_closed := sm_events_closed s;
      sm_runtime := sm_runtime s; sm_runtime_closed := sm_runtime_closed s;
      sm_sleeps := sm_sleeps s; sm_world := sm_world s |}).

Definition sleep_ms (ms : Z) : eff_stream unit := λ s,
  (Ok tt,
   {| sm_status := sm_status s; sm_events := sm_events s; sm_events_closed := sm_events_closed s;
      sm_runtime := sm_runtime s; sm_runtime_closed := sm_runtime_closed s;
      sm_sleeps := sm_sleeps s ++ [ms]; sm_world := sm_world s |}).

(** The result of a fallible call, as a value. *)
Definition catch {A : Type} (m : eff_stream A) : eff_stream (res Stop A) := λ s,
  match m s with
  | (Panic, s) => (Panic, s)
  | (r, s) => (Ok r, s)
  end.

(** A computation that can only return or panic. *)
Definition of_outcome {A : Type} (r : outcome A) : eff_stream A :=
  lift (map_err (λ e : Empty_set, match e with end) r).
End state.

Section stream.
Context {J : Json} {W : Type} {IO : StreamIo W}.
Abbreviation eff_stream := (eff (Stream W) Stop).

Definition current_time_ms : eff_stream Z := on_world io_clock.

(** [sender.send(..)] on the two channels. *)
Definition send_event (event : Event) : eff_stream unit := λ s,
  let '(open, w) := io_events_open (sm_world s) in
  if negb (sm_events_closed s) && open
  then (Ok tt, {| sm_status := sm_status s; sm_events := sm_events s ++ [event];
                  sm_events_closed := false; sm_runtime := sm_runtime s;
                  sm_runtime_closed := sm_runtime_closed s; sm_sleeps := sm_sleeps s;
                  sm_world := w |})
  else (Err (Failed EventDeliveryClosed),
        {| sm_status := sm_status s; sm_events := sm_events s; sm_events_closed := true;
           sm_runtime := sm_runtime s; sm_runtime_closed := sm_runtime_closed s;
           sm_sleeps := sm_sleeps s; sm_world := w |}).

Definition send_runtime (event : RuntimeEvent) : eff_stream unit := λ s,
  let '(open, w) := io_runtime_open (sm_world s) in
  if negb (sm_runtime_closed s) && open
  then (Ok tt, {| sm_status := sm_status s; sm_events := sm_events s;
                  sm_events_closed := sm_events_closed s; sm_runtime := sm_runtime s ++ [event];
                  sm_runtime_closed := false; sm_sleeps := sm_sleeps s; sm_world := w |})
  else (Err (Failed RuntimeEventDeliveryClosed),
        {| sm_status := sm_status s; sm_events := sm_events s;
           sm_events_closed := sm_events_closed s; sm_runtime := sm_runtime s;
           sm_runtime_closed := true; sm_sleeps := sm_sleeps s; sm_world := w |}).

Definition transition (channel : Channel) (chain_id : ChainId)
    (next : StreamStatus.StreamStatus) (reason : option string) : eff_stream unit :=
  previous ← set_status next;
  now ← current_time_ms;
  send_runtime (ReStreamStatus {|
    ss_block_context := Pending; ss_channel := channel; ss_observed_at_ms := now;
    ss_chain_id := chain_id; ss_previous := Some previous; ss_current := next;
    ss_reason := reason |}).

Definition emit_heartbeat (channel : Channel) (chain_id : ChainId) (message : option string) :
    eff_stream unit :=
  now ← current_time_ms;
  send_runtime (ReHeartbeat {|
    hb_block_context := Pending; hb_channel := channel; hb_observed_at_ms := now;
    hb_chain_id := chain_id; hb_message := message |}).

Definition ensure_not_stopped (name : string) : eff_stream unit := λ s,
  if bool_decide (sm_status s = StreamStatus.Stopped)
  then (Err (Failed (InvalidStreamState name "stopped stream cannot be started again")), s)
  else (Ok tt, s).

Definition decode_status (protocol : option Protocol.Protocol)
    (exchange : option Exchange.Exchange) (discriminant_present : bool) : DecodeStatus :=
  if opt_is_some protocol || opt_is_some exchange then Decoded
  else if discriminant_present then Unsupported
  else Partial.

Definition payload_size_bytes (value : Value) : res IngestError Z :=
  bytes ← map_err JsonError (to_vec value);
  Ok (Z.of_nat (length bytes)).

Definition raw_summary (message_type : RawMessageType.RawMessageType) (payload_size_bytes : Z)
    (fingerprint : option string) (subscription : StreamSubscription) : RawPayloadSummary :=
  {| rps_message_type := message_type; rps_payload_size_bytes := payload_size_bytes;
     rps_fingerprint := fingerprint;
     rps_subscription := Some (subscription_label subscription) |}.

(** ** A session of the node *)

Definition session_connect (endpoint : IngestEndpoint) : eff_stream unit :=
  r ← on_world (λ w, io_connect w endpoint);
  lift (map_err (λ e, Failed (AlloyTransport e)) r).

Definition subscribe (subscription : StreamSubscription) : eff_stream string :=
  r ← on_world (λ w, io_subscribe w subscription);
  lift (map_err (λ e, Failed (AlloyTransport e)) r).

Definition session_request (timeout_secs : Z) (stream_name method param : string) :
    eff_stream (option (res IngestError Value)) :=
  r ← on_world (λ w, io_request w timeout_secs method param);
  mret (match r with
        | Some r => Some (map_err (JsonRpc stream_name) r)
        | None => None
        end).

(** [handle.next_payload(..)] on an item that arrived. *)
Definition next_payload (stream_name : string) (item : option (res string Value)) :
    res IngestError Value :=
  match item with
  | Some (Ok value) => Ok value
  | Some (Err e) => Err (JsonError e)
  | Some Panic => Panic
  | None => Err (StreamFailure stream_name "alloy subscription stream closed")
  end.

(** What the three streams of the node differ in: the name, the subscription, the
    noun of their messages and the treatment of a payload. *)
Record StreamKind := {
  sk_name : string;
  sk_subscription : StreamSubscription;
  sk_noun : string;
  sk_payload : Value → eff_stream unit }.

Definition idle_message (name : string) (secs : Z) : string :=
  name +:+ " idle for " +:+ show_uint secs +:+ "s".

Fixpoint payload_loop (kind : StreamKind) (context : IngestStreamContext) (fuel : nat)
    (idle_intervals : Z) : eff_stream unit :=
  match fuel with
  | O => lift (Err Suspended)
  | S fuel =>
      next ← on_world (λ w, io_next w (ctx_heartbeat_timeout_secs context));
      match next with
      | Some item =>
          payload ← lift (map_err Failed (next_payload (sk_name kind) item));
          _ ← sk_payload kind payload;
          payload_loop kind context fuel 0
      | None =>
          let idle_intervals := idle_intervals + 1 in
          _ ← emit_heartbeat (endpoint_channel (ctx_endpoint context)) (ctx_chain_id context)
                (Some (idle_message (sk_name kind) (ctx_heartbeat_timeout_secs context)));
          if 2 <=? idle_intervals
          then fail (StreamFailure (sk_name kind)
                       (sk_noun kind +:+ " subscription heartbeat timeout"))
          else payload_loop kind context fuel idle_intervals
      end
  end.

Definition run_once (kind : StreamKind) (context : IngestStreamContext) (fuel : nat) :
    eff_stream unit :=
  let transition := transition (endpoint_channel (ctx_endpoint context)) (ctx_chain_id context) in
  _ ← session_connect (ctx_endpoint context);
  _ ← transition StreamStatus.Subscribing None;
  subscription_id ← subscribe (sk_subscription kind);
  _ ← transition StreamStatus.Running (Some ("subscription=" +:+ subscription_id));
  payload_loop kind context fuel 0.

(** ** The reconnection loop

    [connecting] is what the loop does before a session: the streams of the node
    announce the connection there. *)
Fixpoint reconnect_loop (transition : StreamStatus.StreamStatus → option string → eff_stream unit)
    (connecting : eff_stream unit) (session : eff_stream unit) (noun : string) (max_ms : Z)
    (fuel : nat) (backoff_ms : Z) : eff_stream unit :=
  match fuel with
  | O => lift (Err Suspended)
  | S fuel =>
      _ ← connecting;
      r ← catch session;
      match r with
      | Err (Failed error) =>
          let reason := show_ingest_error error in
          _ ← transition StreamStatus.Backoff (Some reason);
          _ ← sleep_ms backoff_ms;
          _ ← transition StreamStatus.Reconnecting (Some reason);
          reconnect_loop transition connecting session noun max_ms fuel
            (Z.min (saturating_mul 64 backoff_ms 2) max_ms)
      | Err Suspended => lift (Err Suspended)
      | _ => transition StreamStatus.Stopped (Some (noun +:+ " stream completed"))
      end
  end.

Definition stream_run (kind : StreamKind) (context : IngestStreamContext) (fuel : nat) :
    eff_stream unit :=
  let transition := transition (endpoint_channel (ctx_endpoint context)) (ctx_chain_id context) in
  _ ← ensure_not_stopped (sk_name kind);
  reconnect_loop transition (transition StreamStatus.Connecting None)
    (run_once kind context fuel) (sk_noun kind) (ctx_reconnect_max_ms context) fuel
    (ctx_reconnect_initial_ms context).

(** ** The three streams of the node *)

Section kinds.
Context {A : AlloyEvents} {C : AlloyCalls}.

Definition log_metadata_of (raw : RawLogMessage) (decoded : DecodedLogFields)
    (block_context : BlockContext) (channel : Channel) (now : Z) (chain_id : ChainId)
    (size : Z) : Metadata :=
  {| md_block_context := block_context;
     md_channel := channel;
     md_observed_at_ms := now;
     md_chain_id := chain_id;
     md_tx_hash := rl_tx_hash raw;
     md_decode_status := decode_status (dlf_protocol decoded) (dlf_exchange decoded)
       (opt_is_some (dlf_decoded_event decoded) || opt_is_some (dlf_event_signature decoded)
        || opt_is_some (rl_address raw));
     md_raw := raw_summary RawMessageType.Log size
       (opt_or (rl_tx_hash raw) (dlf_event_signature decoded)) Logs |}.

Definition log_payload (context : IngestStreamContext) (payload : Value) : eff_stream unit :=
  raw ← lift (ok_or (log_from_value payload)
    (Failed (InvalidPayload "log_stream" "log payload was not an object")));
  decoded ← of_outcome (log_decode raw);
  now ← current_time_ms;
  size ← lift (map_err Failed (payload_size_bytes payload));
  log_event ← of_outcome (to_log raw (log_metadata_of raw decoded (log_block_context raw)
    (endpoint_channel (ctx_endpoint context)) now (ctx_chain_id context) size));
  send_event (EvLog log_event).

Definition materialize_transaction (context : IngestStreamContext) (payload : Value) :
    eff_stream Value :=
  match as_str payload with
  | None => mret payload
  | Some tx_hash =>
      r ← session_request (ctx_heartbeat_timeout_secs context) "transaction_stream"
            "eth_getTransactionByHash" tx_hash;
      match r with
      | Some result => lift (map_err Failed result)
      | None => fail (StreamFailure "transaction_stream" "transaction materialization timed out")
      end
  end.

Definition is_null (value : Value) : bool :=
  match variant value with JNull => true | _ => false end.

Definition transaction_payload (context : IngestStreamContext) (payload : Value) :
    eff_stream unit :=
  materialized ← materialize_transaction context payload;
  if is_null materialized then mret tt else
  raw ← lift (ok_or (tx_from_value materialized)
    (Failed (InvalidPayload "transaction_stream" "transaction payload was not an object")));
  decoded ← of_outcome (tx_decode raw);
  now ← current_time_ms;
  size ← lift (map_err Failed (payload_size_bytes materialized));
  let metadata :=
    {| md_block_context := tx_block_context raw;
       md_channel := endpoint_channel (ctx_endpoint context);
       md_observed_at_ms := now;
       md_chain_id := ctx_chain_id context;
       md_tx_hash := rt_tx_hash raw;
       md_decode_status := decode_status (td_protocol decoded) (td_exchange decoded)
         (opt_is_some (td_selector decoded) || opt_is_some (rt_to raw));
       md_raw := raw_summary RawMessageType.Transaction size
         (opt_or (rt_tx_hash raw) (td_selector decoded)) Transactions |} in
  tx_event ← of_outcome (to_transaction raw metadata);
  send_event (EvTransaction tx_event).

Definition block_payload (context : IngestStreamContext) (payload : Value) : eff_stream unit :=
  raw ← lift (ok_or (block_from_value payload)
    (Failed (InvalidPayload "block_stream" "block payload was not an object")));
  now ← current_time_ms;
  size ← lift (map_err Failed (payload_size_bytes payload));
  let metadata :=
    {| md_block_context := block_block_context raw;
       md_channel := endpoint_channel (ctx_endpoint context);
       md_observed_at_ms := now;
       md_chain_id := ctx_chain_id context;
       md_tx_hash := None;
       md_decode_status := Decoded;
       md_raw := raw_summary RawMessageType.Block size (rb_block_hash raw) Blocks |} in
  send_event (EvBlock (to_block raw metadata)).

Definition LogStream (context : IngestStreamContext) : StreamKind :=
  {| sk_name := "log_stream"; sk_subscription := Logs; sk_noun := "log";
     sk_payload := log_payload context |}.

Definition TransactionStream (context : IngestStreamContext) : StreamKind :=
  {| sk_name := "transaction_stream"; sk_subscription := Transactions; sk_noun := "transaction";
     sk_payload := transaction_payload context |}.

Definition BlockStream (context : IngestStreamContext) : StreamKind :=
  {| sk_name := "block_stream"; sk_subscription := Blocks; sk_noun := "block";
     sk_payload := block_payload context |}.

Definition log_stream_run (context : IngestStreamContext) (fuel : nat) : eff_stream unit :=
  stream_run (LogStream context) context fuel.

Definition transaction_stream_run (context : IngestStreamContext) (fuel : nat) : eff_stream unit :=
  stream_run (TransactionStream context) context fuel.

Definition block_stream_run (context : IngestStreamContext) (fuel : nat) : eff_stream unit :=
  stream_run (BlockStream context) context fuel.
End kinds.
End stream.

(** A stream before its first run. *)
Definition idle_stream {W : Type} (w : W) : Stream W :=
  {| sm_status := StreamStatus.Idle; sm_events := []; sm_events_closed := false;
     sm_runtime := []; sm_runtime_closed := false; sm_sleeps := []; sm_world := w |}.

(** ** What a run leaves behind *)

(** The moves between the statuses of a stream; none leads to [Stopped]. *)
Inductive moves : StreamStatus.StreamStatus → StreamStatus.StreamStatus → Prop :=
| idle_connecting : moves StreamStatus.Idle StreamStatus.Connecting
| reconnecting_connecting : moves StreamStatus.Reconnecting StreamStatus.Connecting
| connecting_subscribing : moves StreamStatus.Connecting StreamStatus.Subscribing
| connecting_running : moves StreamStatus.Connecting StreamStatus.Running
| subscribing_running : moves StreamStatus.Subscribing StreamStatus.Running
| connecting_backoff : moves StreamStatus.Connecting StreamStatus.Backoff
| subscribing_backoff : moves StreamStatus.Subscribing StreamStatus.Backoff
| running_backoff : moves StreamStatus.Running StreamStatus.Backoff
| backoff_reconnecting : moves StreamStatus.Backoff StreamStatus.Reconnecting.

(** The runtime events report a path of moves, with heartbeats only while the
    stream is running. *)
Inductive status_path (start : StreamStatus.StreamStatus) :
    list RuntimeEvent → StreamStatus.StreamStatus → Prop :=
| path_start : status_path start [] start
| path_move events from e :
    status_path start events from → ss_previous e = Some from → moves from (ss_current e) →
    status_path start (events ++ [ReStreamStatus e]) (ss_current e)
| path_beat events h :
    status_path start events StreamStatus.Running →
    status_path start (events ++ [ReHeartbeat h]) StreamStatus.Running.

(** The delivered runtime events lead to the status, until their receiver is
    gone. *)
Definition stream_at {W : Type} (x : StreamStatus.StreamStatus) (s : Stream W) : Prop :=
  ∃ st, status_path StreamStatus.Idle (sm_runtime s) st ∧
    (sm_runtime_closed s = false → st = x ∧ sm_status s = x).

Lemma stream_at_closed {W : Type} x y (s : Stream W) :
  stream_at x s → sm_runtime_closed s = true → stream_at y s.
Proof. intros (st & Hp & _) Hc. exists st. split; [done|]. congruence. Qed.

(** A computation that at most delivers events, all of them with [P]. *)
Record delivers {W : Type} (P : Event → Prop) (s s' : Stream W) : Prop := {
  dv_events : ∃ new, sm_events s' = sm_events s ++ new ∧ Forall P new;
  dv_status : sm_status s' = sm_status s;
  dv_runtime : sm_runtime s' = sm_runtime s;
  dv_closed : sm_runtime_closed s' = sm_runtime_closed s;
  dv_sleeps : sm_sleeps s' = sm_sleeps s }.

#[global] Instance delivers_refl {W : Type} P : Reflexive (@delivers W P).
Proof. intros s. constructor; try done. exists []. by rewrite app_nil_r. Qed.
#[global] Instance delivers_trans {W : Type} P : Transitive (@delivers W P).
Proof.
  intros s1 s2 s3 [(n1 & He1 & Hp1) ????] [(n2 & He2 & Hp2) ????]. constructor; try congruence.
  exists (n1 ++ n2). rewrite He2, He1, app_assoc. split; [done|]. by apply Forall_app.
Qed.

Lemma delivers_stream_at {W : Type} P x (s s' : Stream W) :
  delivers P s s' → stream_at x s → stream_at x s'.
Proof.
  intros [_ Hst Hr Hc _] (st & Hp & Hx). exists st. rewrite Hr, Hc, Hst. done.
Qed.

(** The events and the sleeps only grow. *)
Record grows {W : Type} (P : Event → Prop) (s s' : Stream W) : Prop := {
  gr_events : ∃ new, sm_events s' = sm_events s ++ new ∧ Forall P new;
  gr_sleeps : sm_sleeps s' = sm_sleeps s }.

#[global] Instance grows_refl {W : Type} P : Reflexive (@grows W P).
Proof. intros s. constructor; [|done]. exists []. by rewrite app_nil_r. Qed.
#[global] Instance grows_trans {W : Type} P : Transitive (@grows W P).
Proof.
  intros s1 s2 s3 [(n1 & He1 & Hp1) ?] [(n2 & He2 & Hp2) ?]. constructor; [|congruence].
  exists (n1 ++ n2). rewrite He2, He1, app_assoc. split; [done|]. by apply Forall_app.
Qed.

Lemma delivers_grows {W : Type} P (s s' : Stream W) : delivers P s s' → grows P s s'.
Proof. by intros []. Qed.

Section runs.
Context {J : Json} {W : Type} {IO : StreamIo W}.
Abbreviation eff_stream := (eff (Stream W) Stop).
Implicit Types (s : Stream W) (P : Event → Prop).

Lemma on_world_delivers {A : Type} P (f : W → A * W) : evolves (delivers P) (on_world f).
Proof.
  intros s. unfold on_world. destruct (f (sm_world s)). constructor; try done.
  exists []. by rewrite app_nil_r.
Qed.

Lemma send_event_delivers P e : P e → evolves (delivers P) (send_event e).
Proof.
  intros He s. unfold send_event. destruct (io_events_open _) as [[] w], (sm_events_closed s);
    constructor; try done; [exists []; by rewrite app_nil_r| |exists []; by rewrite app_nil_r..].
  exists [e]. split; [done|]. by constructor.
Qed.

Lemma send_runtime_grows P e : evolves (grows P) (send_runtime e).
Proof.
  intros s. unfold send_runtime. destruct (io_runtime_open _) as [[] w], (sm_runtime_closed s);
    constructor; try done; exists []; by rewrite app_nil_r.
Qed.

Lemma delivers_evolves_grows {A : Type} P (m : eff_stream A) :
  evolves (delivers P) m → evolves (grows P) m.
Proof. intros Hm s. apply delivers_grows, Hm. Qed.

Lemma transition_grows P ch id y reason : evolves (grows P) (transition ch id y reason).
Proof.
  unfold transition. apply evolves_bind; [apply _| |intros previous].
  { intros s. constructor; [|done]. exists []. by rewrite app_nil_r. }
  apply evolves_bind; [apply _| |intros now; apply send_runtime_grows].
  apply delivers_evolves_grows, on_world_delivers.
Qed.

Lemma emit_heartbeat_grows P ch id m : evolves (grows P) (emit_heartbeat ch id m).
Proof.
  unfold emit_heartbeat. apply evolves_bind; [apply _| |intros now; apply send_runtime_grows].
  apply delivers_evolves_grows, on_world_delivers.
Qed.

(** *** The status *)

Definition closes {A : Type} (r : res Stop A) (s : Stream W) : Prop :=
  r = Err (Failed RuntimeEventDeliveryClosed) ∧ sm_runtime_closed s = true.

Lemma transition_at ch id x y reason s :
  moves x y → stream_at x s →
  wp (transition ch id y reason) (λ r s', stream_at y s' ∧ (r = Ok tt ∨ closes r s')) s.
Proof.
  intros Hxy (st & Hp & Hx). unfold transition. apply wp_bind. cbn. apply wp_bind.
  unfold wp, current_time_ms, on_world. cbn. destruct (io_clock _) as [now w]. cbn.
  unfold send_runtime. cbn. destruct (io_runtime_open w) as [[] w'], (sm_runtime_closed s) eqn:Hc;
    cbn; (split; [|first [by left|right; by split]]); [exists st; by split| |exists st; by split..].
  destruct (Hx eq_refl) as [-> Hst]. exists y. split; [|done].
  apply (path_move _ _ x {| ss_current := y |}); [done| |done]. cbn. by rewrite Hst.
Qed.

Lemma emit_heartbeat_at ch id m s :
  stream_at StreamStatus.Running s →
  wp (emit_heartbeat ch id m)
     (λ r s', stream_at StreamStatus.Running s' ∧ (r = Ok tt ∨ closes r s')) s.
Proof.
  intros (st & Hp & Hx). unfold emit_heartbeat. apply wp_bind.
  unfold wp, current_time_ms, on_world. destruct (io_clock _) as [now w]. cbn.
  unfold send_runtime. cbn. destruct (io_runtime_open w) as [[] w'], (sm_runtime_closed s) eqn:Hc;
    cbn; (split; [|first [by left|right; by split]]); [exists st; by split| |exists st; by split..].
  destruct (Hx eq_refl) as [-> Hst]. eexists. split; [by apply path_beat|done].
Qed.

Lemma delivers_at {A : Type} P x (m : eff_stream A) s :
  evolves (delivers P) m → stream_at x s → wp m (λ _ s', stream_at x s') s.
Proof. intros Hm Hx. by apply (delivers_stream_at P x s). Qed.

Lemma evolves_wp {A : Type} (R : Stream W → Stream W → Prop) (m : eff_stream A) s :
  evolves R m → wp m (λ _ s', R s s') s.
Proof. intros Hm. apply Hm. Qed.

Lemma wp_catch {A : Type} (m : eff_stream A) (Q : res Stop (res Stop A) → Stream W → Prop) s :
  wp m (λ r s', match r with Panic => Q Panic s' | _ => Q (Ok r) s' end) s → wp (catch m) Q s.
Proof. unfold wp, catch. by destruct (m s) as [[| |] s']. Qed.

(** What a session of a stream does: it starts at a given status, does not complete
    and leaves the stream connecting, subscribing or running. *)
Definition in_session (x : StreamStatus.StreamStatus) : Prop := moves x StreamStatus.Backoff.

Definition session_at (m : eff_stream unit) (x : StreamStatus.StreamStatus) : Prop :=
  ∀ s, stream_at x s → wp m (λ r s', r ≠ Ok tt ∧ ∃ y, in_session y ∧ stream_at y s') s.

Section session.
Context (kind : StreamKind (W:=W)) (context : IngestStreamContext) (P : Event → Prop).
Context (Hpayload : ∀ v, evolves (delivers P) (sk_payload kind v)).

Lemma payload_loop_grows fuel idle : evolves (grows P) (payload_loop kind context fuel idle).
Proof.
  revert idle. induction fuel as [|fuel IH]; intros idle; cbn [payload_loop].
  { apply evolves_lift, _. }
  apply evolves_bind; [apply _|apply delivers_evolves_grows, on_world_delivers|].
  intros [item|].
  - apply evolves_bind; [apply _|apply evolves_lift, _|]. intros v.
    apply evolves_bind; [apply _|by apply delivers_evolves_grows|]. intros _. apply IH.
  - apply evolves_bind; [apply _|apply emit_heartbeat_grows|]. intros _.
    case_match; [apply evolves_lift, _|apply IH].
Qed.

Lemma run_once_grows fuel : evolves (grows P) (run_once kind context fuel).
Proof.
  unfold run_once, session_connect, subscribe.
  repeat first
    [ apply payload_loop_grows | apply transition_grows | apply evolves_lift, _
    | apply delivers_evolves_grows, on_world_delivers
    | apply evolves_bind; [apply _| |intros] ].
Qed.

Lemma payload_loop_at fuel idle s :
  stream_at StreamStatus.Running s →
  wp (payload_loop kind context fuel idle)
     (λ r s', r ≠ Ok tt ∧ stream_at StreamStatus.Running s') s.
Proof.
  revert idle s. induction fuel as [|fuel IH]; intros idle s Hs; cbn [payload_loop]; [done|].
  apply wp_bind. eapply wp_mono; [|by apply (delivers_at P), Hs; apply on_world_delivers].
  intros [[item|]|e|] s1 Hs1; [| |done..].
  - apply wp_bind. unfold wp at 1, lift. cbn [fst snd].
    destruct (map_err _ _) as [v| |]; [|done..].
    apply wp_bind. eapply wp_mono; [|by apply (delivers_at P), Hs1].
    intros [[]|e|] s2 Hs2; [by apply IH|done..].
  - apply wp_bind. eapply wp_mono; [|by apply emit_heartbeat_at].
    intros [[]|e|] s2 [Hs2 _]; [|done..]. case_match; [done|by apply IH].
Qed.

Lemma run_once_session fuel : session_at (run_once kind context fuel) StreamStatus.Connecting.
Proof.
  intros s Hs. unfold run_once, session_connect, subscribe.
  assert (∀ (r : res Stop unit) s' y, r ≠ Ok tt → in_session y → stream_at y s' →
    r ≠ Ok tt ∧ ∃ y, in_session y ∧ stream_at y s') as Hend by eauto.
  assert (in_session StreamStatus.Connecting) by constructor.
  assert (in_session StreamStatus.Subscribing) by constructor.
  assert (in_session StreamStatus.Running) by constructor.
  apply wp_bind. apply wp_bind. eapply wp_mono; [|by apply (delivers_at P), Hs; apply on_world_delivers].
  intros [r| |] s1 Hs1; [|by eauto..]. unfold wp at 1, lift. cbn [fst snd].
  destruct (map_err _ r) as [[]| |]; [|by eauto..].
  apply wp_bind. eapply wp_mono; [|eapply transition_at; [apply connecting_subscribing|exact Hs1]].
  intros [[]| |] s2 [Hs2 _]; [|by eauto..].
  apply wp_bind. apply wp_bind. eapply wp_mono; [|by apply (delivers_at P), Hs2; apply on_world_delivers].
  intros [r2| |] s3 Hs3; [|by eauto..]. unfold wp at 1, lift. cbn [fst snd].
  destruct (map_err _ r2) as [id| |]; [|by eauto..].
  apply wp_bind. eapply wp_mono; [|eapply transition_at; [apply subscribing_running|exact Hs3]].
  intros [[]| |] s4 [Hs4 _]; [|by eauto..].
  eapply wp_mono; [|by apply payload_loop_at]. intros r4 s5 [? ?]. eauto.
Qed.
End session.

(** *** The reconnection loop *)

(** The sleeps of [n] turns. *)
Fixpoint backoffs (n : nat) (max_ms backoff_ms : Z) : list Z :=
  match n with
  | O => []
  | S n => backoff_ms :: backoffs n max_ms (Z.min (saturating_mul 64 backoff_ms 2) max_ms)
  end.

Lemma backoffs_lookup n max_ms b k ms :
  0 ≤ b ≤ max_ms → max_ms < 2 ^ 64 →
  backoffs n max_ms b !! k = Some ms → ms = Z.min (b * 2 ^ Z.of_nat k) max_ms.
Proof.
  intros Hb Hmax. revert b k Hb. induction n as [|n IH]; intros b k Hb; [done|].
  destruct k as [|k]; cbn.
  { intros [= <-]. lia. }
  intros Hk. unfold saturating_mul, uint_max in Hk. apply IH in Hk; [|lia]. subst ms.
  rewrite Nat2Z.inj_succ, Z.pow_succ_r by lia.
  pose proof (Z.pow_pos_nonneg 2 (Z.of_nat k) ltac:(lia) ltac:(lia)).
  replace (b * (2 * 2 ^ Z.of_nat k)) with (b * 2 * 2 ^ Z.of_nat k) by ring.
  set (p := 2 ^ Z.of_nat k) in *. destruct (decide (b * 2 ≤ max_ms)).
  - by replace (Z.min (Z.min (b * 2) (2 ^ 64 - 1)) max_ms) with (b * 2) by lia.
  - replace (Z.min (Z.min (b * 2) (2 ^ 64 - 1)) max_ms) with max_ms by lia.
    rewrite !Z.min_r by nia. done.
Qed.

Section reconnect.
Context (ch : Channel) (id : ChainId) (connecting session : eff_stream unit) (noun : string)
  (max_ms : Z) (P : Event → Prop).
Abbreviation loop := (reconnect_loop (transition ch id) connecting session noun max_ms).
Context (Hconn : evolves (grows P) connecting) (Hsess : evolves (grows P) session).

(** After a run from [s] to [s']: the events keep [P] and the sleeps are the
    backoffs from [b]. *)
Definition slept (fuel : nat) (b : Z) s s' : Prop :=
  ∃ n new, (n ≤ fuel)%nat ∧ sm_events s' = sm_events s ++ new ∧ Forall P new ∧
    sm_sleeps s' = sm_sleeps s ++ backoffs n max_ms b.

Lemma grows_slept fuel b s s' : grows P s s' → slept fuel b s s'.
Proof.
  intros [(new & He & Hn) Hs]. exists 0%nat, new. cbn. rewrite app_nil_r. split_and!; [lia|done..].
Qed.

Lemma grows_slept_trans fuel b s1 s2 s3 : grows P s1 s2 → slept fuel b s2 s3 → slept fuel b s1 s3.
Proof.
  intros [(n1 & He1 & Hn1) Hs] (n & n2 & Hle & He2 & Hn2 & Hs2). exists n, (n1 ++ n2).
  rewrite He2, He1, Hs2, Hs, app_assoc. split_and!; [done..|by apply Forall_app|done].
Qed.

Lemma sleep_slept fuel b s1 s2 s3 :
  s2 = (sleep_ms b s1).2 → slept fuel (Z.min (saturating_mul 64 b 2) max_ms) s2 s3 →
  slept (S fuel) b s1 s3.
Proof.
  intros -> (n & new & Hle & He & Hn & Hs). exists (S n), new. cbn in *.
  split_and!; [lia|done..|]. by rewrite Hs, <- app_assoc.
Qed.

Lemma reconnect_loop_slept fuel b s : wp (loop fuel b) (λ _ s', slept fuel b s s') s.
Proof.
  revert b s. induction fuel as [|fuel IH]; intros b s; cbn [reconnect_loop].
  { by apply grows_slept. }
  apply wp_bind. eapply wp_mono; [|apply evolves_wp, Hconn].
  intros [[]| |] s1 H1; [|by apply grows_slept..].
  apply wp_bind, wp_catch. eapply wp_mono; [|apply evolves_wp, Hsess].
  intros r s2 H2. assert (grows P s s2) as H12 by by transitivity s1.
  assert (∀ y reason, wp (transition ch id y reason) (λ _ s3, grows P s s3) s2) as Htr.
  { intros y reason. eapply wp_mono; [|apply (evolves_wp (grows P)), transition_grows].
    intros ? s3 H3. by transitivity s2. }
  destruct r as [[]|[e|]|]; [| |by apply grows_slept..].
  { eapply wp_mono; [|apply Htr]. intros ? s3. apply grows_slept. }
  apply wp_bind. eapply wp_mono; [|apply Htr]. intros [[]| |] s3 H3; [|by apply grows_slept..].
  apply wp_bind. unfold wp at 1. remember ((sleep_ms b s3).2) as s4 eqn:H4. cbn in H4.
  change ((sleep_ms b s3).1) with (@Ok Stop unit tt). cbn iota.
  apply wp_bind. eapply wp_mono; [|apply (evolves_wp (grows P)), transition_grows].
  intros [[]| |] s5 H5.
  - eapply wp_mono; [|apply IH]. intros ? s6 H6. eapply grows_slept_trans; [exact H3|].
    eapply sleep_slept; [exact H4|]. by eapply grows_slept_trans.
  - eapply grows_slept_trans; [exact H3|]. eapply sleep_slept; [exact H4|]. by apply grows_slept.
  - eapply grows_slept_trans; [exact H3|]. eapply sleep_slept; [exact H4|]. by apply grows_slept.
Qed.

(** The loop never completes and ends only when the receiver of the runtime events
    is gone; until then the events report a path of moves. *)
Definition ended (r : res Stop unit) s : Prop :=
  r ≠ Ok tt ∧ (∃ y, stream_at y s) ∧ ∀ e, r = Err (Failed e) → closes r s.

Context (Hstart : ∀ x s, moves x StreamStatus.Connecting → stream_at x s →
  wp connecting (λ r s1, match r with
    | Ok _ => wp session (λ r s', r ≠ Ok tt ∧ ∃ y, in_session y ∧ stream_at y s') s1
    | _ => ended r s1
    end) s).

Lemma transition_ended x y reason s Q :
  moves x y → stream_at x s → (∀ s', stream_at y s' → Q (Ok tt) s') →
  (∀ r s', r ≠ Ok tt → ended r s' → Q r s') → wp (transition ch id y reason) Q s.
Proof.
  intros Hxy Hs Hok Herr. eapply wp_mono; [|by eapply transition_at].
  intros r s' [Hs' [->|Hc]]; [by apply Hok|]. apply Herr; [by destruct Hc as [-> _]|].
  split_and!; [by destruct Hc as [-> _]|by exists y|done].
Qed.

Lemma reconnect_loop_ended fuel b x s :
  moves x StreamStatus.Connecting → stream_at x s → wp (loop fuel b) ended s.
Proof.
  revert b x s. induction fuel as [|fuel IH]; intros b x s Hx Hs; cbn [reconnect_loop].
  { split_and!; [done|by exists x|done]. }
  apply wp_bind. eapply wp_mono; [|by eapply Hstart]. intros [[]| |] s1 H1; [|done..].
  apply wp_bind, wp_catch. eapply wp_mono; [|exact H1]. intros r s2 (Hr & y & Hy & Hs2).
  destruct r as [[]|[e|]|]; [done| |by split_and!; [|exists y|]..].
  apply wp_bind. eapply transition_ended; [exact Hy|exact Hs2| |by intros [[]| |]].
  intros s3 H3. apply wp_bind. unfold wp at 1. cbn [sleep_ms fst snd].
  apply wp_bind. eapply transition_ended; [apply backoff_reconnecting| | |by intros [[]| |]].
  { destruct H3 as (st & Hp & Hst). by exists st. }
  intros s4 H4. eapply IH; [|exact H4]. constructor.
Qed.
End reconnect.

Lemma stream_run_ended kind context fuel P w :
  (∀ v, evolves (delivers P) (sk_payload kind v)) →
  wp (stream_run kind context fuel) ended (idle_stream w).
Proof.
  intros Hp. unfold stream_run. apply wp_bind. unfold wp at 1. cbn.
  eapply reconnect_loop_ended; [|apply idle_connecting|].
  - intros x s Hx Hs. eapply transition_ended; [exact Hx|exact Hs| |by intros [[]| |]].
    intros s1 Hs1. by eapply run_once_session.
  - exists StreamStatus.Idle. by split; [constructor|].
Qed.

Lemma stream_run_slept kind context fuel P w :
  (∀ v, evolves (delivers P) (sk_payload kind v)) →
  wp (stream_run kind context fuel) (λ _ s', slept (ctx_reconnect_max_ms context) P fuel
    (ctx_reconnect_initial_ms context) (idle_stream w) s') (idle_stream w).
Proof.
  intros Hp. unfold stream_run. apply wp_bind. unfold wp at 1. cbn.
  apply reconnect_loop_slept; [apply transition_grows|by apply run_once_grows].
Qed.
End runs.

(** ** The events of the streams *)

(** An event is stamped with the chain and the channel of its stream, its block
    number is a [u64], and what it decodes is complete and in range. *)
Definition stamped (chain_id : ChainId) (channel : Channel) (m : Metadata) : Prop :=
  md_chain_id m = chain_id ∧ md_channel m = channel ∧
  match md_block_context m with Block_ number _ => uint 64 number | Pending => True end.

Definition ingested (chain_id : ChainId) (channel : Channel) (event : Event) : Prop :=
  match event with
  | EvLog l => stamped chain_id channel (log_metadata l) ∧ log_typed l ∧
      (∀ i, log_log_index l = Some i → uint 64 i) ∧
      ∀ d, log_decoded_event l = Some d → dl_pool d = log_address l ∧ event_complete d
  | EvTransaction t => stamped chain_id channel (tx_metadata t) ∧
      ∀ s, tx_decoded_swap t = Some s →
        (∃ raw, rt_to raw = tx_to t ∧ swap_wf raw s) ∧
        ds_protocol s = tx_protocol t ∧ ds_exchange s = tx_exchange t ∧ is_Some (tx_protocol t)
  | EvBlock b => stamped chain_id channel (block_metadata b) ∧
      ∀ secs, block_timestamp_secs b = Some secs → uint 64 secs
  | EvFlashblock f => stamped chain_id channel (fb_metadata f)
  end.

Section payloads.
Context {J : Json} {HJ : JsonLaws J} {W : Type} {IO : StreamIo W}.
Context {A : AlloyEvents} {HA : AlloyEventsLaws A} {C : AlloyCalls} {HC : AlloyCallsLaws C}.
Context (context : IngestStreamContext).
Abbreviation channel := (endpoint_channel (ctx_endpoint context)).
Abbreviation ok_event := (ingested (ctx_chain_id context) channel).

Lemma evolves_lift_bind {S E B D : Type} (R : S → S → Prop) `{!Reflexive R, !Transitive R}
    (r : res E B) (f : B → eff S E D) :
  (∀ b, r = Ok b → evolves R (f b)) → evolves R (lift r ≫= f).
Proof. intros Hf s. destruct r as [b| |]; cbn; [by apply Hf|done..]. Qed.

Lemma of_outcome_ok {B : Type} (r : outcome B) b :
  map_err (F:=Stop) (λ e : Empty_set, match e with end) r = Ok b → r = Ok b.
Proof. by destruct r; intros [= <-]. Qed.

Lemma log_from_value_range v raw :
  log_from_value v = Some raw →
  (∀ n, rl_block_number raw = Some n → uint 64 n) ∧ (∀ n, rl_log_index raw = Some n → uint 64 n).
Proof.
  unfold log_from_value. destruct (as_object v) as [o|]; cbn; [|done]. intros [= <-]. cbn.
  split; apply u64_field_range.
Qed.

Lemma log_payload_delivers v : evolves (delivers (W:=W) ok_event) (log_payload context v).
Proof.
  unfold log_payload. apply evolves_lift_bind; [apply _..|]. intros raw Hraw.
  apply ok_or_ok, log_from_value_range in Hraw as [Hb Hi].
  apply evolves_lift_bind; [apply _..|]. intros decoded _.
  apply evolves_bind; [apply _|apply on_world_delivers|]. intros now.
  apply evolves_lift_bind; [apply _..|]. intros size _.
  apply evolves_lift_bind; [apply _..|]. intros log Hlog. apply of_outcome_ok in Hlog.
  apply send_event_delivers.
  destruct (to_log_ok raw (log_metadata_of raw decoded (log_block_context raw) channel now
    (ctx_chain_id context) size)) as (log' & Hlog' & Hm & Ha & Hx & _ & _ & _ & Hd).
  rewrite Hlog in Hlog'. injection Hlog' as <-. cbn. rewrite Hm, Ha, Hx. cbn.
  split_and!; try done; [|apply event_complete_typed; intros; by apply Hd].
  unfold stamped, log_block_context. cbn. destruct (rl_block_number raw); cbn; auto.
Qed.

Lemma transaction_payload_delivers v :
  evolves (delivers (W:=W) ok_event) (transaction_payload context v).
Proof.
  unfold transaction_payload. apply evolves_bind; [apply _| |intros m].
  { unfold materialize_transaction, session_request. case_match; [|apply evolves_lift, _].
    apply evolves_bind; [apply _| |intros [r|]; apply evolves_lift, _].
    apply evolves_bind; [apply _|apply on_world_delivers|intros; apply evolves_lift, _]. }
  case_match; [apply evolves_lift, _|].
  apply evolves_lift_bind; [apply _..|]. intros raw Hraw. apply ok_or_ok in Hraw.
  apply evolves_lift_bind; [apply _..|]. intros decoded Hdec. apply of_outcome_ok in Hdec.
  apply evolves_bind; [apply _|apply on_world_delivers|]. intros now.
  apply evolves_lift_bind; [apply _..|]. intros size _. cbv zeta.
  apply evolves_lift_bind; [apply _..|]. intros tx Htx. apply of_outcome_ok in Htx.
  apply send_event_delivers. unfold to_transaction in Htx. rewrite Hdec in Htx.
  cbn [mbind res_bind] in Htx. injection Htx as <-. cbn. split.
  - split_and!; try done. cbn. revert Hraw. unfold tx_from_value.
    destruct (as_object m) as [o|]; cbn; [|done]. intros [= <-]. unfold tx_block_context. cbn.
    destruct (u64_field o "blockNumber") eqn:Hn; [|done]. by eapply u64_field_range.
  - intros sw Hsw. destruct (tx_decode_swap raw decoded sw) as (Hw & Hp & Hx & Hs); [done..|].
    split_and!; [by exists raw|done..].
Qed.

Lemma block_payload_delivers v : evolves (delivers (W:=W) ok_event) (block_payload context v).
Proof.
  unfold block_payload. apply evolves_lift_bind; [apply _..|]. intros raw Hraw. apply ok_or_ok in Hraw.
  apply evolves_bind; [apply _|apply on_world_delivers|]. intros now.
  apply evolves_lift_bind; [apply _..|]. intros size _. apply send_event_delivers.
  revert Hraw. unfold block_from_value. destruct (as_object v) as [o|]; cbn; [|done].
  intros [= <-]. unfold stamped. cbn. split_and!; try done; [|apply u64_field_range].
  destruct (u64_field o "number") eqn:Hn; cbn; [by eapply u64_field_range|done].
Qed.
End payloads.

(** The three streams. *)
Inductive node_stream `{StreamIo W} {A : AlloyEvents} {C : AlloyCalls}
    (context : IngestStreamContext) : StreamKind (W:=W) → Prop :=
| node_log : node_stream context (LogStream context)
| node_transaction : node_stream context (TransactionStream context)
| node_block : node_stream context (BlockStream context).

(** ** Where a stream can panic *)

(** The last answer of the node was this value. *)
Definition last_served `{IO : StreamIo W} (v : Value) (w' : W) : Prop :=
  (∃ w t, io_next w t = (Some (Some (Ok v)), w')) ∨
  (∃ w t method param, io_request w t method param = (Some (Ok v), w')).

(** A transaction whose input is cut inside a character, the last thing the node served. *)
Definition cut_transaction `{IO : StreamIo W} (s : Stream W) : Prop :=
  ∃ v raw, last_served v (sm_world s) ∧ tx_from_value v = Some raw ∧ cuts_character raw.

Section panics.
Context {J : Json} {HJ : JsonLaws J} {W : Type} {IO : StreamIo W} {HIO : StreamIoLaws IO}.
Context {A : AlloyEvents} {HA : AlloyEventsLaws A} {C : AlloyCalls} {HC : AlloyCallsLaws C}.
Abbreviation eff_stream := (eff (Stream W) Stop).
Implicit Types (s : Stream W) (Q : Stream W → Prop).

Definition calm {B : Type} (m : eff_stream B) : Prop := ∀ s, (m s).1 ≠ Panic.
Definition panics_with {B : Type} Q (m : eff_stream B) s : Prop :=
  wp m (λ r s', r = Panic → Q s') s.

Lemma calm_panics {B : Type} Q (m : eff_stream B) s : calm m → panics_with Q m s.
Proof. intros Hm H. by destruct (Hm s). Qed.

Lemma panics_bind {B D : Type} Q (m : eff_stream B) (f : B → eff_stream D) s :
  calm m → (∀ b s', m s = (Ok b, s') → panics_with Q (f b) s') → panics_with Q (m ≫= f) s.
Proof.
  intros Hm Hf. apply wp_bind. unfold wp. specialize (Hm s).
  destruct (m s) as [[b| |] s']; cbn in *; [by apply Hf|done|done].
Qed.

Lemma panics_lift {B D : Type} Q (r : res Stop B) (f : B → eff_stream D) s :
  r ≠ Panic → (∀ b, r = Ok b → panics_with Q (f b) s) → panics_with Q (lift r ≫= f) s.
Proof. intros Hr Hf. apply panics_bind; [by intros s'|]. intros b s' [= -> <-]. by apply Hf. Qed.

Lemma map_err_calm {E F B : Type} (g : E → F) (r : res E B) : r ≠ Panic → map_err g r ≠ Panic.
Proof. by destruct r. Qed.
Lemma ok_or_calm {E B : Type} (o : option B) (e : E) : ok_or o e ≠ Panic.
Proof. by destruct o. Qed.

Lemma on_world_calm {B : Type} (f : W → B * W) : calm (on_world f).
Proof. intros s. unfold on_world. by destruct (f _). Qed.
Lemma send_event_calm e : calm (send_event e).
Proof. intros s. unfold send_event. destruct (io_events_open _). by destruct (_ && _). Qed.
Lemma send_runtime_calm e : calm (send_runtime e).
Proof. intros s. unfold send_runtime. destruct (io_runtime_open _). by destruct (_ && _). Qed.

Lemma calm_bind {B D : Type} (m : eff_stream B) (f : B → eff_stream D) :
  calm m → (∀ b, calm (f b)) → calm (m ≫= f).
Proof.
  intros Hm Hf s. unfold mbind, eff_bind. specialize (Hm s).
  destruct (m s) as [[b| |] s']; cbn in *; [apply Hf|done|done].
Qed.

Lemma transition_calm ch id next reason : calm (transition ch id next reason).
Proof.
  apply calm_bind; [done|intros]. apply calm_bind; [apply on_world_calm|intros; apply send_runtime_calm].
Qed.
Lemma emit_heartbeat_calm ch id m : calm (emit_heartbeat ch id m).
Proof. apply calm_bind; [apply on_world_calm|intros; apply send_runtime_calm]. Qed.

Lemma reconnect_loop_panics Q ch id connecting session noun max_ms fuel b s :
  calm connecting → (∀ s, panics_with Q session s) →
  panics_with Q (reconnect_loop (transition ch id) connecting session noun max_ms fuel b) s.
Proof.
  intros Hc Hs. revert b s. induction fuel as [|fuel IH]; intros b s; cbn [reconnect_loop]; [done|].
  apply panics_bind; [done|]. intros _ s2 _.
  apply wp_bind, wp_catch. eapply wp_mono; [|apply Hs].
  intros [[]|[e|]|] s3 H3; [apply calm_panics, transition_calm| |done|by intros _; apply H3].
  apply panics_bind; [apply transition_calm|]. intros _ s4 _.
  apply panics_bind; [done|]. intros _ s5 _.
  apply panics_bind; [apply transition_calm|]. intros _ s6 _. apply IH.
Qed.

Lemma ensure_not_stopped_calm name : calm (ensure_not_stopped name).
Proof. intros s. unfold ensure_not_stopped. by case_bool_decide. Qed.

Lemma log_decode_calm raw : log_decode raw ≠ Panic.
Proof.
  destruct (to_log_ok raw {| md_block_context := Pending; md_channel := Ws; md_observed_at_ms := 0;
    md_chain_id := 0; md_tx_hash := None; md_decode_status := Decoded;
    md_raw := raw_summary RawMessageType.Log 0 None Logs |}) as (log & Hl & _).
  unfold to_log in Hl. by destruct (log_decode raw).
Qed.

Lemma to_log_calm raw metadata : to_log raw metadata ≠ Panic.
Proof. by destruct (to_log_ok raw metadata) as (log & -> & _). Qed.

Section session.
Context (kind : StreamKind (W:=W)) (context : IngestStreamContext) (Q : Stream W → Prop).
Context (Hpayload : ∀ v s, last_served v (sm_world s) → panics_with Q (sk_payload kind v) s).

Lemma payload_loop_panics fuel idle s : panics_with Q (payload_loop kind context fuel idle) s.
Proof.
  revert idle s. induction fuel as [|fuel IH]; intros idle s; cbn [payload_loop]; [done|].
  apply panics_bind; [apply on_world_calm|]. intros next s1 H1. unfold on_world in H1.
  destruct (io_next _ _) as [r w'] eqn:Hn. injection H1 as <- <-. destruct r as [item|].
  - apply panics_lift.
    + pose proof (io_next_no_panic (sm_world s) (ctx_heartbeat_timeout_secs context)) as Hp.
      rewrite Hn in Hp. by destruct item as [[| |]|].
    + intros v Hv. destruct item as [[v'| |]|]; try done. injection Hv as <-.
      apply wp_bind. eapply wp_mono; [|apply Hpayload; left; cbn; eauto].
      intros [[]| |] s2 H2; [apply IH|done|done].
  - cbv zeta. apply panics_bind; [apply emit_heartbeat_calm|]. intros _ s2 _.
    destruct (2 <=? idle + 1); [done|apply IH].
Qed.

Lemma run_once_panics fuel s : panics_with Q (run_once kind context fuel) s.
Proof.
  unfold run_once. cbv zeta. apply panics_bind.
  { intros s1. unfold session_connect, mbind, eff_bind, on_world.
    pose proof (io_connect_no_panic (sm_world s1) (ctx_endpoint context)).
    destruct (io_connect _ _) as [r w']. cbn in *. by apply map_err_calm. }
  intros _ s1 _. apply panics_bind; [apply transition_calm|]. intros _ s2 _. apply panics_bind.
  { intros s3. unfold subscribe, mbind, eff_bind, on_world.
    pose proof (io_subscribe_no_panic (sm_world s3) (sk_subscription kind)).
    destruct (io_subscribe _ _) as [r w']. cbn in *. by apply map_err_calm. }
  intros sid s3 _. apply panics_bind; [apply transition_calm|]. intros _ s4 _. apply payload_loop_panics.
Qed.

Lemma stream_run_panics fuel s : panics_with Q (stream_run kind context fuel) s.
Proof.
  unfold stream_run. cbv zeta. apply panics_bind; [apply ensure_not_stopped_calm|]. intros _ s1 _.
  apply reconnect_loop_panics; [apply transition_calm|apply run_once_panics].
Qed.
End session.

Lemma payload_size_calm v : map_err Failed (payload_size_bytes v) ≠ Panic.
Proof.
  apply map_err_calm. unfold payload_size_bytes. pose proof (to_vec_no_panic v). by destruct (to_vec v).
Qed.

Context (context : IngestStreamContext).

Lemma log_payload_panics Q v s : panics_with Q (log_payload context v) s.
Proof.
  unfold log_payload. apply panics_lift; [apply ok_or_calm|]. intros raw _.
  apply panics_lift; [apply map_err_calm, log_decode_calm|]. intros decoded _.
  apply panics_bind; [apply on_world_calm|]. intros now s1 _.
  apply panics_lift; [apply payload_size_calm|]. intros size _.
  apply panics_lift; [apply map_err_calm, to_log_calm|intros log _; apply calm_panics, send_event_calm].
Qed.

Lemma block_payload_panics Q v s : panics_with Q (block_payload context v) s.
Proof.
  unfold block_payload. apply panics_lift; [apply ok_or_calm|]. intros raw _.
  apply panics_bind; [apply on_world_calm|]. intros now s1 _.
  apply panics_lift; [apply payload_size_calm|]. intros size _. apply calm_panics, send_event_calm.
Qed.

Lemma materialize_serves v s r s' :
  last_served v (sm_world s) → materialize_transaction context v s = (r, s') →
  r ≠ Panic ∧ ∀ m, r = Ok m → last_served m (sm_world s').
Proof.
  intros Hv. unfold materialize_transaction. destruct (as_str v) as [hash|].
  2: { intros [= <- <-]. split; [done|]. by intros m [= <-]. }
  unfold session_request, mbind, eff_bind, on_world.
  pose proof (io_request_no_panic (sm_world s) (ctx_heartbeat_timeout_secs context)
    "eth_getTransactionByHash" hash) as Hp.
  destruct (io_request _ _ _ _) as [[[m| |]|] w'] eqn:Hr; cbn in *; intros [= <- <-];
    (split; [done|]); intros m' [= <-]; try done. right. eauto.
Qed.

Lemma transaction_payload_panics v s :
  last_served v (sm_world s) →
  panics_with (λ s', cut_transaction s') (transaction_payload context v) s.
Proof.
  intros Hv. unfold transaction_payload. apply wp_bind. unfold wp.
  destruct (materialize_transaction context v s) as [r s1] eqn:Hm.
  destruct (materialize_serves v s r s1 Hv Hm) as [Hp Hs]. cbn [fst snd].
  destruct r as [m| |]; [|done|done]. specialize (Hs m eq_refl).
  destruct (is_null m); [done|]. apply panics_lift; [apply ok_or_calm|]. intros raw Hraw.
  apply ok_or_ok in Hraw. unfold of_outcome at 1.
  destruct (tx_decode raw) as [decoded|[]|] eqn:Hd.
  - apply panics_lift; [done|]. intros d [= <-].
    apply panics_bind; [apply on_world_calm|]. intros now s2 _.
    apply panics_lift; [apply payload_size_calm|]. intros size _. cbv zeta.
    apply panics_lift; [|intros tx _; apply calm_panics, send_event_calm].
    unfold to_transaction. by rewrite Hd.
  - intros _. exists m, raw. split_and!; [done..|]. by apply tx_decode_panics.
Qed.
End panics.

Section silent.
Context {J : Json} {W : Type} {IO : StreamIo W} {HIO : StreamIoLaws IO}.
Implicit Types s : Stream W.
(** The runtime events are received and the node never sends an item. *)
Context (Hopen : ∀ w, (io_runtime_open w).1 = true).
Context (Hsilent : ∀ w t, (io_next w t).1 = None).

Lemma send_runtime_open e s :
  sm_runtime_closed s = false →
  wp (send_runtime e) (λ r s', r = Ok tt ∧ sm_runtime_closed s' = false) s.
Proof.
  intros Hc. unfold wp, send_runtime. pose proof (Hopen (sm_world s)).
  destruct (io_runtime_open _) as [o w]. cbn in *. subst o. by rewrite Hc.
Qed.

Lemma on_world_open {B : Type} (f : W → B * W) s :
  sm_runtime_closed s = false →
  wp (on_world f) (λ r s', r = Ok (f (sm_world s)).1 ∧ sm_runtime_closed s' = false) s.
Proof. intros Hc. unfold wp, on_world. by destruct (f _). Qed.

Lemma transition_open ch id y reason s :
  sm_runtime_closed s = false →
  wp (transition ch id y reason) (λ r s', r = Ok tt ∧ sm_runtime_closed s' = false) s.
Proof.
  intros Hc. unfold transition. apply wp_bind. unfold wp at 1. cbn [set_status fst snd].
  apply wp_bind. eapply wp_mono; [|by apply on_world_open]. intros ? s1 [-> H1].
  by apply send_runtime_open.
Qed.

Lemma emit_heartbeat_open ch id m s :
  sm_runtime_closed s = false →
  wp (emit_heartbeat ch id m) (λ r s', r = Ok tt ∧ sm_runtime_closed s' = false) s.
Proof.
  intros Hc. unfold emit_heartbeat. apply wp_bind. eapply wp_mono; [|by apply on_world_open].
  intros ? s1 [-> H1]. by apply send_runtime_open.
Qed.

Abbreviation fails := (λ r s', (∃ e, r = Err (Failed e)) ∧ sm_runtime_closed s' = false).

(** Two idle intervals end a session. *)
Lemma silent_payload_loop kind context n s :
  sm_runtime_closed s = false → wp (payload_loop kind context (S (S n)) 0) fails s.
Proof.
  intros Hc. cbn [payload_loop]. apply wp_bind. eapply wp_mono; [|by apply on_world_open].
  intros ? s1 [-> H1]. rewrite Hsilent. apply wp_bind.
  eapply wp_mono; [|by apply emit_heartbeat_open]. intros ? s2 [-> H2]. cbn [Z.leb Z.add].
  change (2 <=? 0 + 1) with false. cbn iota. apply wp_bind.
  eapply wp_mono; [|by apply on_world_open]. intros ? s3 [-> H3]. rewrite Hsilent.
  apply wp_bind. eapply wp_mono; [|by apply emit_heartbeat_open]. intros ? s4 [-> H4].
  change (2 <=? 0 + 1 + 1) with true. cbn iota. split; [by eexists|done].
Qed.

Lemma silent_session kind context n s :
  sm_runtime_closed s = false → wp (run_once kind context (S (S n))) fails s.
Proof.
  intros Hc. unfold run_once, session_connect, subscribe.
  apply wp_bind, wp_bind. eapply wp_mono; [|by apply on_world_open]. intros ? s1 [-> H1].
  unfold wp at 1, lift. cbn [fst snd]. pose proof (io_connect_no_panic (sm_world s) (ctx_endpoint context)).
  destruct (io_connect _ _).1 as [[]|e|]; cbn [map_err]; [|by split; [eexists|]|done].
  apply wp_bind. eapply wp_mono; [|by apply transition_open]. intros ? s2 [-> H2].
  apply wp_bind, wp_bind. eapply wp_mono; [|by apply on_world_open]. intros ? s3 [-> H3].
  unfold wp at 1, lift. cbn [fst snd]. pose proof (io_subscribe_no_panic (sm_world s2) (sk_subscription kind)).
  destruct (io_subscribe _ _).1 as [sid|e|]; cbn [map_err]; [|by split; [eexists|]|done].
  apply wp_bind. eapply wp_mono; [|by apply transition_open]. intros ? s4 [-> H4].
  by apply silent_payload_loop.
Qed.

(** As long as sessions fail, the loop goes on. *)
Lemma failing_loop ch id connecting session noun max_ms fuel b s :
  (∀ s, sm_runtime_closed s = false → wp connecting (λ r s', r = Ok tt ∧
     sm_runtime_closed s' = false ∧ sm_sleeps s' = sm_sleeps s) s) →
  (∀ s, sm_runtime_closed s = false → wp session (λ r s', fails r s' ∧
     sm_sleeps s' = sm_sleeps s) s) →
  sm_runtime_closed s = false →
  wp (reconnect_loop (transition ch id) connecting session noun max_ms fuel b)
     (λ r s', r = Err Suspended ∧ sm_runtime_closed s' = false ∧
              sm_sleeps s' = sm_sleeps s ++ backoffs fuel max_ms b) s.
Proof.
  intros Hconn Hsess. assert (∀ y reason s, sm_runtime_closed s = false →
    wp (transition ch id y reason) (λ r s', r = Ok tt ∧ sm_runtime_closed s' = false ∧
      sm_sleeps s' = sm_sleeps s) s) as Htr.
  { intros y reason s0 H0. pose proof (transition_open ch id y reason s0 H0) as [? ?].
    destruct (transition_grows (λ _, True) ch id y reason s0) as [_ ?]. by split_and!. }
  revert b s. induction fuel as [|fuel IH]; intros b s Hc; cbn [reconnect_loop backoffs].
  { unfold wp. cbn. by rewrite app_nil_r. }
  apply wp_bind. eapply wp_mono; [|by apply Hconn]. intros ? s1 (-> & H1 & L1).
  apply wp_bind, wp_catch. eapply wp_mono; [|by apply Hsess].
  intros ? s2 [[[e ->] H2] L2]. apply wp_bind. eapply wp_mono; [|by apply Htr].
  intros ? s3 (-> & H3 & L3). apply wp_bind. unfold wp at 1. cbn [sleep_ms fst snd].
  apply wp_bind. eapply wp_mono; [|by apply Htr]. intros ? s4 (-> & H4 & L4).
  eapply wp_mono; [|by apply IH]. intros r s5 (-> & H5 & L5). split_and!; [done..|].
  rewrite L5, L4. cbn [sm_sleeps]. by rewrite <- app_assoc, L3, L2, L1.
Qed.
End silent.

Section properties.
Context {J : Json} {HJ : JsonLaws J} {W : Type} {IO : StreamIo W}.
Context {A : AlloyEvents} {HA : AlloyEventsLaws A} {C : AlloyCalls} {HC : AlloyCallsLaws C}.
Context (context : IngestStreamContext).

Lemma node_stream_delivers kind : node_stream (W:=W) context kind → ∀ v,
  evolves (delivers (ingested (ctx_chain_id context) (endpoint_channel (ctx_endpoint context))))
    (sk_payload kind v).
Proof.
  intros [] v; [apply log_payload_delivers|apply transaction_payload_delivers
    |apply block_payload_delivers].
Qed.

Lemma node_stream_panics {HIO : StreamIoLaws IO} kind fuel s : node_stream (W:=W) context kind →
  panics_with (λ s', kind = TransactionStream context ∧ cut_transaction s')
    (stream_run kind context fuel) s.
Proof.
  intros Hk. apply stream_run_panics. intros v s1 Hv. destruct Hk.
  - apply log_payload_panics.
  - eapply wp_mono; [|by apply transaction_payload_panics]. intros r s' H Hr. split; [done|by apply H].
  - apply block_payload_panics.
Qed.

(** C25. Over every run of a stream of the node its status events report a path of
    the status diagram from idle, heartbeats only while running, and the last one
    agrees with the stream as long as they are received; the stream never completes:
    an error ends it only when the receiver of the runtime events is gone, and a panic
    only when it is the transaction stream and the last value the node served is a
    transaction whose input has its ninth byte inside a character. *)
Theorem stream_status_diagram {HIO : StreamIoLaws IO} kind fuel w :
  node_stream context kind →
  let '(r, s) := stream_run kind context fuel (idle_stream (W:=W) w) in
  r ≠ Ok tt ∧
  (∀ e, r = Err (Failed e) → e = RuntimeEventDeliveryClosed ∧ sm_runtime_closed s = true) ∧
  (r = Panic → kind = TransactionStream context ∧ cut_transaction s) ∧
  ∃ st, status_path StreamStatus.Idle (sm_runtime s) st ∧ st ≠ StreamStatus.Stopped ∧
    (sm_runtime_closed s = false → sm_status s = st).
Proof.
  intros Hk. pose proof (stream_run_ended kind context fuel _ w (node_stream_delivers kind Hk)) as H.
  pose proof (node_stream_panics kind fuel (idle_stream w) Hk) as Hpanic.
  unfold panics_with, wp in H, Hpanic. destruct (stream_run _ _ _ _) as [r s]. cbn [fst snd] in H, Hpanic.
  destruct H as (Hr & (y & st & Hp & Hst) & He).
  split; [done|]. split; [|split; [done|]].
  - intros e Hre. destruct (He e Hre) as [-> ?]. by injection Hre as <-.
  - exists st. split; [done|]. split; [|by intros Hc; destruct (Hst Hc) as [-> ?]].
    intros ->. inversion Hp as [|? ? e ? ? Hm|]. inversion Hm; congruence.
Qed.


(** C27. The sleeps of a stream double from the initial delay and stay at the
    maximum, without overflow: the [k]-th is the smaller of [initial * 2^k] and the
    maximum. A successful session does not reset them. *)
Theorem stream_backoff_exact kind fuel w k ms :
  node_stream context kind →
  0 ≤ ctx_reconnect_initial_ms context ≤ ctx_reconnect_max_ms context →
  ctx_reconnect_max_ms context < 2 ^ 64 →
  sm_sleeps (stream_run kind context fuel (idle_stream (W:=W) w)).2 !! k = Some ms →
  ms = Z.min (ctx_reconnect_initial_ms context * 2 ^ Z.of_nat k) (ctx_reconnect_max_ms context).
Proof.
  intros Hk Hinit Hmax.
  destruct (stream_run_slept kind context fuel _ w (node_stream_delivers kind Hk))
    as (n & new & _ & _ & _ & ->). cbn [sm_sleeps idle_stream app]. by apply backoffs_lookup.
Qed.

(** A stream does not give up on a silent node: whatever the answers to its
    connections and subscriptions, when no item ever arrives each session ends after
    two idle intervals at most, and the stream sleeps and reconnects after every one
    of them, as many times as it has turns. *)
Theorem silent_node_reconnects {HIO : StreamIoLaws IO} kind n w :
  node_stream context kind →
  (∀ w, (io_runtime_open w).1 = true) → (∀ w t, (io_next w t).1 = None) →
  let '(r, s) := stream_run kind context (S (S n)) (idle_stream (W:=W) w) in
  r = Err Suspended ∧ sm_runtime_closed s = false ∧
  sm_sleeps s = backoffs (S (S n)) (ctx_reconnect_max_ms context) (ctx_reconnect_initial_ms context).
Proof.
  intros Hk Hopen Hsilent. pose proof (node_stream_delivers kind Hk) as Hp.
  enough (wp (stream_run kind context (S (S n))) (λ r s, r = Err Suspended ∧
    sm_runtime_closed s = false ∧ sm_sleeps s = backoffs (S (S n)) (ctx_reconnect_max_ms context)
      (ctx_reconnect_initial_ms context)) (idle_stream w)) as H.
  { unfold wp in H. by destruct (stream_run _ _ _ _). }
  unfold stream_run. apply wp_bind. unfold wp at 1. cbn [ensure_not_stopped idle_stream sm_status].
  apply failing_loop; [done| | |done].
  - intros s Hs. pose proof (transition_open Hopen (endpoint_channel (ctx_endpoint context))
      (ctx_chain_id context) StreamStatus.Connecting None s Hs) as [? ?].
    destruct (transition_grows (λ _, True) (endpoint_channel (ctx_endpoint context))
      (ctx_chain_id context) StreamStatus.Connecting None s) as [_ ?]. by split_and!.
  - intros s Hs. split; [by apply silent_session|]. by apply (run_once_grows kind context _ Hp).
Qed.
End properties.
