(* ===== verification/Flashblocks.v ===== *)
(** The flashblocks connector (crate [ingest], [flashblocks.rs]): the payload of a
    sub-block, its views, the fan-out of its logs and the websocket session.

    Decompression, JSON parsing and the derived deserialisation of the payload are the
    class [FlashCodec], the websocket the class [FlashIo]; the reconnection loop is
    the one of the other streams. *)

From S2P Require Import Prelude RustStr Types Registry PoolBook RawLog RawTx Stream.
#[local] Open Scope Z_scope.

Record FlashblockBase := {
  fbb_parent_hash : option string;
  fbb_block_number : option string }.

Record FlashblockDiff := {
  fbd_block_hash : option string;
  fbd_state_root : option string;
  fbd_gas_used : option string;
  fbd_transactions : list string }.

Record FlashblockMetadata `{Json} := {
  fbm_block_number : option Z;                (* u64 *)
  fbm_receipts : Map }.

Record FlashblockPayload `{Json} := {
  fbp_payload_id : option string;
  fbp_index : Z;                              (* u64 *)
  fbp_base : option FlashblockBase;
  fbp_diff : option FlashblockDiff;
  fbp_metadata : option FlashblockMetadata }.

(** The frames of the websocket; of a close frame only its text is used. *)
Inductive Message :=
| MBinary (bytes : list Z)
| MText (text : string)
| MPing (payload : list Z)
| MPong (payload : list Z)
| MFrame
| MClose (frame : string).

(** [GzDecoder::read_to_end], [serde_json::from_slice] and the derived
    [serde_json::from_value]. *)
Class FlashCodec {J : Json} := {
  gz_read_to_end : list Z → res string (list Z);
  json_from_slice : list Z → res string Value;
  payload_from_value : Value → res string FlashblockPayload }.

(** The websocket: connecting, the next frame within a timeout, as for the
    subscriptions of the node, and the answer to a ping. *)
Class FlashIo {J : Json} (W : Type) := {
  ws_connect : W → string → res string unit * W;
  ws_next : W → Z → option (option (res string Message)) * W;
  ws_send_pong : W → list Z → res string unit * W }.

(** The decoders and the websocket return or fail, they do not panic. *)
Class FlashLaws `{K : FlashCodec} {W : Type} (FIO : FlashIo W) : Prop := {
  gz_no_panic bytes : gz_read_to_end bytes ≠ Panic;
  from_slice_no_panic bytes : json_from_slice bytes ≠ Panic;
  from_value_no_panic v : payload_from_value v ≠ Panic;
  ws_connect_no_panic w url : (ws_connect w url).1 ≠ Panic;
  ws_next_no_panic w t : (ws_next w t).1 ≠ Some (Some Panic);
  ws_send_pong_no_panic w payload : (ws_send_pong w payload).1 ≠ Panic }.

(** ** Payload decoding *)

Section decode.
Context {J : Json} {K : FlashCodec}.

Definition looks_gzipped (bytes : list Z) : bool :=
  match bytes with
  | a :: b :: _ => (a =? 0x1f) && (b =? 0x8b)
  | _ => false
  end.

Definition decode_payload (bytes : list Z) : res string FlashblockPayload :=
  json ←
    (if looks_gzipped bytes then
       decompressed ← map_err (λ e, "gzip decompress failed: " +:+ e) (gz_read_to_end bytes);
       map_err (λ e, "json parse failed: " +:+ e) (json_from_slice decompressed)
     else map_err (λ e, "json parse failed: " +:+ e) (json_from_slice bytes));
  map_err (λ e, "payload schema mismatch: " +:+ e) (payload_from_value json).

Definition parse_hex_u64 (input : string) : option Z :=
  result_ok (from_str_radix 64 16 (strip_0x_or_self input)).

Definition unwrap_receipt (receipt : Value) : Value :=
  match variant receipt with
  | JObject obj =>
      match map_iter obj with
      | [(_, inner)] => match variant inner with JObject _ => inner | _ => receipt end
      | _ => receipt
      end
  | _ => receipt
  end.

(** [Value::get]. *)
Definition value_get (value : Value) (key : string) : option Value :=
  match variant value with JObject m => map_get m key | _ => None end.

(** The logs of one receipt, each with the hash of the transaction unless it has
    its own. *)
Definition enrich_log (tx_hash : string) (log : Value) : option Value :=
  match variant log with
  | JObject map =>
      Some (value_of (JObject (map_or_insert map "transactionHash" (value_of (JString tx_hash)))))
  | _ => None
  end.

Definition collect_logs (receipts : Map) : list Value :=
  '(tx_hash, receipt) ← map_iter receipts;
  match value_get (unwrap_receipt receipt) "logs" ≫= as_array with
  | None => []
  | Some logs => omap (enrich_log tx_hash) logs
  end.

Record Views := {
  vw_parent_block_number : option Z;
  vw_parent_hash : option BlockHash;
  vw_block_hash : option BlockHash;
  vw_state_root : option string;
  vw_gas_used : option Z;
  vw_tx_hashes : list TxHash;
  vw_logs : list Value }.

Definition extract_views (payload : FlashblockPayload) : Views :=
  let diff := fbp_diff payload in
  {| vw_parent_block_number :=
       opt_or (fbp_metadata payload ≫= fbm_block_number)
              ((fbp_base payload ≫= fbb_block_number) ≫= parse_hex_u64);
     vw_parent_hash := fbp_base payload ≫= fbb_parent_hash;
     vw_block_hash := diff ≫= fbd_block_hash;
     vw_state_root := diff ≫= fbd_state_root;
     vw_gas_used := (diff ≫= fbd_gas_used) ≫= parse_hex_u64;
     vw_tx_hashes := match fbp_metadata payload with
                     | Some m => (map_iter (fbm_receipts m)).*1
                     | None => []
                     end;
     vw_logs := match fbp_metadata payload with
                | Some m => collect_logs (fbm_receipts m)
                | None => []
                end |}.
End decode.

(** ** The session *)

Definition ws_to_ingest (err : string) : IngestError :=
  StreamFailure "flashblocks_stream" ("websocket error: " +:+ err).

Section session.
Context {J : Json} {K : FlashCodec} {W : Type} {IO : StreamIo W} {FIO : FlashIo W}.
Context {A : AlloyEvents}.
Context (context : IngestStreamContext) (url : string).
Abbreviation eff_stream := (eff (Stream W) Stop).

(** The logs of a sub-block, counted as they are sent. *)
Fixpoint dispatch_logs (logs : list Value) : eff_stream Z :=
  match logs with
  | [] => mret 0
  | log_value :: logs =>
      match log_from_value log_value with
      | None => dispatch_logs logs
      | Some raw =>
          decoded ← of_outcome (log_decode raw);
          now ← current_time_ms;
          let size := default 0 (result_ok (payload_size_bytes log_value)) in
          log_event ← of_outcome (to_log raw (log_metadata_of raw decoded Pending FlashblocksWs
                                                now (ctx_chain_id context) size));
          _ ← send_event (EvLog log_event);
          emitted_logs ← dispatch_logs logs;
          mret (emitted_logs + 1)
      end
  end.

Definition dispatch (payload : FlashblockPayload) (raw_size : Z) : eff_stream unit :=
  let views := extract_views payload in
  emitted_logs ← dispatch_logs (vw_logs views);
  now ← current_time_ms;
  let metadata :=
    {| md_block_context := Pending;
       md_channel := FlashblocksWs;
       md_observed_at_ms := now;
       md_chain_id := ctx_chain_id context;
       md_tx_hash := None;
       md_decode_status := Decoded;
       md_raw := raw_summary RawMessageType.Flashblock raw_size (fbp_payload_id payload) Logs |} in
  send_event (EvFlashblock
    {| fb_metadata := metadata;
       fb_payload_id := fbp_payload_id payload;
       fb_index := fbp_index payload;
       fb_parent_block_number := vw_parent_block_number views;
       fb_parent_hash := vw_parent_hash views;
       fb_block_hash := vw_block_hash views;
       fb_state_root := vw_state_root views;
       fb_gas_used := vw_gas_used views;
       fb_tx_hashes := vw_tx_hashes views;
       fb_log_count := emitted_logs |}).

(** A frame with a payload. *)
Definition flash_frame (bytes : list Z) : eff_stream unit :=
  payload ← lift (map_err (λ err, Failed (InvalidPayload "flashblocks_stream"
      ("flashblocks payload decode failed: " +:+ err))) (decode_payload bytes));
  dispatch payload (Z.of_nat (length bytes)).

Fixpoint frame_loop (fuel : nat) (idle_intervals : Z) : eff_stream unit :=
  match fuel with
  | O => lift (Err Suspended)
  | S fuel =>
      next ← on_world (λ w, ws_next w (ctx_heartbeat_timeout_secs context));
      match next with
      | Some (Some (Ok frame)) =>
          match frame with
          | MBinary bytes => _ ← flash_frame bytes; frame_loop fuel 0
          | MText text => _ ← flash_frame (bytes_of text); frame_loop fuel 0
          | MPing payload =>
              r ← on_world (λ w, ws_send_pong w payload);
              _ ← lift (map_err (λ e, Failed (ws_to_ingest e)) r);
              frame_loop fuel 0
          | MPong _ | MFrame => frame_loop fuel 0
          | MClose frame => fail (StreamFailure "flashblocks_stream"
                                    ("flashblocks ws closed: " +:+ frame))
          end
      | Some (Some (Err err)) => fail (ws_to_ingest err)
      | Some (Some Panic) => lift Panic
      | Some None => fail (StreamFailure "flashblocks_stream" "flashblocks websocket closed by peer")
      | None =>
          let idle_intervals := idle_intervals + 1 in
          _ ← emit_heartbeat (endpoint_channel (ctx_endpoint context)) (ctx_chain_id context)
                (Some (idle_message "flashblocks_stream" (ctx_heartbeat_timeout_secs context)));
          if 2 <=? idle_intervals
          then fail (StreamFailure "flashblocks_stream" "flashblocks heartbeat timeout")
          else frame_loop fuel idle_intervals
      end
  end.

Definition flash_run_once (fuel : nat) : eff_stream unit :=
  let transition := transition (endpoint_channel (ctx_endpoint context)) (ctx_chain_id context) in
  _ ← transition StreamStatus.Connecting None;
  r ← on_world (λ w, ws_connect w url);
  _ ← lift (map_err (λ e, Failed (ws_to_ingest e)) r);
  _ ← transition StreamStatus.Running (Some ("flashblocks=" +:+ url));
  frame_loop fuel 0.

Definition flashblocks_run (fuel : nat) : eff_stream unit :=
  _ ← ensure_not_stopped "flashblocks_stream";
  reconnect_loop (transition (endpoint_channel (ctx_endpoint context)) (ctx_chain_id context))
    (mret tt) (flash_run_once fuel) "flashblocks" (ctx_reconnect_max_ms context) fuel
    (ctx_reconnect_initial_ms context).
End session.

(** ** Properties *)

(** An event of the connector: ingested on its channel and pending. *)
Definition flash_event (chain_id : ChainId) (event : Event) : Prop :=
  ingested chain_id FlashblocksWs event ∧
  match event with
  | EvLog l => md_block_context (log_metadata l) = Pending
  | EvFlashblock f => md_block_context (fb_metadata f) = Pending
  | _ => False
  end.

Section properties.
Context {J : Json} {HJ : JsonLaws J} {K : FlashCodec} {W : Type} {IO : StreamIo W} {FIO : FlashIo W}.
Context {A : AlloyEvents} {HA : AlloyEventsLaws A}.
Context (context : IngestStreamContext) (url : string).
Implicit Types s : Stream W.
Abbreviation ok_event := (flash_event (ctx_chain_id context)).

(** A delivered log comes from the value it was decoded from, is pending and
    typed. *)
Definition log_of (v : Value) (l : Log) : Prop :=
  ∃ raw, log_from_value v = Some raw ∧ to_log raw (log_metadata l) = Ok l ∧
    log_address l = rl_address raw ∧ log_log_index l = rl_log_index raw ∧
    md_tx_hash (log_metadata l) = rl_tx_hash raw ∧ ok_event (EvLog l).

Lemma to_log_of v raw decoded now size l :
  log_from_value v = Some raw →
  to_log raw (log_metadata_of raw decoded Pending FlashblocksWs now (ctx_chain_id context) size) =
    Ok l → log_of v l.
Proof.
  intros Hv Hl. exists raw. destruct (log_from_value_range _ _ Hv) as [_ Hi].
  destruct (to_log_ok raw (log_metadata_of raw decoded Pending FlashblocksWs now
    (ctx_chain_id context) size)) as (l' & Hl' & Hm & Ha & Hx & _ & _ & _ & Hd).
  rewrite Hl in Hl'. injection Hl' as <-. rewrite Hm. cbn [md_tx_hash log_metadata_of].
  split_and!; try done. unfold flash_event. cbn. rewrite Hm, Ha, Hx. split_and!; try done.
  apply event_complete_typed. intros d He. by apply Hd.
Qed.

Lemma dispatch_logs_delivers logs : evolves (delivers ok_event) (dispatch_logs (W:=W) context logs).
Proof.
  induction logs as [|v logs IH]; cbn [dispatch_logs]; [apply evolves_lift, _|].
  destruct (log_from_value v) as [raw|] eqn:Hv; [|done].
  apply evolves_lift_bind; [apply _..|]. intros decoded _.
  apply evolves_bind; [apply _|apply on_world_delivers|]. intros now. cbv zeta.
  apply evolves_lift_bind; [apply _..|]. intros l Hl. apply of_outcome_ok in Hl.
  apply evolves_bind; [apply _| |].
  { apply send_event_delivers. by destruct (to_log_of _ _ _ _ _ _ Hv Hl) as (_ & _ & _ & _ & _ & _ & ?). }
  intros _. apply evolves_bind; [apply _|done|]. intros n. apply evolves_lift, _.
Qed.

Lemma dispatch_delivers payload size :
  evolves (delivers ok_event) (dispatch (W:=W) context payload size).
Proof.
  unfold dispatch. apply evolves_bind; [apply _|apply dispatch_logs_delivers|]. intros n.
  apply evolves_bind; [apply _|apply on_world_delivers|]. intros now. by apply send_event_delivers.
Qed.

Lemma flash_frame_delivers bytes : evolves (delivers ok_event) (flash_frame (W:=W) context bytes).
Proof.
  unfold flash_frame. apply evolves_lift_bind; [apply _..|]. intros p _. apply dispatch_delivers.
Qed.

Lemma frame_loop_grows fuel idle : evolves (grows ok_event) (frame_loop (W:=W) context fuel idle).
Proof.
  revert idle. induction fuel as [|fuel IH]; intros idle; cbn [frame_loop].
  { apply evolves_lift, _. }
  apply evolves_bind; [apply _|apply delivers_evolves_grows, on_world_delivers|].
  intros [[[[bytes|text|p|p| |frame]| |]|]|]; try apply evolves_lift, _; [..|apply IH|apply IH|].
  - apply evolves_bind; [apply _|apply delivers_evolves_grows, flash_frame_delivers|]. intros _. apply IH.
  - apply evolves_bind; [apply _|apply delivers_evolves_grows, flash_frame_delivers|]. intros _. apply IH.
  - apply evolves_bind; [apply _|apply delivers_evolves_grows, on_world_delivers|]. intros r.
    apply evolves_bind; [apply _|apply evolves_lift, _|]. intros _. apply IH.
  - apply evolves_bind; [apply _|apply emit_heartbeat_grows|]. intros _.
    case_match; [apply evolves_lift, _|apply IH].
Qed.

Lemma flash_run_once_grows fuel : evolves (grows ok_event) (flash_run_once (W:=W) context url fuel).
Proof.
  unfold flash_run_once.
  repeat first
    [ apply frame_loop_grows | apply transition_grows | apply evolves_lift, _
    | apply delivers_evolves_grows, on_world_delivers
    | apply evolves_bind; [apply _| |intros] ].
Qed.

Lemma frame_loop_at fuel idle s :
  stream_at StreamStatus.Running s →
  wp (frame_loop context fuel idle) (λ r s', r ≠ Ok tt ∧ stream_at StreamStatus.Running s') s.
Proof.
  revert idle s. induction fuel as [|fuel IH]; intros idle s Hs; cbn [frame_loop]; [done|].
  apply wp_bind. eapply wp_mono; [|by apply (delivers_at ok_event), Hs; apply on_world_delivers].
  assert (∀ bytes s1, stream_at StreamStatus.Running s1 →
    wp (_ ← flash_frame context bytes; frame_loop context fuel 0)
      (λ r s', r ≠ Ok tt ∧ stream_at StreamStatus.Running s') s1) as Hframe.
  { intros bytes s1 Hs1. apply wp_bind.
    eapply wp_mono; [|by apply (delivers_at ok_event), Hs1; apply flash_frame_delivers].
    intros [[]| |] s2 Hs2; [by apply IH|done..]. }
  intros [[[[[bytes|text|p|p| |frame]| |]|]|]| |] s1 Hs1; try done; [by apply Hframe|by apply Hframe|
    |by apply IH|by apply IH|].
  - apply wp_bind. eapply wp_mono; [|by apply (delivers_at ok_event), Hs1; apply on_world_delivers].
    intros [r| |] s2 Hs2; [|done..]. apply wp_bind. unfold wp at 1, lift. cbn [fst snd].
    destruct (map_err _ r); [by apply IH|done..].
  - apply wp_bind. eapply wp_mono; [|by apply emit_heartbeat_at].
    intros [[]| |] s2 [Hs2 _]; [|done..]. case_match; [done|by apply IH].
Qed.

(** A session starts where the loop does, with the announcement of the
    connection. *)
Lemma flash_session fuel x s :
  moves x StreamStatus.Connecting → stream_at x s →
  wp (flash_run_once context url fuel)
     (λ r s', r ≠ Ok tt ∧ ∃ y, in_session y ∧ stream_at y s') s.
Proof.
  intros Hx Hs. unfold flash_run_once.
  assert (in_session StreamStatus.Connecting) by constructor.
  assert (in_session StreamStatus.Running) by constructor.
  apply wp_bind. eapply wp_mono; [|by eapply transition_at]. intros [[]| |] s1 [Hs1 _]; [|by eauto..].
  apply wp_bind. eapply wp_mono; [|by apply (delivers_at ok_event), Hs1; apply on_world_delivers].
  intros [r| |] s2 Hs2; [|by eauto..]. apply wp_bind. unfold wp at 1, lift. cbn [fst snd].
  destruct (map_err _ r) as [[]| |]; [|by eauto..].
  apply wp_bind. eapply wp_mono; [|eapply transition_at; [apply connecting_running|exact Hs2]].
  intros [[]| |] s3 [Hs3 _]; [|by eauto..].
  eapply wp_mono; [|by apply frame_loop_at]. intros r4 s5 [? ?]. eauto.
Qed.

Lemma flashblocks_run_slept fuel w :
  wp (flashblocks_run context url fuel) (λ _ s', slept (ctx_reconnect_max_ms context) ok_event fuel
    (ctx_reconnect_initial_ms context) (idle_stream w) s') (idle_stream w).
Proof.
  unfold flashblocks_run. apply wp_bind. unfold wp at 1. cbn [ensure_not_stopped idle_stream sm_status].
  apply reconnect_loop_slept; [apply evolves_lift, _|apply flash_run_once_grows].
Qed.

(** *** No panic *)

Lemma dispatch_logs_calm logs : calm (W:=W) (dispatch_logs context logs).
Proof.
  induction logs as [|v logs IH]; cbn [dispatch_logs]; [done|].
  destruct (log_from_value v) as [raw|]; [|done].
  apply calm_bind; [intros s; apply map_err_calm, log_decode_calm|intros decoded].
  apply calm_bind; [apply on_world_calm|intros now]. cbv zeta.
  apply calm_bind; [intros s; apply map_err_calm, to_log_calm|intros log].
  apply calm_bind; [apply send_event_calm|intros _]. by apply calm_bind; [|intros].
Qed.

Lemma decode_payload_calm {HF : FlashLaws FIO} bytes : decode_payload bytes ≠ Panic.
Proof.
  unfold decode_payload. pose proof (gz_no_panic bytes). pose proof (from_slice_no_panic bytes).
  pose proof from_slice_no_panic as Hs. pose proof from_value_no_panic as Hv.
  destruct (looks_gzipped bytes).
  - destruct (gz_read_to_end bytes) as [d| |]; cbn; [|done|done].
    specialize (Hs d). destruct (json_from_slice d); cbn; [by apply map_err_calm|done|done].
  - destruct (json_from_slice bytes); cbn; [by apply map_err_calm|done|done].
Qed.

Lemma flash_frame_calm {HF : FlashLaws FIO} bytes : calm (W:=W) (flash_frame context bytes).
Proof.
  apply calm_bind; [intros s; apply map_err_calm, decode_payload_calm|intros payload].
  apply calm_bind; [apply dispatch_logs_calm|intros n].
  apply calm_bind; [apply on_world_calm|intros now; apply send_event_calm].
Qed.

Lemma world_calm {B D : Type} (f : W → res string B * W) g (k : eff (Stream W) Stop D) :
  (∀ w, (f w).1 ≠ Panic) → calm k → calm (r ← on_world f; _ ← lift (map_err g r); k).
Proof.
  intros Hf Hk s. unfold mbind, eff_bind, on_world. specialize (Hf (sm_world s)).
  destruct (f _) as [[| |] w]; cbn in *; [apply Hk|done|done].
Qed.

Lemma frame_loop_calm {HF : FlashLaws FIO} fuel idle : calm (W:=W) (frame_loop context fuel idle).
Proof.
  revert idle. induction fuel as [|fuel IH]; intros idle s; [done|]. cbn [frame_loop].
  unfold mbind at 1, eff_bind at 1, on_world at 1.
  pose proof (ws_next_no_panic (sm_world s) (ctx_heartbeat_timeout_secs context)) as Hn.
  destruct (ws_next _ _) as [next w]. cbn in Hn. cbn [fst snd].
  destruct next as [[[[bytes|text|p|p| |frame]| |]|]|]; try done; try apply IH.
  - apply calm_bind; [apply flash_frame_calm|done].
  - apply calm_bind; [apply flash_frame_calm|done].
  - apply world_calm; [|apply IH]. intros w1. apply ws_send_pong_no_panic.
  - cbv zeta. apply calm_bind; [apply emit_heartbeat_calm|intros _]. case_match; [done|apply IH].
Qed.

Lemma flashblocks_run_calm {HF : FlashLaws FIO} fuel : calm (W:=W) (flashblocks_run context url fuel).
Proof.
  intros s H. apply (panics_bind (λ _, False)) in H; [done|apply ensure_not_stopped_calm|].
  intros _ s1 _. apply reconnect_loop_panics; [done|]. intros s2. apply calm_panics.
  unfold flash_run_once. cbv zeta. apply calm_bind; [apply transition_calm|intros _].
  apply world_calm; [intros w; apply ws_connect_no_panic|].
  apply calm_bind; [apply transition_calm|intros _; apply frame_loop_calm].
Qed.

(** C28. The flashblocks stream follows the same discipline as the streams of the
    node: it never completes, its status events report a path of the diagram, every
    event it delivers is a log or a sub-block, typed, pending and labelled with the
    flashblocks channel, and its sleeps double up to the maximum; it does not panic. *)
Theorem flashblocks_run_sound {HF : FlashLaws FIO} fuel w :
  0 ≤ ctx_reconnect_initial_ms context ≤ ctx_reconnect_max_ms context →
  ctx_reconnect_max_ms context < 2 ^ 64 →
  let '(r, s) := flashblocks_run context url fuel (idle_stream (W:=W) w) in
  r ≠ Ok tt ∧ r ≠ Panic ∧
  (∀ e, r = Err (Failed e) → e = RuntimeEventDeliveryClosed ∧ sm_runtime_closed s = true) ∧
  (∃ st, status_path StreamStatus.Idle (sm_runtime s) st) ∧
  Forall ok_event (sm_events s) ∧
  ∀ k ms, sm_sleeps s !! k = Some ms →
    ms = Z.min (ctx_reconnect_initial_ms context * 2 ^ Z.of_nat k) (ctx_reconnect_max_ms context).
Proof.
  intros Hinit Hmax.
  assert (wp (flashblocks_run context url fuel) ended (idle_stream w)) as H1.
  { unfold flashblocks_run. apply wp_bind. unfold wp at 1. cbn [ensure_not_stopped idle_stream sm_status].
    eapply reconnect_loop_ended; [|apply idle_connecting|].
    - intros x s Hx Hs. unfold wp at 1. by eapply flash_session.
    - exists StreamStatus.Idle. by split; [constructor|]. }
  pose proof (flashblocks_run_slept fuel w) as H2.
  pose proof (flashblocks_run_calm fuel (idle_stream w)) as H3. unfold wp in *. destruct (flashblocks_run _ _ _ _) as [r s]. cbn [fst snd] in *.
  destruct H1 as (Hr & (y & st & Hp & _) & He). destruct H2 as (n & new & _ & -> & Hn & Hs).
  split_and!; [done|done| |by exists st|done|].
  - intros e Hre. destruct (He e Hre) as [-> ?]. by injection Hre as <-.
  - intros k ms. rewrite Hs. cbn [idle_stream sm_sleeps app]. by apply backoffs_lookup.
Qed.

(** *** The fan-out of a sub-block *)

Lemma collect_logs_hash receipts v :
  v ∈ collect_logs receipts →
  ∃ tx_hash m, tx_hash ∈ (map_iter receipts).*1 ∧ variant v = JObject m ∧
    is_Some (map_get m "transactionHash") ∧
    ∃ own, map_get m "transactionHash" = Some (default (value_of (JString tx_hash)) own).
Proof.
  unfold collect_logs. rewrite list_elem_of_bind. intros ([tx_hash receipt] & Hv & Hin).
  destruct (_ ≫= as_array) as [logs|]; [|by apply elem_of_nil in Hv].
  apply list_elem_of_omap in Hv as (log & _ & Hlog). unfold enrich_log in Hlog.
  destruct (variant log) as [| | | | |m]; try done. injection Hlog as <-.
  eexists tx_hash, _. split_and!.
  - apply list_elem_of_fmap. by exists (tx_hash, receipt).
  - apply variant_value_of.
  - rewrite map_or_insert_get. by eexists.
  - rewrite map_or_insert_get. by eexists.
Qed.

Lemma log_from_object v m : variant v = JObject m → is_Some (log_from_value v).
Proof. intros Hv. unfold log_from_value, as_object. rewrite Hv. by eexists. Qed.

Section open.
Context (Hopen : ∀ w, (io_events_open (W:=W) w).1 = true).

Lemma send_event_open e s :
  sm_events_closed s = false →
  wp (send_event e) (λ r s', r = Ok tt ∧ sm_events_closed s' = false ∧
    sm_events s' = sm_events s ++ [e]) s.
Proof.
  intros Hc. unfold wp, send_event. pose proof (Hopen (sm_world s)).
  destruct (io_events_open _) as [o w]. cbn in *. subst o. by rewrite Hc.
Qed.

Lemma clock_open s :
  sm_events_closed s = false →
  wp current_time_ms (λ r s', (∃ now, r = Ok now) ∧ sm_events_closed s' = false ∧
    sm_events s' = sm_events s) s.
Proof. intros Hc. unfold wp, current_time_ms, on_world. destruct (io_clock _). by split; [eexists|]. Qed.

Lemma dispatch_logs_exact logs s :
  Forall (λ v, is_Some (log_from_value v)) logs → sm_events_closed s = false →
  wp (dispatch_logs context logs) (λ r s', r = Ok (Z.of_nat (length logs)) ∧
    sm_events_closed s' = false ∧
    ∃ ls, Forall2 log_of logs ls ∧ sm_events s' = sm_events s ++ (EvLog <$> ls)) s.
Proof.
  intros Hl. revert s. induction Hl as [|v logs [raw Hv] _ IH]; intros s Hc; cbn [dispatch_logs].
  { split_and!; [done..|]. exists []. cbn. by rewrite app_nil_r. }
  rewrite Hv. apply wp_bind. unfold wp at 1, of_outcome, lift. cbn [fst snd].
  destruct (to_log_ok raw {| md_block_context := Pending; md_channel := FlashblocksWs;
    md_observed_at_ms := 0; md_chain_id := 0; md_tx_hash := None; md_decode_status := Decoded;
    md_raw := raw_summary RawMessageType.Log 0 None Logs |}) as (l0 & H0 & _).
  unfold to_log in H0. destruct (log_decode raw) as [decoded|[]|] eqn:Hdec; [|done]. cbn [map_err].
  apply wp_bind. eapply wp_mono; [|by apply clock_open]. intros ? s1 ([now ->] & H1 & E1). cbv zeta.
  apply wp_bind. unfold wp at 1. cbn [fst snd].
  match goal with |- context [to_log raw ?m] =>
    destruct (to_log_ok raw m) as (l & Hl & _) end. rewrite Hl. cbn [map_err].
  apply wp_bind. eapply wp_mono; [|by apply send_event_open]. intros ? s2 (-> & H2 & E2).
  apply wp_bind. eapply wp_mono; [|by apply IH]. intros ? s3 (-> & H3 & ls & Hls & E3).
  unfold wp. cbn [mret eff_ret fst snd length]. split_and!; [f_equal; lia|done|]. exists (l :: ls).
  split; [constructor; [by eapply to_log_of|done]|]. rewrite E3, E2, E1, <- app_assoc. done.
Qed.

(** A sub-block is fanned out in order: when its events are received, every
    log of its receipts is delivered, in the order of the receipts, as a pending log
    that carries the hash of its transaction, and then one summary that counts
    them. *)
Theorem dispatch_fans_out payload size s :
  sm_events_closed s = false →
  let '(r, s') := dispatch context payload size s in
  let views := extract_views payload in
  r = Ok tt ∧
  (∀ v, v ∈ vw_logs views → ∃ tx_hash m own, tx_hash ∈ vw_tx_hashes views ∧
     variant v = JObject m ∧
     map_get m "transactionHash" = Some (default (value_of (JString tx_hash)) own)) ∧
  ∃ ls f, Forall2 log_of (vw_logs views) ls ∧
    sm_events s' = sm_events s ++ (EvLog <$> ls) ++ [EvFlashblock f] ∧
    fb_log_count f = Z.of_nat (length ls) ∧ fb_tx_hashes f = vw_tx_hashes views ∧
    fb_payload_id f = fbp_payload_id payload ∧ fb_index f = fbp_index payload.
Proof.
  intros Hc. cbv zeta.
  assert (∀ v, v ∈ vw_logs (extract_views payload) → ∃ tx_hash m own,
    tx_hash ∈ vw_tx_hashes (extract_views payload) ∧ variant v = JObject m ∧
    map_get m "transactionHash" = Some (default (value_of (JString tx_hash)) own)) as Hhash.
  { cbn. destruct (fbp_metadata payload) as [m|]; [|by intros v ?%elem_of_nil].
    intros v Hv. destruct (collect_logs_hash _ _ Hv) as (h & o & Hin & Ho & _ & own & Hown). eauto 10. }
  enough (wp (dispatch context payload size) (λ r s', r = Ok tt ∧
    ∃ ls f, Forall2 log_of (vw_logs (extract_views payload)) ls ∧
      sm_events s' = sm_events s ++ (EvLog <$> ls) ++ [EvFlashblock f] ∧
      fb_log_count f = Z.of_nat (length ls) ∧ fb_tx_hashes f = vw_tx_hashes (extract_views payload) ∧
      fb_payload_id f = fbp_payload_id payload ∧ fb_index f = fbp_index payload) s) as H.
  { unfold wp in H. destruct (dispatch _ _ _ s). naive_solver. }
  unfold dispatch. apply wp_bind. eapply wp_mono; [|apply dispatch_logs_exact; [|done]].
  - intros ? s1 (-> & H1 & ls & Hls & E1). apply wp_bind.
    eapply wp_mono; [|by apply clock_open]. intros ? s2 ([now ->] & H2 & E2).
    eapply wp_mono; [|by apply send_event_open]. intros ? s3 (-> & H3 & E3). split; [done|].
    eexists ls, _. split; [done|]. rewrite E3, E2, E1, <- app_assoc. split; [done|].
    cbn [fb_log_count]. by rewrite (Forall2_length _ _ _ Hls).
  - apply Forall_forall. intros v Hv. destruct (Hhash v Hv) as (h & m & own & _ & Hm & _).
    by eapply log_from_object.
Qed.
End open.
End properties.
