(* ===== verification/Startup.v ===== *)
(** What the engine builds before its main loop: the RPC topology and the provider
    (crate [rpc]), the execution transport ([build_execution_transport] of
    [app/src/main.rs]), the channels and the ingest pipeline (crate [ingest],
    [channel] and [pipeline.rs]).

    URL parsing, the HTTP client, the answers of the node and the channels of tokio are
    parameters. *)

From S2P Require Import Prelude RustStr Types Config Execution Submit RawLog Stream.
#[local] Open Scope Z_scope.

(** ** The RPC topology *)

Module RpcEndpoint.
Inductive RpcEndpoint :=
| Http (url : string)
| Ws (url : string)
| Ipc (path : string)
| FlashblocksWs (url : string).
End RpcEndpoint.

Record RpcTopology := {
  rt_chain_id : Z;                            (* u64 *)
  rt_primary : option RpcEndpoint.RpcEndpoint;
  rt_fallbacks : list RpcEndpoint.RpcEndpoint;
  rt_multicall3_address : option string;
  rt_retry_initial_ms : Z;                    (* u64 *)
  rt_retry_max_ms : Z;                        (* u64 *)
  rt_request_timeout_ms : Z }.                (* u64 *)

Definition push_some {A : Type} (l : list A) (o : option A) : list A :=
  match o with Some a => l ++ [a] | None => l end.

Definition topology_from_config (config : RpcConfig) : RpcTopology :=
  let ordered := [] in
  let ordered := push_some ordered (RpcEndpoint.Ipc <$> rpcc_ipc_file_path config) in
  let ordered := push_some ordered (RpcEndpoint.Ws <$> rpcc_ws_url config) in
  let ordered := push_some ordered (RpcEndpoint.Http <$> rpcc_http_url config) in
  {| rt_chain_id := rpcc_chain_id config;
     rt_primary := head ordered;
     rt_fallbacks := drop 1 ordered;
     rt_multicall3_address := rpcc_multicall3_address config;
     rt_retry_initial_ms := rpcc_retry_initial_ms config;
     rt_retry_max_ms := rpcc_retry_max_ms config;
     rt_request_timeout_ms := rpcc_request_timeout_ms config |}.

Definition topology_flashblocks (config : RpcConfig) : option RpcEndpoint.RpcEndpoint :=
  RpcEndpoint.FlashblocksWs <$> rpcc_flashblocks_ws_url config.

(** The primary endpoint, then the fallbacks. *)
Definition endpoints (topology : RpcTopology) : list RpcEndpoint.RpcEndpoint :=
  match rt_primary topology with
  | Some primary => primary :: rt_fallbacks topology
  | None => rt_fallbacks topology
  end.

Definition first_http (topology : RpcTopology) : option string :=
  head (omap (λ e, match e with RpcEndpoint.Http url => Some url | _ => None end)
             (endpoints topology)).

Definition first_ws (topology : RpcTopology) : option string :=
  head (omap (λ e, match e with RpcEndpoint.Ws url => Some url | _ => None end)
             (endpoints topology)).

Record EngineProvider (Client : Type) := {
  ep_inner : Client;
  ep_chain_id : Z;                            (* u64 *)
  ep_request_timeout_ms : Z }.
Arguments ep_inner {Client} _.
Arguments ep_chain_id {Client} _.
Arguments ep_request_timeout_ms {Client} _.

(** ** The execution transport *)

Section transport.
(** [Url::parse], the HTTP client on a URL with a timeout, and what the node
    answers to [eth_chainId] and to the pending transaction count of an address. *)
Context {SocketAddr Url Client Signer : Type} (url_parse : string → anyhow Url)
  (http_client : Url → Z → anyhow Client) (get_chain_id : Client → anyhow Z)
  (pending_count : Client → Signer → anyhow Z).
(** The signer sources, as in file [Submit]. *)
Context (signer_from_bytes : list Z → anyhow Signer)
  (decrypt_keystore : string → string → anyhow Signer) (set_chain_id : Signer → Z → Signer).

Definition connect_http (topology : RpcTopology) : anyhow (EngineProvider Client) :=
  url_str ← ok_or (first_http topology)
    ["no HTTP endpoint configured for the engine provider"%string];
  url ← context (url_parse url_str) ("invalid HTTP rpc URL `" +:+ url_str +:+ "`");
  inner ← context (http_client url (Z.max (rt_request_timeout_ms topology) 1))
    "failed to build reqwest http client";
  Ok {| ep_inner := inner; ep_chain_id := rt_chain_id topology;
        ep_request_timeout_ms := Z.max (rt_request_timeout_ms topology) 1 |}.

Definition verify_chain_id (provider : EngineProvider Client) : anyhow unit :=
  observed ← context (get_chain_id (ep_inner provider))
    "failed to call eth_chainId during bootstrap";
  if negb (observed =? ep_chain_id provider)
  then bail ("rpc endpoint reports chain_id " +:+ show_uint observed +:+
             " but engine is configured for " +:+ show_uint (ep_chain_id provider))
  else Ok tt.

(** The transports of the engine: the placeholder with its reason, or the one that
    submits. *)
Inductive Transport :=
| Unavailable (reason : string)
| AlloySubmit (provider : EngineProvider Client) (signer : Signer) (nonce : NonceState)
    (caps : GasCaps).

Definition debug_mode (m : ExecutionMode) : string :=
  match m with Shadow => "Shadow" | Canary => "Canary" | Live => "Live" end.

Definition build_execution_transport (topology : RpcTopology)
    (config : AppConfig SocketAddr) : anyhow Transport :=
  if bool_decide (exec_mode (app_execution config) = Shadow)
  then Ok (Unavailable "shadow mode: submission disabled by configuration") else
  match first_http topology with
  | None => bail ("execution mode `" +:+ debug_mode (exec_mode (app_execution config)) +:+
      "` requires a HTTP RPC endpoint; set INGEST_HTTP_URL or its alias")
  | Some _ =>
      provider ← context (connect_http topology) "failed to connect HTTP rpc provider";
      _ ← context (verify_chain_id provider) "rpc chain id verification failed during bootstrap";
      signer ← context (load_signer signer_from_bytes decrypt_keystore set_chain_id
                          (app_signer config) (rt_chain_id topology))
        "failed to load signer for execution transport";
      let '(synced, nonce) := sync_from_chain (pending_count (ep_inner provider) signer) nonce_new in
      _ ← context synced "failed to initialise signer nonce from chain";
      caps ← context (caps_from_config (app_execution config)) "invalid gas cap configuration";
      Ok (AlloySubmit provider signer nonce caps)
  end.
End transport.
Arguments Unavailable {Client Signer} reason.
Arguments AlloySubmit {Client Signer} provider signer nonce caps.

(** ** The ingest pipeline *)

Definition ipc_from_config (config : IngestConfig) : res IngestError IngestEndpoint :=
  match ing_ipc_file_path config with
  | None => Err (MissingChannelConfig Ipc)
  | Some file_path => Ok (IpcEndpoint file_path)
  end.

Definition ws_from_config (config : IngestConfig) : res IngestError IngestEndpoint :=
  match ing_ws_url config with
  | None => Err (MissingChannelConfig Ws)
  | Some url => Ok (WsEndpoint url)
  end.

Definition selected_endpoint (config : IngestConfig) : res IngestError IngestEndpoint :=
  match ing_channel config with
  | Ipc => ipc_from_config config
  | Ws => ws_from_config config
  | FlashblocksWs => Err (MissingChannelConfig FlashblocksWs)
  end.

(** The streams a pipeline holds. *)
Inductive BoxedStream :=
| BoxTransaction (context : IngestStreamContext)
| BoxLog (context : IngestStreamContext)
| BoxBlock (context : IngestStreamContext)
| BoxFlashblocks (context : IngestStreamContext) (url : string).

Record IngestPipeline := {
  pl_streams : list BoxedStream;
  pl_event_channel_capacity : Z;              (* usize *)
  pl_runtime_channel_capacity : Z }.          (* usize *)

Definition pipeline_new (event_channel_capacity runtime_channel_capacity : Z) : IngestPipeline :=
  {| pl_streams := []; pl_event_channel_capacity := event_channel_capacity;
     pl_runtime_channel_capacity := runtime_channel_capacity |}.

Definition add_stream (p : IngestPipeline) (stream : BoxedStream) : IngestPipeline :=
  {| pl_streams := pl_streams p ++ [stream];
     pl_event_channel_capacity := pl_event_channel_capacity p;
     pl_runtime_channel_capacity := pl_runtime_channel_capacity p |}.

Definition stream_count (p : IngestPipeline) : Z := Z.of_nat (length (pl_streams p)).

Definition pipeline_from_config (config : IngestConfig) : res IngestError IngestPipeline :=
  endpoint ← selected_endpoint config;
  let context := {| ctx_chain_id := ing_chain_id config;
                    ctx_endpoint := endpoint;
                    ctx_reconnect_initial_ms := ing_reconnect_initial_ms config;
                    ctx_reconnect_max_ms := ing_reconnect_max_ms config;
                    ctx_heartbeat_timeout_secs := ing_heartbeat_timeout_secs config |} in
  let pipeline := pipeline_new (ing_event_channel_capacity config)
                    (ing_runtime_channel_capacity config) in
  let pipeline := if ing_subscribe_transactions config
                  then add_stream pipeline (BoxTransaction context) else pipeline in
  let pipeline := if ing_subscribe_logs config
                  then add_stream pipeline (BoxLog context) else pipeline in
  let pipeline := if ing_subscribe_blocks config
                  then add_stream pipeline (BoxBlock context) else pipeline in
  if ing_subscribe_flashblocks config then
    url ← ok_or (ing_flashblocks_ws_url config)
      (StreamFailure "flashblocks_stream"
         "subscribe_flashblocks=true but flashblocks_ws_url is unset");
    Ok (add_stream pipeline (BoxFlashblocks context url))
  else Ok pipeline.

(** [spawn] makes the two channels with [mpsc::channel], which may panic on its
    capacity, and one task per stream. *)
Definition spawn (mpsc_channel : Z → outcome unit) (p : IngestPipeline) :
    outcome (list BoxedStream) :=
  _ ← mpsc_channel (pl_event_channel_capacity p);
  _ ← mpsc_channel (pl_runtime_channel_capacity p);
  Ok (pl_streams p).

(** ** Properties *)

Lemma first_http_config config : first_http (topology_from_config config) = rpcc_http_url config.
Proof.
  unfold first_http, topology_from_config, endpoints.
  by destruct (rpcc_ipc_file_path config), (rpcc_ws_url config), (rpcc_http_url config).
Qed.

(** The topology offers the configured endpoints in the order IPC, websocket,
    HTTP: the primary is the first of them that is set, and the execution layer finds
    the HTTP endpoint, and a websocket client the websocket one, exactly when it is
    configured. *)
Theorem topology_endpoints config :
  first_http (topology_from_config config) = rpcc_http_url config ∧
  first_ws (topology_from_config config) = rpcc_ws_url config ∧
  rt_primary (topology_from_config config) =
    opt_or (RpcEndpoint.Ipc <$> rpcc_ipc_file_path config)
      (opt_or (RpcEndpoint.Ws <$> rpcc_ws_url config) (RpcEndpoint.Http <$> rpcc_http_url config)) ∧
  (endpoints (topology_from_config config) = [] ↔
     rpcc_ipc_file_path config = None ∧ rpcc_ws_url config = None ∧ rpcc_http_url config = None).
Proof.
  split; [apply first_http_config|]. unfold first_ws, topology_from_config, endpoints.
  destruct (rpcc_ipc_file_path config), (rpcc_ws_url config), (rpcc_http_url config);
    cbn; naive_solver.
Qed.

Section transport_properties.
Context {SocketAddr Url Client Signer : Type} (url_parse : string → anyhow Url)
  (http_client : Url → Z → anyhow Client) (get_chain_id : Client → anyhow Z)
  (pending_count : Client → Signer → anyhow Z) (signer_from_bytes : list Z → anyhow Signer)
  (decrypt_keystore : string → string → anyhow Signer) (set_chain_id : Signer → Z → Signer).
Abbreviation build := (build_execution_transport (SocketAddr:=SocketAddr) url_parse http_client
  get_chain_id pending_count signer_from_bytes decrypt_keystore set_chain_id).

Lemma caps_from_validated config :
  execution_validate config = Ok tt → ∃ caps, caps_from_config config = Ok caps.
Proof.
  intros [_ _ _ Hf Hp _]%execution_validate_valid. unfold caps_from_config.
  assert (∀ o c, (∀ raw, o = Some raw → parses_u128 raw) → ∃ r, opt_traverse
    (λ raw, context (parse_amount_anyhow raw) c) o = Ok r) as Hopt.
  { intros [raw|] c H; [|by eexists]. destruct (H raw eq_refl) as (n & Hn & _). cbn.
    unfold parse_amount_anyhow. rewrite Hn. by eexists. }
  destruct (Hopt _ "failed to parse EXECUTION_MAX_FEE_PER_GAS_WEI"%string Hf) as [a ->].
  destruct (Hopt _ "failed to parse EXECUTION_MAX_PRIORITY_FEE_PER_GAS_WEI"%string Hp) as [b ->].
  by eexists.
Qed.

Lemma load_signer_chain config chain_id signer :
  load_signer signer_from_bytes decrypt_keystore set_chain_id config chain_id = Ok signer →
  ∃ s, signer = set_chain_id s chain_id.
Proof. unfold load_signer. intros H. apply bind_ok in H as (s & _ & [= <-]). by exists s. Qed.

(** The transport of a shadow engine is the placeholder, whatever the node and
    the signer are. In the other modes a transport is built only over the configured
    HTTP endpoint, from a node that reports the configured chain, with a signer bound to
    that chain and a nonce counter at the node's pending count, ready to hand it out;
    the gas caps of a validated configuration never stop it. *)
Theorem transport_ready config transport :
  (exec_mode (app_execution config) = Shadow →
   build (topology_from_config (app_rpc config)) config =
     Ok (Unavailable "shadow mode: submission disabled by configuration")) ∧
  (exec_mode (app_execution config) ≠ Shadow →
   build (topology_from_config (app_rpc config)) config = Ok transport →
   ∃ provider signer n caps,
     transport = AlloySubmit provider signer {| ns_next := n; ns_initialised := true |} caps ∧
     is_Some (rpcc_http_url (app_rpc config)) ∧
     get_chain_id (ep_inner provider) = Ok (rpcc_chain_id (app_rpc config)) ∧
     (∃ s, signer = set_chain_id s (rpcc_chain_id (app_rpc config))) ∧
     pending_count (ep_inner provider) signer = Ok n ∧
     (n + 1 < 2 ^ 64 → (nonce_next {| ns_next := n; ns_initialised := true |}).1 = Ok n) ∧
     caps_from_config (app_execution config) = Ok caps) ∧
  (execution_validate (app_execution config) = Ok tt →
   ∃ caps, caps_from_config (app_execution config) = Ok caps).
Proof.
  split_and!; [|intros Hmode H|apply caps_from_validated].
  { intros Hm. unfold build_execution_transport. by rewrite bool_decide_true. }
  unfold build_execution_transport in H. rewrite bool_decide_false in H by done.
  destruct (first_http (topology_from_config (app_rpc config))) as [url|] eqn:Hurl; [|done].
  rewrite first_http_config in Hurl.
  apply bind_ok in H as (provider & Hprov & H). apply map_err_ok in Hprov.
  apply bind_ok in H as ([] & Hchain & H). apply map_err_ok in Hchain.
  apply bind_ok in H as (signer & Hsigner & H). apply map_err_ok in Hsigner.
  apply load_signer_chain in Hsigner. unfold sync_from_chain in H.
  assert (ep_chain_id provider = rpcc_chain_id (app_rpc config)) as Hid.
  { unfold connect_http in Hprov. inv_res. done. }
  destruct (pending_count (ep_inner provider) signer) as [n| |] eqn:Hn; [|done..].
  cbn [context map_err mbind res_bind] in H.
  apply bind_ok in H as (caps & Hcaps & [= <-]). apply map_err_ok in Hcaps.
  exists provider, signer, n, caps. split_and!; [done|by rewrite Hurl| |done|done| |done].
  - unfold verify_chain_id in Hchain. apply bind_ok in Hchain as (id & Hget & Hchain).
    apply map_err_ok in Hget. rewrite Hget, <- Hid. destruct (id =? ep_chain_id provider) eqn:He; [|done].
    f_equal. lia.
  - intros Hlt. unfold nonce_next. cbn [ns_initialised negb ns_next]. unfold checked_add.
    by rewrite (proj2 (Z.ltb_lt _ _) Hlt).
Qed.
End transport_properties.

(** ** The pipeline of an accepted configuration *)

(** The streams a configuration asks for, in the order they are added. *)
Definition wanted_streams (config : IngestConfig) (context : IngestStreamContext) : list BoxedStream :=
  (if ing_subscribe_transactions config then [BoxTransaction context] else []) ++
  (if ing_subscribe_logs config then [BoxLog context] else []) ++
  (if ing_subscribe_blocks config then [BoxBlock context] else []) ++
  match ing_subscribe_flashblocks config, ing_flashblocks_ws_url config with
  | true, Some url => [BoxFlashblocks context url]
  | _, _ => []
  end.

(** What the stream theorems ask of a context. *)
Record context_wf (c : IngestStreamContext) : Prop := {
  cw_chain : ctx_chain_id c ≠ 0;
  cw_backoff : 0 < ctx_reconnect_initial_ms c ≤ ctx_reconnect_max_ms c;
  cw_max : ctx_reconnect_max_ms c < 2 ^ 64;
  cw_heartbeat : ctx_heartbeat_timeout_secs c ≠ 0 }.

Record ingest_typed (c : IngestConfig) : Prop := {
  it_channel : ing_channel c ≠ FlashblocksWs;
  it_initial : uint 64 (ing_reconnect_initial_ms c);
  it_max : uint 64 (ing_reconnect_max_ms c) }.

Lemma ingest_from_env_typed env c :
  ingest_from_env env = Ok c → ingest_validate c = Ok tt ∧ ingest_typed c.
Proof.
  unfold ingest_from_env. intros H. inv_res.
  match goal with H : ingest_validate _ = Ok ?u |- _ => destruct u; split; [exact H|] end.
  constructor; cbn.
  - intros ->. match goal with H : parse_channel _ = Ok _ |- _ => revert H end.
    unfold parse_channel. by repeat (case_match; [done|]).
  - by eapply uint_var_any_range; [| |eassumption].
  - by eapply uint_var_any_range; [| |eassumption].
Qed.

Lemma ingest_validate_inv c :
  ingest_validate c = Ok tt → ing_channel c ≠ FlashblocksWs →
  (∃ endpoint, selected_endpoint c = Ok endpoint) ∧ ing_chain_id c ≠ 0 ∧
  (ing_subscribe_transactions c || ing_subscribe_logs c || ing_subscribe_blocks c) = true ∧
  (ing_subscribe_flashblocks c = true → is_Some (ing_flashblocks_ws_url c)) ∧
  ing_reconnect_initial_ms c ≠ 0 ∧ ing_reconnect_initial_ms c ≤ ing_reconnect_max_ms c ∧
  ing_heartbeat_timeout_secs c ≠ 0 ∧ ing_event_channel_capacity c ≠ 0 ∧
  ing_runtime_channel_capacity c ≠ 0.
Proof.
  unfold ingest_validate. intros H Hch. case_if H as Hid. apply bind_ok in H as ([] & Hep & H).
  case_if H as Hsub. case_if H as Hfl. apply bind_ok in H as ([] & Hback & H).
  do 3 (apply bind_ok in H as (? & ? & H)).
  assert (ing_reconnect_initial_ms c ≠ 0 ∧ ing_reconnect_initial_ms c ≤ ing_reconnect_max_ms c)
    as [Hb1 Hb2].
  { unfold validate_backoff in Hback. destruct (ing_reconnect_initial_ms c =? 0) eqn:?; [done|].
    destruct (ing_reconnect_max_ms c <? ing_reconnect_initial_ms c) eqn:?; [done|]. lia. }
  split_and!; try done; eauto using validate_positive_ok.
  - unfold selected_endpoint, ipc_from_config, ws_from_config.
    destruct (ing_channel c), (ing_ipc_file_path c), (ing_ws_url c); naive_solver.
  - lia.
  - destruct (ing_subscribe_transactions c), (ing_subscribe_logs c), (ing_subscribe_blocks c); done.
  - intros Hf. rewrite Hf in Hfl. by apply opt_is_some_true.
Qed.

Section pipeline_properties.
Context {SocketAddr : Type} (socket_addr_from_str : string → option SocketAddr).

Lemma channel_ok (mpsc_channel : Z → outcome unit) max_permits capacity :
  (∀ capacity, mpsc_channel capacity = Panic ↔ capacity = 0 ∨ max_permits < capacity) →
  capacity ≠ 0 → mpsc_channel capacity = Ok tt ↔ capacity ≤ max_permits.
Proof.
  intros H Hc. specialize (H capacity). destruct (mpsc_channel capacity) as [[]|[]|].
  - split; [|done]. intros _. apply Z.nlt_ge. intros Hlt. 
    pose proof (proj2 H (or_intror Hlt)). done.
  - split; [done|]. destruct (proj1 H eq_refl); lia.
Qed.

(** C32. A configuration the engine accepts yields a pipeline: exactly the streams
    it asks for, at least one, in order, all on the selected endpoint and with a
    context that meets what the stream theorems ask. Spawning it panics only when a
    capacity exceeds the permits of a channel. *)
Theorem pipeline_ready mpsc_channel max_permits env c :
  (∀ capacity, mpsc_channel capacity = Panic ↔ capacity = 0 ∨ max_permits < capacity) →
  app_from_env socket_addr_from_str env = Ok c →
  ∃ p endpoint, pipeline_from_config (app_ingest c) = Ok p ∧
    selected_endpoint (app_ingest c) = Ok endpoint ∧
    let context := {| ctx_chain_id := ing_chain_id (app_ingest c); ctx_endpoint := endpoint;
                      ctx_reconnect_initial_ms := ing_reconnect_initial_ms (app_ingest c);
                      ctx_reconnect_max_ms := ing_reconnect_max_ms (app_ingest c);
                      ctx_heartbeat_timeout_secs := ing_heartbeat_timeout_secs (app_ingest c) |} in
    context_wf context ∧ pl_streams p = wanted_streams (app_ingest c) context ∧
    pl_streams p ≠ [] ∧
    (spawn mpsc_channel p = Ok (pl_streams p) ↔
       ing_event_channel_capacity (app_ingest c) ≤ max_permits ∧
       ing_runtime_channel_capacity (app_ingest c) ≤ max_permits).
Proof.
  intros Hmpsc. unfold app_from_env. intros H. apply bind_ok in H as (ingest & Hing & H).
  do 9 (apply bind_ok in H as (? & ? & H)). injection H as <-. cbn [app_ingest].
  destruct (ingest_from_env_typed _ _ Hing) as [Hv [Hch Hi Hm]].
  destruct (ingest_validate_inv _ Hv Hch)
    as ([ep Hep] & Hid & Hsub & Hfl & Hb1 & Hb2 & Hhb & Hec & Hrc).
  set (context := Build_IngestStreamContext (ing_chain_id ingest) ep (ing_reconnect_initial_ms ingest)
    (ing_reconnect_max_ms ingest) (ing_heartbeat_timeout_secs ingest)).
  assert (pipeline_from_config ingest = Ok
    {| pl_streams := wanted_streams ingest context;
       pl_event_channel_capacity := ing_event_channel_capacity ingest;
       pl_runtime_channel_capacity := ing_runtime_channel_capacity ingest |}) as Hp.
  { unfold pipeline_from_config, wanted_streams. rewrite Hep. cbn [mbind res_bind]. fold context.
    destruct (ing_subscribe_flashblocks ingest).
    - destruct (Hfl eq_refl) as [url ->]. cbn [ok_or mbind res_bind].
      by destruct (ing_subscribe_transactions ingest), (ing_subscribe_logs ingest),
        (ing_subscribe_blocks ingest).
    - by destruct (ing_subscribe_transactions ingest), (ing_subscribe_logs ingest),
        (ing_subscribe_blocks ingest). }
  eexists _, ep. split; [exact Hp|]. split; [done|]. fold context. cbv zeta. split_and!; [|done| |].
  - constructor; cbn; [done| |apply Hm|done]. destruct Hi. lia.
  - cbn. unfold wanted_streams. by destruct (ing_subscribe_transactions ingest),
      (ing_subscribe_logs ingest), (ing_subscribe_blocks ingest).
  - unfold spawn. cbn. rewrite <- (channel_ok _ _ _ Hmpsc Hec), <- (channel_ok _ _ _ Hmpsc Hrc).
    destruct (mpsc_channel (ing_event_channel_capacity ingest)) as [[]|[]|],
      (mpsc_channel (ing_runtime_channel_capacity ingest)) as [[]|[]|]; naive_solver.
Qed.
End pipeline_properties.
