(* ===== verification/Transports.v ===== *)
(** The transports the program runs over: [Box<dyn ExecutionTransport>], either the
    placeholder of shadow mode or the one that submits (crate [app],
    [build_execution_transport]; crate [execution], [submit.rs]), and what the engine does
    over them.

    The engine's theorems rely on [TransportLaws]; here they are shown of these transports
    over any node, clock, scheduler and signer, with no assumption on their answers.  The
    faults are the two inputs on which the program panics: a receipt deadline beyond the
    range of the clock, and a receipt whose fee is exactly [2^127] wei. *)

From S2P Require Import Prelude RustStr Types MarketsV2 U256 MarketsV3 PoolBook Config.
From S2P Require Import Risk Decision Execution Storage Submit App Startup.
#[local] Open Scope Z_scope.

Inductive Boxed (N S : Type) :=
| BoxUnavailable (t : UnavailableTransport)
| BoxAlloy (t : AlloySubmitTransport N S).
Arguments BoxUnavailable {N S} t.
Arguments BoxAlloy {N S} t.

(** The box of a transport that was built; [world] is what is behind a client. *)
Definition box {Client N S : Type} (world : Client → N)
    (t : Transport (Client:=Client) (Signer:=S)) : Boxed N S :=
  match t with
  | Unavailable reason => BoxUnavailable {| ut_reason := reason |}
  | AlloySubmit provider signer nonce caps =>
      BoxAlloy (alloy_new (world (ep_inner provider)) (ep_chain_id provider) signer nonce caps)
  end.

(** The box with an empty record of its submissions beside it. *)
Definition log_box {Client N S : Type} (world : Client → N)
    (t : Transport (Client:=Client) (Signer:=S)) : Logged (Boxed N S) :=
  {| lg_state := box world t; lg_calls := [] |}.

(** The requests of a transport so far. *)
Definition requests {N S : Type} (b : Boxed N S) : list Wire :=
  match b with BoxUnavailable _ => [] | BoxAlloy t => al_trace t end.

(** What makes the program panic: [started + timeout] out of the range of [Instant], and
    [-(fee as i128)] of a fee of [2^127]. *)
Definition wire_fault (w : Wire) : Prop :=
  match w with
  | WDeadline started timeout => INSTANT_END ≤ started + timeout
  | WReceipt _ (Answer (Some c)) => cr_gas_used c mod 2 ^ 64 * cr_effective_gas_price c = 2 ^ 127
  | _ => False
  end.

(** ** The requests of one operation *)

Section requests.
Context {A : Alloy} {HA : AlloyLaws A} {N : Type} {R : RpcNode N} {S : Type} {G : TxSigner S}.
Abbreviation transport := (AlloySubmitTransport N S).
Abbreviation eff_t := (eff transport Halt).
Implicit Types t : transport.

#[export] Instance boxed_transport : ExecutionTransport (Boxed N S) := {|
  tr_submit b payload attempt :=
    match b with
    | BoxUnavailable t => let '(r, t) := tr_submit t payload attempt in (r, BoxUnavailable t)
    | BoxAlloy t => let '(r, t) := tr_submit t payload attempt in (r, BoxAlloy t)
    end;
  tr_await_receipt b request attempt timeout :=
    match b with
    | BoxUnavailable t =>
        let '(r, t) := tr_await_receipt t request attempt timeout in (r, BoxUnavailable t)
    | BoxAlloy t => let '(r, t) := tr_await_receipt t request attempt timeout in (r, BoxAlloy t)
    end;
  tr_simulate b payload attempt :=
    match b with
    | BoxUnavailable t => let '(r, t) := tr_simulate t payload attempt in (r, BoxUnavailable t)
    | BoxAlloy t => let '(r, t) := tr_simulate t payload attempt in (r, BoxAlloy t)
    end |}.

(** The history grows. *)
Definition longer t t' : Prop := al_trace t `prefix_of` al_trace t'.

#[local] Instance longer_refl : Reflexive longer.
Proof. intros t. unfold longer. done. Qed.
#[local] Instance longer_trans : Transitive longer.
Proof. intros a b c. unfold longer. by transitivity (al_trace b). Qed.

(** [keeps longer]: no panic, and nothing is taken out of the history. *)
Lemma request_keeps {B : Type} (f : N → B * N) wire : keeps longer (request (S:=S) f wire).
Proof.
  intros t. unfold wp, request, longer. destruct (f _). cbn. split; [done|by eexists].
Qed.
Lemma field_keeps {B : Type} (f : transport → B) : keeps longer (field f).
Proof. by intros t. Qed.
Lemma answered_keeps {E B : Type} (r : option (Reply E B)) : keeps longer (answered (N:=N) (S:=S) r).
Proof. destruct r; by intros t. Qed.
Lemma anyhow_keeps {B : Type} (r : anyhow B) : r ≠ Panic → keeps longer (anyhow_t (N:=N) (S:=S) r).
Proof. intros Hr. apply keeps_lift; [apply _|]. by destruct r. Qed.

Lemma submit_inner_keeps payload attempt : keeps longer (submit_inner (N:=N) (S:=S) payload attempt).
Proof.
  intros t. unfold wp. destruct (submit_inner payload attempt t) as [r t'] eqn:H.
  destruct (submit_inner_cases _ _ _ _ _ H) as (Hr & k & Hk). split; [done|]. unfold longer. cbn.
  destruct Hk as [(raw & sent & [(to & fees & pr & gl & n & _ & _ & _ & _ & _ & Ht & _) _ _])
    |[(l & h & _ & _ & Ht) _]]; rewrite Ht; by eexists.
Qed.

Lemma simulate_keeps payload attempt :
  keeps longer (transport_simulate (N:=N) (S:=S) payload attempt).
Proof.
  intros t. unfold wp, transport_simulate, mbind, eff_bind, anyhow_t, lift, field, request, answered,
    mret, eff_ret. pose proof (router_of_no_panic payload) as Hp.
  destruct (router_of payload) as [to|e|]; cbn [map_err]; [|by split|done].
  destruct (rpc_call _ _) as [[[[]|e]|] n1]; cbn [of_reply map_err]; [|by split; [|by eexists]..].
  destruct (rpc_estimate_gas _ _) as [[[g|e]|] n2]; cbn [of_reply]; (split; [done|]); unfold longer;
    cbn; rewrite <- app_assoc; by eexists.
Qed.

(** ** The wait for a receipt *)

(** A receipt comes from an answer of the node. *)
Lemma poll_loop_keeps h tx_hash deadline fuel t :
  wp (poll_loop h tx_hash deadline fuel) (λ r t', r ≠ Panic ∧ longer t t' ∧
    ∀ receipt, r = Ok (Some receipt) → ∃ c, WReceipt tx_hash (Answer (Some c)) ∈ al_trace t' ∧
      receipt = translate_receipt h c) t.
Proof.
  revert t. induction fuel as [|fuel IH]; intros t; cbn [poll_loop]; [by split_and!|].
  unfold wp, mbind, eff_bind, anyhow_t, lift, field, request, mret, eff_ret.
  destruct (rpc_receipt _ _) as [[[c|]|e] n1]; cbn [of_reply context map_err fst snd].
  - split_and!; [done|by eexists|]. intros receipt [= <-]. exists c. split; [|done]. cbn. set_solver.
  - cbn [al_node moved_to]. destruct (deadline <=? instant n1).
    + split_and!; [done| |done]. unfold longer. cbn. rewrite <- app_assoc. by eexists.
    + match goal with |- context [poll_loop _ _ _ _ ?x] => specialize (IH x); set (t1 := x) in * end.
      destruct IH as (Hr & Hl & Hc). split_and!; [exact Hr| |exact Hc].
      transitivity t1; [|exact Hl]. unfold longer, t1. cbn. rewrite <- !app_assoc. by eexists.
  - split_and!; [done|by eexists|done].
Qed.

Lemma await_receipt_faults attempt timeout t :
  wp (await_receipt attempt timeout) (λ r t', longer t t' ∧
    (r = Panic → Exists wire_fault (al_trace t')) ∧
    ∀ receipt, r = Ok (Some receipt) → total_fee_paid receipt = Ok (Some (2 ^ 127)) →
      Exists wire_fault (al_trace t')) t.
Proof.
  unfold await_receipt, poll_receipt. apply wp_bind. unfold wp at 1, anyhow_t, lift. cbn [fst snd].
  destruct (at_tx_hash attempt) as [tx_hash|]; cbn [ok_or map_err]; [|by split_and!].
  apply wp_bind, wp_bind. unfold wp at 1, request. cbn [fst snd]. cbv zeta.
  set (t1 := moved_to t _ _).
  assert (longer t t1) as H1 by (unfold longer, t1; by eexists).
  destruct (INSTANT_END <=? instant (al_node t) + timeout) eqn:Hd.
  { unfold wp at 1. cbn [fst snd]. split_and!; [done|intros _|done]. apply Exists_exists.
    exists (WDeadline (instant (al_node t)) timeout). split; [cbn; set_solver|cbn; lia]. }
  apply wp_bind. unfold wp at 1. cbn [fst snd].
  pose proof (bytes32_from_str_no_panic tx_hash) as Hp.
  destruct (bytes32_from_str tx_hash) as [word|e|]; cbn [context map_err]; [|by split_and!|done].
  apply wp_bind. unfold wp at 1, field. cbn [fst snd].
  eapply wp_mono; [|apply poll_loop_keeps]. intros [[receipt|]|e|] t' (Hr & Hl & Hc); cbn;
    unfold wp; cbn; [|by split_and!; [etransitivity|..]|by split_and!; [etransitivity|..]|done].
  split_and!; [by etransitivity|done|]. intros receipt' [= <-] Hfee.
  destruct (Hc receipt eq_refl) as (c & Hin & ->). apply Exists_exists.
  exists (WReceipt word (Answer (Some c))). split; [done|]. revert Hfee. unfold total_fee_paid. cbn.
  unfold checked_mul, checked_add. destruct (_ <? _); cbn; [|done].
  destruct (_ <? _); cbn; [|done]. intros [= H]. lia.
Qed.

(** ** The laws *)

#[export] Instance boxed_faults : TransportFaults (Boxed N S) := λ b, Exists wire_fault (requests b).

Lemma longer_faults t t' : longer t t' → Exists wire_fault (al_trace t) → Exists wire_fault (al_trace t').
Proof. intros [k Hk]. rewrite Hk. intros H. apply Exists_app. by left. Qed.

Lemma timed_panic {B : Type} (r : res Halt B) : r ≠ Panic → timed r ≠ Some Panic.
Proof. by destruct r as [|[]|]. Qed.

#[export] Instance boxed_laws : TransportLaws (Boxed N S).
Proof.
  constructor; intros [u|t]; intros *; unfold fault, boxed_faults; cbn; try done.
  - pose proof (submit_inner_keeps p a t) as [K _]. destruct (submit_inner p a t). by apply timed_panic.
  - pose proof (simulate_keeps p a t) as [K _]. destruct (transport_simulate p a t). by apply timed_panic.
  - pose proof (submit_inner_keeps p a t) as [_ K]. destruct (submit_inner p a t). by apply longer_faults.
  - pose proof (simulate_keeps p a t) as [_ K]. destruct (transport_simulate p a t). by apply longer_faults.
  - pose proof (await_receipt_faults a (n * 10 ^ 9) t) as (K & _). destruct (await_receipt _ _ t).
    by apply longer_faults.
  - pose proof (await_receipt_faults a (n * 10 ^ 9) t) as (_ & K & _). destruct (await_receipt _ _ t) as [x t'].
    cbn in *. by destruct x as [|[]|]; try done; intros _; apply K.
  - pose proof (await_receipt_faults a (n * 10 ^ 9) t) as (_ & _ & K). destruct (await_receipt _ _ t) as [x t'].
    cbn in *. destruct x as [|[]|]; try done. intros [= ->]. by apply K.
Qed.
End requests.

(** ** The engine over its transport *)

Section engine.
Context {U : U256} {HU : U256Laws U} {A : Alloy} {HA : AlloyLaws A}.
Context {J : SerdeJson} {HJ : SerdeJsonLaws J}.
Context {N : Type} {R : RpcNode N} {S : Type} {G : TxSigner S}.
Context (sha256_hex : list Z → string) (policy : RiskPolicy) (config : ExecutionConfig)
  (scan : option RuntimeScanConfig).

(** C4. The engine end to end, over the transport it is built with: over every sequence of
    typed events, whatever the node, the clock, the signer and the database answer, a run
    keeps the book valid, and it panics only when the transport has been asked to wait
    beyond the range of the clock or has been handed a receipt whose gas used, times its
    price, is exactly [2^127] wei. *)
Theorem engine_run_safe events (s : Engine (Logged (Boxed N S))) :
  run_typed scan events → book_wf (en_book s) →
  wp (engine_run sha256_hex policy config scan events)
     (λ r s', (r = Panic → Exists wire_fault (requests (lg_state (en_transport s')))) ∧
              book_wf (en_book s')) s.
Proof. intros Hty Hb. exact (engine_run_wf sha256_hex policy config scan events s Hty Hb). Qed.
End engine.
