(* ===== verification/Discovery.v ===== *)
(** Pool discovery (crate [discovery]) and its call from [main.rs]: the factories, the
    scan of their logs in chunks, the hydration of the pools through Multicall3, the
    insertion into the book.

    The node is the class [DiscoveryNode], the ABI codec with the events and calls of
    the source's [sol!] block the class [DiscoveryAbi]; the service is written against
    the class [FactoryReader], the trait of the source, with the alloy reader as an
    instance. *)

From S2P Require Import Prelude RustStr Types MarketsV2 U256 MarketsV3 PoolBook Config.
From S2P Require Import Execution Submit Storage App RawLog Stream Startup.
#[local] Open Scope Z_scope.

(** ** Factories *)

Module FactoryKind.
Inductive FactoryKind := UniswapV2 | UniswapV3.
End FactoryKind.

Record FactoryConfig := {
  fc_address : string;
  fc_kind : FactoryKind.FactoryKind;
  fc_protocol : Protocol.Protocol;
  fc_exchange : option Exchange.Exchange;
  fc_deployment_block : Z;                    (* u64 *)
  fc_default_v2_fee_bps : option Z;           (* u32 *)
  fc_log_chunk_size : option Z }.             (* u64 *)

Definition factory_validate (self : FactoryConfig) : res string unit :=
  if bool_decide (trim (fc_address self) = "") then Err "factory address must not be empty"%string
  else if match fc_kind self with FactoryKind.UniswapV2 => true | _ => false end
            && negb (opt_is_some (fc_default_v2_fee_bps self))
  then Err "v2 factory requires default_v2_fee_bps"%string
  else Ok tt.

Definition log_chunk_size_or_default (self : FactoryConfig) : Z :=
  Z.max (default 5000 (fc_log_chunk_size self)) 1.

Module base_mainnet.
Definition uniswap_v2 : FactoryConfig :=
  {| fc_address := "0x8909Dc15e40173Ff4699343b6eB8132c65e18eC6";
     fc_kind := FactoryKind.UniswapV2; fc_protocol := Protocol.UniswapV2; fc_exchange := None;
     fc_deployment_block := 6601915; fc_default_v2_fee_bps := Some 30;
     fc_log_chunk_size := None |}.

Definition uniswap_v3 : FactoryConfig :=
  {| fc_address := "0x33128a8fC17869897dcE68Ed026d694621f6FDfD";
     fc_kind := FactoryKind.UniswapV3; fc_protocol := Protocol.UniswapV3; fc_exchange := None;
     fc_deployment_block := 1371680; fc_default_v2_fee_bps := None;
     fc_log_chunk_size := None |}.

Definition aerodrome_v2 : FactoryConfig :=
  {| fc_address := "0x420DD381b31aEf6683db6B902084cB0FFECe40Da";
     fc_kind := FactoryKind.UniswapV2; fc_protocol := Protocol.Aerodrome;
     fc_exchange := Some Exchange.Aerodrome; fc_deployment_block := 3200559;
     fc_default_v2_fee_bps := Some 30; fc_log_chunk_size := None |}.
End base_mainnet.

Inductive DiscoveryError :=
| InvalidFactory (reason : string)
| DiscoveryTransport (e : error)
| InvalidDiscoveredPool (e : MarketError)
| MissingMulticall3.

Definition show_discovery_error (e : DiscoveryError) : string :=
  match e with
  | InvalidFactory reason => "factory misconfigured: " +:+ reason
  | DiscoveryTransport e => "rpc transport error: " +:+ display_error e
  | InvalidDiscoveredPool e => "decoded pool failed validation: " +:+ show_market_error e
  | MissingMulticall3 => "multicall3 address required but not configured"
  end.

(** ** Events and calls of the [sol!] block *)

Record PairCreated := {
  pc_token0 : AlloyAddress;
  pc_token1 : AlloyAddress;
  pc_pair : AlloyAddress;
  pc_allPairsLength : Z }.                    (* uint256 *)

Record PoolCreated := {
  plc_token0 : AlloyAddress;
  plc_token1 : AlloyAddress;
  plc_fee : Z;                                (* uint24 *)
  plc_tickSpacing : Z;                        (* int24 *)
  plc_pool : AlloyAddress }.

Record getReservesReturn := {
  gr_reserve0 : Z;                            (* uint112 *)
  gr_reserve1 : Z;                            (* uint112 *)
  gr_blockTimestampLast : Z }.                (* uint32 *)

Record slot0Return := {
  s0_sqrtPriceX96 : Z;                        (* uint160 *)
  s0_tick : Z;                                (* int24 *)
  s0_observationIndex : Z;
  s0_observationCardinality : Z;
  s0_observationCardinalityNext : Z;
  s0_feeProtocol : Z;
  s0_unlocked : bool }.

Record liquidityReturn := { lq_0 : Z }.       (* uint128 *)

Record Call3 := {
  c3_target : AlloyAddress;
  c3_allowFailure : bool;
  c3_callData : list Z }.

Record MulticallResult := {
  mr_success : bool;
  mr_returnData : list Z }.

(** [SIGNATURE_HASH], [decode_log(.., true).ok()], [abi_encode] and
    [abi_decode_returns(.., true)] of the bindings, on the logs of an RPC node. *)
Class DiscoveryAbi := {
  RpcLog : Type;
  pair_created_hash : list Z;
  pool_created_hash : list Z;
  decode_pair_created : RpcLog → option PairCreated;
  decode_pool_created : RpcLog → option PoolCreated;
  encode_getReserves : list Z;
  encode_slot0 : list Z;
  encode_liquidity : list Z;
  encode_aggregate3 : list Call3 → list Z;
  decode_getReserves : list Z → option getReservesReturn;
  decode_slot0 : list Z → option slot0Return;
  decode_liquidity : list Z → option liquidityReturn;
  decode_aggregate3 : list Z → anyhow (list MulticallResult) }.

(** The codec returns values of the declared types. *)
Class DiscoveryAbiLaws (B : DiscoveryAbi) : Prop := {
  decode_pool_created_range log e : decode_pool_created log = Some e →
    uint 24 (plc_fee e) ∧ int24 (plc_tickSpacing e);
  decode_getReserves_range data r : decode_getReserves data = Some r →
    uint 112 (gr_reserve0 r) ∧ uint 112 (gr_reserve1 r);
  decode_slot0_range data r : decode_slot0 data = Some r →
    uint 160 (s0_sqrtPriceX96 r) ∧ int24 (s0_tick r);
  decode_liquidity_range data r : decode_liquidity data = Some r → uint 128 (lq_0 r);
  decode_aggregate3_no_panic data : decode_aggregate3 data ≠ Panic }.

Record Filter := {
  ft_address : AlloyAddress;
  ft_topic0 : list Z;
  ft_from_block : Z;
  ft_to_block : Z }.

(** [eth_blockNumber], [eth_getLogs] and [eth_call] (target and input). *)
Class DiscoveryNode {B : DiscoveryAbi} (N : Type) := {
  get_block_number : N → anyhow Z * N;
  get_logs : N → Filter → anyhow (list RpcLog) * N;
  eth_call : N → AlloyAddress → list Z → anyhow (list Z) * N }.

(** The calls return or fail, and a block number is a [u64]. *)
Class DiscoveryNodeLaws {B : DiscoveryAbi} {N : Type} (D : DiscoveryNode N) : Prop := {
  get_block_number_no_panic n : (get_block_number n).1 ≠ Panic;
  get_block_number_range n h : (get_block_number n).1 = Ok h → uint 64 h;
  get_logs_no_panic n f : (get_logs n f).1 ≠ Panic;
  eth_call_no_panic n to data : (eth_call n to data).1 ≠ Panic }.

(** ** The reader *)

Record DiscoveredV2Pool := {
  dv2_address : string;
  dv2_token0 : string;
  dv2_token1 : string;
  dv2_reserve0 : Z;                           (* u128 *)
  dv2_reserve1 : Z;                           (* u128 *)
  dv2_fee_bps : Z }.                          (* u32 *)

Record DiscoveredV3Pool := {
  dv3_address : string;
  dv3_token0 : string;
  dv3_token1 : string;
  dv3_fee_pips : Z;                           (* u32 *)
  dv3_tick_spacing : Z;                       (* i32 *)
  dv3_sqrt_price_x96 : Z;                     (* U256 *)
  dv3_tick : Z;                               (* i32 *)
  dv3_liquidity : Z }.                        (* u128 *)

Class FactoryReader (R : Type) := {
  latest_block : eff R error Z;
  fetch_v2_pair_created : FactoryConfig → Z → Z → eff R error (list DiscoveredV2Pool);
  fetch_v3_pool_created : FactoryConfig → Z → Z → eff R error (list DiscoveredV3Pool);
  hydrate_v2_reserves :
    AlloyAddress → list DiscoveredV2Pool → eff R error (list DiscoveredV2Pool);
  hydrate_v3_state :
    AlloyAddress → list DiscoveredV3Pool → eff R error (list DiscoveredV3Pool) }.

Section alloy_reader.
Context {A : Alloy} {E : AlloyEvents} {B : DiscoveryAbi} {N : Type} {D : DiscoveryNode N}.
Abbreviation eff_node := (eff N error).

Definition factory_address (input : string) : anyhow AlloyAddress :=
  map_err (λ _, ["invalid hex address `" +:+ input +:+ "`"]) (address_from_str (trim input)).

Definition decode_v2_pair_created (factory : FactoryConfig) (log : RpcLog) :
    option DiscoveredV2Pool :=
  evt ← decode_pair_created log;
  Some {| dv2_address := lower_hex (pc_pair evt); dv2_token0 := lower_hex (pc_token0 evt);
          dv2_token1 := lower_hex (pc_token1 evt); dv2_reserve0 := 0; dv2_reserve1 := 0;
          dv2_fee_bps := default 30 (fc_default_v2_fee_bps factory) |}.

Definition decode_v3_pool_created (log : RpcLog) : option DiscoveredV3Pool :=
  evt ← decode_pool_created log;
  Some {| dv3_address := lower_hex (plc_pool evt); dv3_token0 := lower_hex (plc_token0 evt);
          dv3_token1 := lower_hex (plc_token1 evt); dv3_fee_pips := plc_fee evt;
          dv3_tick_spacing := plc_tickSpacing evt; dv3_sqrt_price_x96 := 0; dv3_tick := 0;
          dv3_liquidity := 0 |}.

(** The [while] loop of the two scans; [None] is a loop that has not ended within
    its turns. *)
Fixpoint scan_chunks {P : Type} (family : string) (decode : RpcLog → option P)
    (address : AlloyAddress) (topic0 : list Z) (chunk to_block : Z) (turns : nat) (cursor : Z)
    (out : list P) : eff_node (option (list P)) :=
  if to_block <? cursor then mret (Some out) else
  match turns with
  | O => mret None
  | S turns =>
      sum ← lift (add_or_panic 64 cursor chunk);
      last ← lift (sub_or_panic sum 1);
      let chunk_end := Z.min last to_block in
      logs ← eff_context (λ n, get_logs n {| ft_address := address; ft_topic0 := topic0;
                                            ft_from_block := cursor; ft_to_block := chunk_end |})
               ("eth_getLogs failed for " +:+ family +:+ " factory chunk " +:+
                show_uint cursor +:+ "-" +:+ show_uint chunk_end);
      scan_chunks family decode address topic0 chunk to_block turns
        (saturating_add 64 chunk_end 1) (out ++ omap decode logs)
  end.

(** A chunk per turn is enough ([scan_chunks_ends]). *)
Definition scan_turns (from_block to_block chunk : Z) : nat :=
  Z.to_nat ((to_block - from_block) / chunk + 1).

Definition scan {P : Type} (family : string) (decode : RpcLog → option P) (topic0 : list Z)
    (factory : FactoryConfig) (from_block to_block : Z) : eff_node (list P) :=
  address ← lift (context (factory_address (fc_address factory))
                    (family +:+ " factory address must be valid hex"));
  let chunk := log_chunk_size_or_default factory in
  found ← scan_chunks family decode address topic0 chunk to_block
            (scan_turns from_block to_block chunk) from_block [];
  match found with Some out => mret out | None => lift Panic end.

Definition multicall_aggregate3 (multicall3 : AlloyAddress) (calls : list Call3) :
    eff_node (list MulticallResult) :=
  let calldata := encode_aggregate3 calls in
  raw ← eff_context (λ n, eth_call n multicall3 calldata)
          "eth_call to multicall3.aggregate3 failed";
  lift (context (decode_aggregate3 raw) "failed to decode multicall3 aggregate3 returns").

Definition ZERO_ADDRESS : AlloyAddress := replicate 20 0.

(** [parse_address(..).unwrap_or(Address::ZERO)] and a call that may fail. *)
Definition pool_call (address : string) (callData : list Z) : Call3 :=
  {| c3_target := match factory_address address with Ok a => a | _ => ZERO_ADDRESS end;
     c3_allowFailure := true; c3_callData := callData |}.

Definition hydrate_v2_slot (slot : DiscoveredV2Pool) (res : MulticallResult) : DiscoveredV2Pool :=
  if negb (mr_success res) then slot else
  match decode_getReserves (mr_returnData res) with
  | Some decoded =>
      {| dv2_address := dv2_address slot; dv2_token0 := dv2_token0 slot;
         dv2_token1 := dv2_token1 slot; dv2_reserve0 := gr_reserve0 decoded;
         dv2_reserve1 := gr_reserve1 decoded; dv2_fee_bps := dv2_fee_bps slot |}
  | None => slot
  end.

(** [iter_mut().zip(results)]: slots without a result stay as they are. *)
Fixpoint hydrate_v2_slots (slots : list DiscoveredV2Pool) (results : list MulticallResult) :
    list DiscoveredV2Pool :=
  match slots, results with
  | slot :: slots, res :: results => hydrate_v2_slot slot res :: hydrate_v2_slots slots results
  | slots, _ => slots
  end.

Definition hydrate_v3_slot (slot : DiscoveredV3Pool) (slot0_res liq_res : MulticallResult) :
    DiscoveredV3Pool :=
  if negb (mr_success slot0_res) || negb (mr_success liq_res) then slot else
  let slot := match decode_slot0 (mr_returnData slot0_res) with
    | Some decoded =>
        {| dv3_address := dv3_address slot; dv3_token0 := dv3_token0 slot;
           dv3_token1 := dv3_token1 slot; dv3_fee_pips := dv3_fee_pips slot;
           dv3_tick_spacing := dv3_tick_spacing slot;
           dv3_sqrt_price_x96 := s0_sqrtPriceX96 decoded; dv3_tick := s0_tick decoded;
           dv3_liquidity := dv3_liquidity slot |}
    | None => slot
    end in
  match decode_liquidity (mr_returnData liq_res) with
  | Some decoded =>
      {| dv3_address := dv3_address slot; dv3_token0 := dv3_token0 slot;
         dv3_token1 := dv3_token1 slot; dv3_fee_pips := dv3_fee_pips slot;
         dv3_tick_spacing := dv3_tick_spacing slot;
         dv3_sqrt_price_x96 := dv3_sqrt_price_x96 slot; dv3_tick := dv3_tick slot;
         dv3_liquidity := lq_0 decoded |}
  | None => slot
  end.

(** [results[i]]. *)
Definition result_at (results : list MulticallResult) (i : nat) : res error MulticallResult :=
  match results !! i with Some r => Ok r | None => Panic end.

Fixpoint hydrate_v3_slots (k : nat) (slots : list DiscoveredV3Pool)
    (results : list MulticallResult) : res error (list DiscoveredV3Pool) :=
  match slots with
  | [] => Ok []
  | slot :: slots =>
      slot0_res ← result_at results (2 * k);
      liq_res ← result_at results (2 * k + 1);
      rest ← hydrate_v3_slots (S k) slots results;
      Ok (hydrate_v3_slot slot slot0_res liq_res :: rest)
  end.

Definition v2_calls (pools : list DiscoveredV2Pool) : list Call3 :=
  (λ p, pool_call (dv2_address p) encode_getReserves) <$> pools.

Definition v3_calls (pools : list DiscoveredV3Pool) : list Call3 :=
  p ← pools;
  [pool_call (dv3_address p) encode_slot0; pool_call (dv3_address p) encode_liquidity].

#[global] Instance AlloyFactoryReader : FactoryReader N := {|
  latest_block := eff_context get_block_number "eth_blockNumber for discovery latest_block";
  fetch_v2_pair_created factory := scan "v2" (decode_v2_pair_created factory) pair_created_hash factory;
  fetch_v3_pool_created factory := scan "v3" decode_v3_pool_created pool_created_hash factory;
  hydrate_v2_reserves multicall3 pools :=
    if bool_decide (pools = []) then mret pools else
    results ← eff_context (multicall_aggregate3 multicall3 (v2_calls pools))
                "v2 multicall hydration failed";
    mret (hydrate_v2_slots pools results);
  hydrate_v3_state multicall3 pools :=
    if bool_decide (pools = []) then mret pools else
    results ← eff_context (multicall_aggregate3 multicall3 (v3_calls pools))
                "v3 multicall hydration failed";
    lift (hydrate_v3_slots 0 pools results) |}.
End alloy_reader.

(** ** Insertion into the book *)

Section ingest.
Context {U : U256}.

Definition v2_state (factory : FactoryConfig) (pool : DiscoveredV2Pool) :
    res MarketError V2PoolState :=
  v2_new (dv2_address pool) (fc_protocol factory) (fc_exchange factory) (dv2_token0 pool)
    (dv2_token1 pool) (dv2_reserve0 pool) (dv2_reserve1 pool) (dv2_fee_bps pool).

Definition v3_state (factory : FactoryConfig) (pool : DiscoveredV3Pool) :
    res MarketError V3PoolState :=
  v3_new (dv3_address pool) (fc_protocol factory) (fc_exchange factory) (dv3_token0 pool)
    (dv3_token1 pool) (dv3_fee_pips pool) (dv3_tick_spacing pool) (dv3_sqrt_price_x96 pool)
    (dv3_liquidity pool) (dv3_tick pool).

(** The number of inserted pools, beside the book. *)
Fixpoint ingest_v2 (factory : FactoryConfig) (pools : list DiscoveredV2Pool) :
    eff PoolBook DiscoveryError Z :=
  match pools with
  | [] => mret 0
  | pool :: pools =>
      if (dv2_reserve0 pool =? 0) || (dv2_reserve1 pool =? 0) then ingest_v2 factory pools else
      match v2_state factory pool with
      | Ok state =>
          _ ← (λ book, (Ok tt, insert_v2_pool book state));
          inserted ← ingest_v2 factory pools;
          mret (inserted + 1)
      | Err _ => ingest_v2 factory pools
      | Panic => lift Panic
      end
  end.

Fixpoint ingest_v3 (factory : FactoryConfig) (pools : list DiscoveredV3Pool) :
    eff PoolBook DiscoveryError Z :=
  match pools with
  | [] => mret 0
  | pool :: pools =>
      if (dv3_liquidity pool =? 0) || (dv3_sqrt_price_x96 pool =? 0)
      then ingest_v3 factory pools else
      match v3_state factory pool with
      | Ok state =>
          _ ← (λ book, (Ok tt, insert_v3_pool book state));
          inserted ← ingest_v3 factory pools;
          mret (inserted + 1)
      | Err _ => ingest_v3 factory pools
      | Panic => lift Panic
      end
  end.
End ingest.

(** ** The service *)

(** The service holds its reader; what the reader reads from is in the state. *)
Record DiscoveryService := {
  svc_multicall3 : AlloyAddress;
  svc_pinned_head : option Z }.               (* u64 *)

Record DiscoveryReport := {
  dr_factory_address : string;
  dr_kind : FactoryKind.FactoryKind;
  dr_from_block : Z;                          (* u64 *)
  dr_to_block : Z;                            (* u64 *)
  dr_pools_scanned : Z;                       (* usize *)
  dr_pools_inserted : Z }.                    (* usize *)

(** The reader and the book of a discovery. *)
Record Discovery (R : Type) := { dc_reader : R; dc_book : PoolBook }.
Arguments dc_reader {R} _.
Arguments dc_book {R} _.

Section service.
Context {U : U256} {A : Alloy} {R : Type} {F : FactoryReader R}.
Abbreviation eff_discovery := (eff (Discovery R) DiscoveryError).

Definition on_reader {X : Type} (m : eff R error X) : eff_discovery X := λ s,
  let '(r, reader) := m (dc_reader s) in
  (map_err DiscoveryTransport r, {| dc_reader := reader; dc_book := dc_book s |}).

Definition on_pools {X : Type} (m : eff PoolBook DiscoveryError X) : eff_discovery X := λ s,
  let '(r, book) := m (dc_book s) in (r, {| dc_reader := dc_reader s; dc_book := book |}).

Definition service_new (multicall3 : string) : res DiscoveryError DiscoveryService :=
  multicall3 ← map_err (λ _, InvalidFactory "multicall3 address is not valid hex")
                 (address_from_str (trim multicall3));
  Ok {| svc_multicall3 := multicall3; svc_pinned_head := None |}.

Definition with_pinned_head (self : DiscoveryService) (head : Z) : DiscoveryService :=
  {| svc_multicall3 := svc_multicall3 self; svc_pinned_head := Some head |}.

Definition run_factory (self : DiscoveryService) (factory : FactoryConfig) :
    eff_discovery DiscoveryReport :=
  _ ← lift (map_err InvalidFactory (factory_validate factory));
  head ← match svc_pinned_head self with
         | Some h => mret h
         | None => on_reader latest_block
         end;
  if head <? fc_deployment_block factory then
    mret {| dr_factory_address := fc_address factory; dr_kind := fc_kind factory;
            dr_from_block := fc_deployment_block factory; dr_to_block := head;
            dr_pools_scanned := 0; dr_pools_inserted := 0 |}
  else
    let from_block := fc_deployment_block factory in
    let to_block := head in
    '(scanned, inserted) ←
      match fc_kind factory with
      | FactoryKind.UniswapV2 =>
          pools ← on_reader (fetch_v2_pair_created factory from_block to_block);
          hydrated ← on_reader (hydrate_v2_reserves (svc_multicall3 self) pools);
          inserted ← on_pools (ingest_v2 factory hydrated);
          mret (Z.of_nat (length pools), inserted)
      | FactoryKind.UniswapV3 =>
          pools ← on_reader (fetch_v3_pool_created factory from_block to_block);
          hydrated ← on_reader (hydrate_v3_state (svc_multicall3 self) pools);
          inserted ← on_pools (ingest_v3 factory hydrated);
          mret (Z.of_nat (length pools), inserted)
      end;
    mret {| dr_factory_address := fc_address factory; dr_kind := fc_kind factory;
            dr_from_block := from_block; dr_to_block := to_block;
            dr_pools_scanned := scanned; dr_pools_inserted := inserted |}.

(** The loop of [run_pool_discovery]: an error of a factory is logged and the next
    one is tried. *)
Fixpoint run_factories (self : DiscoveryService) (factories : list FactoryConfig) :
    eff (Discovery R) error unit :=
  match factories with
  | [] => mret tt
  | factory :: factories => λ s,
      match run_factory self factory s with
      | (Panic, s) => (Panic, s)
      | (_, s) => run_factories self factories s
      end
  end.
End service.

(** ** The call from [main.rs] *)

Section app.
Context {U : U256} {A : Alloy} {R : Type} {F : FactoryReader R}.
Context {Url Client : Type} (url_parse : string → anyhow Url)
  (http_client : Url → Z → anyhow Client) (get_chain_id : Client → anyhow Z).
Context (read_to_string : string → anyhow string)
  (from_str : string → anyhow (list FactoryConfig)).

Definition run_pool_discovery (config : DiscoveryConfig) (rpc_topology : RpcTopology) :
    eff (Discovery R) error unit :=
  factories_path ← lift (ok_or (dis_factories_path config)
    ["DISCOVERY_FACTORIES_PATH must be set when discovery is enabled"%string]);
  multicall3 ← lift (ok_or (dis_multicall3_address config)
    ["DISCOVERY_MULTICALL3_ADDRESS must be set when discovery is enabled"%string]);
  raw ← lift (context (read_to_string factories_path)
    ("failed to read factories file `" +:+ factories_path +:+ "`"));
  factories ← lift (context (from_str raw)
    ("failed to parse factories file `" +:+ factories_path +:+ "`"));
  provider ← lift (context (connect_http url_parse http_client rpc_topology)
    "failed to connect HTTP rpc provider for discovery");
  _ ← lift (context (verify_chain_id get_chain_id provider)
    "rpc chain_id mismatch during discovery bootstrap");
  service ← lift (context (map_err (λ e, [show_discovery_error e]) (service_new multicall3))
    "failed to construct DiscoveryService");
  let service := match dis_pinned_head_block config with
                 | Some head => with_pinned_head service head
                 | None => service
                 end in
  run_factories service factories.

(** The book of [main]: the bootstrap file, then discovery when it is enabled. *)
Definition boot_book (from_pools : string → anyhow (list BootstrapV2Pool))
    (decision : DecisionConfig) (discovery : DiscoveryConfig) (rpc_topology : RpcTopology)
    (reader : R) : anyhow PoolBook :=
  book ← context (load_pool_book read_to_string from_pools decision)
           "failed to bootstrap pool book";
  if dis_enabled discovery then
    match run_pool_discovery discovery rpc_topology {| dc_reader := reader; dc_book := book |} with
    | (r, s) => _ ← context r "failed to run pool discovery"; Ok (dc_book s)
    end
  else Ok book.
End app.

(** ** Properties *)

Lemma insert_v3_pool_wf b pool : book_wf b → v3_wf pool → book_wf (insert_v3_pool b pool).
Proof. intros [Hp Hh] Hwf. constructor; [|done]. by apply map_Forall_insert_2. Qed.

Definition insert_pool (b : PoolBook) (p : PoolState) : PoolBook :=
  match p with V2 pool => insert_v2_pool b pool | V3 pool => insert_v3_pool b pool end.

Lemma insert_pools_wf b l : book_wf b → Forall pool_wf l → book_wf (foldl insert_pool b l).
Proof.
  intros Hb Hl. revert b Hb. induction Hl as [|[p|p] l Hp _ IH]; intros b Hb; cbn; [done|..];
    apply IH; [by apply insert_v2_pool_wf|by apply insert_v3_pool_wf].
Qed.

(** The fields of a discovered pool are in the range of their types. *)
Definition v2_typed (p : DiscoveredV2Pool) : Prop :=
  uint 128 (dv2_reserve0 p) ∧ uint 128 (dv2_reserve1 p) ∧ uint 32 (dv2_fee_bps p).
Definition v3_typed (p : DiscoveredV3Pool) : Prop :=
  uint 32 (dv3_fee_pips p) ∧ uint 128 (dv3_liquidity p).

Section ingest_properties.
Context {U : U256} {HU : U256Laws U} (factory : FactoryConfig).

(** The pool a discovered one becomes in the book, if any. *)
Definition v2_kept (p : DiscoveredV2Pool) : option PoolState :=
  if (dv2_reserve0 p =? 0) || (dv2_reserve1 p =? 0) then None
  else V2 <$> result_ok (v2_state factory p).
Definition v3_kept (p : DiscoveredV3Pool) : option PoolState :=
  if (dv3_liquidity p =? 0) || (dv3_sqrt_price_x96 p =? 0) then None
  else V3 <$> result_ok (v3_state factory p).

Lemma v2_kept_wf p s : v2_typed p → v2_kept p = Some s → pool_wf s.
Proof.
  intros (H0 & H1 & Hf). unfold v2_kept. destruct (_ || _); [done|].
  destruct (v2_state factory p) as [st| |] eqn:Hst; cbn; try done. intros [= <-].
  unfold v2_state, v2_new in Hst. apply bind_ok in Hst as ([] & Hv & [= <-]).
  by apply v2_validate_ok in Hv.
Qed.

Lemma v3_kept_wf p s : v3_typed p → v3_kept p = Some s → pool_wf s.
Proof.
  intros (Hf & Hl). unfold v3_kept. destruct (_ || _); [done|].
  destruct (v3_state factory p) as [st| |] eqn:Hst; cbn; try done. intros [= <-].
  unfold v3_state, v3_new in Hst. apply bind_ok in Hst as ([] & Hv & [= <-]).
  by apply v3_validate_ok in Hv as [? _].
Qed.

Lemma v2_state_no_panic p : v2_state factory p ≠ Panic.
Proof. unfold v2_state, v2_new, v2_validate. by repeat case_match. Qed.

Lemma v3_state_no_panic p : v3_state factory p ≠ Panic.
Proof.
  unfold v3_state, v3_new, v3_validate. rewrite outside_price_range_eq. cbn.
  by repeat case_match.
Qed.

Lemma ingest_v2_exact l b :
  ingest_v2 factory l b =
    (Ok (Z.of_nat (length (omap v2_kept l))), foldl insert_pool b (omap v2_kept l)).
Proof.
  revert b. induction l as [|p l IH]; intros b; [done|]. cbn [ingest_v2 omap list_omap].
  destruct (v2_kept p) as [st|] eqn:Hk; unfold v2_kept in Hk; (destruct (_ || _); [try done; apply IH|]);
    pose proof (v2_state_no_panic p); destruct (v2_state factory p) as [st'| |]; try done.
  injection Hk as <-. unfold mbind, eff_bind. cbn. rewrite IH. unfold mret, eff_ret. repeat f_equal. lia.
Qed.

Lemma ingest_v3_exact l b :
  ingest_v3 factory l b =
    (Ok (Z.of_nat (length (omap v3_kept l))), foldl insert_pool b (omap v3_kept l)).
Proof.
  revert b. induction l as [|p l IH]; intros b; [done|]. cbn [ingest_v3 omap list_omap].
  destruct (v3_kept p) as [st|] eqn:Hk; unfold v3_kept in Hk; (destruct (_ || _); [try done; apply IH|]);
    pose proof (v3_state_no_panic p); destruct (v3_state factory p) as [st'| |]; try done.
  injection Hk as <-. unfold mbind, eff_bind. cbn. rewrite IH. unfold mret, eff_ret. repeat f_equal. lia.
Qed.
End ingest_properties.

(** ** What the service relies on *)

Definition factory_typed (f : FactoryConfig) : Prop :=
  uint 64 (fc_deployment_block f) ∧ (∀ fee, fc_default_v2_fee_bps f = Some fee → uint 32 fee) ∧
  ∀ size, fc_log_chunk_size f = Some size → uint 64 size.

(** The pools a reader finds and hydrates are typed. *)
Class FactoryReaderLaws {R : Type} (F : FactoryReader R) : Prop := {
  fetched_v2_typed f from to r pools : factory_typed f → 0 ≤ from →
    (fetch_v2_pair_created f from to r).1 = Ok pools → Forall v2_typed pools;
  fetched_v3_typed f from to r pools : factory_typed f → 0 ≤ from →
    (fetch_v3_pool_created f from to r).1 = Ok pools → Forall v3_typed pools;
  hydrated_v2_typed m pools r hydrated : Forall v2_typed pools →
    (hydrate_v2_reserves m pools r).1 = Ok hydrated → Forall v2_typed hydrated;
  hydrated_v3_typed m pools r hydrated : Forall v3_typed pools →
    (hydrate_v3_state m pools r).1 = Ok hydrated → Forall v3_typed hydrated }.

Section service_properties.
Context {U : U256} {HU : U256Laws U} {A : Alloy} {R : Type} {F : FactoryReader R}
  {HF : FactoryReaderLaws F}.
Implicit Types s : Discovery R.

Lemma on_reader_wf {X : Type} (m : eff R error X) Q s :
  book_wf (dc_book s) → (∀ x, (m (dc_reader s)).1 = Ok x → Q x) →
  wp (on_reader m) (λ r s', book_wf (dc_book s') ∧ ∀ x, r = Ok x → Q x) s.
Proof.
  intros Hb Hq. unfold wp, on_reader. destruct (m (dc_reader s)) as [[x| |] rd]; cbn in *;
    (split; [done|]); intros ? [= <-]; by apply Hq.
Qed.

Lemma run_factory_wf service f s :
  factory_typed f → book_wf (dc_book s) →
  wp (run_factory service f) (λ _ s', book_wf (dc_book s')) s.
Proof.
  intros Hf Hb. unfold run_factory. apply wp_bind. unfold wp at 1, lift. cbn [fst snd].
  destruct (map_err _ _) as [[]| |]; [|done..]. apply wp_bind.
  apply wp_mono with (Q := λ _ s', book_wf (dc_book s')).
  2:{ destruct (svc_pinned_head service); [done|].
      eapply wp_mono; [|by apply (on_reader_wf _ (λ _, True))]. by intros ?? [? _]. }
  intros [head| |] s1 H1; [|done..]. case_match; [done|]. cbv zeta. apply wp_bind.
  apply wp_mono with (Q := λ _ s', book_wf (dc_book s')); [by intros [[]| |] ??|].
  destruct Hf as [[Hd ?] Hf'].
  destruct (fc_kind f); apply wp_bind.
  - eapply wp_mono; [|apply (on_reader_wf _ (Forall v2_typed)); [done|]];
      [|intros ?; by apply fetched_v2_typed].
    intros [pools| |] s2 [H2 Hp]; [|done..]. apply wp_bind.
    eapply wp_mono; [|apply (on_reader_wf _ (Forall v2_typed)); [done|]];
      [|intros ?; by apply hydrated_v2_typed, Hp].
    intros [hs| |] s3 [H3 Hh]; [|done..]. apply wp_bind. unfold wp at 1, on_pools.
    rewrite ingest_v2_exact. apply insert_pools_wf; [done|]. apply Forall_forall. intros p Hin.
    apply list_elem_of_omap in Hin as (q & Hq & Hk). eapply v2_kept_wf, Hk.
    by eapply Forall_forall in Hh; [|reflexivity|exact Hq].
  - eapply wp_mono; [|apply (on_reader_wf _ (Forall v3_typed)); [done|]];
      [|intros ?; by apply fetched_v3_typed].
    intros [pools| |] s2 [H2 Hp]; [|done..]. apply wp_bind.
    eapply wp_mono; [|apply (on_reader_wf _ (Forall v3_typed)); [done|]];
      [|intros ?; by apply hydrated_v3_typed, Hp].
    intros [hs| |] s3 [H3 Hh]; [|done..]. apply wp_bind. unfold wp at 1, on_pools.
    rewrite ingest_v3_exact. apply insert_pools_wf; [done|]. apply Forall_forall. intros p Hin.
    apply list_elem_of_omap in Hin as (q & Hq & Hk). eapply v3_kept_wf, Hk.
    by eapply Forall_forall in Hh; [|reflexivity|exact Hq].
Qed.

Lemma run_factories_wf service factories s :
  Forall factory_typed factories → book_wf (dc_book s) →
  wp (run_factories service factories) (λ _ s', book_wf (dc_book s')) s.
Proof.
  intros Hf. revert s. induction Hf as [|f factories Hf _ IH]; intros s Hb; [done|].
  pose proof (run_factory_wf service f s Hf Hb) as H. unfold wp in *. cbn [run_factories].
  destruct (run_factory service f s) as [[]  s']; cbn in *; by try apply IH.
Qed.
End service_properties.

Section reader_properties.
Context {A : Alloy} {E : AlloyEvents} {B : DiscoveryAbi} {HB : DiscoveryAbiLaws B}
  {N : Type} {D : DiscoveryNode N}.
Implicit Types n : N.

Lemma chunk_positive f : 1 ≤ log_chunk_size_or_default f.
Proof. unfold log_chunk_size_or_default. lia. Qed.

(** The last block of a chunk and where the next one starts. *)
Lemma chunk_step cursor chunk to_block :
  0 ≤ cursor → cursor ≤ to_block → 1 ≤ chunk → cursor + chunk < 2 ^ 64 →
  let chunk_end := Z.min (cursor + chunk - 1) to_block in
  cursor ≤ chunk_end ≤ to_block ∧ saturating_add 64 chunk_end 1 = chunk_end + 1 ∧
  (chunk_end = to_block ∨ chunk_end + 1 = cursor + chunk ∧ chunk_end < to_block).
Proof. cbv zeta. unfold saturating_add, uint_max. lia. Qed.

Lemma scan_turns_step cursor to_block chunk turns :
  1 ≤ chunk → cursor + chunk ≤ to_block →
  (scan_turns cursor to_block chunk ≤ S turns)%nat →
  (scan_turns (cursor + chunk) to_block chunk ≤ turns)%nat.
Proof.
  unfold scan_turns. intros Hc Hle H.
  replace (to_block - (cursor + chunk)) with (to_block - cursor + (-1) * chunk) by lia.
  rewrite Z.div_add by lia.
  assert (0 ≤ (to_block - cursor) / chunk) by (apply Z.div_pos; lia). lia.
Qed.

Lemma scan_turns_pos cursor to_block chunk :
  1 ≤ chunk → cursor ≤ to_block → (1 ≤ scan_turns cursor to_block chunk)%nat.
Proof.
  unfold scan_turns. intros. assert (0 ≤ (to_block - cursor) / chunk) by (apply Z.div_pos; lia).
  lia.
Qed.

(** The loop ends within a turn per chunk, and what it finds has the property of the
    decoded pools. *)
Lemma scan_chunks_ends {P : Type} family (decode : RpcLog → option P) (Q : P → Prop) address topic0
    chunk to_block turns cursor out n :
  1 ≤ chunk → 0 ≤ cursor →
  (cursor ≤ to_block → (scan_turns cursor to_block chunk ≤ turns)%nat) →
  (∀ log p, decode log = Some p → Q p) → Forall Q out →
  wp (scan_chunks family decode address topic0 chunk to_block turns cursor out)
     (λ r _, ∀ found, r = Ok found → ∃ l, found = Some l ∧ Forall Q l) n.
Proof.
  intros Hc Hcur Hturns Hdec. revert cursor out n Hcur Hturns.
  induction turns as [|turns IH]; intros cursor out n Hcur Hturns Hout; cbn [scan_chunks];
    destruct (to_block <? cursor) eqn:Hle; try (intros ? [= <-]; by eexists).
  { assert (cursor ≤ to_block) as Hle' by lia. specialize (Hturns Hle').
    pose proof (scan_turns_pos cursor to_block chunk Hc Hle'). lia. }
  apply wp_bind. unfold wp at 1, add_or_panic. cbn [lift fst snd].
  destruct (cursor + chunk <? 2 ^ 64) eqn:Hlt; [|done]. apply wp_bind. unfold wp at 1, sub_or_panic.
  replace (cursor + chunk <? 1) with false by lia. cbn [lift fst snd]. cbv zeta.
  destruct (chunk_step cursor chunk to_block) as (Hend & Hnext & Hcase); [lia..|].
  apply wp_bind. unfold wp at 1, eff_context. destruct (get_logs n _) as [[logs| |] n']; [|done..].
  cbn [fst snd context map_err]. rewrite Hnext. apply IH; [lia| |].
  - intros Hle'. destruct Hcase as [Heq|[Heq Hlt']]; [lia|]. rewrite Heq.
    apply scan_turns_step; [done|lia|].
    apply Hturns. lia.
  - apply Forall_app. split; [done|]. apply Forall_forall. intros p Hp.
    apply list_elem_of_omap in Hp as (log & _ & Hlog). by eapply Hdec.
Qed.

Lemma scan_Forall {P : Type} family (decode : RpcLog → option P) (Q : P → Prop) topic0 f from to n l :
  0 ≤ from → (∀ log p, decode log = Some p → Q p) →
  (scan family decode topic0 f from to n).1 = Ok l → Forall Q l.
Proof.
  intros Hfrom Hdec. enough (wp (scan family decode topic0 f from to)
    (λ r _, ∀ l, r = Ok l → Forall Q l) n) as H by (intros Hl; by apply H).
  unfold scan. apply wp_bind. unfold wp at 1. cbn [lift fst snd].
  destruct (context _ _) as [address| |]; [|done..]. cbv zeta. apply wp_bind.
  eapply wp_mono; [|apply (scan_chunks_ends _ _ Q); [apply chunk_positive|done|done|done|done]].
  intros [found| |] n' Hq; [|done..]. destruct (Hq found eq_refl) as (l' & -> & Hl).
  by intros ? [= <-].
Qed.

Lemma hydrate_v2_slot_typed slot r : v2_typed slot → v2_typed (hydrate_v2_slot slot r).
Proof.
  intros (? & ? & ?). unfold hydrate_v2_slot. destruct (negb _); [done|].
  destruct (decode_getReserves _) as [d|] eqn:Hd; [|done].
  destruct (decode_getReserves_range _ _ Hd). unfold v2_typed, uint in *. cbn. lia.
Qed.

Lemma hydrate_v3_slot_typed slot r r' : v3_typed slot → v3_typed (hydrate_v3_slot slot r r').
Proof.
  intros (? & ?). unfold hydrate_v3_slot. destruct (_ || _); [done|]. cbv zeta.
  destruct (decode_liquidity _) as [d|] eqn:Hd.
  - apply decode_liquidity_range in Hd. by destruct (decode_slot0 _).
  - by destruct (decode_slot0 _).
Qed.

Lemma hydrate_v2_slots_typed slots results :
  Forall v2_typed slots → Forall v2_typed (hydrate_v2_slots slots results).
Proof.
  intros Hs. revert results. induction Hs as [|slot slots Hs Hl IH]; intros [|r results]; cbn;
    [done..|by constructor|]. constructor; [by apply hydrate_v2_slot_typed|apply IH].
Qed.

Lemma hydrate_v3_slots_typed k slots results hydrated :
  Forall v3_typed slots → hydrate_v3_slots k slots results = Ok hydrated →
  Forall v3_typed hydrated.
Proof.
  intros Hs. revert k hydrated. induction Hs as [|slot slots Hs Hl IH]; intros k hydrated H; cbn in H.
  { by injection H as <-. }
  apply bind_ok in H as (r & _ & H). apply bind_ok in H as (r' & _ & H).
  apply bind_ok in H as (rest & Hrest & [= <-]). constructor; [by apply hydrate_v3_slot_typed|].
  by eapply IH.
Qed.

#[global] Instance AlloyFactoryReader_laws : FactoryReaderLaws (AlloyFactoryReader (N:=N)).
Proof.
  constructor; cbn [fetch_v2_pair_created fetch_v3_pool_created hydrate_v2_reserves hydrate_v3_state
    AlloyFactoryReader].
  - intros f from to n pools (_ & Hfee & _) Hfrom. apply scan_Forall; [done|]. intros log p.
    unfold decode_v2_pair_created. destruct (decode_pair_created log); cbn; [|done].
    intros [= <-]. split_and!; cbn; [done..|]. destruct (fc_default_v2_fee_bps f); [by apply Hfee|done].
  - intros f from to n pools _ Hfrom. apply scan_Forall; [done|]. intros log p.
    unfold decode_v3_pool_created. destruct (decode_pool_created log) as [e|] eqn:He; cbn; [|done].
    intros [= <-]. destruct (decode_pool_created_range _ _ He) as [Hfee _].
    unfold v3_typed, uint in *. cbn. lia.
  - intros m pools n hydrated Hp. case_bool_decide; [by intros [= <-]|].
    unfold mbind, eff_bind. destruct (eff_context _ _ n) as [[results| |] n']; [|done..].
    intros [= <-]. by apply hydrate_v2_slots_typed.
  - intros m pools n hydrated Hp. case_bool_decide; [by intros [= <-]|].
    unfold mbind, eff_bind. destruct (eff_context _ _ n) as [[results| |] n']; [|done..].
    by apply hydrate_v3_slots_typed.
Qed.

(** The hydration of V3 pools indexes the answers: it panics exactly when one is
    missing. *)
Lemma hydrate_v3_slots_panics k slots results :
  hydrate_v3_slots k slots results = Panic ↔
  slots ≠ [] ∧ (length results < 2 * (k + length slots))%nat.
Proof.
  revert k. induction slots as [|slot slots IH]; intros k; cbn [hydrate_v3_slots]; [naive_solver|].
  unfold result_at. destruct (results !! (2 * k)%nat) as [r|] eqn:H0; cbn [mbind res_bind].
  2:{ apply lookup_ge_None in H0. cbn. split; [|done]. intros _. split; [done|lia]. }
  destruct (results !! (2 * k + 1)%nat) as [r'|] eqn:H1; cbn [mbind res_bind].
  2:{ apply lookup_ge_None in H1. cbn. split; [|done]. intros _. split; [done|lia]. }
  apply lookup_lt_Some in H1. specialize (IH (S k)). cbn [length].
  destruct (hydrate_v3_slots (S k) slots results) as [rest| |]; cbn [mbind res_bind].
  - split; [done|]. intros [_ Hlt]. destruct slots; [cbn in *; lia|].
    assert (@Ok error _ rest = Panic) by (apply IH; split; [done|cbn in *; lia]). done.
  - split; [done|]. intros [_ Hlt]. destruct slots; [cbn in *; lia|].
    assert (@Err error (list DiscoveredV3Pool) e = Panic) by (apply IH; split; [done|cbn in *; lia]). done.
  - destruct (proj1 IH eq_refl) as [_ ?]. split; [|done]. intros _. split; [done|lia].
Qed.
End reader_properties.

Section pass.
Context {U : U256} {HU : U256Laws U} {A : Alloy} {R : Type} {F : FactoryReader R}
  {HF : FactoryReaderLaws F}.
Context {Url Client : Type} (url_parse : string → anyhow Url)
  (http_client : Url → Z → anyhow Client) (get_chain_id : Client → anyhow Z)
  (read_to_string : string → anyhow string) (from_str : string → anyhow (list FactoryConfig)).

Lemma run_factories_no_error service factories (s : Discovery R) e :
  (run_factories service factories s).1 ≠ Err e.
Proof.
  revert s. induction factories as [|f factories IH]; intros s; [done|]. cbn.
  by destruct (run_factory service f s) as [[] s'].
Qed.

Lemma run_pool_discovery_wf config topology (s : Discovery R) :
  (∀ text factories, from_str text = Ok factories → Forall factory_typed factories) →
  book_wf (dc_book s) →
  wp (run_pool_discovery url_parse http_client get_chain_id read_to_string from_str config topology)
     (λ r s', book_wf (dc_book s') ∧ ∀ e, r = Err e → s' = s) s.
Proof.
  intros Hparse Hb. unfold run_pool_discovery.
  do 3 (apply wp_bind; unfold wp at 1, lift; cbn [fst snd];
        match goal with |- context [match ?r with Ok _ => _ | _ => _ end] => destruct r end; [|done..]).
  apply wp_bind. unfold wp at 1, lift. cbn [fst snd].
  destruct (context (from_str _) _) as [factories| |] eqn:Hf; [|done..]. apply map_err_ok in Hf.
  do 3 (apply wp_bind; unfold wp at 1, lift; cbn [fst snd];
        match goal with |- context [match ?r with Ok _ => _ | _ => _ end] => destruct r end; [|done..]).
  cbv zeta. match goal with |- wp (run_factories ?service _) _ _ =>
    pose proof (run_factories_wf service factories s (Hparse _ _ Hf) Hb) as H;
    pose proof (run_factories_no_error service factories s) as He end.
  unfold wp in *. split; [done|]. intros e Hr. by destruct (He e).
Qed.

(** Discovery keeps the book valid whatever its reader answers, on every
    outcome; when it reports an error nothing was inserted, and a factory that fails
    does not keep the others from being scanned. *)
Theorem discovery_keeps_book config topology (s : Discovery R) :
  (∀ text factories, from_str text = Ok factories → Forall factory_typed factories) →
  book_wf (dc_book s) →
  let '(r, s') := run_pool_discovery url_parse http_client get_chain_id read_to_string from_str
                    config topology s in
  book_wf (dc_book s') ∧ ∀ e, r = Err e → dc_book s' = dc_book s.
Proof.
  intros Hparse Hb. pose proof (run_pool_discovery_wf config topology s Hparse Hb) as H.
  unfold wp in H. destruct (run_pool_discovery _ _ _ _ _ _ _ s) as [r s']. cbn in H.
  destruct H as [Hw He]. split; [done|]. intros e Hr. by rewrite (He e Hr).
Qed.

Lemma boot_book_wf from_pools decision discovery topology (reader : R) book :
  (∀ text factories, from_str text = Ok factories → Forall factory_typed factories) →
  (∀ text entries, from_pools text = Ok entries → Forall entry_typed entries) →
  boot_book url_parse http_client get_chain_id read_to_string from_str from_pools decision discovery
    topology reader = Ok book → book_wf book.
Proof.
  intros Hparse Hpools H. unfold boot_book in H. apply bind_ok in H as (b & Hb & H).
  apply map_err_ok in Hb. apply load_pool_book_wf in Hb; [|done].
  destruct (dis_enabled discovery); [|by injection H as <-].
  pose proof (run_pool_discovery_wf discovery topology {| dc_reader := reader; dc_book := b |} Hparse Hb)
    as Hw. unfold wp in Hw. destruct (run_pool_discovery _ _ _ _ _ _ _ _) as [r s].
  apply bind_ok in H as ([] & _ & [= <-]). apply Hw.
Qed.
End pass.

(** ** Discovery on a faithful node *)

Section faithful.
Context {U : U256} {HU : U256Laws U} {A : Alloy} {E : AlloyEvents} {B : DiscoveryAbi}
  {N : Type} {D : DiscoveryNode N}.
Implicit Types n : N.

(** The pools a factory contributes: those of its creation logs, with the answers of
    the calls, that the book can take. *)
Definition discovered (factory : FactoryConfig) (answer : Call3 → MulticallResult)
    (logs : list RpcLog) : list PoolState :=
  match fc_kind factory with
  | FactoryKind.UniswapV2 =>
      omap (λ p, v2_kept factory
              (hydrate_v2_slot p (answer (pool_call (dv2_address p) encode_getReserves))))
        (omap (decode_v2_pair_created factory) logs)
  | FactoryKind.UniswapV3 =>
      omap (λ p, v3_kept factory
              (hydrate_v3_slot p (answer (pool_call (dv3_address p) encode_slot0))
                 (answer (pool_call (dv3_address p) encode_liquidity))))
        (omap decode_v3_pool_created logs)
  end.

Definition scanned (factory : FactoryConfig) (logs : list RpcLog) : nat :=
  match fc_kind factory with
  | FactoryKind.UniswapV2 => length (omap (decode_v2_pair_created factory) logs)
  | FactoryKind.UniswapV3 => length (omap decode_v3_pool_created logs)
  end.

Definition created_hash (kind : FactoryKind.FactoryKind) : list Z :=
  match kind with
  | FactoryKind.UniswapV2 => pair_created_hash
  | FactoryKind.UniswapV3 => pool_created_hash
  end.

(** The blocks of a range. *)
Definition blocks (from to : Z) : list Z := seqZ from (to - from + 1).

Lemma blocks_split from mid to : from ≤ mid + 1 → mid ≤ to →
  blocks from to = blocks from mid ++ blocks (mid + 1) to.
Proof.
  intros. unfold blocks. replace (to - from + 1) with ((mid - from + 1) + (to - (mid + 1) + 1)) by lia.
  rewrite seqZ_app by lia. f_equal. f_equal. lia.
Qed.

(** In chunks of any size the scan finds the logs of all blocks of the range, in
    order. *)
Lemma scan_chunks_exact {P : Type} family (decode : RpcLog → option P) address topic0 chunk to_block
    (chain : Z → list RpcLog) turns cursor out n :
  (∀ n a b, (get_logs n {| ft_address := address; ft_topic0 := topic0; ft_from_block := a;
                           ft_to_block := b |}).1 = Ok (blocks a b ≫= chain)) →
  1 ≤ chunk → 0 ≤ cursor → cursor ≤ to_block + 1 → to_block + chunk < 2 ^ 64 →
  (cursor ≤ to_block → (scan_turns cursor to_block chunk ≤ turns)%nat) →
  wp (scan_chunks family decode address topic0 chunk to_block turns cursor out)
     (λ r _, r = Ok (Some (out ++ omap decode (blocks cursor to_block ≫= chain)))) n.
Proof.
  intros Hlogs Hc Hcur Hle Hmax Hturns. revert cursor out n Hcur Hle Hturns.
  induction turns as [|turns IH]; intros cursor out n Hcur Hle Hturns; cbn [scan_chunks];
    destruct (to_block <? cursor) eqn:Hcmp.
  1,3: unfold wp, blocks; replace (to_block - cursor + 1) with 0 by lia; cbn; by rewrite app_nil_r.
  { assert (cursor ≤ to_block) as Hle' by lia. specialize (Hturns Hle').
    pose proof (scan_turns_pos cursor to_block chunk Hc Hle'). lia. }
  apply wp_bind. unfold wp at 1, add_or_panic. cbn [lift fst snd].
  replace (cursor + chunk <? 2 ^ 64) with true by lia. apply wp_bind. unfold wp at 1, sub_or_panic.
  replace (cursor + chunk <? 1) with false by lia. cbn [lift fst snd]. cbv zeta.
  destruct (chunk_step cursor chunk to_block) as (Hend & Hnext & Hcase); [lia..|].
  set (chunk_end := Z.min (cursor + chunk - 1) to_block) in *.
  apply wp_bind. unfold wp at 1, eff_context. pose proof (Hlogs n cursor chunk_end) as Hl.
  destruct (get_logs n _) as [r n']. cbn in Hl. subst r. cbn [fst snd context map_err].
  rewrite Hnext. eapply wp_mono; [|apply IH; [lia|lia|]].
  - intros ? ? ->. rewrite (blocks_split cursor chunk_end to_block) by lia.
    by rewrite bind_app, omap_app, app_assoc.
  - intros Hle'. destruct Hcase as [Heq|[Heq Hlt']]; [lia|]. rewrite Heq.
    apply scan_turns_step; [done|lia|]. apply Hturns. lia.
Qed.

Lemma omap_of_fmap {X Y Z' : Type} (f : Y → option Z') (g : X → Y) (l : list X) :
  omap f (g <$> l) = omap (λ x, f (g x)) l.
Proof. induction l as [|x l IH]; [done|]. cbn. by rewrite IH. Qed.

Lemma hydrate_v2_slots_answers answer pools :
  hydrate_v2_slots pools (answer <$> v2_calls pools) =
    (λ p, hydrate_v2_slot p (answer (pool_call (dv2_address p) encode_getReserves))) <$> pools.
Proof. induction pools as [|p pools IH]; [done|]. cbn. by f_equal. Qed.

Lemma hydrate_v3_slots_answers answer k pre pools :
  length pre = (2 * k)%nat →
  hydrate_v3_slots k pools (pre ++ (answer <$> v3_calls pools)) =
    Ok ((λ p, hydrate_v3_slot p (answer (pool_call (dv3_address p) encode_slot0))
                (answer (pool_call (dv3_address p) encode_liquidity))) <$> pools).
Proof.
  revert k pre. induction pools as [|p pools IH]; intros k pre Hk; [done|].
  set (r0 := answer (pool_call (dv3_address p) encode_slot0)).
  set (r1 := answer (pool_call (dv3_address p) encode_liquidity)).
  change (answer <$> v3_calls (p :: pools)) with (r0 :: r1 :: (answer <$> v3_calls pools)).
  cbn [hydrate_v3_slots]. unfold result_at.
  rewrite !lookup_app_r by lia.
  replace (2 * k - length pre)%nat with O by lia.
  replace (2 * k + 1 - length pre)%nat with 1%nat by lia. cbn [lookup list_lookup mbind res_bind].
  replace (pre ++ r0 :: r1 :: (answer <$> v3_calls pools))
    with ((pre ++ [r0; r1]) ++ (answer <$> v3_calls pools)) by (by rewrite <- app_assoc).
  rewrite (IH (S k)) by (rewrite length_app; cbn; lia). done.
Qed.

Section node.
(** The logs of the factory block by block, and the answer of each call; a node that
    serves them, and the Multicall3 contract at its address. *)
Context (factory : FactoryConfig) (address : AlloyAddress) (chain : Z → list RpcLog)
  (answer : Call3 → MulticallResult) (service : DiscoveryService).
Context (Haddress : factory_address (fc_address factory) = Ok address).
Context (Hlogs : ∀ n a b, (get_logs n {| ft_address := address;
  ft_topic0 := created_hash (fc_kind factory); ft_from_block := a; ft_to_block := b |}).1 =
  Ok (blocks a b ≫= chain)).
Context (Hcalls : ∀ n calls, ∃ raw,
  (eth_call n (svc_multicall3 service) (encode_aggregate3 calls)).1 = Ok raw ∧
  decode_aggregate3 raw = Ok (answer <$> calls)).

Lemma scan_exact {P : Type} family (decode : RpcLog → option P) from to n :
  0 ≤ from ≤ to → to + log_chunk_size_or_default factory < 2 ^ 64 →
  wp (scan family decode (created_hash (fc_kind factory)) factory from to)
     (λ r _, r = Ok (omap decode (blocks from to ≫= chain))) n.
Proof.
  intros Hfrom Hto. unfold scan. rewrite Haddress. apply wp_bind. unfold wp at 1. cbn [context map_err lift fst snd].
  cbv zeta. apply wp_bind. eapply wp_mono; [|apply (scan_chunks_exact _ _ _ _ _ _ chain);
    [done|apply chunk_positive|lia|lia|done|done]]. by intros ? ? ->.
Qed.

Lemma multicall_exact calls c n :
  wp (eff_context (multicall_aggregate3 (svc_multicall3 service) calls) c)
     (λ r _, r = Ok (answer <$> calls)) n.
Proof.
  destruct (Hcalls n calls) as (raw & Hraw & Hdec).
  unfold wp, eff_context, multicall_aggregate3, mbind, eff_bind, eff_context.
  destruct (eth_call n _ _) as [r n']. cbn in Hraw. subst r. cbn. by rewrite Hdec.
Qed.

Lemma on_reader_exact {X : Type} (m : eff N error X) x (s : Discovery N) :
  wp m (λ r _, r = Ok x) (dc_reader s) →
  wp (on_reader m) (λ r s', r = Ok x ∧ dc_book s' = dc_book s) s.
Proof.
  unfold wp, on_reader. destruct (m (dc_reader s)) as [r rd]. cbn. by intros ->.
Qed.

Lemma hydrate_v2_exact pools n :
  wp (hydrate_v2_reserves (svc_multicall3 service) pools)
     (λ r _, r = Ok ((λ p, hydrate_v2_slot p (answer (pool_call (dv2_address p) encode_getReserves)))
                       <$> pools)) n.
Proof.
  cbn. case_bool_decide as Hp; [by subst|]. apply wp_bind.
  eapply wp_mono; [|apply multicall_exact]. intros ? ? ->.
  by rewrite hydrate_v2_slots_answers.
Qed.

Lemma hydrate_v3_exact pools n :
  wp (hydrate_v3_state (svc_multicall3 service) pools)
     (λ r _, r = Ok ((λ p, hydrate_v3_slot p (answer (pool_call (dv3_address p) encode_slot0))
                             (answer (pool_call (dv3_address p) encode_liquidity))) <$> pools)) n.
Proof.
  cbn. case_bool_decide as Hp; [by subst|]. apply wp_bind.
  eapply wp_mono; [|apply multicall_exact]. intros ? ? ->.
  unfold wp. cbn. by rewrite (hydrate_v3_slots_answers answer 0 []).
Qed.

(** C22. Discovery finds exactly the pools of the factory: on a node that serves the
    logs and the calls, in chunks of any size, the book gains the pools created between
    the deployment block and the head, hydrated with the answers, that pass validation;
    the report counts the decoded and the inserted ones. *)
Theorem discovery_exact head (s : Discovery N) :
  factory_validate factory = Ok tt →
  match svc_pinned_head service with
  | Some h => h = head
  | None => (get_block_number (dc_reader s)).1 = Ok head
  end →
  0 ≤ fc_deployment_block factory ≤ head → head + log_chunk_size_or_default factory < 2 ^ 64 →
  let logs := blocks (fc_deployment_block factory) head ≫= chain in
  let '(r, s') := run_factory service factory s in
  r = Ok {| dr_factory_address := fc_address factory; dr_kind := fc_kind factory;
            dr_from_block := fc_deployment_block factory; dr_to_block := head;
            dr_pools_scanned := Z.of_nat (scanned factory logs);
            dr_pools_inserted := Z.of_nat (length (discovered factory answer logs)) |} ∧
  dc_book s' = foldl insert_pool (dc_book s) (discovered factory answer logs).
Proof.
  intros Hv Hhead Hblocks Hmax. cbv zeta. set (logs := blocks _ _ ≫= chain).
  enough (wp (run_factory service factory) (λ r s',
    r = Ok {| dr_factory_address := fc_address factory; dr_kind := fc_kind factory;
            dr_from_block := fc_deployment_block factory; dr_to_block := head;
            dr_pools_scanned := Z.of_nat (scanned factory logs);
            dr_pools_inserted := Z.of_nat (length (discovered factory answer logs)) |} ∧
    dc_book s' = foldl insert_pool (dc_book s) (discovered factory answer logs)) s) as H.
  { unfold wp in H. by destruct (run_factory service factory s). }
  unfold run_factory. rewrite Hv. apply wp_bind. unfold wp at 1. cbn [map_err lift fst snd].
  apply wp_bind. apply wp_mono with (Q := λ r s', r = Ok head ∧ dc_book s' = dc_book s).
  2:{ destruct (svc_pinned_head service); [by subst|]. apply on_reader_exact.
      unfold wp. cbn. unfold eff_context. destruct (get_block_number _). cbn in *. by subst. }
  intros ? s1 [-> E1]. replace (head <? fc_deployment_block factory) with false by lia.
  cbv zeta. apply wp_bind. unfold discovered, scanned.
  assert (∀ (P : Type) family (decode : RpcLog → option P) n, wp (scan family decode
    (created_hash (fc_kind factory)) factory (fc_deployment_block factory) head)
    (λ r _, r = Ok (omap decode logs)) n) as Hscan by (intros; by apply scan_exact).
  destruct (fc_kind factory) eqn:Hk; cbn [created_hash] in Hscan; apply wp_bind.
  - eapply wp_mono; [|apply on_reader_exact, (Hscan _ "v2"%string)]. intros ? s2 [-> E2].
    apply wp_bind. eapply wp_mono; [|apply on_reader_exact, hydrate_v2_exact].
    intros ? s3 [-> E3]. apply wp_bind. unfold wp at 1, on_pools. rewrite ingest_v2_exact.
    unfold wp. cbn. rewrite omap_of_fmap, E3, E2, E1. done.
  - eapply wp_mono; [|apply on_reader_exact, (Hscan _ "v3"%string)]. intros ? s2 [-> E2].
    apply wp_bind. eapply wp_mono; [|apply on_reader_exact, hydrate_v3_exact].
    intros ? s3 [-> E3]. apply wp_bind. unfold wp at 1, on_pools. rewrite ingest_v3_exact.
    unfold wp. cbn. rewrite omap_of_fmap, E3, E2, E1. done.
Qed.
End node.
End faithful.
