(* ===== verification/IngestApp.v ===== *)
(** The ingest side and the engine together: what a raw log does to the book, that
    the events of the streams keep the engine safe, and what a log without an index,
    as flashblocks deliver them, does to the main loop. *)

From S2P Require Import Prelude RustStr Types Registry MarketsV2 U256 MarketsV3 PoolBook Config.
From S2P Require Import Risk Decision Execution Storage App RawLog RawTx Stream Flashblocks.
From S2P Require Import Startup Discovery.
#[local] Open Scope Z_scope.

(** ** From a raw log to the pool *)

Definition SYNC_SIGNATURE : string :=
  "0x1c411e9a96e071241c2f21f7726b17ae89e3cab4c78be50e062b03a9fffbbad1".
Definition V3_SWAP_SIGNATURE : string :=
  "0xc42079f94a6350d7e6235f29174924f928cc2ac818eb64fed8004e115fbcca67".

Section pools.
Context {U : U256} {HU : U256Laws U} {A : AlloyEvents} {HA : AlloyEventsLaws A}.

(** The payload of a raw log as the ABI decoder sees it. *)
Definition decodes {E : Type} (decode : list (list Z) → list Z → option E) (raw : RawLogMessage)
    (e : E) : Prop :=
  ∃ topics data, decode_topics (rl_topics raw) = Some topics ∧
    decode_data (default "0x" (rl_data raw))%string = Some data ∧ decode topics data = Some e.

Lemma sync_decoded raw e p x :
  decodes decode_v2_sync raw e →
  ∃ d, decode_structured_event raw (Some SYNC_SIGNATURE) p x = Ok (Some d) ∧ dl_kind d = V2Sync ∧
    dl_reserve0 d = Some (v2sy_reserve0 e) ∧ dl_reserve1 d = Some (v2sy_reserve1 e).
Proof.
  intros (t & data & Ht & Hd & He). unfold decode_structured_event.
  cbn [ok_or mbind res_bind]. rewrite Ht. cbn [ok_or mbind res_bind]. rewrite Hd.
  cbn [ok_or mbind res_bind]. cbv zeta.
  rewrite bool_decide_false by done. rewrite bool_decide_true by done.
  destruct (v2_sync_event_eq (rl_address raw) p x t data e He) as (d & -> & ? & _ & ? & ? & _).
  by exists d.
Qed.

Lemma swap_decoded raw e p x :
  decodes decode_v3_swap raw e →
  ∃ d, decode_structured_event raw (Some V3_SWAP_SIGNATURE) p x = Ok (Some d) ∧ dl_kind d = V3Swap ∧
    dl_sqrt_price_x96 d = Some (show_uint (v3sw_sqrtPriceX96 e)) ∧
    dl_liquidity d = Some (v3sw_liquidity e) ∧ dl_tick d = Some (v3sw_tick e).
Proof.
  intros (t & data & Ht & Hd & He). unfold decode_structured_event.
  cbn [ok_or mbind res_bind]. rewrite Ht. cbn [ok_or mbind res_bind]. rewrite Hd.
  cbn [ok_or mbind res_bind]. cbv zeta.
  do 4 (rewrite bool_decide_false by done). rewrite bool_decide_true by done.
  destruct (v3_swap_event_eq (rl_address raw) p x t data e He) as (d & -> & ? & _ & ? & ? & ? & _).
  by exists d.
Qed.

(** C23. A Sync log from the wire reaches the pool it is for unchanged: decoded and
    applied to the book, it sets the reserves of the pool to the two 112-bit integers
    of the event and its block to the block of the log, and keeps the state before
    under the identity of the log. *)
Theorem sync_log_updates_pool raw metadata e b address p hash index :
  event_signature raw = Some SYNC_SIGNATURE → decodes decode_v2_sync raw e →
  rl_address raw = Some address → rl_log_index raw = Some index → rl_removed raw ≠ Some true →
  md_tx_hash metadata = Some hash →
  book_pool b address = Some (V2 p) → eq_ignore_ascii_case address (v2_address p) = true →
  v2sy_reserve0 e ≠ 0 → v2sy_reserve1 e ≠ 0 →
  ∃ log b', to_log raw metadata = Ok log ∧ book_apply_log b log = (Ok Applied, b') ∧
    book_pool b' address = Some (V2 (v2_with_reserves p (v2sy_reserve0 e) (v2sy_reserve1 e)
                                       (block_number (md_block_context metadata)))) ∧
    applied_sync_history b' = <[(hash, index) := v2_snapshot p]> (applied_sync_history b).
Proof.
  intros Hsig He Ha Hi Hrem Hh Hp Hcase H0 H1.
  destruct (to_log_ok raw metadata) as (log & Hlog & Hm & Hadr & Hidx & Hrm & _ & Hdec & _).
  rewrite Hsig in Hdec. destruct (sync_decoded raw e
    (rm_protocol (resolve_log (Some SYNC_SIGNATURE) (rl_address raw)))
    (rm_exchange (resolve_log (Some SYNC_SIGNATURE) (rl_address raw))) He)
    as (d & Hd & Hk & Hr0 & Hr1). rewrite Hd in Hdec. injection Hdec as Hdec.
  unfold book_pool in Hp. eexists log, _. split; [done|]. unfold book_apply_log.
  rewrite Hadr, Ha. cbv zeta. rewrite Hp. unfold apply_v2_log. rewrite <- Hdec, Hk.
  unfold applied_log_key. rewrite Hm, Hh, Hidx, Hi. cbn [ok_or mbind res_bind mret res_ret].
  rewrite Hrm. assert (default false (rl_removed raw) = false) as -> by (by destruct (rl_removed raw) as [[]|]).
  unfold v2_apply_log. rewrite Hadr, Ha, Hcase. cbn [negb]. rewrite <- Hdec, Hk, Hr0, Hr1, Hm.
  cbn [ok_or mbind res_bind]. unfold v2_apply_sync.
  rewrite (proj2 (Z.eqb_neq _ _) H0), (proj2 (Z.eqb_neq _ _) H1). cbn [orb mbind res_bind].
  split; [done|]. unfold book_pool. cbn. split; [by rewrite lookup_insert_eq|done].
Qed.

(** C24. A V3 swap from the wire reaches the pool it is for unchanged: the price,
    printed in decimal by the decoder and read back by the book, is the 160-bit
    integer of the event, with its liquidity and tick, as long as it is a price a pool
    can have. *)
Theorem swap_log_updates_pool raw metadata e b address p :
  event_signature raw = Some V3_SWAP_SIGNATURE → decodes decode_v3_swap raw e →
  rl_address raw = Some address →
  book_pool b address = Some (V3 p) → eq_ignore_ascii_case address (v3_address p) = true →
  min_sqrt_price ≤ v3sw_sqrtPriceX96 e ≤ MAX_SQRT_PRICE →
  ∃ log b', to_log raw metadata = Ok log ∧ book_apply_log b log = (Ok Applied, b') ∧
    book_pool b' address = Some (V3 (v3_with_price p (v3sw_sqrtPriceX96 e) (v3sw_liquidity e)
                                       (v3sw_tick e) (block_number (md_block_context metadata)))).
Proof.
  intros Hsig He Ha Hp Hcase Hrange.
  destruct (to_log_ok raw metadata) as (log & Hlog & Hm & Hadr & _ & _ & _ & Hdec & _).
  rewrite Hsig in Hdec. destruct (swap_decoded raw e
    (rm_protocol (resolve_log (Some V3_SWAP_SIGNATURE) (rl_address raw)))
    (rm_exchange (resolve_log (Some V3_SWAP_SIGNATURE) (rl_address raw))) He)
    as (d & Hd & Hk & Hprice & Hl & Ht). rewrite Hd in Hdec. injection Hdec as Hdec.
  destruct He as (topics & data & _ & _ & He).
  destruct (decode_v3_swap_range _ _ _ He) as (Hu & _ & _).
  unfold book_pool in Hp. eexists log, _. split; [done|]. unfold book_apply_log.
  rewrite Hadr, Ha. cbv zeta. rewrite Hp. unfold v3_apply_log. rewrite Hadr, Ha, Hcase.
  cbn [negb]. rewrite <- Hdec, Hk. unfold apply_v3_swap_event. rewrite Hprice, Hl, Ht.
  cbn [ok_or mbind res_bind]. rewrite u256_of_decimal by (unfold uint in *; lia).
  cbn [ok_or mbind res_bind]. rewrite outside_price_range_eq. cbn [mbind res_bind].
  rewrite bool_decide_true by done. cbn [negb mbind res_bind].
  split; [reflexivity|]. unfold book_pool. cbn [pools]. rewrite lookup_insert_eq, Hm. done.
Qed.
End pools.

(** ** From the streams to the engine *)

Section engine.
Context {U : U256} {HU : U256Laws U} {A : Alloy} {HA : AlloyLaws A}.
Context {S : SerdeJson} {HS : SerdeJsonLaws S} {T : Type} {X : ExecutionTransport T}
  {O : ObservedTransport T}.
Context {J : Json} {HJ : JsonLaws J} {K : FlashCodec} {W : Type} {IO : StreamIo W} {FIO : FlashIo W}.
Context {E : AlloyEvents} {HE : AlloyEventsLaws E} {C : AlloyCalls} {HC : AlloyCallsLaws C}.
Context (sha256_hex : list Z → string) (policy : RiskPolicy) (config : ExecutionConfig)
  (scan : option RuntimeScanConfig).

(** The task [spawn] starts for a stream of the pipeline: [stream.run(..)]. *)
Definition boxed_run (stream : BoxedStream) (fuel : nat) : eff (Stream W) Stop unit :=
  match stream with
  | BoxTransaction context => transaction_stream_run context fuel
  | BoxLog context => log_stream_run context fuel
  | BoxBlock context => block_stream_run context fuel
  | BoxFlashblocks context url => flashblocks_run context url fuel
  end.

(** An event some stream has delivered, at some point of some run. *)
Definition delivered (event : Event) : Prop :=
  ∃ stream fuel w, event ∈ sm_events (boxed_run stream fuel (idle_stream w)).2.

Lemma ingested_typed chain_id channel event : ingested chain_id channel event → event_typed event.
Proof. destruct event; cbn; naive_solver. Qed.

Lemma boxed_run_ingested stream fuel w :
  ∃ chain_id channel, Forall (ingested chain_id channel)
    (sm_events (boxed_run stream fuel (idle_stream w)).2).
Proof.
  assert (∀ context kind, node_stream (W:=W) context kind → ∃ chain_id channel,
    Forall (ingested chain_id channel)
      (sm_events (stream_run kind context fuel (idle_stream w)).2)) as Hnode.
  { intros context kind Hk. eexists _, _.
    destruct (stream_run_slept kind context fuel _ w (node_stream_delivers context kind Hk))
      as (n & new & _ & -> & Hn & _). exact Hn. }
  destruct stream as [context|context|context|context url]; [by apply Hnode; constructor..|].
  eexists _, _. cbn [boxed_run].
  destruct (flashblocks_run_slept context url fuel w) as (n & new & _ & He & Hn & _).
  rewrite He. eapply Forall_impl; [exact Hn|]. by intros event [? _].
Qed.

Lemma delivered_typed event : delivered event → event_typed event.
Proof.
  intros (stream & fuel & w & Hin). destruct (boxed_run_ingested stream fuel w) as (c & ch & Hn).
  rewrite Forall_forall in Hn. eapply ingested_typed, Hn, Hin.
Qed.

(** On any sequence of events the streams deliver, in any interleaving, the main loop
    panics only on a fault of its transport and keeps the book valid. *)
Lemma ingest_engine_safe {F : TransportFaults T} {HT : TransportLaws T} events (s : Engine T) :
  Forall (λ e, env_wf e.1 ∧ delivered e.2) events → scan_typed scan → book_wf (en_book s) →
  wp (engine_run sha256_hex policy config scan events)
     (λ r s', (r = Panic → fault (en_transport s')) ∧ book_wf (en_book s')) s.
Proof.
  intros He Hs. apply engine_run_wf; [exact HT|]. split; [done|]. eapply Forall_impl; [exact He|].
  intros [env event] [Henv Hd]. split; [done|]. by apply delivered_typed.
Qed.

(** ** Logs without an index *)

Lemma unidentified_refused b log address p d :
  log_address log = Some address → book_pool b address = Some (V2 p) →
  log_decoded_event log = Some d → dl_kind d = V2Sync → log_log_index log = None →
  ∃ b', book_apply_log b log = (Err MissingLogIdentity, b') ∧ book_pool b' address = None.
Proof.
  intros Ha Hp Hd Hk Hi. unfold book_apply_log, book_pool in *. rewrite Ha. cbv zeta. rewrite Hp.
  unfold apply_v2_log. rewrite Hd, Hk. unfold applied_log_key. rewrite Hi.
  destruct (md_tx_hash _); cbn [ok_or mbind res_bind]; eexists; (split; [done|]); cbn;
    apply lookup_delete_eq.
Qed.

Lemma handle_event_refused env log (s : Engine T) e b' :
  book_apply_log (en_book s) log = (Err e, b') →
  let '(r, st) := persist_observed_log sha256_hex log (en_storage s) in
  handle_event sha256_hex env scan (EvLog log) s =
    (match r with
     | Ok _ => Err [show_market_error e]
     | Err e => Err ("failed to persist observed log"%string :: e)
     | Panic => Panic
     end,
     {| en_book := match r with Ok _ => b' | _ => en_book s end; en_risk := en_risk s;
        en_storage := st; en_transport := en_transport s |}).
Proof.
  intros Hb. unfold handle_event, mbind, eff_bind, eff_context, on_storage, on_book.
  destruct (persist_observed_log sha256_hex log (en_storage s)) as [[id|err|] st]; try done.
  cbn. by rewrite Hb.
Qed.

(** C31. A Sync log without an index, as a flashblock delivers it, ends the engine:
    for a pool of the book the turn fails, whatever the database answers, and the
    events that follow are never handled. When the database took the log, the pool
    has left the book. *)
Theorem unidentified_sync_ends_engine env rest raw metadata e log address p (s : Engine T) :
  event_signature raw = Some SYNC_SIGNATURE → decodes decode_v2_sync raw e →
  rl_address raw = Some address → rl_log_index raw = None →
  to_log raw metadata = Ok log → book_pool (en_book s) address = Some (V2 p) →
  let '(r, s') := engine_run sha256_hex policy config scan ((env, EvLog log) :: rest) s in
  r ≠ Ok tt ∧ s' = (engine_turn sha256_hex policy config scan env (EvLog log) s).2 ∧
  ((persist_observed_log sha256_hex log (en_storage s)).1 = Ok None →
   r = Err ["failed to handle ingest event";
            "log is missing tx hash or log index required for deterministic state application"]%string
   ∧ book_pool (en_book s') address = None).
Proof.
  intros Hsig He Ha Hi Hlog Hp.
  destruct (to_log_ok raw metadata) as (log' & Hlog' & _ & Hadr & Hidx & _ & _ & Hdec & _).
  rewrite Hlog in Hlog'. injection Hlog' as <-. rewrite Hsig in Hdec.
  edestruct (sync_decoded raw e) as (d & Hd & Hk & _); [done|]. rewrite Hd in Hdec.
  injection Hdec as Hdec.
  destruct (unidentified_refused (en_book s) log address p d) as (b' & Hb & Hgone);
    [congruence|done|done|done|congruence|].
  pose proof (handle_event_refused env log s _ _ Hb) as Hh.
  cbn [engine_run]. unfold mbind at 1, eff_bind at 1. unfold engine_turn, mbind at 1 2, eff_bind at 1 2.
  unfold eff_context at 1 3.
  destruct (persist_observed_log sha256_hex log (en_storage s)) as [r st]. rewrite Hh.
  destruct r as [id| |]; cbn; by split_and!.
Qed.
End engine.

(** ** From the configuration to the engine *)

Lemma app_from_env_decision {SocketAddr : Type} (socket_addr : string → option SocketAddr) env c :
  app_from_env socket_addr env = Ok c →
  decision_validate (app_decision c) = Ok tt ∧ risk_validate (app_risk c) (app_execution c) = Ok tt ∧
  uint 64 (dec_simulation_gas_estimate (app_decision c)).
Proof.
  unfold app_from_env. intros H. do 3 (apply bind_ok in H as (? & _ & H)).
  apply bind_ok in H as (decision & Hdec & H). do 5 (apply bind_ok in H as (? & _ & H)).
  apply bind_ok in H as ([] & Hv & [= <-]). cbn [app_decision app_risk app_execution].
  unfold app_validate in Hv. do 5 (apply bind_ok in Hv as ([] & ? & Hv)). split_and!; [done..|].
  unfold decision_from_env in Hdec. do 3 (apply bind_ok in Hdec as (? & _ & Hdec)).
  apply bind_ok in Hdec as (gas & Hgas & Hdec). do 3 (apply bind_ok in Hdec as (? & _ & Hdec)).
  injection Hdec as <-. cbn. by eapply uint_var_any_range, Hgas.
Qed.

Section boot.
Context {U : U256} {HU : U256Laws U} {A : Alloy} {HA : AlloyLaws A}.
Context {S : SerdeJson} {HS : SerdeJsonLaws S} {T : Type} {X : ExecutionTransport T}
  {O : ObservedTransport T} {FT : TransportFaults T} {HT : TransportLaws T}.
Context {J : Json} {HJ : JsonLaws J} {K : FlashCodec} {W : Type} {IO : StreamIo W} {FIO : FlashIo W}.
Context {E : AlloyEvents} {HE : AlloyEventsLaws E} {C : AlloyCalls} {HC : AlloyCallsLaws C}.
Context {R : Type} {F : FactoryReader R} {HF : FactoryReaderLaws F}.
Context {SocketAddr Url Client : Type} (socket_addr : string → option SocketAddr)
  (url_parse : string → anyhow Url) (http_client : Url → Z → anyhow Client)
  (get_chain_id : Client → anyhow Z) (read_to_string : string → anyhow string)
  (from_factories : string → anyhow (list FactoryConfig))
  (from_pools : string → anyhow (list BootstrapV2Pool)) (sha256_hex : list Z → string).

(** From the configuration and the wire to the engine: an accepted configuration
    has a risk policy and scan settings, and from the book of its bootstrap file and of
    discovery, on any sequence of events the streams deliver, in any interleaving and
    from any answers of the node and the websocket, the main loop panics only on a fault
    of its transport and keeps the book valid. *)
Theorem boot_engine_safe env c reader book :
  (∀ text factories, from_factories text = Ok factories → Forall factory_typed factories) →
  (∀ text entries, from_pools text = Ok entries → Forall entry_typed entries) →
  app_from_env socket_addr env = Ok c →
  boot_book (R:=R) url_parse http_client get_chain_id read_to_string from_factories from_pools
    (app_decision c) (app_discovery c) (topology_from_config (app_rpc c)) reader = Ok book →
  ∃ policy scan, policy_from_config (app_risk c) = Ok policy ∧
    runtime_scan_config (app_decision c) = Ok scan ∧
    ∀ events (s : Engine T),
    Forall (λ e, env_wf e.1 ∧ delivered (W:=W) e.2) events → en_book s = book →
    wp (engine_run sha256_hex policy (app_execution c) scan events)
       (λ r s', (r = Panic → fault (en_transport s')) ∧ book_wf (en_book s')) s.
Proof.
  intros Hfac Hpools Hc Hbook. destruct (app_from_env_decision _ _ _ Hc) as (Hd & Hr & Hgas).
  destruct (policy_from_validated_config _ _ Hr) as (policy & Hp & _).
  destruct (scan_config_ready _ Hd Hgas) as (sc & Hsc & Ht & _).
  exists policy, sc. split_and!; [done..|]. intros events s He Hs.
  assert (book_wf book) as Hb by (eapply boot_book_wf, Hbook; done).
  eapply ingest_engine_safe; [done|exact He|exact Ht|by rewrite Hs].
Qed.
End boot.
