(* ===== verification/Main.v ===== *)
(** The entry point (crate [app], [fn main]): the order of the start, the loop over the
    two channels and the signal, and the shutdown.

    The loop waits with [tokio::select!] on the event channel, on the channel of runtime
    events and on ctrl-c.  Which branch is ready first is the environment's choice, so a
    run of the loop is a function of the sequence of inputs it takes up. *)

From S2P Require Import Prelude RustStr Types Registry MarketsV2 U256 MarketsV3 PoolBook Config.
From S2P Require Import Risk Decision Execution Submit Storage Schema App Observability.
From S2P Require Import RawLog RawTx Stream Flashblocks Startup Transports Discovery IngestApp.
#[local] Open Scope Z_scope.

Definition show_config_error (e : ConfigError) : string :=
  match e with
  | MissingRequired key context =>
      "missing required configuration `" +:+ key +:+ "`: " +:+ context
  | InvalidValue key value context =>
      "invalid value for `" +:+ key +:+ "`: `" +:+ value +:+ "` (" +:+ context +:+ ")"
  | Validation message => message
  end.

(** What the loop takes up: an event, with what its turn reads from outside, a runtime
    event, the end of either channel, or the signal. *)
Inductive MainInput :=
| GotEvent (env : EventEnv) (event : Event)
| EventsClosed
| GotRuntimeEvent (event : RuntimeEvent)
| RuntimeEventsClosed
| CtrlC (signal : anyhow unit).

(** The engine and the tasks that have been aborted. *)
Record Running (T : Type) := {
  rn_engine : Engine T;
  rn_aborted : list BoxedStream }.
Arguments rn_engine {T} _.
Arguments rn_aborted {T} _.

(** What [main] holds when the loop starts. *)
Record Booted (SocketAddr T : Type) := {
  bt_config : AppConfig SocketAddr;
  bt_observability : ObservabilityRuntime SocketAddr;
  bt_policy : RiskPolicy;
  bt_scan : option RuntimeScanConfig;
  bt_stream_tasks : list BoxedStream;
  bt_engine : Engine T }.
Arguments bt_config {SocketAddr T} _.
Arguments bt_observability {SocketAddr T} _.
Arguments bt_policy {SocketAddr T} _.
Arguments bt_scan {SocketAddr T} _.
Arguments bt_stream_tasks {SocketAddr T} _.
Arguments bt_engine {SocketAddr T} _.

(** What the start changes outside: the observability of the process and the catalog
    of the database. *)
Record Process := { pr_observed : Observed; pr_catalog : Catalog }.

Definition on_observed {A : Type} (m : eff Observed error A) : eff Process error A := λ s,
  let '(r, o) := m (pr_observed s) in (r, {| pr_observed := o; pr_catalog := pr_catalog s |}).
Definition on_catalog {A : Type} (m : eff Catalog error A) : eff Process error A := λ s,
  let '(r, c) := m (pr_catalog s) in (r, {| pr_observed := pr_observed s; pr_catalog := c |}).

Section main.
Context {U : U256} {A : Alloy} {J : SerdeJson} {T : Type} {X : ExecutionTransport T}.
Context (sha256_hex : list Z → string).

(** ** The loop *)

(** [enabled_debug] and [enabled_info] are the levels of the tracing filter: a field of
    a disabled event is not evaluated, so an event is serialised for its log line only
    when the level is on. *)
Context (enabled_debug enabled_info : bool) (event_json : Event → anyhow string)
  (runtime_event_json : RuntimeEvent → anyhow string).

Definition logged (enabled : bool) (json : anyhow string) : anyhow unit :=
  if enabled then _ ← json; Ok tt else Ok tt.

Definition on_engine {B : Type} (m : eff (Engine T) error B) : eff (Running T) error B := λ s,
  let '(r, e) := m (rn_engine s) in (r, {| rn_engine := e; rn_aborted := rn_aborted s |}).

Definition abort_tasks (stream_tasks : list BoxedStream) : eff (Running T) error unit := λ s,
  (Ok tt, {| rn_engine := rn_engine s; rn_aborted := rn_aborted s ++ stream_tasks |}).

(** The exit reason, or [None] while the loop waits for the next input. *)
Fixpoint main_loop (policy : RiskPolicy) (config : ExecutionConfig)
    (scan : option RuntimeScanConfig) (stream_tasks : list BoxedStream) (inputs : list MainInput) :
    eff (Running T) error (option string) :=
  match inputs with
  | [] => mret None
  | GotEvent env event :: inputs =>
      _ ← on_engine (engine_turn sha256_hex policy config scan env event);
      _ ← lift (logged enabled_debug (event_json event));
      main_loop policy config scan stream_tasks inputs
  | EventsClosed :: _ => mret (Some "event channel closed"%string)
  | GotRuntimeEvent event :: inputs =>
      _ ← lift (logged enabled_info (runtime_event_json event));
      main_loop policy config scan stream_tasks inputs
  | RuntimeEventsClosed :: _ => mret (Some "runtime event channel closed"%string)
  | CtrlC signal :: _ =>
      _ ← lift (context signal "failed to listen for ctrl-c");
      _ ← abort_tasks stream_tasks;
      mret (Some "received ctrl-c"%string)
  end.

(** ** The start *)

Context {R : Type} {F : FactoryReader R}.
Context {SocketAddr Filter Url Client Signer : Type} (socket_addr : string → option SocketAddr)
  (try_from_default_env : anyhow Filter) (try_new : string → anyhow Filter)
  (install_recorder : SocketAddr → bool → anyhow unit) (url_parse : string → anyhow Url)
  (http_client : Url → Z → anyhow Client) (get_chain_id : Client → anyhow Z)
  (pending_count : Client → Signer → anyhow Z) (signer_from_bytes : list Z → anyhow Signer)
  (decrypt_keystore : string → string → anyhow Signer) (set_chain_id : Signer → Z → Signer).
Context (pool_connect : Z → Z → string → anyhow Db) (migration : QueryOutcome)
  (read_to_string : string → anyhow string) (from_factories : string → anyhow (list FactoryConfig))
  (from_pools : string → anyhow (list BootstrapV2Pool)) (mpsc_channel : Z → outcome unit).
(** [Box<dyn ExecutionTransport>]: the transport that was built, in its world. *)
Context (boxed : Transport (Client:=Client) (Signer:=Signer) → T) (reader : R).

Definition main_start (env : Env) : eff Process error (Booted SocketAddr T) :=
  config ← lift (context (map_err (λ e, [show_config_error e]) (app_from_env socket_addr env))
                   "failed to load application config");
  observability ← eff_context
    (on_observed (observability_init try_from_default_env try_new install_recorder
                    (app_metrics config)))
    "failed to initialize observability";
  let rpc_topology := topology_from_config (app_rpc config) in
  transport ← lift (context
    (build_execution_transport url_parse http_client get_chain_id pending_count signer_from_bytes
       decrypt_keystore set_chain_id rpc_topology config) "failed to build execution transport");
  policy ← lift (context (map_err (λ e, [e]) (policy_from_config (app_risk config)))
                   "failed to build risk policy");
  storage ← eff_context (on_catalog (storage_connect pool_connect migration (app_storage config)))
    "failed to initialize storage";
  pool_book ← lift (boot_book (R:=R) url_parse http_client get_chain_id read_to_string from_factories
    from_pools (app_decision config) (app_discovery config) rpc_topology reader);
  scan ← lift (runtime_scan_config (app_decision config));
  pipeline ← lift (context (map_err (λ e, [show_ingest_error e])
                              (pipeline_from_config (app_ingest config)))
                     "failed to build ingest pipeline");
  stream_tasks ← lift (map_err (λ e : Empty_set, match e with end) (spawn mpsc_channel pipeline));
  mret {| bt_config := config; bt_observability := observability; bt_policy := policy;
          bt_scan := scan; bt_stream_tasks := stream_tasks;
          bt_engine := {| en_book := pool_book; en_risk := RiskState_default;
                          en_storage := storage; en_transport := boxed transport |} |}.

(** ** The whole of [main]

    [bind] and [before] are what the health server found and saw, as in file
    [Observability].  The result is [None] while the program runs. *)
Context (bind : SocketAddr → res string unit) (before : list HealthzInput).

Definition main_run (booted : Booted SocketAddr T) (inputs : list MainInput) :
    option (anyhow unit) * Running T :=
  let '(r, s) := main_loop (bt_policy booted) (app_execution (bt_config booted)) (bt_scan booted)
                   (bt_stream_tasks booted) inputs
                   {| rn_engine := bt_engine booted; rn_aborted := [] |} in
  (match r with
   | Ok None => None
   | Ok (Some _) => observability_shutdown bind before (bt_observability booted)
   | Err e => Some (Err e)
   | Panic => Some Panic
   end, s).

Definition main (env : Env) (inputs : list MainInput) (process : Process) :
    option (anyhow unit) * option (Running T) * Process :=
  match main_start env process with
  | (Ok booted, process) =>
      let '(r, s) := main_run booted inputs in (r, Some s, process)
  | (Err e, process) => (Some (Err e), None, process)
  | (Panic, process) => (Some Panic, None, process)
  end.
End main.

(** ** Properties of the loop *)

(** The events the loop takes up before it ends. *)
Fixpoint taken (inputs : list MainInput) : list (EventEnv * Event) :=
  match inputs with
  | GotEvent env event :: inputs => (env, event) :: taken inputs
  | GotRuntimeEvent _ :: inputs => taken inputs
  | _ => []
  end.

(** The loop ends with an input of this kind. *)
Definition reason_of (input : MainInput) : option string :=
  match input with
  | EventsClosed => Some "event channel closed"%string
  | RuntimeEventsClosed => Some "runtime event channel closed"%string
  | CtrlC _ => Some "received ctrl-c"%string
  | _ => None
  end.

Section loop_properties.
Context {U : U256} {A : Alloy} {J : SerdeJson} {T : Type} {X : ExecutionTransport T}.
Context (sha256_hex : list Z → string) (enabled_debug enabled_info : bool)
  (event_json : Event → anyhow string) (runtime_event_json : RuntimeEvent → anyhow string).
Context (policy : RiskPolicy) (config : ExecutionConfig) (scan : option RuntimeScanConfig)
  (tasks : list BoxedStream).
Abbreviation loop := (main_loop (T:=T) sha256_hex enabled_debug enabled_info event_json
  runtime_event_json policy config scan tasks).
Abbreviation run := (engine_run (T:=T) sha256_hex policy config scan).

(** How a run of the loop relates to a run of the engine: the events it handled are a
    prefix of those it could take up, all of them when it has not failed, and a panic is
    the engine's or a serialiser's. *)
Record loop_rel (inputs : list MainInput) (s : Running T) (r : anyhow (option string))
    (s' : Running T) (events : list (EventEnv * Event)) : Prop := {
  lr_prefix : events `prefix_of` taken inputs;
  lr_engine : rn_engine s' = (run events (rn_engine s)).2;
  lr_ok : ∀ reason, r = Ok reason → events = taken inputs ∧ (run events (rn_engine s)).1 = Ok tt;
  lr_panic : r = Panic → (run events (rn_engine s)).1 = Panic ∨
    (∃ e, event_json e = Panic) ∨ (∃ e, runtime_event_json e = Panic) ∨ CtrlC Panic ∈ inputs;
  lr_reason : ∀ reason, r = Ok (Some reason) → ∃ input, input ∈ inputs ∧ reason_of input = Some reason;
  lr_aborted : rn_aborted s' = rn_aborted s ++
    (if bool_decide (r = Ok (Some "received ctrl-c"%string)) then tasks else []) }.

Lemma loop_rel_skip input inputs s r s' events :
  taken (input :: inputs) = taken inputs →
  loop_rel inputs s r s' events → loop_rel (input :: inputs) s r s' events.
Proof.
  intros Ht [? ? ? Hp Hr ?]. constructor; rewrite ?Ht; try done.
  - intros H. specialize (Hp H). set_solver.
  - intros reason H. destruct (Hr reason H) as (i & ? & ?). exists i. set_solver.
Qed.

Lemma loop_rel_event env event inputs s1 s r s' events :
  engine_turn sha256_hex policy config scan env event (rn_engine s) = (Ok tt, rn_engine s1) →
  rn_aborted s1 = rn_aborted s → loop_rel inputs s1 r s' events →
  loop_rel (GotEvent env event :: inputs) s r s' ((env, event) :: events).
Proof.
  intros Ht Ha [Hpre He Hok Hp Hr Hab].
  assert (run ((env, event) :: events) (rn_engine s) = run events (rn_engine s1)) as Hrun.
  { cbn [engine_run]. unfold mbind, eff_bind. by rewrite Ht. }
  constructor; cbn [taken]; rewrite ?Hrun; try done.
  - by apply prefix_cons.
  - intros reason H. destruct (Hok reason H) as [-> ?]. done.
  - intros H. specialize (Hp H). set_solver.
  - intros reason H. destruct (Hr reason H) as (i & ? & ?). exists i. set_solver.
  - by rewrite Hab, Ha.
Qed.

(** A run that ends with a result that is no exit reason of ctrl-c aborts nothing. *)
Lemma loop_rel_here inputs s r events :
  events `prefix_of` taken inputs → (run events (rn_engine s)).1 = Ok tt →
  rn_engine s = (run events (rn_engine s)).2 →
  (∀ reason, r = Ok reason → events = taken inputs) →
  (r = Panic → (∃ e, event_json e = Panic) ∨ (∃ e, runtime_event_json e = Panic) ∨ CtrlC Panic ∈ inputs) →
  (∀ reason, r = Ok (Some reason) → reason ≠ "received ctrl-c"%string ∧
     ∃ input, input ∈ inputs ∧ reason_of input = Some reason) →
  loop_rel inputs s r s events.
Proof.
  intros Hp Hrun He Hok Hpanic Hr. constructor; try done.
  - intros reason H. split; [by eapply Hok|done].
  - intros H. right. by apply Hpanic.
  - intros reason H. by apply Hr.
  - rewrite bool_decide_false; [by rewrite app_nil_r|]. intros H. by destruct (Hr _ H).
Qed.

Lemma loop_rel_failed env event inputs s r e :
  engine_turn sha256_hex policy config scan env event (rn_engine s) = (r, e) → r ≠ Ok tt →
  loop_rel (GotEvent env event :: inputs) s (match r with Err err => Err err | _ => Panic end)
    {| rn_engine := e; rn_aborted := rn_aborted s |} [(env, event)].
Proof.
  intros Ht Hr. assert (run [(env, event)] (rn_engine s) = (r, e)) as Hrun.
  { cbn [engine_run]. unfold mbind, eff_bind. rewrite Ht. by destruct r as [[]| |]. }
  constructor; rewrite ?Hrun.
  - apply prefix_cons, prefix_nil.
  - done.
  - by destruct r as [[]| |].
  - destruct r as [[]| |]; [done|done|by left].
  - by destruct r.
  - rewrite bool_decide_false by (by destruct r). by rewrite app_nil_r.
Qed.

Lemma logged_panic enabled json : logged enabled json = Panic → json = Panic.
Proof. unfold logged. destruct enabled; [|done]. by destruct json. Qed.

Lemma main_loop_rel inputs s :
  ∃ events, loop_rel inputs s (loop inputs s).1 (loop inputs s).2 events.
Proof.
  revert s. induction inputs as [|input inputs IH]; intros s; cbn [main_loop].
  { exists []. by apply loop_rel_here. }
  pose proof (prefix_nil (taken inputs)) as Hnil.
  destruct input as [env event| |event| |signal]; unfold mbind, eff_bind, on_engine, lift.
  - destruct (engine_turn _ _ _ _ _ _ _) as [[[]|err|] e] eqn:Ht;
      [|eexists; by apply (loop_rel_failed _ _ _ _ _ _ Ht)..].
    set (s1 := {| rn_engine := e; rn_aborted := rn_aborted s |}).
    destruct (logged enabled_debug (event_json event)) as [[]|err|] eqn:Hl; cbn [fst snd].
    + destruct (IH s1) as [events Hrel]. eexists. apply (loop_rel_event env event inputs s1 s _ _ events); done.
    + eexists. apply (loop_rel_event env event inputs s1 s _ _ []); [done..|]. by apply loop_rel_here.
    + eexists. apply (loop_rel_event env event inputs s1 s _ _ []); [done..|].
      apply loop_rel_here; try done. apply logged_panic in Hl. eauto.
  - exists []. apply loop_rel_here; try done. intros reason [= <-]. split; [done|].
    exists EventsClosed. set_solver.
  - destruct (logged enabled_info (runtime_event_json event)) as [[]|err|] eqn:Hl; cbn [fst snd].
    + destruct (IH s) as [events Hrel]. exists events. by apply loop_rel_skip.
    + exists []. by apply loop_rel_here.
    + exists []. apply loop_rel_here; try done. apply logged_panic in Hl. eauto.
  - exists []. apply loop_rel_here; try done. intros reason [= <-]. split; [done|].
    exists RuntimeEventsClosed. set_solver.
  - exists []. destruct signal as [[]|err|]; cbn [context map_err fst snd].
    + constructor; try done. intros reason [= <-]. exists (CtrlC (Ok tt)). set_solver.
    + by apply loop_rel_here.
    + apply loop_rel_here; try done. intros _. right; right. set_solver.
Qed.

(** C34. The loop over its channels is the engine over its events: whatever runtime events
    come in between, the engine ends where a run over the events it took up ends, a
    prefix of those that arrive before the loop stops and all of them unless it fails;
    the loop stops only for one of its three reasons, and aborts the stream tasks exactly
    when that is ctrl-c. *)
Theorem main_loop_refines inputs s :
  let '(r, s') := loop inputs s in
  ∃ events, events `prefix_of` taken inputs ∧ rn_engine s' = (run events (rn_engine s)).2 ∧
    (∀ reason, r = Ok reason → events = taken inputs ∧ (run events (rn_engine s)).1 = Ok tt) ∧
    (∀ reason, r = Ok (Some reason) → ∃ input, input ∈ inputs ∧ reason_of input = Some reason) ∧
    rn_aborted s' = rn_aborted s ++
      (if bool_decide (r = Ok (Some "received ctrl-c"%string)) then tasks else []).
Proof.
  destruct (main_loop_rel inputs s) as [events [H1 H2 H3 _ H4 H5]].
  destruct (loop inputs s) as [r s']. exists events. by split_and!.
Qed.

(** The inputs the loop goes on after. *)
Definition goes_on (input : MainInput) : Prop :=
  match input with
  | GotEvent _ event => ∃ text, event_json event = Ok text
  | GotRuntimeEvent event => ∃ text, runtime_event_json event = Ok text
  | _ => False
  end.

Lemma logged_ok enabled json text : json = Ok text → logged enabled json = Ok tt.
Proof. intros ->. by destruct enabled. Qed.

(** The loop stops at the first end of a channel or signal: while the engine handles its
    events and their log lines can be written, it takes every input up to that one, and
    none after it. *)
Lemma main_loop_stops before input reason after s :
  Forall goes_on before → reason_of input = Some reason → (∀ r, input = CtrlC r → r = Ok tt) →
  (run (taken before) (rn_engine s)).1 = Ok tt →
  ∃ s', loop (before ++ input :: after) s = (Ok (Some reason), s') ∧
    rn_engine s' = (run (taken before) (rn_engine s)).2.
Proof.
  intros Hgo. revert s. induction Hgo as [|i before Hi _ IH]; intros s Hr Hc Hrun.
  { destruct input as [| | | |signal]; try done; [by injection Hr as <-; eexists..|].
    injection Hr as <-. rewrite (Hc signal eq_refl). by eexists. }
  destruct i as [env event| |event| |signal]; try done; destruct Hi as [text Htext].
  - cbn [taken engine_run] in Hrun. cbn [app main_loop taken engine_run].
    unfold mbind, eff_bind, on_engine, lift in *.
    destruct (engine_turn _ _ _ _ _ _ _) as [[[]|err|] e]; try done.
    rewrite (logged_ok _ _ _ Htext).
    exact (IH {| rn_engine := e; rn_aborted := rn_aborted s |} Hr Hc Hrun).
  - cbn [app main_loop taken]. unfold mbind, eff_bind, lift. rewrite (logged_ok _ _ _ Htext).
    by apply IH.
Qed.
End loop_properties.

(** ** Properties of the whole program *)

Section program.
Context {U : U256} {HU : U256Laws U} {A : Alloy} {HA : AlloyLaws A}.
Context {S : SerdeJson} {HS : SerdeJsonLaws S} {N : Type} {RN : RpcNode N}.
Context {J : Json} {HJ : JsonLaws J} {K : FlashCodec} {W : Type} {IO : StreamIo W} {FIO : FlashIo W}.
Context {E : AlloyEvents} {HE : AlloyEventsLaws E} {C : AlloyCalls} {HC : AlloyCallsLaws C}.
Context {R : Type} {F : FactoryReader R} {HF : FactoryReaderLaws F}.
Context (sha256_hex : list Z → string) (enabled_debug enabled_info : bool)
  (event_json : Event → anyhow string) (runtime_event_json : RuntimeEvent → anyhow string).
Context {SocketAddr Filter Url Client Signer : Type} (socket_addr : string → option SocketAddr)
  (try_from_default_env : anyhow Filter) (try_new : string → anyhow Filter)
  (install_recorder : SocketAddr → bool → anyhow unit) (url_parse : string → anyhow Url)
  (http_client : Url → Z → anyhow Client) (get_chain_id : Client → anyhow Z)
  (pending_count : Client → Signer → anyhow Z) (signer_from_bytes : list Z → anyhow Signer)
  (decrypt_keystore : string → string → anyhow Signer) (set_chain_id : Signer → Z → Signer)
  (pool_connect : Z → Z → string → anyhow Db) (migration : QueryOutcome)
  (read_to_string : string → anyhow string) (from_factories : string → anyhow (list FactoryConfig))
  (from_pools : string → anyhow (list BootstrapV2Pool)) (mpsc_channel : Z → outcome unit)
  (reader : R).
(** The transport that is built, over the world behind its client. *)
Context {GS : TxSigner Signer} (world : Client → N).
Abbreviation T := (Logged (Boxed N Signer)).
Context (bind : SocketAddr → res string unit) (before : list HealthzInput).
Abbreviation start := (main_start socket_addr try_from_default_env try_new install_recorder
  url_parse http_client get_chain_id pending_count signer_from_bytes decrypt_keystore set_chain_id
  pool_connect migration read_to_string from_factories from_pools mpsc_channel
  (log_box world) reader).
Abbreviation run_main := (main_run sha256_hex enabled_debug enabled_info event_json
  runtime_event_json bind before).

(** What a start that succeeds has put together. *)
Record started (env : Env) (b : Booted SocketAddr T) : Prop := {
  sd_config : app_from_env socket_addr env = Ok (bt_config b);
  sd_policy : policy_from_config (app_risk (bt_config b)) = Ok (bt_policy b);
  sd_scan : runtime_scan_config (app_decision (bt_config b)) = Ok (bt_scan b);
  sd_book : boot_book (R:=R) url_parse http_client get_chain_id read_to_string from_factories
    from_pools (app_decision (bt_config b)) (app_discovery (bt_config b))
    (topology_from_config (app_rpc (bt_config b))) reader = Ok (en_book (bt_engine b));
  sd_risk : en_risk (bt_engine b) = RiskState_default;
  sd_transport : ∃ t, en_transport (bt_engine b) = log_box world t ∧
    build_execution_transport url_parse http_client get_chain_id pending_count signer_from_bytes
      decrypt_keystore set_chain_id (topology_from_config (app_rpc (bt_config b))) (bt_config b) = Ok t;
  sd_streams : ∃ p, pipeline_from_config (app_ingest (bt_config b)) = Ok p ∧
    spawn mpsc_channel p = Ok (bt_stream_tasks b);
  sd_health : or_shutdown_healthz (bt_observability b) = true }.

Lemma shutdown_no_panic (runtime : ObservabilityRuntime SocketAddr) :
  or_shutdown_healthz runtime = true → observability_shutdown bind before runtime ≠ Some Panic.
Proof.
  intros Hr. unfold observability_shutdown. destruct (run_healthz_server _ _ _).1 as [|[[]| |]]; done.
Qed.

(** [bind] of the effect, inverted. *)
Lemma eff_bind_ok {Q V1 V2 : Type} (m : eff Q error V1) (f : V1 → eff Q error V2) s v s' :
  (m ≫= f) s = (Ok v, s') → ∃ u s1, m s = (Ok u, s1) ∧ f u s1 = (Ok v, s').
Proof.
  unfold mbind, eff_bind. destruct (m s) as [[u| |] s1]; [|done..]. intros H. by exists u, s1.
Qed.

Lemma lift_ok {Q V : Type} (r : anyhow V) (s : Q) v s' : lift r s = (Ok v, s') → r = Ok v ∧ s' = s.
Proof. unfold lift. intros [= -> <-]. done. Qed.

Lemma eff_context_ok {Q V : Type} (m : eff Q error V) c s v s' :
  eff_context m c s = (Ok v, s') → m s = (Ok v, s').
Proof. unfold eff_context. destruct (m s) as [r s1]. destruct r; intros [= <- <-]. done. Qed.

Lemma main_start_started env process b process' :
  start env process = (Ok b, process') → started env b.
Proof.
  unfold main_start. intros H.
  apply eff_bind_ok in H as (config & s1 & H1 & H). apply lift_ok in H1 as [H1 ->].
  apply map_err_ok, map_err_ok in H1.
  apply eff_bind_ok in H as (obs & s2 & H2 & H). apply eff_context_ok in H2.
  apply eff_bind_ok in H as (t & s3 & H3 & H). apply lift_ok in H3 as [H3 ->]. apply map_err_ok in H3.
  apply eff_bind_ok in H as (policy & s4 & H4 & H). apply lift_ok in H4 as [H4 ->].
  apply map_err_ok, map_err_ok in H4.
  apply eff_bind_ok in H as (storage & s5 & _ & H).
  apply eff_bind_ok in H as (book & s6 & H6 & H). apply lift_ok in H6 as [H6 ->].
  apply eff_bind_ok in H as (sc & s7 & H7 & H). apply lift_ok in H7 as [H7 ->].
  apply eff_bind_ok in H as (p & s8 & H8 & H). apply lift_ok in H8 as [H8 ->].
  apply map_err_ok, map_err_ok in H8.
  apply eff_bind_ok in H as (tasks & s9 & H9 & H). apply lift_ok in H9 as [H9 ->].
  apply map_err_ok in H9. injection H as <- _.
  constructor; cbn; try done; [by exists t|by exists p|].
  unfold on_observed in H2. destruct (observability_init _ _ _ _ _) as [r o] eqn:Ho.
  injection H2 as -> _. by destruct (observability_init_described _ _ _ _ _ _ _ Ho) as (_ & ? & _).
Qed.

(** The events of a run of the program come from its streams. *)
Definition from_streams (input : MainInput) : Prop :=
  match input with
  | GotEvent env event => env_wf env ∧ delivered (W:=W) event
  | CtrlC signal => signal ≠ Panic
  | _ => True
  end.

Lemma taken_delivered inputs :
  Forall from_streams inputs → Forall (λ e, env_wf e.1 ∧ delivered (W:=W) e.2) (taken inputs).
Proof.
  induction 1 as [|i inputs Hi _ IH]; [constructor|]. destruct i; cbn; try done; by constructor.
Qed.

(** C2. The whole program, from its environment to its last transaction: once [main] has
    started, on any sequence of events of its streams, of runtime events, closed
    channels and signals, the book stays valid, and every call of the transport comes, as
    [sound_call] says, from an accepted decision on a loop found in the scan, under the
    policy, the execution settings and the scan read from the environment.  The program
    panics only when its transport was asked to wait beyond the range of the clock or was
    handed a receipt with a fee of exactly [2^127] wei; in shadow mode it does not panic
    and there is no call. *)
Theorem main_sound env inputs process b process' :
  (∀ text factories, from_factories text = Ok factories → Forall factory_typed factories) →
  (∀ text entries, from_pools text = Ok entries → Forall entry_typed entries) →
  (∀ e, event_json e ≠ Panic) → (∀ e, runtime_event_json e ≠ Panic) →
  start env process = (Ok b, process') → Forall from_streams inputs →
  let '(r, s) := run_main b inputs in
  (r = Some Panic → Exists wire_fault (requests (lg_state (en_transport (rn_engine s))))) ∧
  book_wf (en_book (rn_engine s)) ∧
  (∃ events, events `prefix_of` taken inputs ∧
     Forall (sound_call sha256_hex (bt_policy b) (app_execution (bt_config b)) (bt_scan b) events
               (bt_engine b)) (calls (en_transport (rn_engine s)))) ∧
  (exec_mode (app_execution (bt_config b)) = Shadow →
   r ≠ Some Panic ∧ calls (en_transport (rn_engine s)) = []).
Proof.
  intros Hfac Hpools Hj1 Hj2 [Hc Hp Hsc Hb Hr (t & Ht & Hbuild) _ Hh]%main_start_started Hin.
  destruct (app_from_env_decision _ _ _ Hc) as (Hd & _ & Hgas).
  destruct (scan_config_ready _ Hd Hgas) as (sc & Hsc' & Hst & _).
  rewrite Hsc in Hsc'. injection Hsc' as <-.
  assert (book_wf (en_book (bt_engine b))) as Hwf by (eapply boot_book_wf, Hb; done).
  unfold main_run. set (s0 := {| rn_engine := _ |}).
  destruct (main_loop_rel sha256_hex enabled_debug enabled_info event_json runtime_event_json
    (bt_policy b) (app_execution (bt_config b)) (bt_scan b) (bt_stream_tasks b) inputs s0)
    as [events [Hpre He _ Hpanic _ _]].
  destruct (main_loop _ _ _ _ _ _ _ _ _ _ _) as [r s]. cbn [fst snd] in *.
  assert (Forall (λ e, env_wf e.1 ∧ delivered (W:=W) e.2) events) as Hev
    by (destruct Hpre as [k Hk]; pose proof (taken_delivered _ Hin) as Hall; rewrite Hk in Hall;
        by apply Forall_app in Hall as [? _]).
  assert (run_typed (bt_scan b) events) as Hty
    by (split; [done|]; eapply Forall_impl; [exact Hev|]; intros x [? ?]; split; [done|by eapply delivered_typed]).
  pose proof (engine_run_wf sha256_hex (bt_policy b) (app_execution (bt_config b)) (bt_scan b) events
    (bt_engine b) Hty Hwf) as [Hnp Hbook].
  destruct (engine_calls_sound sha256_hex (bt_policy b) (app_execution (bt_config b)) (bt_scan b)
    events (bt_engine b) Hty Hwf) as (new & Hnew & Hsound). rewrite Ht in Hnew. cbn [app] in Hnew.
  assert (∀ r', match r with
    | Ok None => None | Ok (Some _) => observability_shutdown bind before (bt_observability b)
    | Err e => Some (Err e) | Panic => Some Panic end = r' → r' = Some Panic →
    fault (en_transport (rn_engine s))) as Hfault.
  { intros r' <- Hrp. destruct r as [[reason|]|err|]; try done; [by destruct (shutdown_no_panic _ Hh)|].
    rewrite He. destruct (Hpanic eq_refl) as [?|[[e ?]|[[e ?]|Hcc]]];
      [by apply Hnp|by destruct (Hj1 e)|by destruct (Hj2 e)|].
    rewrite Forall_forall in Hin. by destruct (Hin _ Hcc). }
  split_and!.
  - intros Hrp. by eapply Hfault.
  - by rewrite He.
  - exists events. split; [done|]. rewrite He. cbn [rn_engine s0]. by rewrite Hnew.
  - intros Hmode.
    assert (en_transport (rn_engine s) = log_box world t) as Htr.
    { rewrite He. cbn [rn_engine s0]. rewrite <- Ht. apply halted_transport; auto. }
    split; [|by rewrite Htr]. intros Hrp. eapply Hfault in Hrp; [|done]. rewrite Htr in Hrp.
    unfold build_execution_transport in Hbuild. rewrite bool_decide_true in Hbuild by done.
    injection Hbuild as <-. by apply Exists_nil in Hrp.
Qed.

(** C35. A clean stop: when the engine handles its events, their log lines can be
    written, the address of the health server binds and every connection to it is
    accepted, the first end of a channel or the signal of ctrl-c, if it was received
    without an error, ends the program with success, and ctrl-c stops every stream task;
    what arrives later is not handled. *)
Theorem main_clean_stop env process b process' inputs input reason after :
  start env process = (Ok b, process') →
  Forall (goes_on event_json runtime_event_json) inputs → reason_of input = Some reason →
  (∀ r, input = CtrlC r → r = Ok tt) →
  (engine_run sha256_hex (bt_policy b) (app_execution (bt_config b)) (bt_scan b) (taken inputs)
     (bt_engine b)).1 = Ok tt →
  bind (or_healthz_bind_addr (bt_observability b)) = Ok tt →
  Forall (λ i, match i with HzAccepted _ => True | _ => False end) before →
  ∃ s, run_main b (inputs ++ input :: after) = (Some (Ok tt), s) ∧
    rn_engine s = (engine_run sha256_hex (bt_policy b) (app_execution (bt_config b)) (bt_scan b)
                     (taken inputs) (bt_engine b)).2 ∧
    rn_aborted s = if bool_decide (reason = "received ctrl-c"%string) then bt_stream_tasks b else [].
Proof.
  intros Hst Hgo Hr Hc Hrun Hbind Hbefore. apply main_start_started in Hst as [_ _ _ _ _ _ _ Hh].
  unfold main_run. set (s0 := {| rn_engine := _ |}).
  destruct (main_loop_stops sha256_hex enabled_debug enabled_info event_json runtime_event_json
    (bt_policy b) (app_execution (bt_config b)) (bt_scan b) (bt_stream_tasks b) inputs input reason
    after s0 Hgo Hr Hc Hrun) as (s & Hl & He).
  destruct (main_loop_rel sha256_hex enabled_debug enabled_info event_json runtime_event_json
    (bt_policy b) (app_execution (bt_config b)) (bt_scan b) (bt_stream_tasks b)
    (inputs ++ input :: after) s0) as [events [_ _ _ _ _ Hab]].
  rewrite Hl in Hab |- *. cbn [fst snd rn_aborted s0] in Hab. exists s.
  pose proof (healthz_shutdown bind before (bt_observability b) Hh) as Hs. rewrite Hbind in Hs.
  destruct Hs as (r & -> & _ & Hok). rewrite (Hok Hbefore). split_and!; [done..|].
  rewrite Hab. cbn [app]. by destruct (decide (reason = "received ctrl-c"%string)) as [->|Hne];
    [rewrite !bool_decide_true|rewrite !bool_decide_false by naive_solver].
Qed.
End program.
