(* ===== verification/Witnesses.v ===== *)
(** Concrete instances of the properties: for each theorem with hypotheses, an
    input on which they hold.  The interfaces are instantiated by [u256_Z] and
    [alloy_hex]. *)

From S2P Require Import Prelude RustStr Types Registry MarketsV2 U256 MarketsV3 PoolBook.
From S2P Require Import Config Risk Decision Execution Submit.
#[local] Open Scope Z_scope.

(** ** Samples *)

Definition pool_of (address : string) (r0 r1 : Z) : V2PoolState :=
  {| v2_address := address; v2_protocol := Protocol.UniswapV2; v2_exchange := None;
     v2_token0 := "0xweth"; v2_token1 := "0xusdc"; v2_reserve0 := r0; v2_reserve1 := r1;
     v2_fee_bps := 30; v2_last_updated_block := None |}.

Definition pool_a : V2PoolState := pool_of "0xaa" (10 ^ 9) (2 * 10 ^ 9).
Definition pool_b : V2PoolState := pool_of "0xbb" (10 ^ 9) (15 * 10 ^ 8).

Lemma pool_of_wf address r0 r1 :
  0 < r0 < 2 ^ 128 → 0 < r1 < 2 ^ 128 → v2_wf (pool_of address r0 r1).
Proof. intros. by constructor. Qed.

Lemma pool_a_wf : v2_wf pool_a.
Proof. by apply pool_of_wf. Qed.
Lemma pool_b_wf : v2_wf pool_b.
Proof. by apply pool_of_wf. Qed.

Definition v3_pool_sample : V3PoolState :=
  {| v3_address := "0xcc"; v3_protocol := Protocol.UniswapV3; v3_exchange := None;
     v3_token0 := "0xweth"; v3_token1 := "0xusdc"; v3_fee_pips := 3000; v3_tick_spacing := 60;
     v3_sqrt_price_x96 := 2 ^ 96; v3_liquidity := 10 ^ 12; v3_tick := 0;
     v3_last_updated_block := None |}.

Lemma v3_pool_sample_wf : v3_wf v3_pool_sample.
Proof. by constructor. Qed.

Definition uint_of_closed (w z : Z) : bool := (0 <=? z) && (z <? 2 ^ w).
Lemma uint_closed w z : uint_of_closed w z = true → uint w z.
Proof. unfold uint_of_closed, uint. lia. Qed.

Definition sample_metadata : Metadata :=
  {| md_block_context := Block_ 7 None; md_channel := Ws; md_observed_at_ms := 0;
     md_chain_id := 8453; md_tx_hash := Some "0x01"%string; md_decode_status := Decoded;
     md_raw := {| rps_message_type := RawMessageType.Log; rps_payload_size_bytes := 0;
                  rps_fingerprint := None; rps_subscription := None |} |}.

Definition sync_event (r0 r1 : Z) : DecodedLogEvent :=
  {| dl_kind := V2Sync; dl_pool := None; dl_sender := None; dl_recipient := None;
     dl_owner := None; dl_reserve0 := Some r0; dl_reserve1 := Some r1; dl_amount0_in := None;
     dl_amount1_in := None; dl_amount0_out := None; dl_amount1_out := None; dl_amount0 := None;
     dl_amount1 := None; dl_liquidity := None; dl_sqrt_price_x96 := None; dl_tick := None;
     dl_tick_lower := None; dl_tick_upper := None; dl_protocol := None; dl_exchange := None |}.

Definition sync_log (address : string) (r0 r1 index : Z) (removed : option bool) : Log :=
  {| log_metadata := sample_metadata; log_address := Some address; log_topics := [];
     log_data := None; log_event_signature := None;
     log_decoded_event := Some (sync_event r0 r1); log_protocol := None; log_exchange := None;
     log_log_index := Some index; log_removed := removed |}.

Definition book_sample : PoolBook :=
  insert_v3_pool (insert_v2_pool (insert_v2_pool book_new pool_a) pool_b) v3_pool_sample.

Lemma book_sample_wf : book_wf book_sample.
Proof.
  constructor; [|by apply map_Forall_empty].
  repeat (apply map_Forall_insert_2; [split; [done|]|]); [apply v3_pool_sample_wf|
    apply pool_b_wf|apply pool_a_wf|apply map_Forall_empty].
Qed.

Lemma sync_log_typed address r0 r1 index removed :
  uint 128 r0 → uint 128 r1 → log_typed (sync_log address r0 r1 index removed).
Proof. intros ?? d [= <-]. cbn. split_and!; by intros ? [= <-]. Qed.

Lemma sync_log_sync address r0 r1 index removed b :
  default false removed = b → is_sync b (sync_log address r0 r1 index removed).
Proof. intros. split; [done|]. by eexists. Qed.

(** ** Constant-product pools *)

Lemma v2_quote_sound_witness :
  ∃ q, v2_quote_exact_in pool_a "0xWETH" 1000000 = Ok q ∧ 0 < pq_amount_out q.
Proof.
  eexists. split; [vm_compute; reflexivity|].
  destruct (v2_quote_sound pool_a "0xWETH" 1000000 _ pool_a_wf
    (uint_closed 128 1000000 eq_refl) eq_refl) as (rin & rout & tok & _ & _ & _ & _ & H & _).
  apply H.
Defined.

Lemma v2_quote_total_witness :
  ∃ r, v2_quote_exact_in pool_a "0xdai" 5 = r ∧
    r = Err (UnknownToken "0xaa" "0xdai") ∧ v2_sides pool_a "0xdai" = None.
Proof.
  eexists. split; [reflexivity|]. split; [vm_compute; reflexivity|].
  exact (proj1 (proj2 (v2_quote_total pool_a "0xdai" 5 pool_a_wf (uint_closed 128 5 eq_refl)))).
Defined.

Lemma v2_round_trip_no_profit_witness :
  ∃ q q', v2_quote_exact_in pool_a "0xweth" 1000000 = Ok q ∧
    v2_quote_exact_in (v2_after_swap pool_a "0xweth" 1000000 (pq_amount_out q))
      (pq_token_out q) (pq_amount_out q) = Ok q' ∧ pq_amount_out q' ≤ 1000000.
Proof.
  do 2 eexists. split; [vm_compute; reflexivity|]. split; [vm_compute; reflexivity|].
  apply (v2_round_trip_no_profit pool_a "0xweth" 1000000
    {| pq_pool_address := "0xaa"; pq_token_in := "0xweth"; pq_token_out := "0xusdc";
       pq_amount_in := 1000000; pq_amount_out := 1992013; pq_fee_bps := 30;
       pq_price_impact_bps := 40 |} _ pool_a_wf (uint_closed 128 1000000 eq_refl) eq_refl).
  - vm_compute; reflexivity.
  - constructor; vm_compute; (done || split; done).
  - vm_compute; reflexivity.
Defined.

Lemma v2_quote_refuses_18_decimals_witness :
  v2_quote_exact_in (pool_of "0xaa" (10 ^ 20) (10 ^ 20)) "0xweth" (10 ^ 18) =
    Err ArithmeticOverflow.
Proof.
  apply (v2_quote_refuses_18_decimals (pool_of "0xaa" (10 ^ 20) (10 ^ 20)) "0xweth" (10 ^ 18)
    (10 ^ 20) (10 ^ 20) "0xusdc").
  - by apply pool_of_wf.
  - reflexivity.
  - vm_compute; done.
  - lia.
  - lia.
Defined.

(** ** Concentrated-liquidity pools *)

Definition no_quote : PoolQuote :=
  {| pq_pool_address := ""; pq_token_in := ""; pq_token_out := ""; pq_amount_in := 0;
     pq_amount_out := 0; pq_fee_bps := 0; pq_price_impact_bps := 0 |}.

Definition v3_quote_sample : PoolQuote := Eval vm_compute in
  match v3_quote_exact_in v3_pool_sample "0xweth" 1000000 with Ok q => q | _ => no_quote end.

Lemma v3_quote_sample_eq :
  v3_quote_exact_in v3_pool_sample "0xweth" 1000000 = Ok v3_quote_sample.
Proof. vm_compute. reflexivity. Qed.

Lemma v3_quote_sound_witness :
  0 < pq_amount_out v3_quote_sample ∧ pq_price_impact_bps v3_quote_sample ≤ 500.
Proof.
  destruct (v3_quote_sound v3_pool_sample "0xweth" 1000000 v3_quote_sample v3_pool_sample_wf
    (uint_closed 128 1000000 eq_refl) v3_quote_sample_eq)
    as (z & tok & _ & _ & _ & H & _ & H').
  split; [apply H|apply H'].
Defined.

Lemma v3_quote_total_witness :
  v3_quote_exact_in v3_pool_sample "0xweth" 1 = Err InsufficientInput ∧
  v3_less_fee v3_pool_sample 1 = 0.
Proof.
  assert (v3_quote_exact_in v3_pool_sample "0xweth" 1 = Err InsufficientInput) as H
    by (vm_compute; reflexivity).
  split; [exact H|].
  pose proof (v3_quote_total v3_pool_sample "0xweth" 1 v3_pool_sample_wf (uint_closed 128 1 eq_refl))
    as Ht. rewrite H in Ht. exact Ht.
Defined.

Lemma tick_price_in_range_witness :
  get_sqrt_ratio_at_tick 1 = Ok 79232123823359799118286999568 ∧
  min_sqrt_price ≤ 79232123823359799118286999568 ≤ MAX_SQRT_PRICE.
Proof.
  assert (get_sqrt_ratio_at_tick 1 = Ok 79232123823359799118286999568) as H
    by (vm_compute; reflexivity).
  split; [exact H|]. pose proof (tick_price_in_range 1) as Ht. rewrite H in Ht. apply Ht.
Defined.

Lemma tick_price_reciprocal_witness :
  (79232123823359799118286999568 - 1) * (79224201403219477170569942574 - 1) < 2 ^ 192.
Proof.
  assert (get_sqrt_ratio_at_tick 1 = Ok 79232123823359799118286999568) as H1
    by (vm_compute; reflexivity).
  assert (get_sqrt_ratio_at_tick (- (1)) = Ok 79224201403219477170569942574) as H2
    by (vm_compute; reflexivity).
  apply (tick_price_reciprocal 1 _ _ eq_refl H1 H2).
Defined.

Lemma tick_table_squares_witness : ∃ fs : list Z, length fs = length CONSTANTS.
Proof.
  destruct tick_table_squares as (fs & Hfs & _). exists fs. symmetry.
  by eapply Forall2_length.
Defined.

(** ** The registry *)

Definition router02 : AddressMetadata :=
  Build_AddressMetadata "0x4752ba5dbc23f44d87826276bf6fd6b1c372ad24"
    (Some Protocol.UniswapV2) None Router "Uniswap V2 Router02".

Lemma registry_lookup_complete_witness :
  address_metadata " 4752BA5dbc23f44d87826276bf6fd6b1c372ad24" = Some router02.
Proof.
  apply (registry_lookup_complete " 4752BA5dbc23f44d87826276bf6fd6b1c372ad24").
  - left.
  - vm_compute. reflexivity.
Defined.

(** ** The book *)

Definition log_1 : Log := sync_log "0xAA" 1000 2000 1 None.
Definition log_2 : Log := sync_log "0xbb" 3000 4000 2 None.

Lemma book_apply_log_invariant_witness :
  book_wf (book_apply_logs book_sample [log_1; log_2; removed_log log_1]).2.
Proof.
  destruct (book_apply_logs book_sample [log_1; log_2; removed_log log_1]) as [rs b] eqn:H.
  refine (proj1 (book_apply_log_invariant book_sample [log_1; log_2; removed_log log_1] rs b
    book_sample_wf _ H)).
  do 3 (constructor; [by apply sync_log_typed; apply uint_closed|]). constructor.
Defined.

Lemma book_reorg_undo_witness :
  book_apply_logs (book_apply_logs book_sample [log_1; log_2]).2
    [removed_log log_2; removed_log log_1] = ([Ok Reverted; Ok Reverted], book_sample).
Proof.
  apply (book_reorg_undo book_sample [log_1; log_2]).
  - do 2 (constructor; [by apply sync_log_sync|]). constructor.
  - repeat constructor; set_solver.
  - intros log k _ _. reflexivity.
  - vm_compute. reflexivity.
Defined.

Lemma book_duplicate_delivery_witness :
  ∃ address, log_address log_1 = Some address ∧ address = "0xAA"%string.
Proof.
  destruct (book_apply_log book_sample log_1) as [r1 b1] eqn:H1.
  destruct (book_apply_log b1 log_1) as [r2 b2] eqn:H2.
  assert (r1 = Ok Applied) as -> by (injection H1 as <- _; reflexivity).
  assert (r2 = Ok Applied) as -> by (injection H1 as <-; injection H2 as <- _; reflexivity).
  destruct (book_duplicate_delivery book_sample log_1 b1 b2) as (address & _ & _ & _ & _ & Ha & _).
  - by apply sync_log_sync.
  - exact H1.
  - exact H2.
  - exists address. split; [exact Ha|]. by injection Ha.
Defined.

Lemma book_error_evicts_witness :
  book_pool (book_apply_log book_sample (sync_log "0xaa" 0 5 3 None)).2 "0xaa" = None.
Proof.
  destruct (book_apply_log book_sample (sync_log "0xaa" 0 5 3 None)) as [r b] eqn:H.
  assert (r = Err (InvalidPool "sync reserves must be greater than zero")) as ->
    by (injection H as <- _; reflexivity).
  destruct (book_error_evicts book_sample _ _ _ H) as (address & p & Ha & _ & -> & _).
  injection Ha as <-. apply lookup_delete_eq.
Defined.

Lemma book_apply_log_frame_witness :
  book_pool (book_apply_log book_sample log_1).2 "0xbb" = Some (V2 pool_b).
Proof.
  rewrite (book_apply_log_frame book_sample log_1 "0xbb"); [reflexivity|].
  intros a [= <-]. vm_compute. done.
Defined.

Lemma book_v3_removed_reapplied_witness :
  book_apply_log book_sample (removed_log (sync_log "0xcc" 1 1 4 None)) =
  book_apply_log book_sample (sync_log "0xcc" 1 1 4 None).
Proof.
  apply (book_v3_removed_reapplied book_sample _ "0xcc" v3_pool_sample); reflexivity.
Defined.

(** ** The risk engine *)

Definition digest (bytes : list Z) : string := show_uint (Z.of_nat (length bytes)).
Definition no_file (path : string) : bool := false.

Definition op_at (block now amount : Z) : RiskOp :=
  Assess no_file now (sample_opportunity (Block_ block None) amount) sample_simulation.

Lemma risk_accepted_gates_witness :
  gates_open no_file (sample_policy None (Some 100)) (sample_opportunity Pending 60)
    sample_simulation.
Proof.
  destruct (assess digest no_file 5 (sample_policy None (Some 100)) RiskState_default
    (sample_opportunity Pending 60) sample_simulation) as [d st] eqn:H.
  assert (rd_accepted d = true) as Hd by (injection H as <- _; reflexivity).
  apply (risk_accepted_gates _ _ _ _ _ _ _ _ _ H Hd).
Defined.

Lemma risk_denied_frame_witness :
  rs_block_notional (assess digest no_file 5 (sample_policy None (Some 50)) RiskState_default
    (sample_opportunity Pending 60) sample_simulation).2 = None.
Proof.
  destruct (assess digest no_file 5 (sample_policy None (Some 50)) RiskState_default
    (sample_opportunity Pending 60) sample_simulation) as [d st] eqn:H.
  assert (rd_accepted d = false) as Hd by (injection H as <- _; reflexivity).
  apply (risk_denied_frame _ _ _ _ _ _ _ _ _ H Hd).
Defined.

Lemma risk_daily_cap_witness :
  window_sum 90005 [{| cm_now := 5; cm_bucket := 7; cm_amount := 60 |};
                    {| cm_now := 90005; cm_bucket := 8; cm_amount := 60 |}] ≤ 100.
Proof.
  apply (risk_daily_cap digest (sample_policy None (Some 100)) 100
    [op_at 7 5 60; op_at 7 6 60; op_at 8 90005 60]
    (risk_run digest (sample_policy None (Some 100)) RiskState_default
       [op_at 7 5 60; op_at 7 6 60; op_at 8 90005 60]).1
    [{| cm_now := 5; cm_bucket := 7; cm_amount := 60 |};
     {| cm_now := 90005; cm_bucket := 8; cm_amount := 60 |}])
    with (pre := [{| cm_now := 5; cm_bucket := 7; cm_amount := 60 |}])
         (c := {| cm_now := 90005; cm_bucket := 8; cm_amount := 60 |}) (post := []).
  - reflexivity.
  - done.
  - vm_compute. repeat (split; try done).
  - vm_compute. reflexivity.
  - reflexivity.
Defined.

Lemma risk_block_cap_witness :
  bucket_sum 7 (risk_run digest (sample_policy (Some 100) None) RiskState_default
    [op_at 7 5 60; op_at 7 6 60; op_at 8 7 60]).2 ≤ 100.
Proof.
  destruct (risk_run digest (sample_policy (Some 100) None) RiskState_default
    [op_at 7 5 60; op_at 7 6 60; op_at 8 7 60]) as [st cs] eqn:H.
  apply (risk_block_cap digest (sample_policy (Some 100) None) 100
    [op_at 7 5 60; op_at 7 6 60; op_at 8 7 60] st cs).
  - reflexivity.
  - done.
  - vm_compute. repeat (split; try done).
  - exact H.
Defined.

Lemma risk_halted_witness :
  (risk_run digest (sample_policy None None) (trigger_kill_switch RiskState_default)
     [op_at 7 5 60; RecordOutcome true; op_at 7 6 60]).2 = [].
Proof. apply (risk_halted digest). by left. Defined.

Definition exec_sample (mode : ExecutionMode) : ExecutionConfig :=
  {| exec_mode := mode; exec_submit_timeout_secs := 30; exec_receipt_timeout_secs := 60;
     exec_router_address := Some "0x1111111111111111111111111111111111111111"%string;
     exec_canary_max_trade_wei := Some "2000000"%string;
     exec_canary_max_daily_wei := Some "5000000"%string;
     exec_gas_limit_multiplier_bps := 12000; exec_max_fee_per_gas_wei := Some "50"%string;
     exec_max_priority_fee_per_gas_wei := Some "2"%string; exec_plan_deadline_secs := 30;
     exec_use_flashloan := true; exec_ethcall_preflight_required := true;
     exec_ethcall_timeout_secs := 5 |}.

Definition risk_sample : RiskConfig :=
  {| rcfg_min_net_profit_wei := "0"; rcfg_min_profit_bps := 0;
     rcfg_max_trade_notional_wei := Some "100"%string; rcfg_max_per_block_notional_wei := None;
     rcfg_max_daily_notional_wei := Some "1000"%string; rcfg_max_slippage_bps := 100;
     rcfg_token_allowlist := []; rcfg_token_denylist := [];
     rcfg_max_consecutive_reverts := 3; rcfg_kill_switch_path := None |}.

Lemma policy_from_validated_config_witness : ∃ p, policy_from_config risk_sample = Ok p.
Proof.
  destruct (policy_from_validated_config risk_sample (exec_sample Live)) as (p & Hp & _).
  - vm_compute. reflexivity.
  - exists p. exact Hp.
Defined.

(** ** The configuration *)

Definition env_sample : Env := λ key,
  find_map (λ kv, if bool_decide (kv.1 = key) then Some kv.2 else None)
    [("INGEST_CHANNEL", " IPC "); ("BASE_IPC_PATH", "/tmp/reth.ipc");
     ("EXECUTION_MODE", "live"); ("SIGNER_PRIVATE_KEY", "0x01");
     ("EXECUTION_ROUTER_ADDRESS", "0x1111111111111111111111111111111111111111");
     ("RISK_MAX_TRADE_NOTIONAL_WEI", "100");
     ("RISK_MAX_DAILY_NOTIONAL_WEI", "1000")]%string.

Lemma config_live_requirements_witness :
  ∃ c, app_from_env (λ s, Some s) env_sample = Ok c ∧ exec_mode (app_execution c) = Live ∧
    is_Some (exec_router_address (app_execution c)).
Proof.
  destruct (app_from_env (λ s, Some s) env_sample) as [c|e|] eqn:H.
  - assert (exec_mode (app_execution c) = Live) as Hm
      by (vm_compute in H; injection H as <-; reflexivity).
    exists c. split; [reflexivity|]. split; [exact Hm|].
    apply (config_live_requirements (λ s, Some s) env_sample c); [exact H|].
    rewrite Hm. done.
  - vm_compute in H. discriminate H.
  - vm_compute in H. discriminate H.
Defined.

(** ** Detection *)

Definition loop_sample (token : string) : TwoLegLoopInput :=
  loop_input Pending token 1000000 None pool_a pool_b.

Definition no_opportunity : Opportunity := sample_opportunity Pending 0.

Definition opportunity_sample : Opportunity := Eval vm_compute in
  match detect_two_leg_loop (loop_sample "0xweth") with Ok (Some o) => o | _ => no_opportunity end.

Lemma detect_sample : detect_two_leg_loop (loop_sample "0xweth") = Ok (Some opportunity_sample).
Proof. vm_compute. reflexivity. Qed.

Lemma detect_two_leg_loop_correct_witness : 0 < op_expected_net_profit opportunity_sample.
Proof.
  destruct (detect_two_leg_loop_correct (loop_sample "0xweth") pool_a_wf pool_b_wf
    (uint_closed 128 1000000 eq_refl)) as (r & Hr & Hspec).
  rewrite detect_sample in Hr. injection Hr as <-.
  destruct Hspec as (q1 & q2 & l1 & l2 & _ & _ & _ & _ & _ & H & _). exact H.
Defined.

Lemma detect_settlement_case_sensitive_witness :
  detect_two_leg_loop (loop_sample "0xWETH") = Ok None.
Proof.
  apply (detect_settlement_case_sensitive (loop_sample "0xWETH") pool_a_wf pool_b_wf
    (uint_closed 128 1000000 eq_refl)); vm_compute; done.
Defined.

Lemma values_wf : Forall pool_wf [V2 pool_a; V2 pool_b; V3 v3_pool_sample].
Proof.
  constructor; [apply pool_a_wf|]. constructor; [apply pool_b_wf|].
  constructor; [apply v3_pool_sample_wf|constructor].
Qed.

Lemma detect_loops_sound_complete_witness :
  ∃ os o', detect_two_leg_loops_from_book Pending "0xweth" 1000000 None
      [V2 pool_a; V2 pool_b; V3 v3_pool_sample] = Ok os ∧ o' ∈ os ∧
    op_id o' = op_id opportunity_sample.
Proof.
  destruct (detect_loops_sound_complete Pending "0xweth" 1000000 None
    (uint_closed 128 1000000 eq_refl) _ values_wf) as (os & Hos & _ & _ & Hall).
  destruct (Hall pool_a pool_b opportunity_sample) as (o' & Ho' & Hid & _).
  - left.
  - right. left.
  - split; vm_compute; reflexivity.
  - exists os, o'. split; [exact Hos|]. split; [exact Ho'|exact Hid].
Defined.

Lemma detect_loops_order_independent_witness :
  ∃ os os', detect_two_leg_loops_from_book Pending "0xweth" 1000000 None
      [V2 pool_a; V2 pool_b] = Ok os ∧
    detect_two_leg_loops_from_book Pending "0xweth" 1000000 None
      [V2 pool_b; V2 pool_a] = Ok os' ∧ rank_key <$> os = rank_key <$> os'.
Proof.
  apply (detect_loops_order_independent Pending "0xweth" 1000000 None
    (uint_closed 128 1000000 eq_refl) [V2 pool_a; V2 pool_b] [V2 pool_b; V2 pool_a]).
  - constructor; [apply pool_a_wf|]. constructor; [apply pool_b_wf|constructor].
  - constructor.
Defined.

Definition costs_sample : SimulationConfig :=
  {| sc_gas_estimate := 180000; sc_gas_cost_wei := 100; sc_l1_data_fee_wei := 20 |}.

Definition simulation_sample : SimulationResult := Eval vm_compute in
  default sample_simulation (simulate_two_leg_opportunity opportunity_sample costs_sample).

Lemma simulate_sample :
  simulate_two_leg_opportunity opportunity_sample costs_sample = Some simulation_sample.
Proof. vm_compute. reflexivity. Qed.

Lemma simulate_exact_witness : sim_accepted simulation_sample = true.
Proof.
  pose proof (simulate_exact opportunity_sample costs_sample ltac:(done) ltac:(done)) as H.
  cbv zeta in H. rewrite simulate_sample in H. apply H. vm_compute. reflexivity.
Defined.

Definition decision_sample : RiskDecision := Eval vm_compute in
  (assess digest no_file 5 (sample_policy None None) RiskState_default opportunity_sample
     simulation_sample).1.

Definition scan_sample : list Opportunity :=
  match detect_two_leg_loops_from_book Pending "0xweth" 1000000 None
          [V2 pool_a; V2 pool_b; V3 v3_pool_sample] with Ok os => os | _ => [] end.

Lemma accepted_request_covers_witness :
  ∃ rq s1 s2, build_execution_request opportunity_sample decision_sample = Some rq ∧
    request_covers "0xweth" 1000000 costs_sample rq s1 s2.
Proof.
  apply (accepted_request_covers digest no_file 5 (sample_policy None None) RiskState_default
    Pending "0xweth" 1000000 None [V2 pool_a; V2 pool_b; V3 v3_pool_sample] scan_sample
    opportunity_sample costs_sample simulation_sample decision_sample
    (assess digest no_file 5 (sample_policy None None) RiskState_default opportunity_sample
       simulation_sample).2 (uint_closed 128 1000000 eq_refl) values_wf).
  - vm_compute. reflexivity.
  - assert (head scan_sample = Some opportunity_sample) as H by (vm_compute; reflexivity).
    destruct scan_sample as [|o os]; [discriminate H|]. injection H as ->. left.
  - exact simulate_sample.
  - vm_compute. reflexivity.
  - reflexivity.
Defined.

(** ** Execution *)

Definition request_sample : ExecutionRequest :=
  {| rq_opportunity_id := "loop"; rq_steps := [
       {| st_venue := None; st_protocol := None;
          st_target := "0x2222222222222222222222222222222222222222";
          st_token_in := "0x3333333333333333333333333333333333333333";
          st_token_out := "0x4444444444444444444444444444444444444444"; st_pool_fee := None;
          st_amount_in := Some 1000; st_min_amount_out := 1000;
          st_calldata_hint := Some "v2_exact_input"%string; st_aux_address := None |}];
     rq_min_repay := 1000; rq_min_surplus := 1;
     rq_flashloan_asset := Some "0x3333333333333333333333333333333333333333"%string;
     rq_flashloan_amount := Some 1000;
     rq_risk_hash := "00112233445566778899aabbccddeeff00112233445566778899aabbccddeeff" |}.

Definition no_attempt : ExecutionAttempt :=
  {| at_request_id := ""; at_tx_hash := None; at_status := ExecutionStatus.Built;
     at_execution_mode := ""; at_submission_allowed := false; at_blocked_reason := None;
     at_requested_notional := 0; at_gas_limit := None; at_max_fee_per_gas := None;
     at_max_priority_fee_per_gas := None |}.

Definition prepared_sample (mode : ExecutionMode) : PreparedExecution :=
  match prepare_execution (exec_sample mode) request_sample simulation_sample 0 with
  | Ok p => p
  | _ => {| pe_attempt := no_attempt; pe_should_submit := false |}
  end.

Lemma prepare_sample mode :
  prepare_execution (exec_sample mode) request_sample simulation_sample 0 =
    Ok (prepared_sample mode).
Proof. destruct mode; vm_compute; reflexivity. Qed.

Lemma padded_gas_limit_exact_witness :
  padded_gas_limit 180001 12000 = Ok 216002 ∧ 180001 ≤ 216002.
Proof.
  split; [vm_compute; reflexivity|].
  exact (proj2 (proj2 (padded_gas_limit_exact 180001 12000
    (uint_closed 64 180001 eq_refl) (uint_closed 32 12000 eq_refl))) ltac:(done)).
Defined.

Lemma prepare_execution_gates_witness :
  pe_should_submit (prepared_sample Canary) = true ∧
  at_blocked_reason (pe_attempt (prepared_sample Canary)) = None.
Proof.
  split; [vm_compute; reflexivity|].
  destruct (prepare_execution_gates _ _ _ _ _ (prepare_sample Canary))
    as (_ & _ & _ & H & _). apply H. vm_compute. reflexivity.
Defined.

Lemma prepare_execution_total_witness :
  prepare_execution (exec_sample Live) request_sample simulation_sample 0 ≠ Panic.
Proof.
  pose proof (prepare_execution_total (exec_sample Live) request_sample simulation_sample 0
    ltac:(vm_compute; reflexivity) ltac:(done) (uint_closed 64 180000 eq_refl)
    (uint_closed 32 12000 eq_refl)) as H.
  intros Hp. cbv zeta in H. rewrite Hp in H. exact H.
Defined.

Lemma attempt_lifecycle_witness :
  ∃ a, rtc lifecycle (pe_attempt (prepared_sample Live)) a ∧ at_submission_allowed a = true.
Proof.
  exists (with_status (pe_attempt (prepared_sample Live)) ExecutionStatus.Submitted
    (Some "0x01"%string)).
  assert (rtc lifecycle (pe_attempt (prepared_sample Live))
    (with_status (pe_attempt (prepared_sample Live)) ExecutionStatus.Submitted
      (Some "0x01"%string))) as Hr.
  { apply rtc_once. apply (lifecycle_submit _ "0x01"). vm_compute. reflexivity. }
  split; [exact Hr|].
  destruct (attempt_lifecycle _ _ _ _ _ _ (prepare_sample Live) Hr) as (_ & [H|(_ & H & _)] & _).
  - discriminate H.
  - exact H.
Defined.

(** A transport that accepts a transaction and reports it included. *)
#[local] Instance counting_transport : ExecutionTransport nat := {|
  tr_submit n _ _ := (Some (Ok "0x01"%string), S n);
  tr_await_receipt n _ a _ :=
    (Ok (Some {| rc_request_id := "loop"; rc_tx_hash := "0x01"; rc_block_number := Some 9;
                 rc_success := true; rc_gas_used := Some 100; rc_effective_gas_price := Some 3;
                 rc_l1_fee_paid := Some 7; rc_revert_reason := None |}), S n);
  tr_simulate n _ _ := (Some default_simulate, n) |}.

Lemma execute_with_transport_sound_witness :
  (execute_with_transport O (Ok 1700000000) (exec_sample Shadow) request_sample
     simulation_sample 0).2 = O ∧
  (execute_with_transport O (Ok 1700000000) (exec_sample Live) request_sample
     simulation_sample 0).2 = 2%nat.
Proof.
  split; [|vm_compute; reflexivity].
  destruct (execute_with_transport O (Ok 1700000000) (exec_sample Shadow) request_sample
    simulation_sample 0) as [r t] eqn:H.
  apply (execute_with_transport_sound O _ _ _ _ _ _ _ H). reflexivity.
Defined.

Definition plan_sample : anyhow (list Z * RouterExecutionPlan) :=
  build_plan (exec_sample Live) request_sample 1700000000.

Lemma plan_encodes_request_witness :
  ∃ router plan, plan_sample = Ok (router, plan) ∧ rp_deadline plan = 1700000000 + 30.
Proof.
  destruct plan_sample as [[router plan]|e|] eqn:H.
  - exists router, plan. split; [reflexivity|].
    apply (plan_encodes_request (exec_sample Live) request_sample 1700000000 router plan H).
  - vm_compute in H. discriminate H.
  - vm_compute in H. discriminate H.
Defined.

(** ** Submission *)

(** A node of fixed answers: to the dry run, to the broadcast and to the queries for a
    receipt, in order, with a clock that a query moves by a tenth of a second. *)
Record SampleNode := {
  sn_call : Reply string unit;
  sn_send : Reply error string;
  sn_receipts : list (Reply error (option ChainReceipt));
  sn_clock : Z }.

#[export] Instance sample_rpc : RpcNode SampleNode := {|
  rpc_fees n := (Some (Answer (100, 3)), n);
  rpc_call n _ := (Some (sn_call n), n);
  rpc_send_raw n _ := (Some (sn_send n), n);
  rpc_estimate_gas n _ := (Some (Refuse "unsupported"%string), n);
  rpc_receipt n _ :=
    (default (Answer None) (head (sn_receipts n)),
     {| sn_call := sn_call n; sn_send := sn_send n; sn_receipts := tail (sn_receipts n);
        sn_clock := sn_clock n + 10 ^ 8 |});
  instant n := sn_clock n;
  sleep n d := {| sn_call := sn_call n; sn_send := sn_send n; sn_receipts := sn_receipts n;
                  sn_clock := sn_clock n + d |};
  tasks_run n := (O, n) |}.

#[export] Instance sample_clock : ClockLaws sample_rpc.
Proof. constructor; intros; cbn; lia. Qed.

#[export] Instance sample_signer : TxSigner string := {|
  signer_address _ := replicate 20 7;
  sign_transaction _ tx := Answer [tx1559_nonce tx] |}.

Definition payload_sample : SubmissionPayload :=
  {| sp_router_address := "0x1111111111111111111111111111111111111111"; sp_calldata := [1; 2];
     sp_value := 0 |}.

Definition caps_sample : GasCaps :=
  {| gc_max_fee_cap := Some 50; gc_max_priority_fee_cap := None |}.

Definition nonces_sample : NonceState := {| ns_next := 7; ns_initialised := true |}.

Definition node_sample (call : Reply string unit) (send : Reply error string) : SampleNode :=
  {| sn_call := call; sn_send := send; sn_receipts := []; sn_clock := 10 ^ 12 |}.

Definition transport_sample (node : SampleNode) : AlloySubmitTransport SampleNode string :=
  alloy_new node 8453 "signer"%string nonces_sample caps_sample.

Abbreviation submit_sample node :=
  (submit_inner payload_sample (pe_attempt (prepared_sample Live)) (transport_sample node)).
Abbreviation refusing := (node_sample (Answer tt) (Refuse ["nonce too low"%string])).


Lemma submit_leaks_nonce_witness :
  ∃ t, submit_sample (node_sample (Refuse "reverted"%string) (Answer "0x01"%string)) =
         (Err (Bailed ["preflight eth_call reverted: reverted"%string]), t) ∧
    al_spawned t = [] ∧ ns_next (al_nonce t) = 8.
Proof.
  set (node := node_sample (Refuse "reverted"%string) (Answer "0x01"%string)).
  pose proof (submit_leaks_nonce (A:=alloy_hex) payload_sample (pe_attempt (prepared_sample Live))
    (transport_sample node) (replicate 20 17) (100, 3)
    {| gp_max_fee_per_gas := 50; gp_max_priority_fee_per_gas := 3 |} 216000 node node node "reverted"
    ltac:(vm_compute; reflexivity) eq_refl ltac:(vm_compute; reflexivity) eq_refl eq_refl eq_refl
    ltac:(vm_compute; reflexivity) eq_refl) as Hl.
  destruct (submit_sample node) as [r t]. destruct Hl as (-> & Hs & Hn). exists t. split_and!; [reflexivity|exact Hs|exact Hn].
Defined.

Definition submitted_sample : ExecutionAttempt :=
  with_status (pe_attempt (prepared_sample Live)) ExecutionStatus.Submitted
    (Some "0x00112233445566778899aabbccddeeff00112233445566778899aabbccddeeff"%string).

Definition hex_bytes (s : string) : list Z :=
  match hex_word 32 s with Ok w => w | _ => [] end.

Definition chain_receipt_sample : ChainReceipt :=
  {| cr_block_number := Some 12; cr_status := true; cr_gas_used := 150000;
     cr_effective_gas_price := 50 |}.

(** The second query finds the receipt. *)
Definition waiting_sample : AlloySubmitTransport SampleNode string :=
  transport_sample {| sn_call := Answer tt; sn_send := Answer "0x01"%string;
                      sn_receipts := [Answer None; Answer (Some chain_receipt_sample)];
                      sn_clock := 10 ^ 12 |}.

Lemma await_receipt_bounded_witness :
  ∃ receipt t', await_receipt submitted_sample (3 * 10 ^ 9) waiting_sample = (Ok (Some receipt), t') ∧
    rc_success receipt = true ∧ rc_request_id receipt = at_request_id submitted_sample.
Proof.
  pose proof (await_receipt_bounded (A:=alloy_hex) submitted_sample (3 * 10 ^ 9) waiting_sample
    "0x00112233445566778899aabbccddeeff00112233445566778899aabbccddeeff"
    (hex_bytes "00112233445566778899aabbccddeeff00112233445566778899aabbccddeeff")
    eq_refl ltac:(vm_compute; reflexivity) ltac:(lia) ltac:(cbn; unfold DEFAULT_RECEIPT_POLL_INTERVAL; lia)) as H.
  assert (match (await_receipt submitted_sample (3 * 10 ^ 9) waiting_sample).1 with
          | Ok (Some receipt) => rc_success receipt | _ => false end = true) as Hok
    by (vm_compute; reflexivity).
  cbv zeta in H. destruct (await_receipt _ _ _) as [r t']. cbn [fst] in Hok.
  destruct H as (l & _ & H). change (INSTANT_END <=? _) with false in H. cbn iota in H.
  destruct H as (n & answer & _ & _ & H). destruct answer as [[c|]|e].
  - destruct H as (receipt & -> & Hrep). exists receipt, t'.
    split; [reflexivity|]. split; [exact Hok|exact (rp_request _ _ _ _ Hrep)].
  - rewrite H in Hok. discriminate Hok.
  - rewrite H in Hok. discriminate Hok.
Defined.
