(* ===== verification/AppWitnesses.v ===== *)
(** Concrete runs of the engine: inputs on which the hypotheses of the theorems of
    [App] hold, and runs that show what the engine does without a database. *)

From S2P Require Import Prelude RustStr Types MarketsV2 U256 MarketsV3 PoolBook.
From S2P Require Import Config Risk Decision Execution Submit Storage App Startup Transports Witnesses.
#[local] Open Scope Z_scope.

(** ** Samples *)

Definition weth : string := "0x3333333333333333333333333333333333333333".
Definition usdc : string := "0x4444444444444444444444444444444444444444".

Definition live_pool (address : string) (r0 r1 : Z) : V2PoolState :=
  {| v2_address := address; v2_protocol := Protocol.UniswapV2; v2_exchange := None;
     v2_token0 := weth; v2_token1 := usdc; v2_reserve0 := r0; v2_reserve1 := r1;
     v2_fee_bps := 30; v2_last_updated_block := None |}.

Definition live_a : V2PoolState :=
  live_pool "0x1111111111111111111111111111111111111111" (10 ^ 9) (2 * 10 ^ 9).
Definition live_b : V2PoolState :=
  live_pool "0x2222222222222222222222222222222222222222" (10 ^ 9) (15 * 10 ^ 8).

Definition live_book : PoolBook := insert_v2_pool (insert_v2_pool book_new live_a) live_b.

Lemma live_book_wf : book_wf live_book.
Proof.
  do 2 (apply insert_v2_pool_wf; [|by constructor]). by constructor.
Qed.

(** A sync of the first pool to its own reserves. *)
Definition live_log (index : Z) : Log :=
  sync_log "0x1111111111111111111111111111111111111111" (10 ^ 9) (2 * 10 ^ 9) index None.

Definition live_env (now : Z) : EventEnv :=
  {| env_values b := (map_to_list (pools b)).*2; env_path_exists _ := false;
     env_risk_now := now; env_clock_simulation := Ok now; env_clock_submission := Ok now |}.

Lemma live_env_wf now : env_wf (live_env now).
Proof. constructor; [intros b; by unfold iteration_order|done|done]. Qed.

Definition live_scan : RuntimeScanConfig :=
  {| scan_settlement_token := weth; scan_amount_in := 1000000;
     scan_simulation := {| sc_gas_estimate := 180000; sc_gas_cost_wei := 100;
                           sc_l1_data_fee_wei := 20 |} |}.

Definition live_events (n : Z) : list (EventEnv * Event) :=
  [(live_env 100, EvLog (live_log n)); (live_env 200, EvLog (live_log (n + 1)))].

Lemma live_events_typed n : run_typed (Some live_scan) (live_events n).
Proof.
  split; [split; by apply uint_closed|].
  do 2 (constructor; [split; [apply live_env_wf|]; apply sync_log_typed; by apply uint_closed|]).
  constructor.
Qed.

#[export] Instance serde_sample : SerdeJson := {|
  vec_block_context _ := Ok []; vec_log l := Ok (from_option (to_le_bytes 8) [] (log_log_index l));
  text_block_context _ := Ok "pending"%string;
  text_status _ := Ok "built"%string; value_log _ := Ok "{}"%string;
  value_opportunity _ := Ok "{}"%string; value_simulation _ := Ok "{}"%string;
  value_risk _ := Ok "{}"%string; value_opt_request _ := Ok "{}"%string;
  value_request _ := Ok "{}"%string; value_attempt _ := Ok "{}"%string;
  value_receipt _ := Ok "{}"%string; value_outcome _ := Ok "{}"%string |}.

#[export] Instance serde_sample_laws : SerdeJsonLaws serde_sample.
Proof. by constructor. Qed.

(** A transport that accepts every transaction and reports it included. *)
#[export] Instance accepting_transport : ExecutionTransport unit := {|
  tr_submit t _ _ := (Some (Ok "0x01"%string), t);
  tr_await_receipt t _ a _ :=
    (Ok (Some {| rc_request_id := at_request_id a; rc_tx_hash := "0x01"; rc_block_number := Some 9;
                 rc_success := true; rc_gas_used := Some 100; rc_effective_gas_price := Some 3;
                 rc_l1_fee_paid := Some 7; rc_revert_reason := None |}), t);
  tr_simulate t _ _ := (Some default_simulate, t) |}.

#[export] Instance accepting_faults : TransportFaults unit := λ _, False.

#[export] Instance accepting_laws : TransportLaws unit.
Proof.
  constructor; intros *; cbn; try done. intros [= <-]. vm_compute. discriminate.
Qed.

Definition digest32 (_ : list Z) : string :=
  "00112233445566778899aabbccddeeff00112233445566778899aabbccddeeff".

Definition live_engine (storage : Storage) : Engine (Logged unit) :=
  {| en_book := live_book; en_risk := RiskState_default; en_storage := storage;
     en_transport := {| lg_state := tt; lg_calls := [] |} |}.

Definition no_storage : Storage := {| storage_pool := None |}.

Definition empty_db : Db :=
  {| db_now := 0; db_script := []; db_logs := []; db_next_log := 1; db_runs := [];
     db_next_run := 1; db_attempts := []; db_next_attempt := 1 |}.

Definition daily_policy : RiskPolicy := sample_policy None (Some 3000000).

Abbreviation live_run mode storage :=
  (engine_run digest32 daily_policy (exec_sample mode) (Some live_scan) (live_events 1)
     (live_engine storage)).

(** Two calls reach the transport in live mode, none in shadow mode. *)
Example live_run_calls :
  length (lg_calls (en_transport (live_run Live no_storage).2)) = 2%nat ∧
  (live_run Live no_storage).1 = Ok tt ∧
  lg_calls (en_transport (live_run Shadow no_storage).2) = [].
Proof. vm_compute. split_and!; reflexivity. Qed.

(** ** Witnesses *)

(** The engine over the transport of the program, with a node that answers the first wait
    with the given receipt. *)
Definition alloy_engine (receipt : ChainReceipt) : Engine (Logged (Boxed SampleNode string)) :=
  {| en_book := live_book; en_risk := RiskState_default; en_storage := no_storage;
     en_transport := {| lg_calls := []; lg_state := BoxAlloy (transport_sample
       {| sn_call := Answer tt;
          sn_send := Answer "0x00112233445566778899aabbccddeeff00112233445566778899aabbccddeeff"%string;
          sn_receipts := [Answer (Some receipt)]; sn_clock := 10 ^ 12 |}) |} |}.

Abbreviation alloy_run receipt :=
  (engine_run digest32 daily_policy (exec_sample Live) (Some live_scan) (live_events 1)
     (alloy_engine receipt)).

(** A receipt whose fee is [2^127] ends the run in a panic; with another fee the run goes
    on over both events, the second of which waits until its deadline. *)
Definition fatal_receipt : ChainReceipt :=
  {| cr_block_number := Some 12; cr_status := true; cr_gas_used := 2 ^ 20;
     cr_effective_gas_price := 2 ^ 107 |}.

Example alloy_run_results :
  (alloy_run fatal_receipt).1 = Panic ∧ (alloy_run chain_receipt_sample).1 = Ok tt ∧
  length (lg_calls (en_transport (alloy_run chain_receipt_sample).2)) = 2%nat.
Proof. vm_compute. split_and!; reflexivity. Qed.

Lemma engine_run_safe_witness :
  Exists wire_fault (requests (lg_state (en_transport (alloy_run fatal_receipt).2))) ∧
  book_wf (en_book (alloy_run fatal_receipt).2).
Proof.
  destruct (engine_run_safe digest32 daily_policy (exec_sample Live) (Some live_scan) (live_events 1)
    (alloy_engine fatal_receipt) (live_events_typed 1) live_book_wf) as [Hp Hb].
  split; [apply Hp; vm_compute; reflexivity|exact Hb].
Defined.

Lemma engine_submissions_sound_witness :
  ∃ new, calls (en_transport (live_run Live no_storage).2) = new ∧ length new = 2%nat ∧
    Forall (sound_call digest32 daily_policy (exec_sample Live) (Some live_scan) (live_events 1)
              (live_engine no_storage)) new.
Proof.
  destruct (engine_submissions_sound digest32 daily_policy (exec_sample Live) (Some live_scan)
    (live_events 1) (live_engine no_storage) (live_events_typed 1) live_book_wf) as (new & Hn & Hs).
  exists new. split; [exact Hn|]. split; [|exact Hs].
  assert (length (calls (en_transport (live_run Live no_storage).2)) = 2%nat) as Hl
    by (vm_compute; reflexivity).
  rewrite Hn in Hl. exact Hl.
Defined.

Lemma engine_halted_witness :
  en_transport (live_run Shadow no_storage).2 = en_transport (live_engine no_storage).
Proof.
  refine (engine_halted digest32 daily_policy (exec_sample Shadow) (Some live_scan)
    (live_events 1) (live_engine no_storage) (live_events_typed 1) live_book_wf _).
  left. reflexivity.
Defined.

Definition db_storage : Storage := {| storage_pool := Some empty_db |}.

Lemma empty_db_wf : db_wf empty_db.
Proof. constructor; cbn; [done|constructor|constructor|constructor]. Qed.

Lemma empty_db_days cap : 0 ≤ cap → days_within cap empty_db.
Proof. by intros ? d. Qed.

Lemma canary_daily_cap_witness :
  ∃ db', storage_pool (en_storage (live_run Canary db_storage).2) = Some db' ∧
    days_within 5000000 db'.
Proof.
  destruct (canary_daily_cap digest32 daily_policy (exec_sample Canary) (Some live_scan)
    (live_events 1) (live_engine db_storage) 5000000 "5000000" empty_db (live_events_typed 1)
    live_book_wf eq_refl eq_refl) as (db' & Hdb & Hdays & _).
  - vm_compute. reflexivity.
  - reflexivity.
  - exact empty_db_wf.
  - apply empty_db_days. lia.
  - exists db'. split; [exact Hdb|exact Hdays].
Defined.

(** A day after the first two calls, three more fit under the cap of three millions. *)
Definition later_events : list (EventEnv * Event) :=
  [(live_env 90000, EvLog (live_log 3)); (live_env 90100, EvLog (live_log 4));
   (live_env 90200, EvLog (live_log 5)); (live_env 90300, EvLog (live_log 6))].

Lemma later_events_typed : run_typed (Some live_scan) (live_events 1 ++ later_events).
Proof.
  split; [split; by apply uint_closed|].
  do 6 (constructor; [split; [apply live_env_wf|]; apply sync_log_typed; by apply uint_closed|]).
  constructor.
Qed.

Lemma engine_daily_cap_witness :
  ∃ s1 s2 new, live_run Live no_storage = (Ok tt, s1) ∧
    engine_run digest32 daily_policy (exec_sample Live) (Some live_scan) later_events s1 = (Ok tt, s2) ∧
    calls (en_transport s2) = calls (en_transport s1) ++ new ∧
    length new = 3%nat ∧ notional (calls (en_transport s2)) = 5000000 ∧ notional new ≤ 3000000.
Proof.
  destruct (live_run Live no_storage) as [r1 s1] eqn:H1.
  destruct (engine_run digest32 daily_policy (exec_sample Live) (Some live_scan) later_events s1)
    as [r2 s2] eqn:H2.
  assert (r1 = Ok tt) as -> by (change r1 with (r1, s1).1; rewrite <- H1; vm_compute; reflexivity).
  assert (s1 = (live_run Live no_storage).2) as Es1 by (rewrite H1; reflexivity).
  assert (r2 = Ok tt) as ->
    by (change r2 with (r2, s2).1; rewrite <- H2, Es1; vm_compute; reflexivity).
  assert (s2 = (engine_run digest32 daily_policy (exec_sample Live) (Some live_scan) later_events s1).2)
    as Es2 by (rewrite H2; reflexivity).
  set (new := drop 2 (calls (en_transport s2))).
  assert (calls (en_transport s2) = calls (en_transport s1) ++ new) as Hnew
    by (subst new; rewrite Es2, Es1; vm_compute; reflexivity).
  destruct (engine_daily_cap digest32 daily_policy (exec_sample Live) (Some live_scan)
    (live_events 1) later_events (live_engine no_storage) s1 s2 3000000 90000 (Ok tt) new
    later_events_typed live_book_wf eq_refl H1 H2 Hnew eq_refl) as [_ Hcap].
  - vm_compute. split; [discriminate|reflexivity].
  - cbn. repeat constructor; lia.
  - cbn. repeat constructor; lia.
  - cbn. repeat constructor; unfold SECONDS_PER_DAY; lia.
  - exists s1, s2, new. split; [reflexivity|]. split; [exact H2|]. split; [exact Hnew|].
    split; [subst new; rewrite Es2, Es1; vm_compute; reflexivity|].
    split; [rewrite Es2, Es1; vm_compute; reflexivity|exact Hcap].
Defined.

Definition bootstrap_entry : BootstrapV2Pool :=
  {| bp_address := "0xaa"; bp_protocol := Protocol.UniswapV2; bp_exchange := None;
     bp_token0 := "0xweth"; bp_token1 := "0xusdc"; bp_reserve0 := 1000; bp_reserve1 := 2000;
     bp_fee_bps := 30 |}.

Definition bootstrap_config : DecisionConfig :=
  {| dec_max_route_hops := 2; dec_max_candidate_routes := 10; dec_min_net_profit_wei := "1";
     dec_kill_switch_path := None; dec_settlement_token := Some "0xweth"%string;
     dec_scan_trade_amount_wei := Some "1000"%string;
     dec_v2_bootstrap_path := Some "pools.json"%string; dec_simulation_gas_estimate := 180000;
     dec_simulation_gas_cost_wei := "100"; dec_simulation_l1_data_fee_wei := "20" |}.

Definition bootstrap_book : PoolBook :=
  match load_pool_book (λ _, Ok "") (λ _, Ok [bootstrap_entry]) bootstrap_config with
  | Ok book => book | _ => book_new
  end.

Lemma bootstrap_ready_witness :
  book_wf bootstrap_book ∧ ∃ scan, runtime_scan_config bootstrap_config = Ok (Some scan).
Proof.
  destruct (bootstrap_ready (λ _, Ok ""%string) (λ _, Ok [bootstrap_entry]) bootstrap_config
    bootstrap_book) as [Hb (scan & Hs & _ & Hi)].
  - vm_compute. reflexivity.
  - apply uint_closed. reflexivity.
  - intros _ entries [= <-]. constructor; [|constructor]. split_and!; apply uint_closed; reflexivity.
  - vm_compute. reflexivity.
  - split; [exact Hb|]. destruct (proj2 Hi ltac:(by eexists)) as [c ->]. exists c. exact Hs.
Defined.

(** ** Canary mode without a database *)

Definition six_events : list (EventEnv * Event) :=
  (λ n, (live_env n, EvLog (live_log n))) <$> [1; 2; 3; 4; 5; 6].

Definition canary_run (storage : Storage) : anyhow unit * Engine (Logged unit) :=
  engine_run digest32 (sample_policy None None) (exec_sample Canary) (Some live_scan) six_events
    (live_engine storage).

(** The daily limit of canary mode needs the database: with it the sixth trade
    of the day is blocked at a limit of five, without it the day's total reads as
    zero and all six are sent. *)
Theorem canary_daily_cap_needs_storage :
  exec_canary_max_daily_wei (exec_sample Canary) = Some "5000000"%string ∧
  notional (lg_calls (en_transport (canary_run db_storage).2)) = 5000000 ∧
  notional (lg_calls (en_transport (canary_run no_storage).2)) = 6000000.
Proof. vm_compute. split_and!; reflexivity. Qed.
