(* ===== verification/IngestWitnesses.v ===== *)
(** Concrete runs of the ingest side: an instance of each interface (JSON values,
    the ABI decoder for some of the messages, a scripted node) and, for each theorem
    with hypotheses, an input on which they hold. *)

From S2P Require Import Prelude RustStr Types Registry MarketsV2 U256 MarketsV3 PoolBook Config.
From S2P Require Import Risk Decision Execution Submit Storage App RawLog RawTx Stream Flashblocks.
From S2P Require Import Startup IngestApp Witnesses AppWitnesses.
#[local] Open Scope Z_scope.

(** ** JSON *)

Inductive jval :=
| jnull
| jbool (b : bool)
| jnum (z : Z)
| jstr (s : string)
| jarr (l : list jval)
| jobj (m : list (string * jval)).

Fixpoint jget (m : list (string * jval)) (k : string) : option jval :=
  match m with
  | [] => None
  | (k', v) :: m => if bool_decide (k' = k) then Some v else jget m k
  end.

#[export] Instance json_sample : Json := {|
  Value := jval; Map := list (string * jval); Number := Z;
  variant v := match v with
    | jnull => JNull | jbool b => JBool b | jnum z => JNumber z | jstr s => JString s
    | jarr l => JArray l | jobj m => JObject m
    end;
  value_of v := match v with
    | JNull => jnull | JBool b => jbool b | JNumber z => jnum z | JString s => jstr s
    | JArray l => jarr l | JObject m => jobj m
    end;
  number_as_u64 z := if uint_of_closed 64 z then Some z else None;
  map_iter m := m;
  map_get := jget;
  map_or_insert m k v := match jget m k with Some _ => m | None => m ++ [(k, v)] end;
  to_vec _ := Ok [] |}.

Lemma jget_app m k v k' :
  jget m k = None → jget (m ++ [(k, v)]) k' = if bool_decide (k = k') then Some v else jget m k'.
Proof.
  induction m as [|[k0 v0] m IH]; cbn; [done|].
  repeat case_bool_decide; subst; try done; intros; by rewrite IH, ?bool_decide_true, ?bool_decide_false.
Qed.

#[export] Instance json_sample_laws : JsonLaws json_sample.
Proof.
  constructor; cbn.
  - by intros [].
  - intros n z. case_match eqn:H; [|done]. intros [= <-]. by apply uint_closed.
  - induction m as [|[k0 v0] m IH]; intros k v; cbn; [done|]. case_bool_decide.
    + intros [= <-]. subst. apply list_elem_of_here.
    + intros. apply list_elem_of_further. by apply IH.
  - intros m k v. destruct (jget m k) eqn:H; [by rewrite H|]. rewrite jget_app by done.
    by rewrite bool_decide_true.
  - intros m k k' v Hk. destruct (jget m k) eqn:H; [done|]. rewrite jget_app by done.
    by rewrite bool_decide_false.
  - done.
Qed.

(** ** The ABI decoder *)

Fixpoint hex_pairs (l : list Z) : option (list Z) :=
  match l with
  | [] => Some []
  | [_] => None
  | a :: b :: l =>
      x ← to_digit 16 (char_of a);
      y ← to_digit 16 (char_of b);
      bytes ← hex_pairs l;
      Some (x * 16 + y :: bytes)
  end.

Definition word (bytes : list Z) : Z := foldl (λ acc b, acc * 256 + b) 0 bytes.
Fixpoint words (n : nat) (bytes : list Z) : list Z :=
  match n with O => [] | S n => word (take 32 bytes) :: words n (drop 32 bytes) end.
Definition abi_words (n : nat) (bytes : list Z) : option (list Z) :=
  if bool_decide (length bytes = 32 * n)%nat then Some (words n bytes) else None.
Definition int_word (n : Z) : Z := if n <? 2 ^ 255 then n else n - 2 ^ 256.
Definition int24_closed (z : Z) : bool := (- 2 ^ 23 <=? z) && (z <? 2 ^ 23).

#[export] Instance alloy_events_sample : AlloyEvents := {|
  b256_from_str s := result_ok (hex_word 32 s);
  hex_decode s := bytes ← hex_pairs (bytes_of s);
                  if forallb (uint_of_closed 8) bytes then Some bytes else None;
  lower_hex := show_hex;
  uint_to_string := show_uint;
  int_to_string z := if z <? 0 then "-" +:+ show_uint (- z) else show_uint z;
  uint_try_into_u128 n := if uint_of_closed 128 n then Some n else None;
  int_try_into_i32 n := if (- 2 ^ 31 <=? n) && (n <? 2 ^ 31) then Some n else None;
  decode_v2_swap _ _ := None;
  decode_v2_sync topics data :=
    match topics, abi_words 2 data with
    | [_], Some [r0; r1] =>
        if uint_of_closed 112 r0 && uint_of_closed 112 r1
        then Some {| v2sy_reserve0 := r0; v2sy_reserve1 := r1 |} else None
    | _, _ => None
    end;
  decode_v2_mint _ _ := None;
  decode_v2_burn _ _ := None;
  decode_v3_swap topics data :=
    match topics, abi_words 5 data with
    | [_; sender; recipient], Some [a0; a1; price; liquidity; tick] =>
        if uint_of_closed 160 price && uint_of_closed 128 liquidity && int24_closed (int_word tick)
        then Some {| v3sw_sender := drop 12 sender; v3sw_recipient := drop 12 recipient;
                     v3sw_amount0 := int_word a0; v3sw_amount1 := int_word a1;
                     v3sw_sqrtPriceX96 := price; v3sw_liquidity := liquidity;
                     v3sw_tick := int_word tick |} else None
    | _, _ => None
    end;
  decode_v3_mint _ _ := None;
  decode_v3_burn _ _ := None;
  v3_mint_signature := "0x7a53080ba414158be7ec69b987b5fb7d07dee101fe85488f0853ae16239d0bde";
  v3_burn_signature := "0x0c396cd989a39f4459b5fa1aed6a9a8dcdbc45908acfd67e028cd568da98982c" |}.

#[export] Instance alloy_events_sample_laws : AlloyEventsLaws alloy_events_sample.
Proof.
  constructor; cbn; try done.
  - intros s bytes. destruct (hex_pairs _) as [l|]; cbn; [|done]. case_match eqn:H; [|done].
    intros [= <-]. apply Forall_forall. intros b Hb. apply uint_closed.
    rewrite forallb_forall in H. apply H. by apply list_elem_of_In.
  - intros n Hn. unfold uint_of_closed, uint in *. by replace (0 <=? n) with true by lia.
  - intros n m. case_match eqn:H; [|done]. intros [= <-]. by apply uint_closed.
  - intros n Hn. unfold int24 in Hn.
    by replace ((- 2 ^ 31 <=? n) && (n <? 2 ^ 31)) with true by lia.
  - intros t d e. destruct t as [|t0 [|]]; [done| |done].
    destruct (abi_words 2 d) as [[|r0 [|r1 [|]]]|]; try done.
    destruct (uint_of_closed 112 r0) eqn:H0, (uint_of_closed 112 r1) eqn:H1; cbn; try done.
    intros [= <-]. by split; apply uint_closed.
  - intros t d e. destruct t as [|t0 [|t1 [|t2 [|]]]]; try done.
    destruct (abi_words 5 d) as [[|a0 [|a1 [|price [|liq [|tick [|]]]]]]|]; try done.
    destruct (uint_of_closed 160 price) eqn:H0, (uint_of_closed 128 liq) eqn:H1; cbn; try done.
    destruct (int24_closed _) eqn:H2; [|done]. intros [= <-]. cbn.
    split_and!; [by apply uint_closed..|]. unfold int24_closed, int24 in *. lia.
Qed.

Definition word_address (n : Z) : list Z := reverse (to_le_bytes 20 n).

#[export] Instance alloy_calls_sample : AlloyCalls := {|
  sol_swapExactTokensForTokens := {| abi_decode _ := None |};
  sol_swapTokensForExactTokens := {| abi_decode _ := None |};
  sol_swapExactETHForTokens := {| abi_decode _ := None |};
  sol_swapETHForExactTokens := {| abi_decode _ := None |};
  sol_swapExactTokensForETH := {| abi_decode _ := None |};
  sol_swapTokensForExactETH := {| abi_decode _ := None |};
  sol_swapExactTokensForTokensSupportingFeeOnTransferTokens := {| abi_decode _ := None |};
  sol_swapExactETHForTokensSupportingFeeOnTransferTokens := {| abi_decode _ := None |};
  sol_swapExactTokensForETHSupportingFeeOnTransferTokens := {| abi_decode _ := None |};
  sol_exactInputSingle := {| abi_decode data :=
    match abi_words 8 (drop 4 data) with
    | Some [tin; tout; fee; recipient; deadline; amount_in; amount_out; limit] =>
        Some {| eis_params := {| eis_tokenIn := word_address tin; eis_tokenOut := word_address tout;
          eis_fee := fee; eis_recipient := word_address recipient; eis_deadline := deadline;
          eis_amountIn := amount_in; eis_amountOutMinimum := amount_out;
          eis_sqrtPriceLimitX96 := limit |} |}
    | _ => None
    end |};
  sol_exactInput := {| abi_decode _ := None |};
  sol_exactOutputSingle := {| abi_decode _ := None |};
  sol_exactOutput := {| abi_decode _ := None |};
  address_from_slice bytes := if bool_decide (length bytes = 20%nat) then Some bytes else None |}.

#[export] Instance alloy_calls_sample_laws : AlloyCallsLaws alloy_calls_sample.
Proof. constructor. intros bytes H. cbn. by rewrite bool_decide_true. Qed.

(** ** A scripted node *)

(** The items of a subscription and the frames of the websocket, in order; after
    them the node is silent. *)
Record World := { wd_items : list jval; wd_frames : list Message }.

#[export] Instance world_io : StreamIo World := {|
  io_clock w := (0, w);
  io_events_open w := (true, w);
  io_runtime_open w := (true, w);
  io_connect w _ := (Ok tt, w);
  io_subscribe w _ := (Ok "0x1"%string, w);
  io_next w _ := match wd_items w with
                 | [] => (None, w)
                 | v :: l => (Some (Some (Ok v)), {| wd_items := l; wd_frames := wd_frames w |})
                 end;
  io_request w _ _ _ := (Some (Ok jnull), w) |}.

(** A node that is always silent. *)
#[export] Instance silent_io : StreamIo unit := {|
  io_clock w := (0, w);
  io_events_open w := (true, w);
  io_runtime_open w := (true, w);
  io_connect w _ := (Ok tt, w);
  io_subscribe w _ := (Ok "0x1"%string, w);
  io_next w _ := (None, w);
  io_request w _ _ _ := (None, w) |}.

#[export] Instance world_io_laws : StreamIoLaws world_io.
Proof. constructor; intros w; intros; cbn; try done. by destruct (wd_items w). Qed.

#[export] Instance silent_io_laws : StreamIoLaws silent_io.
Proof. by constructor. Qed.

#[export] Instance world_ws : FlashIo World := {|
  ws_connect w _ := (Ok tt, w);
  ws_next w _ := match wd_frames w with
                 | [] => (None, w)
                 | f :: l => (Some (Some (Ok f)), {| wd_items := wd_items w; wd_frames := l |})
                 end;
  ws_send_pong w _ := (Ok tt, w) |}.

(** ** Samples *)

Definition sync_data : string := Eval vm_compute in
  show_hex (reverse (to_le_bytes 32 1000) ++ reverse (to_le_bytes 32 2000)).

(** A Sync log as a flashblock carries it: without an index. *)
Definition flash_log : jval :=
  jobj [("address", jstr "0xAA"); ("topics", jarr [jstr SYNC_SIGNATURE]); ("data", jstr sync_data)].

Definition node_log_value : jval :=
  jobj [("address", jstr "0xAA"); ("topics", jarr [jstr SYNC_SIGNATURE]); ("data", jstr sync_data);
        ("transactionHash", jstr "0x01"); ("blockNumber", jstr "0x7"); ("logIndex", jnum 3)].

Definition no_raw_log : RawLogMessage :=
  {| rl_address := None; rl_topics := []; rl_data := None; rl_tx_hash := None;
     rl_block_hash := None; rl_block_number := None; rl_event_signature := None;
     rl_protocol := None; rl_exchange := None; rl_log_index := None; rl_removed := None |}.

Definition raw_sync : RawLogMessage := default no_raw_log (log_from_value node_log_value).
Definition raw_flash : RawLogMessage := default no_raw_log (log_from_value flash_log).

Definition sync_sample : V2SyncEvent := {| v2sy_reserve0 := 1000; v2sy_reserve1 := 2000 |}.

(** The payload of a raw log as bytes. *)
Definition topics_of (raw : RawLogMessage) : list (list Z) :=
  default [] (decode_topics (rl_topics raw)).
Definition data_of (raw : RawLogMessage) : list Z :=
  default [] (decode_data (default "0x" (rl_data raw))%string).

Lemma raw_sync_decodes : decodes decode_v2_sync raw_sync sync_sample.
Proof. exists (topics_of raw_sync), (data_of raw_sync). split_and!; vm_compute; reflexivity. Qed.

Lemma raw_flash_decodes : decodes decode_v2_sync raw_flash sync_sample.
Proof. exists (topics_of raw_flash), (data_of raw_flash). split_and!; vm_compute; reflexivity. Qed.

Definition no_log : Log := sync_log "" 0 0 0 None.
Definition log_of_raw (raw : RawLogMessage) : Log :=
  match to_log raw sample_metadata with Ok log => log | _ => no_log end.

Definition swap_data : string := Eval vm_compute in
  show_hex (mjoin ((λ n, reverse (to_le_bytes 32 n)) <$> [5; 7; 2 ^ 96; 10 ^ 12; 2 ^ 256 - 1])).

Definition address_topic : string := Eval vm_compute in show_hex (reverse (to_le_bytes 32 1)).

Definition raw_swap : RawLogMessage :=
  {| rl_address := Some "0xCC"%string;
     rl_topics := [V3_SWAP_SIGNATURE; address_topic; address_topic]; rl_data := Some swap_data;
     rl_tx_hash := None; rl_block_hash := None; rl_block_number := None;
     rl_event_signature := None; rl_protocol := None; rl_exchange := None; rl_log_index := None;
     rl_removed := None |}.

Definition swap_sample : V3SwapEvent :=
  {| v3sw_sender := word_address 1; v3sw_recipient := word_address 1; v3sw_amount0 := 5;
     v3sw_amount1 := 7; v3sw_sqrtPriceX96 := 2 ^ 96; v3sw_liquidity := 10 ^ 12; v3sw_tick := -1 |}.

Lemma raw_swap_decodes : decodes decode_v3_swap raw_swap swap_sample.
Proof. exists (topics_of raw_swap), (data_of raw_swap). split_and!; vm_compute; reflexivity. Qed.

Definition context_sample : IngestStreamContext :=
  {| ctx_chain_id := 8453; ctx_endpoint := WsEndpoint "ws://node"; ctx_reconnect_initial_ms := 500;
     ctx_reconnect_max_ms := 3000; ctx_heartbeat_timeout_secs := 30 |}.

Definition block_value : jval := jobj [("number", jstr "0x7"); ("timestamp", jnum 1700000000)].

Definition items_sample : World := {| wd_items := [node_log_value; block_value]; wd_frames := [] |}.

Abbreviation log_run fuel := (stream_run (LogStream context_sample) context_sample fuel
  (idle_stream items_sample)).

(** The log and the block are both delivered as logs, then the node is silent: the
    session ends, and the stream reconnects after 500, 1000, 2000 and 3000 ms. *)
Example log_run_effects :
  length (sm_events (log_run 5).2) = 2%nat ∧
  sm_sleeps (log_run 5).2 = [500; 1000; 2000; 3000; 3000] ∧ (log_run 5).1 = Err Suspended.
Proof. vm_compute. split_and!; reflexivity. Qed.

Definition flash_payload : FlashblockPayload :=
  {| fbp_payload_id := Some "0x03"%string; fbp_index := 2; fbp_base := None; fbp_diff := None;
     fbp_metadata := Some {| fbm_block_number := Some 8;
       fbm_receipts := [("0x01", jobj [("Eip1559", jobj [("logs", jarr [flash_log; jnull])])])]%string |} |}.

#[export] Instance flash_codec_sample : FlashCodec := {|
  gz_read_to_end _ := Err "not a gzip stream"%string;
  json_from_slice _ := Ok jnull;
  payload_from_value _ := Ok flash_payload |}.

#[export] Instance flash_sample_laws : FlashLaws world_ws.
Proof. constructor; try done. intros w t. cbn. by destruct (wd_frames w). Qed.

Definition frames_sample : World :=
  {| wd_items := []; wd_frames := [MPing [1]; MText "{}"; MBinary [0x1f; 0x8b]] |}.

Abbreviation flash_run fuel :=
  (flashblocks_run (W:=World) context_sample "wss://flashblocks" fuel (idle_stream frames_sample)).

(** The text frame is fanned out, the binary one ends the session: it has the
    gzip header and nothing behind it. *)
Example flash_run_effects :
  length (sm_events (flash_run 4).2) = 2%nat ∧
  sm_sleeps (flash_run 4).2 = [500; 1000; 2000; 3000].
Proof. vm_compute. split_and!; reflexivity. Qed.

(** ** Raw messages *)

Lemma log_decode_complete_witness :
  ∃ log, to_log raw_sync sample_metadata = Ok log ∧ log_typed log.
Proof.
  destruct (log_decode_complete raw_sync sample_metadata) as (log & H & Ht & _).
  exists log. split; [exact H|exact Ht].
Defined.

Lemma ingested_log_errors_witness :
  ∃ b', book_apply_log book_sample (log_of_raw raw_flash) = (Err MissingLogIdentity, b').
Proof.
  assert ((book_apply_log book_sample (log_of_raw raw_flash)).1 = Err MissingLogIdentity) as Hr
    by (vm_compute; reflexivity).
  destruct (book_apply_log book_sample (log_of_raw raw_flash)) as [r b'] eqn:H.
  cbn [fst] in Hr. subst r. exists b'.
  destruct (ingested_log_errors raw_flash sample_metadata (log_of_raw raw_flash) book_sample
    MissingLogIdentity b') as [_|[(? & ? & He)|[? He]]].
  - vm_compute. reflexivity.
  - exact H.
  - reflexivity.
  - discriminate He.
  - discriminate He.
Defined.

Definition token (n : Z) : list Z := word_address n.
Definition path_sample : list Z :=
  encode_v3_path (token 1) [([0; 1; 244], token 2); ([0; 11; 184], token 3)].

Lemma decode_v3_path_exact_witness :
  decode_v3_path path_sample true = Ok (format_address (token 3), format_address (token 1)).
Proof.
  apply (decode_v3_path_exact path_sample true).
  exists (token 1), [([0; 1; 244], token 2)], [0; 11; 184], (token 3).
  split_and!; [reflexivity| |reflexivity|reflexivity].
  do 2 (constructor; [split; reflexivity|]). constructor.
Defined.

Definition raw_tx (input : string) : RawTransactionMessage :=
  {| rt_tx_hash := Some "0x01"%string; rt_from := None;
     rt_to := Some "0x2626664c2603336E57B271c5C0b26F421741e481"%string; rt_value := None;
     rt_input := Some input; rt_block_hash := None; rt_block_number := None |}.


(** ** Streams *)

Definition cut_items : World :=
  {| wd_items := [jobj [("input", jstr ("0x414bf38" +:+ "é"))]]; wd_frames := [] |}.
Abbreviation cut_run :=
  (stream_run (TransactionStream context_sample) context_sample 5 (idle_stream cut_items)).

(** The transaction stream ends in a panic on a transaction whose input is cut inside a
    character; the log stream goes on. *)
Lemma stream_status_diagram_witness :
  (cut_run.1 = Panic ∧ cut_transaction cut_run.2) ∧
  ∃ st, status_path StreamStatus.Idle (sm_runtime (log_run 5).2) st ∧ st ≠ StreamStatus.Stopped.
Proof.
  split.
  - pose proof (stream_status_diagram context_sample (TransactionStream context_sample) 5 cut_items
      (node_transaction context_sample)) as H.
    assert (cut_run.1 = Panic) as Hp by (vm_compute; reflexivity).
    destruct cut_run as [r s]. destruct H as (_ & _ & H & _).
    split; [exact Hp|]. destruct (H Hp) as [_ Hc]. exact Hc.
  - pose proof (stream_status_diagram context_sample (LogStream context_sample) 5 items_sample
      (node_log context_sample)) as H.
    destruct (log_run 5) as [r s]. destruct H as (_ & _ & _ & st & Hp & Hs & _).
    exists st. split; [exact Hp|exact Hs].
Defined.


Lemma stream_backoff_exact_witness : 2000 = Z.min (500 * 2 ^ Z.of_nat 2) 3000.
Proof.
  apply (stream_backoff_exact context_sample (LogStream context_sample) 5 items_sample 2 2000
    (node_log context_sample)).
  - cbn. lia.
  - reflexivity.
  - vm_compute. reflexivity.
Defined.

Lemma silent_node_reconnects_witness :
  sm_sleeps (stream_run (BlockStream context_sample) context_sample 4 (idle_stream tt)).2 =
    [500; 1000; 2000; 3000].
Proof.
  pose proof (silent_node_reconnects context_sample (BlockStream context_sample) 2 tt
    (node_block context_sample) (λ _, eq_refl) (λ _ _, eq_refl)) as H.
  destruct (stream_run _ _ _ _) as [r s]. destruct H as (_ & _ & Hs). exact Hs.
Defined.

(** ** Flashblocks *)

Lemma flashblocks_run_sound_witness :
  length (sm_events (flash_run 4).2) = 2%nat ∧ Forall (flash_event 8453) (sm_events (flash_run 4).2).
Proof.
  split; [vm_compute; reflexivity|].
  pose proof (flashblocks_run_sound (W:=World) context_sample "wss://flashblocks" 4 frames_sample) as H.
  destruct (flash_run 4) as [r s].
  destruct H as (_ & _ & _ & _ & He & _); [cbn; lia|reflexivity|exact He].
Defined.

Lemma dispatch_fans_out_witness :
  ∃ ls f, sm_events (dispatch (W:=World) context_sample flash_payload 10 (idle_stream frames_sample)).2 =
    (EvLog <$> ls) ++ [EvFlashblock f] ∧ fb_log_count f = Z.of_nat (length ls).
Proof.
  pose proof (dispatch_fans_out (W:=World) context_sample (λ _, eq_refl) flash_payload 10
    (idle_stream frames_sample) eq_refl) as H.
  destruct (dispatch _ _ _ _) as [r s].
  destruct H as (_ & _ & ls & f & _ & He & Hn & _). exists ls, f. split; [exact He|exact Hn].
Defined.

(** ** Startup *)

(** A channel takes a capacity between one and 2^61 - 1. *)
Definition mpsc_sample (capacity : Z) : outcome unit :=
  if (capacity =? 0) || (2 ^ 61 - 1 <? capacity) then Panic else Ok tt.

Lemma mpsc_sample_law capacity :
  mpsc_sample capacity = Panic ↔ capacity = 0 ∨ 2 ^ 61 - 1 < capacity.
Proof.
  unfold mpsc_sample. destruct (capacity =? 0) eqn:?, (2 ^ 61 - 1 <? capacity) eqn:?; cbn;
    split; try done; lia.
Qed.

Lemma pipeline_ready_witness :
  ∃ c p, app_from_env (λ s, Some s) env_sample = Ok c ∧
    pipeline_from_config (app_ingest c) = Ok p ∧ pl_streams p ≠ [].
Proof.
  destruct (app_from_env (λ s, Some s) env_sample) as [c|e|] eqn:H.
  - destruct (pipeline_ready (λ s, Some s) mpsc_sample (2 ^ 61 - 1) env_sample c mpsc_sample_law H)
      as (p & endpoint & Hp & _ & _ & _ & Hne & _).
    exists c, p. split; [reflexivity|]. split; [exact Hp|exact Hne].
  - vm_compute in H. discriminate H.
  - vm_compute in H. discriminate H.
Defined.

Definition env_http : Env := λ key,
  if bool_decide (key = "RPC_HTTP_URL")%string then Some "http://node"%string
  else if bool_decide (key = "SIGNER_PRIVATE_KEY")%string then Some (digest32 [])
  else env_sample key.

(** A node on the chain of Base whose pending count is 7; the signer is its chain. *)
Abbreviation build_sample := (build_execution_transport (λ url, Ok url) (λ url _, Ok url)
  (λ _, Ok 8453) (λ _ (_ : Z), Ok 7) (λ _, Ok 0) (λ _ _, Ok 0) (λ _ id, id)).

Lemma transport_ready_witness :
  ∃ c transport, app_from_env (λ s, Some s) env_http = Ok c ∧
    build_sample (topology_from_config (app_rpc c)) c = Ok transport ∧
    ∃ provider caps, transport =
      AlloySubmit provider 8453 {| ns_next := 7; ns_initialised := true |} caps.
Proof.
  destruct (app_from_env (λ s, Some s) env_http) as [c|e|] eqn:H;
    [|vm_compute in H; discriminate H..].
  destruct (build_sample (topology_from_config (app_rpc c)) c) as [transport|e|] eqn:Hb;
    [|vm_compute in H; injection H as <-; vm_compute in Hb; discriminate Hb..].
  exists c, transport. split; [reflexivity|]. split; [exact Hb|].
  destruct (transport_ready (λ url, Ok url) (λ url _, Ok url) (λ _ : string, Ok 8453)
    (λ _ (_ : Z), Ok 7) (λ _, Ok 0) (λ _ _, Ok 0) (λ _ id, id) c transport) as (_ & Hready & _).
  destruct Hready as (provider & signer & n & caps & -> & _ & Hid & (s & ->) & [= <-] & _).
  - vm_compute in H. injection H as <-. discriminate.
  - exact Hb.
  - exists provider, caps. injection Hid as <-. reflexivity.
Defined.

(** ** From the wire to the pool *)

Lemma sync_log_updates_pool_witness :
  ∃ log b', book_apply_log book_sample log = (Ok Applied, b') ∧
    book_pool b' "0xAA" = Some (V2 (v2_with_reserves pool_a 1000 2000 (Some 7))).
Proof.
  destruct (sync_log_updates_pool raw_sync sample_metadata sync_sample book_sample "0xAA" pool_a
    "0x01" 3) as (log & b' & _ & Hb & Hp & _).
  - reflexivity.
  - exact raw_sync_decodes.
  - reflexivity.
  - vm_compute. reflexivity.
  - vm_compute. discriminate.
  - reflexivity.
  - vm_compute. reflexivity.
  - vm_compute. reflexivity.
  - discriminate.
  - discriminate.
  - exists log, b'. split; [exact Hb|exact Hp].
Defined.

Lemma swap_log_updates_pool_witness :
  ∃ log b', book_apply_log book_sample log = (Ok Applied, b') ∧
    book_pool b' "0xCC" = Some (V3 (v3_with_price v3_pool_sample (2 ^ 96) (10 ^ 12) (-1) (Some 7))).
Proof.
  destruct (swap_log_updates_pool raw_swap sample_metadata swap_sample book_sample "0xCC"
    v3_pool_sample) as (log & b' & _ & Hb & Hp).
  - reflexivity.
  - exact raw_swap_decodes.
  - reflexivity.
  - vm_compute. reflexivity.
  - vm_compute. reflexivity.
  - vm_compute. split; discriminate.
  - exists log, b'. split; [exact Hb|exact Hp].
Defined.

(** ** From the wire to the engine *)

(** The events of the two runs above, each at a time. *)
Definition streamed_events : list (EventEnv * Event) :=
  (λ e, (live_env 100, e)) <$> (sm_events (log_run 5).2 ++ sm_events (flash_run 4).2).

Lemma streamed_events_delivered :
  Forall (λ e, env_wf e.1 ∧ delivered (W:=World) e.2) streamed_events.
Proof.
  unfold streamed_events. apply Forall_fmap, Forall_app. split; apply Forall_forall.
  - intros e He. split; [apply live_env_wf|].
    exists (BoxLog context_sample), 5%nat, items_sample. exact He.
  - intros e He. split; [apply live_env_wf|].
    exists (BoxFlashblocks context_sample "wss://flashblocks"), 4%nat, frames_sample. exact He.
Qed.

Definition flash_engine : Engine (Logged unit) :=
  {| en_book := book_sample; en_risk := RiskState_default; en_storage := no_storage;
     en_transport := {| lg_state := tt; lg_calls := [] |} |}.

(** The pool is in the book, the flashblock reports its reserves, the engine ends. *)
Lemma unidentified_sync_ends_engine_witness :
  (engine_run digest32 daily_policy (exec_sample Live) (Some live_scan)
     [(live_env 100, EvLog (log_of_raw raw_flash)); (live_env 200, EvLog (live_log 1))]
     flash_engine).1 =
  Err ["failed to handle ingest event";
       "log is missing tx hash or log index required for deterministic state application"]%string.
Proof.
  pose proof (unidentified_sync_ends_engine digest32 daily_policy (exec_sample Live)
    (Some live_scan) (live_env 100) [(live_env 200, EvLog (live_log 1))] raw_flash sample_metadata
    sync_sample (log_of_raw raw_flash) "0xAA" pool_a flash_engine) as H.
  destruct (engine_run _ _ _ _ _ _) as [r s].
  apply H.
  - reflexivity.
  - exact raw_flash_decodes.
  - reflexivity.
  - reflexivity.
  - vm_compute. reflexivity.
  - vm_compute. reflexivity.
  - reflexivity.
Defined.
