(* ===== verification/DiscoveryWitnesses.v ===== *)
(** Concrete runs of discovery and of the engine from its configuration: an instance
    of the ABI codec and of a node with two pairs, and the inputs on which the
    hypotheses of the theorems hold. *)

From S2P Require Import Prelude RustStr Types Registry MarketsV2 U256 MarketsV3 PoolBook Config.
From S2P Require Import Risk Decision Execution Submit Storage App RawLog RawTx Stream Flashblocks.
From S2P Require Import Startup Discovery IngestApp Witnesses AppWitnesses IngestWitnesses.
#[local] Open Scope Z_scope.

(** ** A codec and a node *)

(** The input of a multicall is one code per call, and the node echoes it; every pair
    answers the same reserves. *)
Definition call_code (c : Call3) : Z := default 0 (head (c3_callData c)).
Definition answer_code (code : Z) : MulticallResult :=
  {| mr_success := code =? 1; mr_returnData := [1000; 2000] |}.
Definition answer_sample (c : Call3) : MulticallResult := answer_code (call_code c).

#[export] Instance abi_sample : DiscoveryAbi := {|
  RpcLog := PairCreated;
  pair_created_hash := [1];
  pool_created_hash := [2];
  decode_pair_created e := Some e;
  decode_pool_created _ := None;
  encode_getReserves := [1];
  encode_slot0 := [2];
  encode_liquidity := [3];
  encode_aggregate3 calls := call_code <$> calls;
  decode_getReserves data :=
    match data with
    | [r0; r1] => if uint_of_closed 112 r0 && uint_of_closed 112 r1
                  then Some {| gr_reserve0 := r0; gr_reserve1 := r1; gr_blockTimestampLast := 0 |}
                  else None
    | _ => None
    end;
  decode_slot0 _ := None;
  decode_liquidity _ := None;
  decode_aggregate3 raw := Ok (answer_code <$> raw) |}.

#[export] Instance abi_sample_laws : DiscoveryAbiLaws abi_sample.
Proof.
  constructor; cbn; try done. intros [|r0 [|r1 [|]]] r; try done.
  destruct (uint_of_closed 112 r0) eqn:H0, (uint_of_closed 112 r1) eqn:H1; cbn; try done.
  intros [= <-]. by split; apply uint_closed.
Qed.

Definition pair (n : Z) : PairCreated :=
  {| pc_token0 := word_address 1; pc_token1 := word_address 2; pc_pair := word_address n;
     pc_allPairsLength := n |}.

Definition chain_sample (block : Z) : list PairCreated :=
  if block =? 101 then [pair 10] else if block =? 115 then [pair 11] else [].

#[export] Instance node_sample_discovery : DiscoveryNode unit := {|
  get_block_number n := (Ok 120, n);
  get_logs n f := (Ok (blocks (ft_from_block f) (ft_to_block f) ≫= chain_sample), n);
  eth_call n _ data := (Ok data, n) |}.

(** ** A pass over a factory *)

(** Three chunks of seven blocks. *)
Definition factory_sample : FactoryConfig :=
  {| fc_address := "0x8909Dc15e40173Ff4699343b6eB8132c65e18eC6";
     fc_kind := FactoryKind.UniswapV2; fc_protocol := Protocol.UniswapV2; fc_exchange := None;
     fc_deployment_block := 100; fc_default_v2_fee_bps := Some 30;
     fc_log_chunk_size := Some 7 |}.

Lemma factory_sample_typed : factory_typed factory_sample.
Proof. split_and!; [done|intros ? [= <-]|intros ? [= <-]]; by apply uint_closed. Qed.

Definition factory_address_sample : list Z :=
  match factory_address (fc_address factory_sample) with Ok a => a | _ => [] end.

Definition service_sample : DiscoveryService :=
  {| svc_multicall3 := word_address 5; svc_pinned_head := None |}.

Definition empty_pass : Discovery unit := {| dc_reader := tt; dc_book := book_new |}.

Lemma calls_sample (n : unit) calls : ∃ raw,
  (eth_call n (word_address 5) (encode_aggregate3 calls)).1 = Ok raw ∧
  decode_aggregate3 raw = Ok (answer_sample <$> calls).
Proof. eexists. split; [reflexivity|]. cbn. by rewrite <- list_fmap_compose. Qed.

Lemma discovery_exact_witness :
  ∃ report, (run_factory service_sample factory_sample empty_pass).1 = Ok report ∧
    dr_pools_inserted report = 2 ∧
    is_Some (book_v2_pool (dc_book (run_factory service_sample factory_sample empty_pass).2)
               "0x000000000000000000000000000000000000000b").
Proof.
  pose proof (discovery_exact factory_sample factory_address_sample chain_sample answer_sample
    service_sample eq_refl (λ _ _ _, eq_refl) calls_sample 120 empty_pass eq_refl eq_refl) as H.
  destruct (run_factory service_sample factory_sample empty_pass) as [r s].
  destruct H as [Hr Hb]; [cbn; lia|reflexivity|].
  eexists. split; [exact Hr|]. split; [vm_compute; reflexivity|].
  cbn [snd]. rewrite Hb. vm_compute. eexists. reflexivity.
Defined.

(** ** From the configuration *)

Definition env_boot : Env := λ key,
  find_map (λ kv, if bool_decide (kv.1 = key) then Some kv.2 else None)
    [("DISCOVERY_ENABLED", "true"); ("DISCOVERY_FACTORIES_PATH", "factories.json");
     ("DISCOVERY_MULTICALL3_ADDRESS", "0xcA11bde05977b3631167028862bE2a173976CA11");
     ("RPC_HTTP_URL", "http://node"); ("INGEST_CHANNEL", "ipc");
     ("BASE_IPC_PATH", "/tmp/reth.ipc"); ("DECISION_SETTLEMENT_TOKEN", weth);
     ("DECISION_SCAN_TRADE_AMOUNT_WEI", "1000")]%string.

Abbreviation pass_sample := (run_pool_discovery (R:=unit) (λ url, Ok url) (λ url _, Ok url)
  (λ _ : string, Ok 8453) (λ _, Ok ""%string) (λ _, Ok [factory_sample])).
Abbreviation boot_sample := (boot_book (R:=unit) (λ url, Ok url) (λ url _, Ok url)
  (λ _ : string, Ok 8453) (λ _, Ok ""%string) (λ _, Ok [factory_sample]) (λ _, Ok [])).

Lemma factories_typed (text : string) (factories : list FactoryConfig) :
  Ok (E:=error) [factory_sample] = Ok factories → Forall factory_typed factories.
Proof. intros [= <-]. constructor; [apply factory_sample_typed|constructor]. Qed.

Lemma pools_typed (text : string) (entries : list BootstrapV2Pool) :
  Ok (E:=error) [] = Ok entries → Forall entry_typed entries.
Proof. intros [= <-]. constructor. Qed.

Definition topology_sample : RpcTopology :=
  {| rt_chain_id := 8453; rt_primary := Some (RpcEndpoint.Http "http://node"); rt_fallbacks := [];
     rt_multicall3_address := None; rt_retry_initial_ms := 1; rt_retry_max_ms := 1;
     rt_request_timeout_ms := 1000 |}.

Definition discovery_sample : DiscoveryConfig :=
  {| dis_enabled := true; dis_factories_path := Some "factories.json"%string;
     dis_multicall3_address := Some "0xcA11bde05977b3631167028862bE2a173976CA11"%string;
     dis_pinned_head_block := None |}.

Lemma discovery_keeps_book_witness :
  (pass_sample discovery_sample topology_sample {| dc_reader := tt; dc_book := book_sample |}).1 = Ok tt ∧
  book_wf (dc_book (pass_sample discovery_sample topology_sample
    {| dc_reader := tt; dc_book := book_sample |}).2).
Proof.
  split; [vm_compute; reflexivity|].
  pose proof (discovery_keeps_book (λ url, Ok url) (λ url _, Ok url) (λ _ : string, Ok 8453)
    (λ _, Ok ""%string) (λ _, Ok [factory_sample]) discovery_sample topology_sample
    {| dc_reader := tt; dc_book := book_sample |} factories_typed book_sample_wf) as H.
  destruct (pass_sample _ _ _) as [r s]. exact (proj1 H).
Defined.

(** The engine of that configuration, on the events of a node and of flashblocks. *)
Definition boot_engine (book : PoolBook) : Engine (Logged unit) :=
  {| en_book := book; en_risk := RiskState_default; en_storage := no_storage;
     en_transport := {| lg_state := tt; lg_calls := [] |} |}.

Lemma boot_engine_safe_witness :
  ∃ c book policy scan, app_from_env (λ s, Some s) env_boot = Ok c ∧
    is_Some (book_v2_pool book "0x000000000000000000000000000000000000000a") ∧
    wp (engine_run digest32 policy (app_execution c) scan streamed_events)
       (λ r s', r ≠ Panic ∧ book_wf (en_book s')) (boot_engine book).
Proof.
  destruct (app_from_env (λ s, Some s) env_boot) as [c|e|] eqn:Hc;
    [|vm_compute in Hc; discriminate Hc..].
  destruct (boot_sample (app_decision c) (app_discovery c) (topology_from_config (app_rpc c)) tt)
    as [book|e|] eqn:Hb;
    [|vm_compute in Hc; injection Hc as <-; vm_compute in Hb; discriminate Hb..].
  destruct (boot_engine_safe (W:=World) (λ s, Some s) (λ url, Ok url) (λ url _, Ok url)
    (λ _ : string, Ok 8453) (λ _, Ok ""%string) (λ _, Ok [factory_sample]) (λ _, Ok []) digest32
    env_boot c tt book factories_typed pools_typed Hc Hb) as (policy & scan & _ & _ & H).
  exists c, book, policy, scan. split; [reflexivity|]. split.
  - vm_compute in Hc. injection Hc as <-. vm_compute in Hb. injection Hb as <-.
    vm_compute. eexists. reflexivity.
  - apply H; [exact streamed_events_delivered|reflexivity].
Defined.
