(* ===== verification/RouterWitnesses.v ===== *)
(** Concrete runs of the on-chain executor: a ledger of balances with two venues that
    pay a set output, as the mocks of the contract's own tests do, a vault that lends
    without a fee, and the inputs on which the hypotheses of the theorems hold. *)

From stdpp Require Import gmap countable.
From S2P Require Import Prelude RustStr Types Config Decision Execution Router.
From S2P Require Import Witnesses.
#[local] Open Scope Z_scope.

Definition account (n : Z) : SolAddress := replicate 19 0 ++ [n].
Definition THIS : SolAddress := account 1.
Definition VAULT : SolAddress := account 2.
Definition EXECUTOR : SolAddress := account 3.
Definition OWNER : SolAddress := account 4.
Definition FIRST_VENUE : SolAddress := account 10.
Definition SECOND_VENUE : SolAddress := account 11.
Definition WETH : SolAddress := account 20.
Definition USDC : SolAddress := account 21.

Definition venue (h : SolAddress) : Prop := h = FIRST_VENUE ∨ h = SECOND_VENUE.

(** ** The ledger *)

Record Ledger := { ld_now : Z; ld_balances : gmap (SolAddress * SolAddress) Z }.

Definition ld_balance (c : Ledger) (token holder : SolAddress) : Z :=
  default 0 (ld_balances c !! (token, holder)).

Definition ld_add (c : Ledger) (token holder : SolAddress) (n : Z) : Ledger :=
  {| ld_now := ld_now c;
     ld_balances := <[(token, holder) := ld_balance c token holder + n]> (ld_balances c) |}.

Definition ld_transfer (token from to : SolAddress) (n : Z) (c : Ledger) : option Ledger :=
  if n <=? ld_balance c token from then Some (ld_add (ld_add c token from (- n)) token to n) else None.

(** The output a venue pays. *)
Definition ld_output (target : SolAddress) : option Z :=
  if decide (target = FIRST_VENUE) then Some 2000000
  else if decide (target = SECOND_VENUE) then Some 1050 else None.

Definition ld_swap (target sender tokenIn tokenOut : SolAddress) (amountIn minimum : Z)
    (c : Ledger) : option (Z * Ledger) :=
  out ← ld_output target;
  if out <? minimum then None else
  c1 ← ld_transfer tokenIn sender target amountIn c;
  c2 ← ld_transfer tokenOut target sender out c1;
  Some (out, c2).

Definition plan_fields (p : RouterExecutionPlan) :=
  (rp_settlementToken p, rp_fundingAmount p, rp_minRepayAmount p, rp_minSurplus p, rp_deadline p,
   (λ s, (rr_venueKind s, rr_target s, rr_tokenIn s, rr_tokenOut s, rr_fee s, rr_minAmountOut s,
          rr_extraData s)) <$> rp_steps p, rp_riskHash p).
Definition step_of_fields (f : Z * list Z * list Z * list Z * Z * Z * list Z) : RouterRouteStep :=
  let '(k, t, i, o, fee, m, x) := f in
  {| rr_venueKind := k; rr_target := t; rr_tokenIn := i; rr_tokenOut := o; rr_fee := fee;
     rr_minAmountOut := m; rr_extraData := x |}.
Definition plan_of_fields
    (f : list Z * Z * Z * Z * Z * list (Z * list Z * list Z * list Z * Z * Z * list Z) * list Z) :
    RouterExecutionPlan :=
  let '(s, n, r, m, d, steps, h) := f in
  {| rp_settlementToken := s; rp_fundingAmount := n; rp_minRepayAmount := r; rp_minSurplus := m;
     rp_deadline := d; rp_steps := step_of_fields <$> steps; rp_riskHash := h |}.

Lemma plan_fields_inverse p : plan_of_fields (plan_fields p) = p.
Proof.
  destruct p as [s n r m d steps h]. cbn. f_equal. rewrite <- list_fmap_compose.
  rewrite <- (list_fmap_id steps) at 2. apply list_fmap_ext. by intros i [].
Qed.

#[export] Instance ledger_chain : Chain Ledger := {|
  block_timestamp := ld_now;
  balance_of := ld_balance;
  erc20_transfer := ld_transfer;
  erc20_transfer_from token _ from to n := ld_transfer token from to n;
  erc20_force_approve _ _ _ _ c := Some c;
  exactInputSingle target sender p c :=
    if decide (sender = THIS) then
      ld_swap target sender (ei_tokenIn p) (ei_tokenOut p) (ei_amountIn p) (ei_amountOutMinimum p) c
    else None;
  v2_swapExactTokensForTokens target sender amountIn minimum path _ _ c :=
    match path with
    | [tokenIn; tokenOut] =>
        '(out, c) ← ld_swap target sender tokenIn tokenOut amountIn minimum c;
        Some ([amountIn; out], c)
    | _ => None
    end;
  aerodrome_swapExactTokensForTokens target sender amountIn minimum routes _ _ c :=
    match routes with
    | [route] =>
        '(out, c) ← ld_swap target sender (ae_from route) (ae_to route) amountIn minimum c;
        Some ([amountIn; out], c)
    | _ => None
    end;
  keccak256 data := replicate 31 7 ++ [Z.of_nat (length data)];
  abi_encode_loan caller plan := [Zpos (encode (caller, plan_fields plan))];
  abi_decode_loan data :=
    match data with
    | [Zpos p] => '(caller, fields) ← decode p; Some (caller, plan_of_fields fields)
    | _ => None
    end |}.

Lemma ld_add_balance c token holder n t h :
  ld_balance (ld_add c token holder n) t h =
    ld_balance c t h + flag (bool_decide (t = token ∧ h = holder)) n.
Proof.
  unfold ld_balance, ld_add, flag. cbn. destruct (decide (t = token ∧ h = holder)) as [[-> ->]|Hne].
  - rewrite lookup_insert_eq, bool_decide_true by done. done.
  - rewrite lookup_insert_ne, bool_decide_false by naive_solver. lia.
Qed.

Lemma ld_transfer_moved token from to n c c' :
  ld_transfer token from to n c = Some c' → moved token from to n c c'.
Proof.
  unfold ld_transfer. destruct (n <=? ld_balance c token from) eqn:Hn; [|done]. intros [= <-].
  split; [cbn; lia|]. intros t h. cbn. rewrite !ld_add_balance. unfold flag.
  repeat case_bool_decide; lia.
Qed.

Lemma ld_swap_swapped target tokenIn tokenOut amountIn minimum c out c' :
  ld_swap target THIS tokenIn tokenOut amountIn minimum c = Some (out, c') →
  swapped venue THIS tokenIn tokenOut amountIn out c c'.
Proof.
  unfold ld_swap. intros H. destruct (ld_output target) as [o|] eqn:Ho; [|done]. cbn in H.
  assert (venue target) as Hv by (unfold ld_output in Ho; repeat case_decide; unfold venue; naive_solver).
  assert (target ≠ THIS) as Ht by (destruct Hv as [-> | ->]; discriminate).
  destruct (o <? minimum); [done|].
  destruct (ld_transfer tokenIn _ _ _ c) as [c1|] eqn:H1; [|done]. cbn in H.
  destruct (ld_transfer tokenOut _ _ _ c1) as [c2|] eqn:H2; [|done]. injection H as <- <-.
  apply ld_transfer_moved in H1 as [_ M1], H2 as [_ M2]. split.
  - intros t. rewrite M2, M1. unfold flag. repeat case_bool_decide; naive_solver lia.
  - intros t h Hh Hn. rewrite M2, M1. unfold flag. repeat case_bool_decide; naive_solver lia.
Qed.

#[export] Instance ledger_laws : ChainLaws Ledger THIS venue.
Proof.
  constructor.
  - apply ld_transfer_moved.
  - intros token spender. apply ld_transfer_moved.
  - by intros token owner spender n c c' [= <-].
  - intros target p c out c' _ H. cbn in H. rewrite decide_True in H by done.
    by apply ld_swap_swapped in H.
  - intros target amountIn m tokenIn tokenOut deadline c amounts c' H. cbn in H.
    destruct (ld_swap _ _ _ _ _ _ c) as [[out c1]|] eqn:Hs; [|done]. injection H as <- <-.
    exists out. split; [done|]. by apply ld_swap_swapped in Hs.
  - intros target amountIn m route deadline c amounts c' H. cbn in H.
    destruct (ld_swap _ _ _ _ _ _ c) as [[out c1]|] eqn:Hs; [|done]. injection H as <- <-.
    exists out. split; [done|]. by apply ld_swap_swapped in Hs.
  - intros caller plan. cbn [abi_decode_loan abi_encode_loan ledger_chain]. rewrite decode_encode.
    cbn [mbind option_bind]. by rewrite plan_fields_inverse.
Qed.

Definition vault_loan (tokens : list SolAddress) (amounts data : list Z) : call Ledger unit :=
  match tokens, amounts with
  | [token], [amount] =>
      λ w, match erc20_transfer token VAULT THIS amount (wd_chain w) with
           | Some c1 =>
               receiveFlashLoan THIS VAULT VAULT [token] [amount] [0] data
                 {| wd_router := wd_router w; wd_chain := c1; wd_events := wd_events w;
                    wd_seen := wd_seen w |}
           | None => Err ExternalRevert
           end
  | _, _ => revert ExternalRevert
  end.

Lemma vault_loan_lends : lends THIS VAULT vault_loan.
Proof.
  intros token amount data w w' H. unfold vault_loan in H.
  destruct (erc20_transfer token VAULT THIS amount (wd_chain w)) as [c1|] eqn:Ht; [|done].
  by exists 0, c1.
Qed.

(** ** Witnesses *)

(** A loan of 1000 in two steps, back with 1050. *)
Definition router_plan : RouterExecutionPlan :=
  {| rp_settlementToken := WETH; rp_fundingAmount := 1000; rp_minRepayAmount := 1000;
     rp_minSurplus := 10; rp_deadline := 100;
     rp_steps := [
       {| rr_venueKind := 1; rr_target := FIRST_VENUE; rr_tokenIn := WETH; rr_tokenOut := USDC;
          rr_fee := 0; rr_minAmountOut := 1900000; rr_extraData := [] |};
       {| rr_venueKind := 2; rr_target := SECOND_VENUE; rr_tokenIn := USDC; rr_tokenOut := WETH;
          rr_fee := 500; rr_minAmountOut := 1020; rr_extraData := [] |}];
     rp_riskHash := replicate 32 9 |}.

Definition ledger_sample : Ledger :=
  {| ld_now := 50; ld_balances := list_to_map [
       ((WETH, VAULT), 5000); ((USDC, FIRST_VENUE), 9000000); ((WETH, SECOND_VENUE), 5000);
       ((WETH, EXECUTOR), 2000); ((WETH, THIS), 7)] |}.

Definition world_sample : RouterWorld Ledger :=
  {| wd_router := {| ro_owner := OWNER; ro_executors := {[EXECUTOR := true]}; ro_paused := false;
                     ro_entered := false; ro_activeLoanFingerprint := bytes32_zero |};
     wd_chain := ledger_sample; wd_events := []; wd_seen := [] |}.

Lemma executor_outsider : outsider THIS VAULT venue EXECUTOR.
Proof. split_and!; [discriminate|discriminate|]. by intros [H|H]. Qed.
Lemma vault_no_venue : ¬ venue VAULT.
Proof. by intros [H|H]. Qed.

Abbreviation loan_run := (executePlanWithFlashLoan vault_loan EXECUTOR router_plan world_sample).

Lemma flash_loan_settles_witness :
  ∃ w', loan_run = Ok (tt, w') ∧ ld_balance (wd_chain w') WETH EXECUTOR = 2050 ∧
    ld_balance (wd_chain w') WETH VAULT = 5000 ∧ 7 ≤ ld_balance (wd_chain w') WETH THIS.
Proof.
  destruct loan_run as [[[] w']|e|] eqn:H; [|vm_compute in H; discriminate H..].
  destruct (flash_loan_settles THIS VAULT venue vault_no_venue ltac:(discriminate) vault_loan EXECUTOR
    router_plan world_sample w' vault_loan_lends executor_outsider ltac:(cbn; lia) ltac:(cbn; lia) H)
    as (_ & _ & out & step & _ & _ & _ & _ & _ & Ht & Hv & _).
  exists w'. split; [reflexivity|]. split.
  - assert (match loan_run with Ok (_, w) => ld_balance (wd_chain w) WETH EXECUTOR | _ => 0 end = 2050)
      as Hb by (vm_compute; reflexivity).
    rewrite H in Hb. exact Hb.
  - split; [exact (Hv WETH)|exact (Ht WETH)].
Defined.

Lemma self_funded_settles_witness :
  ∃ n w', executePlan THIS EXECUTOR router_plan world_sample = Ok (n, w') ∧ n = 1050 ∧
    ld_balance (wd_chain w') WETH EXECUTOR = 2050.
Proof.
  destruct (executePlan THIS EXECUTOR router_plan world_sample) as [[n w']|e|] eqn:H;
    [|vm_compute in H; discriminate H..].
  destruct (self_funded_settles THIS VAULT venue EXECUTOR router_plan world_sample n w'
    executor_outsider ltac:(cbn; lia) H) as (_ & _ & _ & _ & Hs).
  assert (n = 1050) as ->.
  { assert (match executePlan THIS EXECUTOR router_plan world_sample with Ok (n, _) => n | _ => 0 end = 1050)
      as Hn by (vm_compute; reflexivity). rewrite H in Hn. exact Hn. }
  exists 1050, w'. split; [reflexivity|]. split; [reflexivity|exact (Hs WETH)].
Defined.

(** What a contract called during the loan meets when it calls back, as the vault. *)
Lemma no_reentry_witness :
  ∃ w', loan_run = Ok (tt, w') ∧ ∃ lending r seen, wd_seen w' = lending :: r :: seen ∧
    (∀ plan, ∃ e, executePlan THIS EXECUTOR plan
       {| wd_router := lending; wd_chain := ledger_sample; wd_events := []; wd_seen := [] |} = Err e) ∧
    ∀ tokens amounts fees data, ∃ e, receiveFlashLoan THIS VAULT VAULT tokens amounts fees data
       {| wd_router := r; wd_chain := ledger_sample; wd_events := []; wd_seen := [] |} = Err e.
Proof.
  destruct loan_run as [[[] w']|e|] eqn:H; [|vm_compute in H; discriminate H..].
  destruct (no_reentry THIS VAULT vault_loan EXECUTOR router_plan world_sample vault_loan_lends) as [_ Hl].
  destruct (Hl w' H) as (lending & [|r seen] & Hw & Hne & Hc & Hs); [by destruct Hne|].
  exists w'. split; [reflexivity|]. exists lending, r, seen. split; [exact Hw|]. split.
  - by apply Hc.
  - apply (sl_callback _ _ vault_loan). apply (Hs r); [apply list_elem_of_here|reflexivity].
Defined.

(** A request of the engine over the same two venues, and the plan it becomes. *)
Definition hex_account (last : string) : string :=
  "0x00000000000000000000000000000000000000" +:+ last.

Definition router_step (target token_in token_out : string) (amount_in min_out : Z) : ExecutionStep :=
  {| st_venue := None; st_protocol := None; st_target := target; st_token_in := token_in;
     st_token_out := token_out; st_pool_fee := None; st_amount_in := Some amount_in;
     st_min_amount_out := min_out; st_calldata_hint := Some "v2_exact_input"%string;
     st_aux_address := None |}.

Definition first_step := router_step (hex_account "0a") (hex_account "14") (hex_account "15") 1000 1900000.
Definition second_step := router_step (hex_account "0b") (hex_account "15") (hex_account "14") 1900000 1040.

Definition router_request : ExecutionRequest :=
  {| rq_opportunity_id := "loop"; rq_steps := [first_step; second_step]; rq_min_repay := 1000;
     rq_min_surplus := 10; rq_flashloan_asset := Some (hex_account "14");
     rq_flashloan_amount := Some 1000;
     rq_risk_hash := "00112233445566778899aabbccddeeff00112233445566778899aabbccddeeff" |}.

Definition router_costs : SimulationConfig :=
  {| sc_gas_estimate := 200000; sc_gas_cost_wei := 20; sc_l1_data_fee_wei := 5 |}.

Lemma request_sample_covers :
  request_covers (hex_account "14") 1000 router_costs router_request first_step second_step.
Proof. constructor; reflexivity || (cbn; lia). Qed.

Lemma engine_plan_earns_witness :
  ∃ address plan w', build_plan (exec_sample Live) router_request 40 = Ok (address, plan) ∧
    executePlanWithFlashLoan vault_loan EXECUTOR plan world_sample = Ok (tt, w') ∧
    2035 ≤ ld_balance (wd_chain w') WETH EXECUTOR.
Proof.
  destruct (build_plan (exec_sample Live) router_request 40) as [[address plan]|e|] eqn:Hp;
    [|vm_compute in Hp; discriminate Hp..].
  assert (rp_settlementToken plan = WETH) as Hs.
  { vm_compute in Hp. injection Hp as <- <-. reflexivity. }
  destruct (executePlanWithFlashLoan vault_loan EXECUTOR plan world_sample) as [[[] w']|e|] eqn:Hx;
    [|vm_compute in Hp; injection Hp as <- <-; vm_compute in Hx; discriminate Hx..].
  destruct (engine_plan_earns THIS VAULT venue vault_no_venue ltac:(discriminate) vault_loan
    vault_loan_lends (exec_sample Live) (hex_account "14") 1000 router_costs router_request first_step
    second_step 40 address plan EXECUTOR world_sample request_sample_covers Hp executor_outsider
    ltac:(lia) ltac:(cbn; lia)) as [_ He].
  destruct (He w' Hx) as (Hg & _). rewrite Hs in Hg.
  exists address, plan, w'. split; [reflexivity|]. split; [exact Hx|exact Hg].
Defined.
