(* ===== verification/MainWitnesses.v ===== *)
(** Concrete runs of the whole program, of the connection to the database and of the
    metrics: the inputs on which the hypotheses of the theorems hold. *)

From S2P Require Import Prelude RustStr Types Registry MarketsV2 U256 MarketsV3 PoolBook Config.
From S2P Require Import Risk Decision Execution Submit Storage Schema App Observability.
From S2P Require Import RawLog RawTx Stream Flashblocks Startup Transports Discovery IngestApp Main.
From S2P Require Import Router Witnesses AppWitnesses IngestWitnesses DiscoveryWitnesses RouterWitnesses.
#[local] Open Scope Z_scope.

(** ** The database *)

Definition connect_sample (_ _ : Z) (url : string) : anyhow Db :=
  if bool_decide (url = "postgres://db"%string) then Ok empty_db else bail "no such host".

Definition storage_config_sample : StorageConfig :=
  {| sto_database_url := Some "postgres://db"%string; sto_max_connections := 10;
     sto_connect_timeout_secs := 5; sto_auto_migrate := true |}.

(** A database migrated up to its first table, with a table of its own. *)
Definition catalog_sample : Catalog :=
  <["notes" := Table [column "body" "TEXT" []]]>
    (declared (take 1 init_schema)).

Lemma catalog_sample_conforming : conforming catalog_sample init_schema.
Proof. apply (bool_decide_unpack _). vm_compute. exact I. Qed.

Lemma connect_migrates_witness :
  ∃ c, storage_connect connect_sample Done storage_config_sample catalog_sample =
         (Ok {| storage_pool := Some empty_db |}, c) ∧
    storage_connect connect_sample Done storage_config_sample c =
      (Ok {| storage_pool := Some empty_db |}, c) ∧
    catalog_sample ⊆ c ∧ supports c query_persist_observed_log = true.
Proof.
  destruct (connect_migrates connect_sample storage_config_sample catalog_sample
    catalog_sample_conforming) as (c & Hs & _ & _ & Hq & _ & Hc).
  specialize (Hc _ eq_refl). destruct Hc as (H1 & H2 & _). exists c. split_and!; [exact H1|exact H2|exact Hs|].
  apply Forall_inv in Hq. exact Hq.
Defined.

(** ** The program *)

(** What is behind a client: a node that answers every request. *)
Definition chain_sample (_ : string) : SampleNode :=
  node_sample (Answer tt) (Answer "0xabc"%string).

Definition process_sample : Process :=
  {| pr_observed := {| ob_tracing_init := false; ob_recorder := false; ob_emissions := [] |};
     pr_catalog := empty_catalog |}.

Abbreviation start_sample := (main_start (R:=unit) (T:=Logged (Boxed SampleNode string)) (Filter:=unit)
  (λ s, Some s) (Ok tt) (λ _, Ok tt) (λ _ _, Ok tt) (λ url, Ok url) (λ url _, Ok url)
  (λ _ : string, Ok 8453) (λ _ _, Ok 7) (λ _, Ok "signer"%string) (λ _ _, Ok "signer"%string)
  (λ s _, s) connect_sample Done (λ _, Ok ""%string) (λ _, Ok [factory_sample]) (λ _, Ok [])
  (λ _, Ok tt) (log_box chain_sample) tt).

Definition connected_event : RuntimeEvent := ReStreamStatus
  {| ss_block_context := Pending; ss_channel := Ws; ss_observed_at_ms := 1; ss_chain_id := 8453;
     ss_previous := None; ss_current := StreamStatus.Connecting; ss_reason := None |}.

Definition inputs_sample : list MainInput :=
  GotRuntimeEvent connected_event :: ((λ e, GotEvent e.1 e.2) <$> streamed_events).

Lemma inputs_sample_streams : Forall (from_streams (W:=World)) inputs_sample.
Proof.
  constructor; [exact I|]. apply Forall_fmap. eapply Forall_impl; [exact streamed_events_delivered|].
  intros [env event] H. exact H.
Qed.

Abbreviation run_sample := (main_run (T:=Logged (Boxed SampleNode string)) digest32 true true (λ _, Ok "{}"%string)
  (λ _, Ok "{}"%string) (λ _ : string, Ok tt) [HzAccepted 1]).

Definition booted_mode (r : anyhow (Booted string (Logged (Boxed SampleNode string)))) : option ExecutionMode :=
  match r with Ok b => Some (exec_mode (app_execution (bt_config b))) | _ => None end.
Definition booted_run (r : anyhow (Booted string (Logged (Boxed SampleNode string)))) : option (anyhow unit) :=
  match r with
  | Ok b => Some (engine_run digest32 (bt_policy b) (app_execution (bt_config b)) (bt_scan b)
                    (taken inputs_sample) (bt_engine b)).1
  | _ => None
  end.

Lemma main_sound_witness :
  ∃ b, (start_sample env_boot process_sample).1 = Ok b ∧
    book_wf (en_book (rn_engine (run_sample b inputs_sample).2)) ∧
    lg_calls (en_transport (rn_engine (run_sample b inputs_sample).2)) = [].
Proof.
  destruct (start_sample env_boot process_sample) as [[b|e|] p] eqn:Hs;
    [|vm_compute in Hs; discriminate Hs..].
  pose proof (main_sound (W:=World) digest32 true true (λ _, Ok "{}"%string) (λ _, Ok "{}"%string)
    (λ s, Some s) (Ok tt) (λ _, Ok tt) (λ _ _, Ok tt) (λ url, Ok url) (λ url _, Ok url)
    (λ _ : string, Ok 8453) (λ _ _, Ok 7) (λ _, Ok "signer"%string) (λ _ _, Ok "signer"%string)
    (λ s _, s) connect_sample Done (λ _, Ok ""%string) (λ _, Ok [factory_sample]) (λ _, Ok [])
    (λ _, Ok tt) tt chain_sample (λ _ : string, Ok tt) [HzAccepted 1]
    env_boot inputs_sample process_sample b p factories_typed pools_typed) as H.
  exists b. split; [reflexivity|]. destruct (run_sample b inputs_sample) as [r s].
  destruct H as (_ & Hb & _ & Hsh); [discriminate|discriminate|exact Hs
    |exact inputs_sample_streams|].
  split; [exact Hb|]. apply Hsh.
  assert (booted_mode (start_sample env_boot process_sample).1 = Some Shadow) as Hm
    by (vm_compute; reflexivity).
  rewrite Hs in Hm. injection Hm as Hm. exact Hm.
Defined.

Lemma main_clean_stop_witness :
  ∃ b s, (start_sample env_boot process_sample).1 = Ok b ∧
    run_sample b (inputs_sample ++ CtrlC (Ok tt) :: inputs_sample) = (Some (Ok tt), s) ∧
    rn_aborted s = bt_stream_tasks b.
Proof.
  destruct (start_sample env_boot process_sample) as [[b|e|] p] eqn:Hs;
    [|vm_compute in Hs; discriminate Hs..].
  destruct (main_clean_stop digest32 true true (λ _, Ok "{}"%string) (λ _, Ok "{}"%string)
    (λ s, Some s) (Ok tt) (λ _, Ok tt) (λ _ _, Ok tt) (λ url, Ok url) (λ url _, Ok url)
    (λ _ : string, Ok 8453) (λ _ _, Ok 7) (λ _, Ok "signer"%string) (λ _ _, Ok "signer"%string)
    (λ s _, s) connect_sample Done (λ _, Ok ""%string) (λ _, Ok [factory_sample]) (λ _, Ok [])
    (λ _, Ok tt) tt chain_sample (λ _ : string, Ok tt) [HzAccepted 1]
    env_boot process_sample b p inputs_sample (CtrlC (Ok tt)) "received ctrl-c" inputs_sample)
    as (s & Hr & _ & Ha).
  - exact Hs.
  - constructor; [eexists; reflexivity|]. apply Forall_fmap, Forall_true. intros [env event].
    eexists. reflexivity.
  - reflexivity.
  - intros r [= <-]. reflexivity.
  - assert (booted_run (start_sample env_boot process_sample).1 = Some (Ok tt)) as Hm
      by (vm_compute; reflexivity).
    rewrite Hs in Hm. unfold booted_run in Hm. cbn [fst] in Hm. apply Some_inj in Hm. exact Hm.
  - reflexivity.
  - constructor; [exact I|constructor].
  - exists b, s. split; [reflexivity|]. split; [exact Hr|exact Ha].
Defined.

(** ** The metrics *)

Definition built_attempt : ExecutionAttempt :=
  {| at_request_id := "loop"; at_tx_hash := None; at_status := ExecutionStatus.Built;
     at_execution_mode := "live"; at_submission_allowed := true; at_blocked_reason := None;
     at_requested_notional := 1000; at_gas_limit := Some 300000; at_max_fee_per_gas := None;
     at_max_priority_fee_per_gas := None |}.

Abbreviation drive_sample s := (drive_execution_attempt (live_env 100) (exec_sample Live) router_request
  built_attempt None s).

(** A drive that ends in an inclusion: two outcomes are counted, the second closes the
    breaker. *)
Lemma drive_metrics_breaker_witness :
  let s := with_parts (live_engine no_storage) (record_outcome RiskState_default false) no_storage in
  (drive_sample s).1 = Ok tt ∧
  execution_outcomes (drive_metrics (live_env 100) (exec_sample Live) router_request built_attempt None s) =
    ["submitted"; "included"]%string ∧
  en_risk (drive_sample s).2 = record_outcome (en_risk s) true.
Proof.
  intros s. split; [vm_compute; reflexivity|]. split; [vm_compute; reflexivity|].
  rewrite (drive_metrics_breaker (live_env 100) (exec_sample Live) router_request built_attempt None s
    (drive_sample s).1 (drive_sample s).2); [vm_compute; reflexivity|apply surjective_pairing|].
  vm_compute. discriminate.
Defined.
