(* ===== verification/Testing.v ===== *)
(** Assertions for the repository's own unit tests, which the files [Tests*] replay on the
    definitions of this library: a test is a boolean, true when it passes. *)

From S2P Require Import Prelude RustStr.
#[local] Open Scope Z_scope.

Declare Scope test_scope.
Delimit Scope test_scope with test.

(** [.unwrap()] and [.unwrap_err()] before the rest of a test: a test whose value is not
    there fails. *)
Definition unwrap {E A : Type} (r : res E A) (k : A → bool) : bool :=
  match r with Ok a => k a | _ => false end.
Definition unwrap_err {E A : Type} (r : res E A) (k : E → bool) : bool :=
  match r with Err e => k e | _ => false end.
Definition unwrap_some {A : Type} (o : option A) (k : A → bool) : bool :=
  match o with Some a => k a | None => false end.

(** [assert_eq!] and [assert!(.. .is_none())]. *)
Notation "a == b" := (bool_decide (a = b)) (at level 70, no associativity) : test_scope.
Definition is_none {A : Type} (o : option A) : bool := match o with None => true | Some _ => false end.

(** [haystack.contains(needle)]. *)
Fixpoint str_contains (needle haystack : string) : bool :=
  String.prefix needle haystack ||
  match haystack with EmptyString => false | String _ rest => str_contains needle rest end.

(** The tests of a module, all of them. *)
Abbreviation all_pass tests := (forallb id tests = true).
