(* ===== verification/TestsMarkets.v ===== *)
(** The unit tests of crate [markets] ([lib.rs] and [v3.rs]), on the definitions of files
    [MarketsV2], [MarketsV3] and [PoolBook]. *)

From S2P Require Import Prelude RustStr Types MarketsV2 U256 MarketsV3 PoolBook Testing.
#[local] Open Scope Z_scope.
#[local] Open Scope test_scope.

(** The decoded event of a test log: only these fields are set. *)
Definition test_event (kind : DecodedLogKind) (pool : string) (reserve0 reserve1 : option Amount)
    (liquidity : option Amount) (sqrt_price_x96 : option string) (tick : option Z)
    (protocol : Protocol.Protocol) : DecodedLogEvent :=
  {| dl_kind := kind; dl_pool := Some pool; dl_sender := None; dl_recipient := None;
     dl_owner := None; dl_reserve0 := reserve0; dl_reserve1 := reserve1; dl_amount0_in := None;
     dl_amount1_in := None; dl_amount0_out := None; dl_amount1_out := None; dl_amount0 := None;
     dl_amount1 := None; dl_liquidity := liquidity; dl_sqrt_price_x96 := sqrt_price_x96;
     dl_tick := tick; dl_tick_lower := None; dl_tick_upper := None; dl_protocol := Some protocol;
     dl_exchange := Some Exchange.Aerodrome |}.

Definition test_log (block_number : Z) (address : string) (event : DecodedLogEvent)
    (protocol : Protocol.Protocol) (removed : bool) : Log :=
  {| log_metadata := {| md_block_context := Block_ block_number None; md_channel := Ws;
       md_observed_at_ms := 1; md_chain_id := 8453; md_tx_hash := Some "0xtx"%string;
       md_decode_status := Decoded;
       md_raw := {| rps_message_type := RawMessageType.Log; rps_payload_size_bytes := 0;
                    rps_fingerprint := None; rps_subscription := None |} |};
     log_address := Some address; log_topics := []; log_data := None; log_event_signature := None;
     log_decoded_event := Some event; log_protocol := Some protocol;
     log_exchange := Some Exchange.Aerodrome; log_log_index := Some 1; log_removed := Some removed |}.

(** ** Constant-product pools and the book *)

Definition v2_sample_pool : res MarketError V2PoolState :=
  v2_new "0xpool" Protocol.UniswapV2 (Some Exchange.Aerodrome) "0xweth" "0xusdc"
    10000000000000000000 25000000000 30.

Definition sample_sync_log (block_number : Z) (reserve0 reserve1 : Amount) (removed : bool) : Log :=
  test_log block_number "0xpool"
    (test_event V2Sync "0xpool" (Some reserve0) (Some reserve1) None None None Protocol.UniswapV2)
    Protocol.UniswapV2 removed.

Definition quotes_from_token0_to_token1 : bool :=
  unwrap v2_sample_pool (λ pool,
  unwrap (v2_quote_exact_in pool "0xweth" 1000000000000000000) (λ quote,
  (pq_token_out quote == "0xusdc"%string) && (0 <? pq_amount_out quote) && (pq_fee_bps quote == 30))).

Definition quotes_from_token1_to_token0 : bool :=
  unwrap v2_sample_pool (λ pool,
  unwrap (v2_quote_exact_in pool "0xusdc" 1000000000) (λ quote,
  (pq_token_out quote == "0xweth"%string) && (0 <? pq_amount_out quote))).

Definition v2_rejects_unknown_token : bool :=
  unwrap v2_sample_pool (λ pool,
  unwrap_err (v2_quote_exact_in pool "0xnope" 1) (λ error,
  match error with UnknownToken _ _ => true | _ => false end)).

Definition sync_updates_reserves_and_block : bool :=
  unwrap v2_sample_pool (λ pool,
  unwrap (v2_apply_sync pool 9 11 (Some 123)) (λ pool,
  (v2_reserve0 pool == 9) && (v2_reserve1 pool == 11) && (v2_last_updated_block pool == Some 123))).

Definition applies_v2_sync_log_to_pool_state : bool :=
  unwrap v2_sample_pool (λ pool,
  unwrap (v2_apply_log pool (sample_sync_log 123 77 88 false)) (λ '(outcome, pool),
  (outcome == Applied) && (v2_reserve0 pool == 77) && (v2_reserve1 pool == 88) &&
  (v2_last_updated_block pool == Some 123))).

Definition pool_book_applies_and_reverts_v2_sync_logs : bool :=
  unwrap v2_sample_pool (λ pool,
  let '(applied, book) :=
    book_apply_log (insert_v2_pool book_new pool) (sample_sync_log 123 77 88 false) in
  let '(reverted, book) := book_apply_log book (sample_sync_log 123 77 88 true) in
  unwrap applied (λ applied, unwrap reverted (λ reverted,
  (applied == Applied) && (reverted == Reverted) &&
  unwrap_some (book_v2_pool book "0xpool") (λ pool,
  (v2_reserve0 pool == 10000000000000000000) && (v2_reserve1 pool == 25000000000) &&
  (v2_last_updated_block pool == None))))).

Definition removed_log_without_snapshot_errors : bool :=
  unwrap v2_sample_pool (λ pool,
  unwrap_err (book_apply_log (insert_v2_pool book_new pool) (sample_sync_log 123 77 88 true)).1
  (λ error, error == MissingRevertSnapshot "0xtx" 1)).

(** The tests of [markets/src/lib.rs] pass. *)
Example markets_tests_pass : all_pass
  [quotes_from_token0_to_token1; quotes_from_token1_to_token0; v2_rejects_unknown_token;
   sync_updates_reserves_and_block; applies_v2_sync_log_to_pool_state;
   pool_book_applies_and_reverts_v2_sync_logs; removed_log_without_snapshot_errors].
Proof. by vm_compute. Qed.

(** ** Concentrated-liquidity pools *)

Definition sqrt_price_one : Z := u256_shl 1 96.

Definition v3_sample_pool : res MarketError V3PoolState :=
  v3_new "0xv3pool" Protocol.UniswapV3 (Some Exchange.Aerodrome) "0xtoken0" "0xtoken1" 500 10
    sqrt_price_one (10 ^ 20) 0.

Definition sample_v3_swap_log (block_number : Z) (sqrt_price : string) (liquidity tick : Z) : Log :=
  test_log block_number "0xv3pool"
    (test_event V3Swap "0xv3pool" None None (Some liquidity) (Some sqrt_price) (Some tick)
       Protocol.UniswapV3) Protocol.UniswapV3 false.

Definition validates_against_protocol_bounds : bool :=
  unwrap_err (v3_new "0xpool" Protocol.UniswapV3 None "0xa" "0xb" 500 10 1 (10 ^ 18) 0) (λ error,
  match error with InvalidPool _ => true | _ => false end).

Definition quotes_zero_for_one_in_range : bool :=
  unwrap v3_sample_pool (λ pool, unwrap (v3_quote_exact_in pool "0xtoken0" (10 ^ 15)) (λ quote,
  (pq_token_out quote == "0xtoken1"%string) && (0 <? pq_amount_out quote) && (pq_fee_bps quote == 5))).

Definition quotes_one_for_zero_in_range : bool :=
  unwrap v3_sample_pool (λ pool, unwrap (v3_quote_exact_in pool "0xtoken1" (10 ^ 15)) (λ quote,
  (pq_token_out quote == "0xtoken0"%string) && (0 <? pq_amount_out quote))).

Definition v3_rejects_unknown_token : bool :=
  unwrap v3_sample_pool (λ pool, unwrap_err (v3_quote_exact_in pool "0xdeadbeef" 1) (λ error,
  match error with UnknownToken _ _ => true | _ => false end)).

Definition rejects_swap_above_in_range_impact_cap : bool :=
  unwrap v3_sample_pool (λ pool, unwrap_err (v3_quote_exact_in pool "0xtoken1" (10 ^ 30)) (λ error,
  match error with InsufficientLiquidity => true | _ => false end)).

Definition applies_v3_swap_log_to_pool_state : bool :=
  let new_sqrt := u256_shl 1 96 + u256_shl 1 80 in
  unwrap v3_sample_pool (λ pool,
  unwrap (v3_apply_log pool (sample_v3_swap_log 123 (show_uint new_sqrt) 9999 5)) (λ '(outcome, pool),
  (outcome == Applied) && (v3_sqrt_price_x96 pool == new_sqrt) && (v3_liquidity pool == 9999) &&
  (v3_tick pool == 5) && (v3_last_updated_block pool == Some 123))).

Definition with_log_address (log : Log) (address : string) : Log :=
  {| log_metadata := log_metadata log; log_address := Some address; log_topics := log_topics log;
     log_data := log_data log; log_event_signature := log_event_signature log;
     log_decoded_event := log_decoded_event log; log_protocol := log_protocol log;
     log_exchange := log_exchange log; log_log_index := log_log_index log;
     log_removed := log_removed log |}.

Definition ignores_log_for_unrelated_pool_address : bool :=
  let log := with_log_address (sample_v3_swap_log 123 (show_uint sqrt_price_one) 1 0) "0xunrelated" in
  unwrap v3_sample_pool (λ pool, unwrap (v3_apply_log pool log) (λ '(outcome, _), outcome == Ignored)).

Definition ignores_v3_mint_and_burn_for_now : bool :=
  let log := test_log 123 "0xv3pool"
    (test_event V3Mint "0xv3pool" None None (Some 1) (Some "0"%string) (Some 0) Protocol.UniswapV3)
    Protocol.UniswapV3 false in
  unwrap v3_sample_pool (λ pool, unwrap (v3_apply_log pool log) (λ '(outcome, _), outcome == Ignored)).

Definition get_sqrt_ratio_at_tick_anchor_values : bool :=
  unwrap (get_sqrt_ratio_at_tick 0) (λ zero, zero == u256_shl 1 96) &&
  unwrap (get_sqrt_ratio_at_tick 1) (λ one_tick,
    Some one_tick == u256_from_str_radix "79232123823359799118286999568" 10) &&
  unwrap (get_sqrt_ratio_at_tick (-1)) (λ minus_one,
    Some minus_one == u256_from_str_radix "79224201403219477170569942574" 10).

(** The tests of [markets/src/v3.rs] pass. *)
Example v3_tests_pass : all_pass
  [validates_against_protocol_bounds; quotes_zero_for_one_in_range; quotes_one_for_zero_in_range;
   v3_rejects_unknown_token; rejects_swap_above_in_range_impact_cap;
   applies_v3_swap_log_to_pool_state; ignores_log_for_unrelated_pool_address;
   ignores_v3_mint_and_burn_for_now; get_sqrt_ratio_at_tick_anchor_values].
Proof. by vm_compute. Qed.
