(* ===== verification/TestsDecision.v ===== *)
(** The unit tests of crate [decision] ([lib.rs] and [risk.rs]), on the definitions of
    files [Decision] and [Risk], for any digest. *)

From S2P Require Import Prelude RustStr Types MarketsV2 U256 MarketsV3 PoolBook Config.
From S2P Require Import Risk Decision Testing.
#[local] Open Scope Z_scope.
#[local] Open Scope test_scope.

(** ** Detection and requests *)

Definition loop_pool (address : string) (exchange : Exchange.Exchange) (token0 token1 : string)
    (reserve0 reserve1 : Amount) : res MarketError V2PoolState :=
  v2_new address Protocol.UniswapV2 (Some exchange) token0 token1 reserve0 reserve1 30.

(** [profitable_loop] with the second pool's [reserve1] and the amount, which tests change. *)
Definition loop_with (reserve1 amount_in : Amount) (k : TwoLegLoopInput → bool) : bool :=
  unwrap (loop_pool "0xpool1" Exchange.Aerodrome "0xweth" "0xasset" 1000000000 2500000000) (λ first,
  unwrap (loop_pool "0xpool2" Exchange.AlienBase "0xasset" "0xweth" 2000000000 reserve1) (λ second,
  k {| tl_block_context := Pending; tl_settlement_token := "0xweth"; tl_amount_in := amount_in;
       tl_first_pool := first; tl_second_pool := second;
       tl_trigger_tx_hash := Some "0xtrigger"%string |})).
Definition profitable_loop : (TwoLegLoopInput → bool) → bool := loop_with 1200000000 1000000.

Definition decision_config : DecisionConfig :=
  {| dec_max_route_hops := 3; dec_max_candidate_routes := 16; dec_min_net_profit_wei := "10";
     dec_kill_switch_path := None; dec_settlement_token := Some "0xweth"%string;
     dec_scan_trade_amount_wei := Some "1000000"%string; dec_v2_bootstrap_path := None;
     dec_simulation_gas_estimate := 180000; dec_simulation_gas_cost_wei := "5";
     dec_simulation_l1_data_fee_wei := "2" |}.

Definition detects_profitable_two_leg_loop : bool :=
  profitable_loop (λ input, unwrap (detect_two_leg_loop input) (λ found,
  unwrap_some found (λ opportunity,
  (op_kind opportunity == TwoLegLoop) && (0 <? op_expected_net_profit opportunity) &&
  (length (op_route opportunity) == 2%nat)))).

Definition rejects_non_profitable_loop : bool :=
  loop_with 700000000 1000000 (λ input, unwrap (detect_two_leg_loop input) is_none).

Definition rejects_zero_amount : bool :=
  loop_with 1200000000 0 (λ input, unwrap (detect_two_leg_loop input) is_none).

(** The pools of a book, in one order of its map. *)
Definition book_values (book : PoolBook) : list PoolState := (map_to_list (pools book)).*2.

Definition scan_book (book : PoolBook) : outcome (list Opportunity) :=
  detect_two_leg_loops_from_book Pending "0xweth" 1000000 None (book_values book).

Definition scans_pool_book_for_profitable_loops : bool :=
  profitable_loop (λ input,
  let book := insert_v2_pool (insert_v2_pool book_new (tl_first_pool input)) (tl_second_pool input) in
  unwrap (scan_book book) (λ opportunities,
  (length opportunities == 1%nat) &&
  unwrap_some (head opportunities) (λ best,
    (op_kind best == TwoLegLoop) && (0 <? op_expected_net_profit best)))).

Definition sorts_opportunities_by_profit_descending : bool :=
  profitable_loop (λ base,
  unwrap (loop_pool "0xpool3" Exchange.BaseSwap "0xasset" "0xweth" 2000000000 1400000000) (λ third,
  let book := insert_v2_pool (insert_v2_pool (insert_v2_pool book_new (tl_first_pool base))
                (tl_second_pool base)) third in
  unwrap (scan_book book) (λ opportunities,
  match opportunities with
  | a :: b :: _ => op_expected_net_profit b <=? op_expected_net_profit a
  | _ => false
  end))).

Section digest.
Context (sha256_hex : list Z → string).

Definition simulates_risks_and_builds_execution_request : bool :=
  profitable_loop (λ input, unwrap (detect_two_leg_loop input) (λ found, unwrap_some found (λ opportunity,
  unwrap_some (simulate_two_leg_opportunity opportunity
    {| sc_gas_estimate := 180000; sc_gas_cost_wei := 5; sc_l1_data_fee_wei := 2 |}) (λ simulation,
  unwrap_some (assess_risk sha256_hex opportunity simulation decision_config) (λ risk,
  unwrap_some (build_execution_request opportunity risk) (λ request,
  (0 <? sim_expected_net_profit simulation) && rd_accepted risk &&
  (length (rq_steps request) == 2%nat) &&
  (rq_flashloan_amount request == Some (op_input_amount opportunity)))))))).

(** The tests of [decision/src/lib.rs] pass. *)
Example decision_tests_pass : all_pass
  [detects_profitable_two_leg_loop; rejects_non_profitable_loop; rejects_zero_amount;
   scans_pool_book_for_profitable_loops; sorts_opportunities_by_profit_descending;
   simulates_risks_and_builds_execution_request].
Proof. by vm_compute. Qed.

(** ** The risk engine *)

(** Forty times the character with this code. *)
Definition token_of (code : Z) : string := "0x" +:+ str_of (replicate 40 code).
Definition token_a : string := token_of 97.
Definition token_c : string := token_of 99.

Definition opp (id : string) (notional expected_output : Amount) (block : Z) : Opportunity :=
  {| op_id := id; op_kind := TwoLegLoop; op_block_context := Block_ block None;
     op_settlement_token := token_a; op_input_amount := notional;
     op_expected_output_amount := expected_output;
     op_expected_net_profit := saturating_sub expected_output notional;
     op_route := [
       {| leg_venue := Some Exchange.BaseSwap; leg_protocol := Some Protocol.UniswapV2;
          leg_target := token_of 98; leg_pool_address := Some (token_of 101);
          leg_token_in := token_a; leg_token_out := token_c; leg_amount_in := Some notional;
          leg_min_amount_out := Some 1 |};
       {| leg_venue := Some Exchange.BaseSwap; leg_protocol := Some Protocol.UniswapV2;
          leg_target := token_of 100; leg_pool_address := Some (token_of 102);
          leg_token_in := token_c; leg_token_out := token_a; leg_amount_in := None;
          leg_min_amount_out := Some expected_output |}];
     op_trigger_tx_hash := None |}.

Definition sim (net_profit : Amount) (accepted : bool) : SimulationResult :=
  {| sim_opportunity_id := "irrelevant"; sim_accepted := accepted;
     sim_expected_gross_profit := net_profit + 100; sim_expected_net_profit := net_profit;
     sim_gas_estimate := 180000; sim_gas_cost_wei := 50; sim_l1_data_fee := 50; sim_notes := [] |}.

(** [baseline_policy] with the fields tests change. *)
Definition policy_with (min_profit_bps : Z) (per_block daily : option Amount)
    (allowlist denylist : gset string) (max_consecutive_reverts : Z) : RiskPolicy :=
  {| pol_min_net_profit_wei := 10; pol_min_profit_bps := min_profit_bps;
     pol_max_trade_notional_wei := Some 1000000; pol_max_per_block_notional_wei := per_block;
     pol_max_daily_notional_wei := daily; pol_max_slippage_bps := 10000;
     pol_token_allowlist := allowlist; pol_token_denylist := denylist;
     pol_max_consecutive_reverts := max_consecutive_reverts; pol_kill_switch_path := None |}.
Definition baseline_policy : RiskPolicy := policy_with 0 None (Some 10000000) ∅ ∅ 3.

(** [engine.assess] at a reading of the fake clock; there is no kill-switch file. *)
Definition NOW : Z := 1700000000.
Definition engine_assess (policy : RiskPolicy) (now : Z) (o : Opportunity) (s : SimulationResult)
    (state : RiskState) (k : RiskDecision → RiskState → bool) : bool :=
  let '(decision, state) := assess sha256_hex (λ _, false) now policy state o s in k decision state.

Definition denied_with (text : string) (decision : RiskDecision) : bool :=
  negb (rd_accepted decision) && unwrap_some (rd_reason decision) (str_contains text).

Definition accepts_opportunity_meeting_all_gates : bool :=
  engine_assess baseline_policy NOW (opp "o1" 100 200 1) (sim 50 true) RiskState_default
    (λ decision _, rd_accepted decision).

Definition rejects_when_simulation_already_rejected : bool :=
  engine_assess baseline_policy NOW (opp "o1" 100 200 1) (sim 50 false) RiskState_default
    (λ decision _, denied_with "simulation rejected" decision).

Definition rejects_below_absolute_profit_floor : bool :=
  engine_assess baseline_policy NOW (opp "o1" 100 200 1) (sim 5 true) RiskState_default
    (λ decision _, denied_with "minimum" decision).

Definition rejects_below_relative_profit_floor : bool :=
  engine_assess (policy_with 100 None (Some 10000000) ∅ ∅ 3) NOW (opp "o1" 10000 10050 1) (sim 50 true)
    RiskState_default (λ decision _, denied_with "bps of notional" decision).

Definition rejects_above_per_trade_notional_cap : bool :=
  engine_assess baseline_policy NOW (opp "o1" 5000000 5000500 1) (sim 500 true) RiskState_default
    (λ decision _, denied_with "per-trade" decision).

Definition rejects_above_per_block_notional_cap : bool :=
  let policy := policy_with 0 (Some 150) (Some 10000000) ∅ ∅ 3 in
  engine_assess policy NOW (opp "o1" 100 200 1) (sim 50 true) RiskState_default (λ first state,
  rd_accepted first &&
  engine_assess policy NOW (opp "o2" 100 200 1) (sim 50 true) state (λ second state,
  denied_with "per-block" second &&
  engine_assess policy NOW (opp "o3" 100 200 2) (sim 50 true) state (λ next_block _,
  rd_accepted next_block))).

Definition rolls_off_daily_notional_outside_window : bool :=
  let policy := policy_with 0 None (Some 150) ∅ ∅ 3 in
  engine_assess policy NOW (opp "o1" 100 200 1) (sim 50 true) RiskState_default (λ first state,
  rd_accepted first &&
  engine_assess policy NOW (opp "o2" 100 200 2) (sim 50 true) state (λ second state,
  negb (rd_accepted second) &&
  engine_assess policy (NOW + SECONDS_PER_DAY + 1) (opp "o3" 100 200 3) (sim 50 true) state
    (λ third _, rd_accepted third))).

Definition denylist_short_circuits_assessment : bool :=
  engine_assess (policy_with 0 None (Some 10000000) ∅ {[token_c]} 3) NOW (opp "o1" 100 200 1)
    (sim 50 true) RiskState_default (λ decision _, denied_with "denylist" decision).

Definition allowlist_blocks_unknown_tokens : bool :=
  engine_assess (policy_with 0 None (Some 10000000) {[token_a]} ∅ 3) NOW (opp "o1" 100 200 1)
    (sim 50 true) RiskState_default (λ decision _, denied_with "allowlist" decision).

Definition circuit_breaker_trips_after_consecutive_reverts : bool :=
  let policy := policy_with 0 None (Some 10000000) ∅ ∅ 2 in
  let state := record_outcome (record_outcome RiskState_default false) false in
  engine_assess policy NOW (opp "o1" 100 200 1) (sim 50 true) state (λ decision state,
  denied_with "circuit breaker" decision &&
  engine_assess policy NOW (opp "o2" 100 200 1) (sim 50 true) (record_outcome state true)
    (λ decision2 _, rd_accepted decision2)).

Definition manual_kill_switch_blocks_all_assessments : bool :=
  engine_assess baseline_policy NOW (opp "o1" 100 200 1) (sim 50 true)
    (trigger_kill_switch RiskState_default) (λ decision _, denied_with "kill switch" decision).

(** The tests of [decision/src/risk.rs] pass. *)
Example risk_tests_pass : all_pass
  [accepts_opportunity_meeting_all_gates; rejects_when_simulation_already_rejected;
   rejects_below_absolute_profit_floor; rejects_below_relative_profit_floor;
   rejects_above_per_trade_notional_cap; rejects_above_per_block_notional_cap;
   rolls_off_daily_notional_outside_window; denylist_short_circuits_assessment;
   allowlist_blocks_unknown_tokens; circuit_breaker_trips_after_consecutive_reverts;
   manual_kill_switch_blocks_all_assessments].
Proof. by vm_compute. Qed.
End digest.
