(* ===== verification/TestsExecution.v ===== *)
(** The unit tests of crate [execution] ([lib.rs], [nonce.rs] and [signer.rs]), on the
    definitions of files [Execution] and [Submit].

    The tests run on a concrete instance of the interface [Alloy]: addresses and words in
    hexadecimal and the ABI encoding of the two router calls.  The test that derives an
    address from a private key is left out, as the curve is [alloy]'s. *)

From S2P Require Import Prelude RustStr Types Config Decision Execution Submit Testing.
#[local] Open Scope Z_scope.
#[local] Open Scope test_scope.

(** ** The ABI of the router *)

Definition abi_word (n : Z) : list Z := reverse (to_le_bytes 32 n).
Definition abi_address (a : list Z) : list Z := replicate 12 0 ++ a.

(** [bytes]: the length and the data, padded to a multiple of 32. *)
Definition abi_bytes (data : list Z) : list Z :=
  abi_word (Z.of_nat (length data)) ++ data ++
  replicate (Z.to_nat ((- Z.of_nat (length data)) mod 32)) 0.

Definition abi_step (s : RouterRouteStep) : list Z :=
  abi_word (rr_venueKind s) ++ abi_address (rr_target s) ++ abi_address (rr_tokenIn s) ++
  abi_address (rr_tokenOut s) ++ abi_word (rr_fee s) ++ abi_word (rr_minAmountOut s) ++
  abi_word (7 * 32) ++ abi_bytes (rr_extraData s).

(** The offsets of the elements of a dynamic array, and the elements. *)
Fixpoint abi_offsets (offset : Z) (elements : list (list Z)) : list Z :=
  match elements with
  | [] => []
  | e :: elements => abi_word offset ++ abi_offsets (offset + Z.of_nat (length e)) elements
  end.
Definition abi_array (elements : list (list Z)) : list Z :=
  abi_word (Z.of_nat (length elements)) ++
  abi_offsets (32 * Z.of_nat (length elements)) elements ++ concat elements.

Definition abi_plan (p : RouterExecutionPlan) : list Z :=
  abi_word 32 ++ abi_address (rp_settlementToken p) ++ abi_word (rp_fundingAmount p) ++
  abi_word (rp_minRepayAmount p) ++ abi_word (rp_minSurplus p) ++ abi_word (rp_deadline p) ++
  abi_word (7 * 32) ++ rp_riskHash p ++ abi_array (abi_step <$> rp_steps p).

Definition hex_char (d : Z) : Z := if d <? 10 then 48 + d else 87 + d.
Definition hex_text (bytes : list Z) : string :=
  "0x" +:+ str_of (bytes ≫= λ b, [hex_char (b / 16); hex_char (b mod 16)]).

#[local] Instance alloy_abi : Alloy := {|
  address_from_str := hex_word 20;
  address_to_string := hex_text;
  bytes32_from_str := hex_word 32;
  encode_executePlan p := [0x2f; 0x95; 0xf9; 0x30] ++ abi_plan p;
  encode_executePlanWithFlashLoan p := [0xee; 0x4a; 0xd3; 0x70] ++ abi_plan p |}.

(** ** Fixtures *)

Definition request_with (notional : Amount) (hint : string) (pool_fee : option Z)
    (aux_address : option string) : ExecutionRequest :=
  {| rq_opportunity_id := "opp-1";
     rq_steps := [
       {| st_venue := None; st_protocol := Some Protocol.UniswapV3;
          st_target := "0x2222222222222222222222222222222222222222";
          st_token_in := "0x3333333333333333333333333333333333333333";
          st_token_out := "0x4444444444444444444444444444444444444444"; st_pool_fee := pool_fee;
          st_amount_in := Some notional; st_min_amount_out := 99; st_calldata_hint := Some hint;
          st_aux_address := aux_address |}];
     rq_min_repay := notional; rq_min_surplus := 1;
     rq_flashloan_asset := Some "0x5555555555555555555555555555555555555555"%string;
     rq_flashloan_amount := Some notional;
     rq_risk_hash := "0123456789abcdef0123456789abcdef0123456789abcdef0123456789abcdef" |}.
Definition request (notional : Amount) : ExecutionRequest :=
  request_with notional "v3_exact_input_single" (Some 500) None.

Definition simulation (gas_estimate : Z) : SimulationResult :=
  {| sim_opportunity_id := "opp-1"; sim_accepted := true; sim_expected_gross_profit := 10;
     sim_expected_net_profit := 5; sim_gas_estimate := gas_estimate; sim_gas_cost_wei := 3;
     sim_l1_data_fee := 2; sim_notes := [] |}.

Definition config_with (mode : ExecutionMode) (max_trade max_daily max_fee max_priority : option string)
    (use_flashloan : bool) : ExecutionConfig :=
  {| exec_mode := mode; exec_submit_timeout_secs := 30; exec_receipt_timeout_secs := 60;
     exec_router_address := Some "0x1111111111111111111111111111111111111111"%string;
     exec_canary_max_trade_wei := max_trade; exec_canary_max_daily_wei := max_daily;
     exec_gas_limit_multiplier_bps := 12000; exec_max_fee_per_gas_wei := max_fee;
     exec_max_priority_fee_per_gas_wei := max_priority; exec_plan_deadline_secs := 30;
     exec_use_flashloan := use_flashloan; exec_ethcall_preflight_required := true;
     exec_ethcall_timeout_secs := 5 |}.
Definition live_config : ExecutionConfig :=
  config_with Live None None (Some "50"%string) (Some "2"%string) true.
Definition canary_config (max_trade max_daily : Amount) : ExecutionConfig :=
  config_with Canary (Some (show_uint max_trade)) (Some (show_uint max_daily)) None None true.

Definition receipt (success : bool) (revert_reason : option string) : ExecutionReceipt :=
  {| rc_request_id := "opp-1"; rc_tx_hash := "0xtx"; rc_block_number := Some 42;
     rc_success := success; rc_gas_used := Some 210000; rc_effective_gas_price := Some 3;
     rc_l1_fee_paid := Some 100; rc_revert_reason := revert_reason |}.

(** The results a scripted transport hands out, front first. *)
Record ScriptedTransport := {
  submit_results : list (anyhow string);
  receipt_results : list (anyhow (option ExecutionReceipt)) }.

#[local] Instance scripted : ExecutionTransport ScriptedTransport := {|
  tr_submit t _ _ :=
    match submit_results t with
    | r :: rest => (Some r, {| submit_results := rest; receipt_results := receipt_results t |})
    | [] => (Some (bail "missing scripted submit result"), t)
    end;
  tr_await_receipt t _ _ _ :=
    match receipt_results t with
    | r :: rest => (r, {| submit_results := submit_results t; receipt_results := rest |})
    | [] => (bail "missing scripted receipt result", t)
    end;
  tr_simulate t _ _ := (Some default_simulate, t) |}.

(** The clock of the test machine. *)
Definition test_clock : anyhow Z := Ok 1700000000.

(** ** Preparation *)

Definition prepares_live_execution_with_padded_gas_limit : bool :=
  unwrap (prepare_execution live_config (request 100) (simulation 200000) 0) (λ prepared,
  pe_should_submit prepared && (at_execution_mode (pe_attempt prepared) == "live"%string) &&
  (at_gas_limit (pe_attempt prepared) == Some 240000) &&
  (at_max_fee_per_gas (pe_attempt prepared) == Some 50) &&
  (at_max_priority_fee_per_gas (pe_attempt prepared) == Some 2) &&
  is_none (at_blocked_reason (pe_attempt prepared))).

Definition blocks_canary_execution_above_trade_limit : bool :=
  unwrap (prepare_execution (canary_config 100 1000) (request 101) (simulation 180000) 0) (λ prepared,
  negb (pe_should_submit prepared) && negb (at_submission_allowed (pe_attempt prepared)) &&
  (at_blocked_reason (pe_attempt prepared) ==
     Some "request exceeds canary per-trade notional limit"%string)).

Definition blocks_canary_execution_above_daily_limit : bool :=
  unwrap (prepare_execution (canary_config 100 1000) (request 100) (simulation 180000) 950) (λ prepared,
  negb (pe_should_submit prepared) &&
  (at_blocked_reason (pe_attempt prepared) == Some "request exceeds canary daily notional limit"%string)).

(** ** Life cycle *)

(** [prepare_execution] and [mark_submitted] before the rest of a test. *)
Definition with_submitted (k : ExecutionAttempt → bool) : bool :=
  unwrap (prepare_execution live_config (request 100) (simulation 200000) 0) (λ prepared,
  unwrap (mark_submitted (pe_attempt prepared) "0xtx") k).

Definition submitted_attempt_requires_allowed_built_attempt : bool :=
  with_submitted (λ submitted,
  (at_status submitted == ExecutionStatus.Submitted) && (at_tx_hash submitted == Some "0xtx"%string)).

Definition finalizes_successful_receipt_into_profit_realized : bool :=
  with_submitted (λ submitted,
  unwrap (finalize_from_receipt submitted (receipt true None) (Some 50) 1) (λ finalized,
  (at_status (fe_attempt finalized) == ExecutionStatus.ProfitRealized) &&
  (oc_total_fee_paid (fe_outcome finalized) == Some 630100) &&
  is_none (oc_reason (fe_outcome finalized)))).

Definition finalizes_reverted_receipt_with_reason : bool :=
  with_submitted (λ submitted,
  unwrap (finalize_from_receipt submitted (receipt false (Some "slippage"%string)) None 1) (λ finalized,
  (at_status (fe_attempt finalized) == ExecutionStatus.Reverted) &&
  (oc_reason (fe_outcome finalized) == Some "slippage"%string))).

Definition marks_submitted_attempt_as_dropped : bool :=
  with_submitted (λ submitted,
  unwrap (mark_dropped submitted "timeout waiting for receipt") (λ dropped,
  (at_status (fe_attempt dropped) == ExecutionStatus.Dropped) &&
  (oc_reason (fe_outcome dropped) == Some "timeout waiting for receipt"%string))).

(** ** Calldata *)

Definition has_calldata (payload : SubmissionPayload) : bool :=
  negb (sp_calldata payload == []).

Definition builds_submission_payload_for_supported_v3_single_route : bool :=
  unwrap (build_submission_payload test_clock live_config (request 100)) (λ payload,
  (sp_router_address payload == "0x1111111111111111111111111111111111111111"%string) &&
  (sp_value payload == 0) && has_calldata payload).

Definition builds_submission_payload_for_v2_route : bool :=
  unwrap (build_submission_payload test_clock live_config (request_with 100 "v2_exact_input" None None))
  (λ payload, (sp_value payload == 0) && has_calldata payload).

Definition builds_submission_payload_for_aerodrome_route : bool :=
  unwrap (build_submission_payload test_clock live_config
            (request_with 100 "aerodrome_v2_volatile" None
               (Some "0x420dd381b31aef6683db6b902084cb0ffece40da"%string)))
  has_calldata.

Definition rejects_aerodrome_route_without_aux_address : bool :=
  unwrap_err (build_submission_payload test_clock live_config
                (request_with 100 "aerodrome_v2_volatile" None None))
  (λ error, unwrap_some (head error) (str_contains "aux_address")).

Definition build_payload_uses_self_funded_selector_when_flashloan_disabled : bool :=
  unwrap (build_submission_payload test_clock
            (config_with Live None None (Some "50"%string) (Some "2"%string) false) (request 100))
  (λ payload, Z.of_nat (length (sp_calldata payload)) mod 32 == 4).

(** ** Runs against a transport *)

Definition scripted_run (submits : list (anyhow string))
    (receipts : list (anyhow (option ExecutionReceipt))) (config : ExecutionConfig) (notional : Amount) :
    anyhow ExecutionRunResult :=
  (execute_with_transport {| submit_results := submits; receipt_results := receipts |} test_clock config
     (request notional) (simulation 180000) 0).1.

Definition execution_runner_blocks_when_submission_is_not_allowed : bool :=
  unwrap (scripted_run [] [] (canary_config 100 1000) 101) (λ result,
  match result with
  | Blocked attempt => (at_status attempt == ExecutionStatus.Built) && negb (at_submission_allowed attempt)
  | _ => false
  end).

Definition execution_runner_finalizes_after_receipt : bool :=
  unwrap (scripted_run [Ok "0xtx"%string] [Ok (Some (receipt true None))] live_config 100) (λ result,
  match result with
  | Finalized finalized =>
      (at_status (fe_attempt finalized) == ExecutionStatus.Included) &&
      (oc_reason (fe_outcome finalized) ==
         Some "transaction included but realized surplus is not yet known"%string)
  | _ => false
  end).

Definition execution_runner_marks_dropped_when_receipt_times_out : bool :=
  unwrap (scripted_run [Ok "0xtx"%string] [Ok None] live_config 100) (λ result,
  match result with
  | Finalized finalized =>
      (at_status (fe_attempt finalized) == ExecutionStatus.Dropped) &&
      (oc_reason (fe_outcome finalized) == Some "timed out while waiting for execution receipt"%string)
  | _ => false
  end).

Definition default_simulate_returns_skipped_for_transports_without_override : bool :=
  let transport := {| submit_results := []; receipt_results := [] |} in
  let payload := {| sp_router_address := "0x1111111111111111111111111111111111111111";
                    sp_calldata := [1; 2]; sp_value := 0 |} in
  let attempt :=
    {| at_request_id := "opp-1"; at_tx_hash := None; at_status := ExecutionStatus.Built;
       at_execution_mode := "shadow"; at_submission_allowed := false; at_blocked_reason := None;
       at_requested_notional := 0; at_gas_limit := Some 180000; at_max_fee_per_gas := None;
       at_max_priority_fee_per_gas := None |} in
  match (tr_simulate transport payload attempt).1 with
  | Some r => unwrap r (λ outcome,
      match outcome with Skipped _ => negb (is_passed outcome) | _ => false end)
  | None => false
  end.

(** The tests of [execution/src/lib.rs] pass. *)
Example execution_tests_pass : all_pass
  [prepares_live_execution_with_padded_gas_limit; blocks_canary_execution_above_trade_limit;
   blocks_canary_execution_above_daily_limit; submitted_attempt_requires_allowed_built_attempt;
   finalizes_successful_receipt_into_profit_realized; finalizes_reverted_receipt_with_reason;
   marks_submitted_attempt_as_dropped; builds_submission_payload_for_supported_v3_single_route;
   builds_submission_payload_for_v2_route; builds_submission_payload_for_aerodrome_route;
   rejects_aerodrome_route_without_aux_address;
   build_payload_uses_self_funded_selector_when_flashloan_disabled;
   execution_runner_blocks_when_submission_is_not_allowed; execution_runner_finalizes_after_receipt;
   execution_runner_marks_dropped_when_receipt_times_out;
   default_simulate_returns_skipped_for_transports_without_override].
Proof. by vm_compute. Qed.

(** ** Nonces and signers *)

Definition next_fails_until_initialised : bool :=
  unwrap_err (nonce_next nonce_new).1 (λ error,
  unwrap_some (head error) (str_contains "not been initialised")).

Definition release_rewinds_only_when_state_matches : bool :=
  let '(reserved, state) := nonce_next {| ns_next := 7; ns_initialised := true |} in
  unwrap reserved (λ reserved, (reserved == 7) &&
  unwrap (nonce_next (nonce_release 7 state)).1 (λ reserved_again, reserved_again == 7)).

Definition cfg (private_key : option string) : SignerConfig :=
  {| sgn_private_key := private_key; sgn_keystore_path := None; sgn_keystore_password := None;
     sgn_aws_kms_key_id := None |}.

(** A signer is its key and chain. *)
Definition load_test_signer (config : SignerConfig) : anyhow (list Z * Z) :=
  load_signer (λ key, Ok (key, 0)) (λ _ _, bail "no keystore") (λ s chain_id, (s.1, chain_id)) config 8453.

Definition rejects_short_private_key : bool :=
  unwrap_err (load_test_signer (cfg (Some "0xabc"%string))) (λ error,
  existsb (str_contains "64 hex") error).

Definition errors_when_no_source_provided : bool :=
  unwrap_err (load_test_signer (cfg None)) (λ error,
  unwrap_some (head error) (str_contains "no signer source")).

(** The tests of [execution/src/nonce.rs] and [signer.rs] pass. *)
Example nonce_signer_tests_pass : all_pass
  [next_fails_until_initialised; release_rewinds_only_when_state_matches; rejects_short_private_key;
   errors_when_no_source_provided].
Proof. by vm_compute. Qed.
