(* ===== verification/TestsDiscovery.v ===== *)
(** The unit tests of crate [discovery] ([v2.rs], [v3.rs], [factory.rs], [reader.rs] and
    [service.rs]), on the definitions of file [Discovery].

    The reader of the service tests is the repository's [MockReader], an instance of
    [FactoryReader] that records its calls and returns scripted pools. *)

From S2P Require Import Prelude RustStr Types MarketsV2 U256 MarketsV3 PoolBook Decision Execution.
From S2P Require Import Discovery Testing TestsExecution.
#[local] Open Scope Z_scope.
#[local] Open Scope test_scope.
#[local] Existing Instance alloy_abi.

Definition is_err {E A : Type} (r : res E A) : bool := match r with Err _ => true | _ => false end.
Definition is_ok {E A : Type} (r : res E A) : bool := match r with Ok _ => true | _ => false end.

(** ** Ingestion into the book *)

Definition v2_test_factory : FactoryConfig :=
  {| fc_address := "0xfactory"; fc_kind := FactoryKind.UniswapV2;
     fc_protocol := Protocol.UniswapV2; fc_exchange := None; fc_deployment_block := 0;
     fc_default_v2_fee_bps := Some 30; fc_log_chunk_size := None |}.

Definition v2_test_pool (address token0 token1 : string) (reserve0 reserve1 : Z) : DiscoveredV2Pool :=
  {| dv2_address := address; dv2_token0 := token0; dv2_token1 := token1; dv2_reserve0 := reserve0;
     dv2_reserve1 := reserve1; dv2_fee_bps := 30 |}.

Definition skips_pools_without_reserves : bool :=
  let '(inserted, book) := ingest_v2 v2_test_factory
    [v2_test_pool "0xp1" "0xa" "0xb" 0 0; v2_test_pool "0xp2" "0xa" "0xb" 100 200] book_new in
  unwrap inserted (λ inserted, (inserted == 1) && is_none (book_v2_pool book "0xp1") &&
    negb (is_none (book_v2_pool book "0xp2"))).

Definition skips_invalid_pools_silently : bool :=
  let '(inserted, book) := ingest_v2 v2_test_factory
    [v2_test_pool "0xp1" "0xsame" "0xsame" 100 200] book_new in
  unwrap inserted (λ inserted, (inserted == 0) && is_none (book_v2_pool book "0xp1")).

Definition v3_test_factory : FactoryConfig :=
  {| fc_address := "0xfactory"; fc_kind := FactoryKind.UniswapV3;
     fc_protocol := Protocol.UniswapV3; fc_exchange := None; fc_deployment_block := 0;
     fc_default_v2_fee_bps := None; fc_log_chunk_size := None |}.

Definition v3_test_pool (address : string) (liquidity : Z) : DiscoveredV3Pool :=
  {| dv3_address := address; dv3_token0 := "0xa"; dv3_token1 := "0xb"; dv3_fee_pips := 500;
     dv3_tick_spacing := 10; dv3_sqrt_price_x96 := u256_shl 1 96; dv3_tick := 0;
     dv3_liquidity := liquidity |}.

Definition skips_uninitialised_pools : bool :=
  let '(inserted, book) := ingest_v3 v3_test_factory
    [v3_test_pool "0xp1" 0; v3_test_pool "0xp2" (10 ^ 18)] book_new in
  unwrap inserted (λ inserted, (inserted == 1) && is_none (book_v3_pool book "0xp1") &&
    negb (is_none (book_v3_pool book "0xp2"))).

(** The tests of [v2.rs] and [v3.rs] pass. *)
Example discovery_ingest_tests_pass : all_pass
  [skips_pools_without_reserves; skips_invalid_pools_silently; skips_uninitialised_pools].
Proof. by vm_compute. Qed.

(** ** Factories and addresses *)

Definition with_chunk (cfg : FactoryConfig) (log_chunk_size : option Z) : FactoryConfig :=
  {| fc_address := fc_address cfg; fc_kind := fc_kind cfg; fc_protocol := fc_protocol cfg;
     fc_exchange := fc_exchange cfg; fc_deployment_block := fc_deployment_block cfg;
     fc_default_v2_fee_bps := fc_default_v2_fee_bps cfg; fc_log_chunk_size := log_chunk_size |}.

Definition rejects_empty_address : bool :=
  is_err (factory_validate
    {| fc_address := ""; fc_kind := FactoryKind.UniswapV2; fc_protocol := Protocol.UniswapV2;
       fc_exchange := None; fc_deployment_block := 0; fc_default_v2_fee_bps := Some 30;
       fc_log_chunk_size := None |}).

Definition rejects_v2_without_default_fee : bool :=
  is_err (factory_validate
    {| fc_address := "0x1"; fc_kind := FactoryKind.UniswapV2; fc_protocol := Protocol.UniswapV2;
       fc_exchange := None; fc_deployment_block := 0; fc_default_v2_fee_bps := None;
       fc_log_chunk_size := None |}).

Definition well_known_factories_validate : bool :=
  is_ok (factory_validate base_mainnet.uniswap_v2) &&
  is_ok (factory_validate base_mainnet.uniswap_v3) &&
  is_ok (factory_validate base_mainnet.aerodrome_v2).

Definition log_chunk_size_floor : bool :=
  (log_chunk_size_or_default (with_chunk base_mainnet.uniswap_v2 (Some 0)) == 1) &&
  (log_chunk_size_or_default (with_chunk base_mainnet.uniswap_v2 None) == 5000).

Definition parse_address_round_trip : bool :=
  let raw := "0x4200000000000000000000000000000000000006"%string in
  unwrap (factory_address raw) (λ parsed, hex_text parsed == raw).

Definition parse_address_rejects_garbage : bool :=
  is_err (factory_address "0xnope") && is_err (factory_address "").

(** The tests of [factory.rs] and [reader.rs] pass. *)
Example factory_tests_pass : all_pass
  [rejects_empty_address; rejects_v2_without_default_fee; well_known_factories_validate;
   log_chunk_size_floor; parse_address_round_trip; parse_address_rejects_garbage].
Proof. by vm_compute. Qed.

(** ** The service *)

Record MockReader := {
  mk_calls : list string;
  mk_latest_block : Z;
  mk_v2_pools : list DiscoveredV2Pool;
  mk_v2_hydrated : list DiscoveredV2Pool;
  mk_v3_pools : list DiscoveredV3Pool;
  mk_v3_hydrated : list DiscoveredV3Pool }.

Definition mock_call {X : Type} (call : string) (answer : MockReader → X) : eff MockReader error X :=
  λ r, (Ok (answer r),
        {| mk_calls := mk_calls r ++ [call]; mk_latest_block := mk_latest_block r;
           mk_v2_pools := mk_v2_pools r; mk_v2_hydrated := mk_v2_hydrated r;
           mk_v3_pools := mk_v3_pools r; mk_v3_hydrated := mk_v3_hydrated r |}).

#[local] Instance mock_reader : FactoryReader MockReader := {|
  latest_block := mock_call "latest_block" mk_latest_block;
  fetch_v2_pair_created _ from_block to_block :=
    mock_call ("fetch_v2:" +:+ show_uint from_block +:+ "-" +:+ show_uint to_block) mk_v2_pools;
  fetch_v3_pool_created _ from_block to_block :=
    mock_call ("fetch_v3:" +:+ show_uint from_block +:+ "-" +:+ show_uint to_block) mk_v3_pools;
  hydrate_v2_reserves _ _ := mock_call "hydrate_v2" mk_v2_hydrated;
  hydrate_v3_state _ _ := mock_call "hydrate_v3" mk_v3_hydrated |}.

Definition mock (latest : Z) (v2_pools v2_hydrated : list DiscoveredV2Pool)
    (v3_pools v3_hydrated : list DiscoveredV3Pool) : Discovery MockReader :=
  {| dc_reader := {| mk_calls := []; mk_latest_block := latest; mk_v2_pools := v2_pools;
                     mk_v2_hydrated := v2_hydrated; mk_v3_pools := v3_pools;
                     mk_v3_hydrated := v3_hydrated |};
     dc_book := book_new |}.

Definition v2_factory : FactoryConfig :=
  {| fc_address := "0x8909Dc15e40173Ff4699343b6eB8132c65e18eC6"; fc_kind := FactoryKind.UniswapV2;
     fc_protocol := Protocol.UniswapV2; fc_exchange := None; fc_deployment_block := 100;
     fc_default_v2_fee_bps := Some 30; fc_log_chunk_size := Some 50 |}.

Definition v3_factory : FactoryConfig :=
  {| fc_address := "0x33128a8fC17869897dcE68Ed026d694621f6FDfD"; fc_kind := FactoryKind.UniswapV3;
     fc_protocol := Protocol.UniswapV3; fc_exchange := None; fc_deployment_block := 100;
     fc_default_v2_fee_bps := None; fc_log_chunk_size := None |}.

(** A service on the address of the tests, and its run. *)
Definition MULTICALL3 : string := "0xcA11bde05977b3631167028862bE2a173976CA11".
Definition run_service (factory : FactoryConfig) (s : Discovery MockReader)
    (k : DiscoveryReport → Discovery MockReader → bool) : bool :=
  unwrap (service_new MULTICALL3) (λ svc,
  let '(report, s) := run_factory svc factory s in unwrap report (λ report, k report s)).

Definition runs_full_v2_pipeline : bool :=
  run_service v2_factory
    (mock 200 [v2_test_pool "0xpool" "0xa" "0xb" 0 0] [v2_test_pool "0xpool" "0xa" "0xb" 1000 2000]
       [] []) (λ report s,
  (dr_pools_inserted report == 1) && (dr_pools_scanned report == 1) &&
  negb (is_none (book_v2_pool (dc_book s) "0xpool")) &&
  (mk_calls (dc_reader s) == ["latest_block"; "fetch_v2:100-200"; "hydrate_v2"]%string)).

Definition v3_uninitialised_pool (address : string) : DiscoveredV3Pool :=
  {| dv3_address := address; dv3_token0 := "0xa"; dv3_token1 := "0xb"; dv3_fee_pips := 500;
     dv3_tick_spacing := 10; dv3_sqrt_price_x96 := 0; dv3_tick := 0; dv3_liquidity := 0 |}.

Definition runs_full_v3_pipeline : bool :=
  run_service v3_factory
    (mock 200 [] [] [v3_uninitialised_pool "0xpool3"] [v3_test_pool "0xpool3" (10 ^ 18)]) (λ report s,
  (dr_pools_inserted report == 1) && negb (is_none (book_v3_pool (dc_book s) "0xpool3"))).

Definition skips_when_head_is_behind_deployment : bool :=
  run_service v2_factory (mock 50 [] [] [] []) (λ report _,
  (dr_pools_scanned report == 0) && (dr_pools_inserted report == 0)).

Definition rejects_invalid_multicall3_address : bool :=
  unwrap_err (service_new "0xnope") (λ err,
  match err with InvalidFactory _ => true | _ => false end).

(** The tests of [service.rs] pass. *)
Example service_tests_pass : all_pass
  [runs_full_v2_pipeline; runs_full_v3_pipeline; skips_when_head_is_behind_deployment;
   rejects_invalid_multicall3_address].
Proof. by vm_compute. Qed.
