(* ===== verification/TestsIngest.v ===== *)
(** The unit tests of crates [config], [registry] and [ingest] ([pipeline.rs], [raw/log.rs]
    and [flashblocks.rs]), on the definitions of files [Config], [Registry], [Startup],
    [RawLog] and [Flashblocks].

    The tests that decode ABI data, compressed bytes or JSON text are left out: the decoders
    are the libraries'. *)

From S2P Require Import Prelude RustStr Types Registry Config PoolBook RawLog Stream Flashblocks.
From S2P Require Import Startup IngestWitnesses Testing.
#[local] Open Scope Z_scope.
#[local] Open Scope test_scope.

(** ** Configuration *)

(** The variables of a test, the others removed. *)
Definition env_of (vars : list (string * string)) : Env := λ key,
  find_map (λ kv, if bool_decide (kv.1 = key) then Some kv.2 else None) vars.

Definition supports_legacy_base_env_aliases : bool :=
  unwrap (ingest_from_env (env_of [("BASE_TRANSPORT", "ipc"); ("BASE_IPC_PATH", "/tmp/reth.ipc")]%string))
  (λ config, (ing_channel config == Ipc) && (ing_ipc_file_path config == Some "/tmp/reth.ipc"%string)).

Definition execution_config (mode : ExecutionMode) (router_address : option string)
    (gas_limit_multiplier_bps : Z) : ExecutionConfig :=
  {| exec_mode := mode; exec_submit_timeout_secs := 30; exec_receipt_timeout_secs := 60;
     exec_router_address := router_address; exec_canary_max_trade_wei := None;
     exec_canary_max_daily_wei := None; exec_gas_limit_multiplier_bps := gas_limit_multiplier_bps;
     exec_max_fee_per_gas_wei := None; exec_max_priority_fee_per_gas_wei := None;
     exec_plan_deadline_secs := 30; exec_use_flashloan := true;
     exec_ethcall_preflight_required := true; exec_ethcall_timeout_secs := 5 |}.

Definition canary_requires_limits : bool :=
  unwrap_err (execution_validate (execution_config Canary
    (Some "0x1111111111111111111111111111111111111111"%string) 12000)) (λ error,
  error == MissingRequired "EXECUTION_CANARY_MAX_TRADE_WEI" "canary mode requires a per-trade limit").

Definition execution_gas_limit_multiplier_must_not_reduce_simulation : bool :=
  unwrap_err (execution_validate (execution_config Live None 9999)) (λ error,
  error == Validation "EXECUTION_GAS_LIMIT_MULTIPLIER_BPS must be at least 10000").

(** The tests of [config] pass. *)
Example config_tests_pass : all_pass
  [supports_legacy_base_env_aliases; canary_requires_limits;
   execution_gas_limit_multiplier_must_not_reduce_simulation].
Proof. by vm_compute. Qed.

(** ** Registry *)

Definition normalizes_mixed_case_hex_keys : bool :=
  normalize_hex "0xB20C411FC84FBB27e78608C24d0056D974ea9411" ==
  Some "0xb20c411fc84fbb27e78608c24d0056d974ea9411"%string.

Definition resolves_exchange_from_router_address : bool :=
  let resolution := resolve_transaction (Some "0x414BF389"%string)
    (Some "0x678Aa4bF4E210cf2166753e054d5b7c31cc7fa86"%string) in
  (rm_protocol resolution == Some Protocol.UniswapV3) &&
  (rm_exchange resolution == Some Exchange.PancakeSwap).

Definition V2_SWAP_TOPIC : string :=
  "0xd78ad95fa46c994b6551d0da85fc275fe613ce37657fb8d5e3d130840159d822".

Definition prefers_address_over_generic_event_signature : bool :=
  let resolution := resolve_log (Some V2_SWAP_TOPIC)
    (Some "0x8c1A3cF8F83074169Fe5d7Ad50B978E1cD6b37c7"%string) in
  (rm_protocol resolution == Some Protocol.UniswapV2) &&
  (rm_exchange resolution == Some Exchange.AlienBase).

Definition returns_none_for_unknown_address : bool :=
  is_none (address_metadata "0x0000000000000000000000000000000000000001").

(** The tests of [registry] pass. *)
Example registry_tests_pass : all_pass
  [normalizes_mixed_case_hex_keys; resolves_exchange_from_router_address;
   prefers_address_over_generic_event_signature; returns_none_for_unknown_address].
Proof. by vm_compute. Qed.

(** ** The pipeline *)

Definition pipeline_config (channel : Channel) (flashblocks_ws_url : option string)
    (subscribe_logs subscribe_flashblocks : bool) : IngestConfig :=
  {| ing_chain_id := 8453; ing_channel := channel; ing_ipc_file_path := Some "/tmp/reth.ipc"%string;
     ing_ws_url := Some "ws://127.0.0.1:8546"%string; ing_flashblocks_ws_url := flashblocks_ws_url;
     ing_subscribe_transactions := true; ing_subscribe_logs := subscribe_logs;
     ing_subscribe_blocks := true; ing_subscribe_flashblocks := subscribe_flashblocks;
     ing_reconnect_initial_ms := 500; ing_reconnect_max_ms := 10000;
     ing_heartbeat_timeout_secs := 15; ing_dedup_cache_size := 50000;
     ing_event_channel_capacity := 4096; ing_runtime_channel_capacity := 512 |}.

Definition FLASHBLOCKS_URL : option string := Some "wss://mainnet-preconf.base.org"%string.
Definition sample_ipc_config : IngestConfig := pipeline_config Ipc FLASHBLOCKS_URL true false.

Definition selects_ipc_endpoint_from_config : bool :=
  unwrap (selected_endpoint sample_ipc_config) (λ endpoint,
  match endpoint with IpcEndpoint file_path => file_path == "/tmp/reth.ipc"%string | _ => false end).

Definition selects_ws_endpoint_from_config : bool :=
  unwrap (selected_endpoint (pipeline_config Ws FLASHBLOCKS_URL true false)) (λ endpoint,
  match endpoint with WsEndpoint url => url == "ws://127.0.0.1:8546"%string | _ => false end).

Definition builds_streams_from_enabled_subscriptions : bool :=
  unwrap (pipeline_from_config (pipeline_config Ipc FLASHBLOCKS_URL false false)) (λ pipeline,
  stream_count pipeline == 2).

Definition includes_flashblocks_stream_when_enabled : bool :=
  unwrap (pipeline_from_config (pipeline_config Ipc FLASHBLOCKS_URL true true)) (λ pipeline,
  stream_count pipeline == 4).

Definition flashblocks_requires_url : bool :=
  unwrap_err (pipeline_from_config (pipeline_config Ipc None true true)) (λ error,
  match error with StreamFailure _ _ => true | _ => false end).

(** The tests of [pipeline.rs] pass. *)
Example pipeline_tests_pass : all_pass
  [selects_ipc_endpoint_from_config; selects_ws_endpoint_from_config;
   builds_streams_from_enabled_subscriptions; includes_flashblocks_stream_when_enabled;
   flashblocks_requires_url].
Proof. by vm_compute. Qed.

(** ** Logs and receipts *)

Definition raw_log (address : option string) (topics : list string) : RawLogMessage :=
  {| rl_address := address; rl_topics := topics; rl_data := None; rl_tx_hash := None;
     rl_block_hash := None; rl_block_number := None; rl_event_signature := None;
     rl_protocol := None; rl_exchange := None; rl_log_index := None; rl_removed := None |}.

Definition falls_back_to_first_topic_for_event_signature : bool :=
  unwrap (log_decode (raw_log None [V2_SWAP_TOPIC])) (λ decoded,
  (dlf_event_signature decoded == Some V2_SWAP_TOPIC) &&
  (dlf_protocol decoded == Some Protocol.UniswapV2)).

Definition resolves_exchange_from_log_address : bool :=
  unwrap (log_decode (raw_log (Some "0x8c1A3cF8F83074169Fe5d7Ad50B978E1cD6b37c7"%string)
    [V2_SWAP_TOPIC])) (λ decoded,
  (dlf_protocol decoded == Some Protocol.UniswapV2) &&
  (dlf_exchange decoded == Some Exchange.AlienBase)).

Definition unwrap_receipt_handles_tagged_and_flat : bool :=
  let flat := jobj [("logs"%string, jarr [])] in
  let tagged := jobj [("Eip1559"%string, flat)] in
  negb (is_none (value_get (unwrap_receipt tagged) "logs")) &&
  negb (is_none (value_get (unwrap_receipt flat) "logs")).

(** The tests of [raw/log.rs] and [flashblocks.rs] pass. *)
Example raw_tests_pass : all_pass
  [falls_back_to_first_topic_for_event_signature; resolves_exchange_from_log_address;
   unwrap_receipt_handles_tagged_and_flat].
Proof. by vm_compute. Qed.
